(* ===== verification/_CoqProject ===== *)
-Q . S2P
Prelude.v
Externs.v
CoreTypes.v
Codec.v
CodecItem.v
CodecMessage.v
Addresses.v
Events.v
SessionCommon.v
Validation.v
Grammar.v
SessionFacts.v
SessionRouter.v
SessionModem.v
Lifecycle.v
RouterInv.v
ModemInv.v
Samples.v
Sessions.v
SessionSteps.v
SessionWire.v
Handshake.v
Exchange.v
Discovery.v
DaemonTypes.v
Timers.v
Runtime.v
RuntimeInv.v
SessionTasks.v
Connections.v
Reconnect.v
DriverInv.v
DaemonApi.v
Radio.v
Bridge.v
BridgeRuns.v
Monitor.v
DiscoveryTask.v
Accept.v
Interfaces.v
DiscoverySockets.v
DiscoveryLoop.v
Config.v
RouterDaemon.v
Startup.v
RouterProcess.v
Transport.v
Processes.v
Link.v
