(* ===== verification/Prelude.v ===== *)
(** * A verification development for the DLEP implementation

    The repository implements the Dynamic Link Exchange Protocol (RFC 8175) in
    Rust: a modem tells a router over one TCP session which destinations its link
    reaches and how good the link is.  Sources are under [src/crates/]; paths below
    are relative to it.

    ** The program and its model

    - Wire format.  [dlep-core/src/codec.rs] turns messages and signals into octets
      and back, [dlep-net/src/framed.rs] frames a stream.  [CoreTypes] has the data
      types, [Codec] every encoder and decoder; [CodecItem] and [CodecMessage] hold
      the theorems.  Encoders pass their output buffer as state and may leave it
      half written, as the code does.
    - Session state machines.  [dlep-fsm] is free of I/O: [step] takes an event and
      returns actions.  [Addresses] models address sets and their changes, [Events]
      the events, actions, commands and the transaction tracker, [SessionCommon]
      builders and extractors, [Validation] the message checks, with their grammar in
      [Grammar], [SessionRouter] (Module [Router]) and [SessionModem] (Module [Modem]) the two machines with one
      definition per arm, [Discovery] the discovery machines.
    - Session task.  [dlep-daemon/src/session.rs] drives a state machine from a
      socket, a command channel, link-control jobs and timers.  [DaemonTypes],
      [Timers] and [Runtime] model it: each [select!] branch is a function on the
      task's state, what other tasks do in between is the step relation
      [Runtime.task_step].
    - Around the sessions.  [Connections] models the registries of
      [dlep-daemon/src/connections.rs]; [Reconnect] the connection driver of
      [dlep-router/src/lib.rs] and [connect.rs], whose loop reads the registry's
      snapshot; [DaemonApi] the configuration checks and the operations offered to
      applications ([config.rs], [modem.rs], [router.rs]).
    - Radio adapter.  [dlep-modem/src/radio.rs] connects an external program that knows
      the radio to the modem daemon.  [Radio] models its text protocol, [Bridge] the
      bridge with its table of destinations, retries and link requests, which calls
      the operations of [DaemonApi]; [BridgeRuns] its runs.
    - Discovery and monitoring.  [DiscoveryTask] models [dlep-daemon/src/discovery.rs],
      the task that drives a discovery machine of [Discovery] from a socket and timers,
      and [DiscoveryLoop] its loop over the socket of [DiscoverySockets] and the clock;
      [Monitor] models [dlep-net/src/tcp_monitor.rs], which resets connections whose
      packets do not arrive with the TTL GTSM requires: the filter as a classic BPF
      program, the packet parser, the registrations and the turns of the receiving task.
    - Sockets and transports.  [Interfaces] models the choice of a network interface
      ([dlep-net/src/addr.rs]), [DiscoverySockets] the set-up of discovery sockets and what
      they send and receive ([discovery.rs], [gtsm.rs], and the network section of
      [dlep-daemon/src/config.rs]), [Transport] connecting and accepting with the monitor
      ([transport.rs]).
    - Daemons and programs.  [Accept] models the modem daemon around its sessions: accept
      loop, connection tasks and shutdown ([dlep-daemon/src/modem.rs]); [RouterDaemon] the
      router daemon: connection attempts, sessions, slots and shutdown ([router.rs]).  Each
      is an explicit state with the steps its tasks make between two suspension points.
      [Config] has the configuration, the command line, the TLS settings and the checks of
      [--check-config] ([config.rs], [cli.rs], [tls.rs], [dlep-net/src/tls.rs]), [Startup]
      the builders and [run_from] of both programs up to their loops, [Processes] the rest
      of the modem's [run_from] and the life of its adapter, [RouterProcess] the rest of the
      router's: the driver of [Reconnect] with the futures of its attempts on the daemon of
      [RouterDaemon], until a signal; [DriverInv] has what the driver keeps of its peers.
      [Link] puts a started router and a started modem together, discovery tasks over
      discovery sockets, then the two daemons.

    The interface between the machines and the task is the class
    [Lifecycle.SessionFsm] (the Rust trait of the same name): a labelled transition
    system over five phases, whose labels are timers armed and cancelled, the close
    of the connection and the SessionUp / SessionDown notifications.  Everything
    about runs and about the task is proved against the class; [RouterInv] and
    [ModemInv] discharge it and [Sessions] declares the two instances.  The sessions
    behind a daemon's operations are the class [DaemonApi.SessionPool], whose instance
    [sessions_pool] is a list of state machines.

    ** What the theorems show

    - Codec: encoding then decoding is the identity up to wire units and host bits
      of subnets, accepted octets re-encode to themselves, no octets make a decoder
      panic, and framing does not depend on how the stream is cut.
    - Grammar: the validation loop, with its tables, accepts exactly what the productions
      of RFC 8175 make and answers every violation with its code.
    - Sessions: no [expect], index or [unreachable!] of [step] fails; exactly the
      timers of the phase are armed; notifications come once and in order; a session
      whose peer is silent ends; messages are answered as the protocol requires;
      requests are serialised per scope; a rejected command changes nothing; no
      address is held by two destinations; held-back updates are not lost; what a router
      sends can be encoded, its first message up to a length that is stated.
    - Two parties: handshake and destination report composed over the encoded octets, of
      messages that fit; discovery from two configurations to the address that is dialled
      and, as a possible run, to a session task at both ends.
    - Tasks: stale timer expiries never reach the machine, SessionDown is broadcast
      exactly once however the task ends and no sleeper is left, extensions cannot
      touch what the core handles beyond the listed types.
    - Registries and driver: the snapshot counts the live trackers, memory is
      bounded, the driver agrees with each snapshot it reads, retries are fair and bounded
      in time.
    - Operations: what passes the daemon's checks is refused by a session only for
      its state; validated timers take effect.
    - Radio: the reader loses no line; every report changes the bridge's table and
      the sessions alike; a session that comes up is shown every entry of the table it can
      express; nothing in the bridge panics and no link request is answered twice.  One
      theorem shows a defect: a retried session update overtakes newer reports.

    - Discovery and monitoring: a router's task sends one probe at the start and one
      per expiry, announces only endpoints that can be dialled and leaves no sleeper
      behind; over both sockets it announces the modem's listener.  A modem's task answers
      every probe within 100 milliseconds of a socket failure, whatever else arrives.  Every TCP
      packet with a wrong TTL resets its connection, and only such packets do; a late
      drop of an old registration does not end the watch over its successor.
    - Sockets: the interface chosen is the one a specification by address ranges, flags and
      order names, whatever the order of the system's list; every datagram has exactly the
      fate its length and control messages give it, so that a socket returns only whole
      signals of its interface with TTL 255; a violation or the monitor's failure resets an accepted connection from
      accept to drop.
    - Daemons: at most 64 connections, respectively [max_sessions] sessions, with permits,
      registrations and connection states exact at every point; TLS exactly as configured;
      no session is passed over by a shutdown that races with new connections.
    - Programs: [--check-config] agrees with the start; the modem's exit leaves no task and
      no adapter, which was written a prefix of its lines, and the process exits once it
      was told to, waiting for no peer and at most two seconds for the adapter.  The router
      process has at most one session per modem and never dials one it has a session with
      or is dialling; it forgets no configured modem and none it has a history of; once told
      to stop it exits with nothing left.

    ** Conventions

    - A function that can fail or panic returns [outcome E A] ([Ok], [Err],
      [Panic]); stateful code is [stm S E A], state passing with the state kept on
      an error.  [panics A] has no error value.
    - Integers are [Z]; [is_u8], [is_u16], [is_u32], [is_u64] and the [is_*]
      predicates of [CoreTypes] state what the Rust types guarantee.  Durations and
      instants are nanoseconds in [Z] with the bounds of [Duration], milliseconds in
      [Processes].  Saturating and
      wrapping operations are written out; a checked addition or subtraction is a
      [Panic] when it overflows.
    - Hash maps and sets are [gmap] and [gset]; where the code's result depends on
      iteration order, the model fixes one order and the theorems do not mention it
      or hold for every order.
    - The two decoding loops ([Codec.decode_ids], [Codec.decode_items]) and the
      receive loop [CodecMessage.recv_all] have fuel: the length of the octets left,
      which every iteration shortens, and running out is a [Panic], so the theorems
      that exclude panics show that it suffices.  [Monitor.skip_extensions] likewise has
      one more than the length of the packet, since an extension header has eight octets
      or more; [Radio.read_lines_loop] one more than the octets left, since every line
      takes one.  [Monitor.bpf] has the length of the program, whose jumps go forward.
      All other recursion is structural.  What a socket or a peer will answer is a list
      or an action of the environment, never a bound.
    - The generation of a timer set is 64 bits wide and wraps, the establishment
      counter of a registry is 64 bits wide and checked; the theorems about runs
      state as a hypothesis that fewer than 2^64 timers are armed, or connections
      established, by the run.

    ** Parameters

    - [Externs.Crates]: the crates [bytes] and [ipnet], by the documented laws the
      code relies on; [reference_crates] is an instance.
    - [DaemonTypes.Host]: the socket a session writes to and the hooks of extensions,
      acting on an opaque world; link-control backends answer arbitrarily.
    - [Radio.Serde] and [Radio.SubnetText]: serde's JSON deserializer and [ipnet]'s
      parser; [Bridge.BridgeWorld]: sessions, clock and waiting tasks of the bridge.
    - [Interfaces.System], [DiscoverySockets.Sockets], [Transport.Dial],
      [Startup.BootHost]: the answers of the operating system to interface lookups, socket
      calls, a connection attempt and a start.  [Config.ConfigFiles] and [Config.Material]:
      files, the TOML and PEM readers and what rustls accepts.  They are arbitrary; the one
      law asked of them, in [Startup.check_faithful], is that a program that can be started
      is a file.  [RouterProcess] has a function for [getpeername]; its theorems ask that a
      connection reports the address that was dialled.

    ** Not modelled

    The system calls themselves, the TLS protocol of rustls and the parsers of serde and
    clap are third-party code.  Signal handlers ([dlep-daemon/src/shutdown.rs]) are two
    registrations with the operating system; a signal is an action of [Processes]
    and [RouterProcess].  A
    daemon that is dropped without [shutdown] is not modelled, nor are targets other than
    Linux.  A message to a full command channel waits in the code; in [Accept] and
    [RouterDaemon] it is sent when it is sent.  Logging and Display text, MAC addresses
    apart, have no counterpart. *)

From stdpp Require Export base gmap list strings numbers sets.
#[export] Set Default Goal Selector "!".
#[global] Open Scope Z_scope.

(** * Results, panics and mutable state

    A Rust function returns a value ([Ok]), returns an [Err], or panics
    (an out-of-range index, [expect] on [None], [unreachable!]).  [Panic] is
    kept apart from [Err] so that panic freedom is a statement. *)

Inductive outcome (E A : Type) : Type :=
| Ok (a : A)
| Err (e : E)
| Panic.
Arguments Ok {E A} a.
Arguments Err {E A} e.
Arguments Panic {E A}.

#[global] Instance outcome_ret (E : Type) : MRet (outcome E) := fun A a => Ok a.

(** The [?] operator. *)
#[global] Instance outcome_bind (E : Type) : MBind (outcome E) :=
  fun A B f m => match m with Ok a => f a | Err e => Err e | Panic => Panic end.

(** [Result::map_err]. *)
Definition map_err {E F A} (f : E -> F) (m : outcome E A) : outcome F A :=
  match m with Ok a => Ok a | Err e => Err (f e) | Panic => Panic end.

(** [Result::is_ok] of a computation that did not panic. *)
Definition is_ok {E A} (m : outcome E A) : bool :=
  match m with Ok _ => true | _ => false end.

(** [Option::expect] and [Result::expect]: anything but a value panics. *)
Definition expect {E A} (o : option A) : outcome E A :=
  match o with Some a => Ok a | None => Panic end.

Definition expect_ok {E F A} (m : outcome E A) : outcome F A :=
  match m with Ok a => Ok a | _ => Panic end.

(** Computations that can only panic: no error value is ever returned. *)
Abbreviation panics A := (outcome Empty_set A).

(** A bind that returns a value. *)
Lemma bind_Ok {E A B} (x : outcome E A) (f : A -> outcome E B) b :
  x ≫= f = Ok b -> exists a, x = Ok a /\ f a = Ok b.
Proof. destruct x; cbn; [|done|done]. by eexists. Qed.

(** Code that takes a [&mut S] and returns a [Result]: the state at the return
    survives an [Err]. *)
Definition stm (S E A : Type) : Type := S -> outcome E A * S.

Definition st_ret {S E A} (a : A) : stm S E A := fun s => (Ok a, s).
Definition st_err {S E A} (e : E) : stm S E A := fun s => (Err e, s).
Definition st_lift {S E A} (m : outcome E A) : stm S E A := fun s => (m, s).
Definition st_modify {S E} (f : S -> S) : stm S E unit := fun s => (Ok tt, f s).
Definition st_bind {S E A B} (m : stm S E A) (k : A -> stm S E B) : stm S E B :=
  fun s =>
    match m s with
    | (Ok a, s') => k a s'
    | (Err e, s') => (Err e, s')
    | (Panic, s') => (Panic, s')
    end.

Declare Scope stm_scope.
Delimit Scope stm_scope with stm.
Notation "x <~ m ;; k" := (st_bind m (fun x => k))
  (at level 60, m at next level, right associativity) : stm_scope.
Notation "m ;;; k" := (st_bind m (fun _ => k))
  (at level 60, right associativity) : stm_scope.

(** * Machine integers *)

Definition u8_max : Z := 255.
Definition u16_max : Z := 65535.
Definition u32_max : Z := 4294967295.
Definition u64_max : Z := 18446744073709551615.
(** [usize] of the 64-bit targets the daemons run on. *)
Definition usize_max : Z := u64_max.

Definition is_u8 (v : Z) : Prop := 0 <= v <= u8_max.
Definition is_u16 (v : Z) : Prop := 0 <= v <= u16_max.
Definition is_u32 (v : Z) : Prop := 0 <= v <= u32_max.
Definition is_u64 (v : Z) : Prop := 0 <= v <= u64_max.

(** Octet strings: [Vec<u8>], [&[u8]], [Bytes] and [BytesMut] contents. *)
Abbreviation bytes := (list Z).
Definition is_bytes (l : bytes) : Prop := Forall is_u8 l.

(** [len()] of a collection, a [usize]. *)
Definition len {A} (l : list A) : Z := Z.of_nat (length l).

(** [usize::saturating_add] and [usize::saturating_mul]. *)
Definition saturating_add (a b : Z) : Z := Z.min (a + b) usize_max.
Definition saturating_mul (a b : Z) : Z := Z.min (a * b) usize_max.

(** [uN::to_be_bytes]: the [n] octets of [v], most significant first. *)
Fixpoint to_be_bytes (n : nat) (v : Z) : bytes :=
  match n with
  | O => []
  | S k => (Z.shiftr v (8 * Z.of_nat k)) `mod` 256 :: to_be_bytes k v
  end.

(** [uN::from_be_bytes]. *)
Definition from_be_bytes (l : bytes) : Z :=
  foldl (fun acc b => 256 * acc + b) 0 l.

(** [v[i]]: an out-of-range index panics. *)
Definition index {E A} (v : list A) (i : nat) : outcome E A := expect (v !! i).

(** [&v[a..b]] and [&v[a..]]: an out-of-range range panics. *)
Definition slice {E A} (v : list A) (a b : nat) : outcome E (list A) :=
  if (a <=? b)%nat && (b <=? length v)%nat then Ok (take (b - a)%nat (drop a v)) else Panic.
Definition slice_from {E A} (v : list A) (a : nat) : outcome E (list A) :=
  if (a <=? length v)%nat then Ok (drop a v) else Panic.

(** * [std::time::Duration]

    A duration is a whole number of nanoseconds; seconds are a [u64]. *)

Abbreviation Duration := Z.
Definition Duration_MAX : Z := u64_max * 10 ^ 9 + (10 ^ 9 - 1).
Definition is_duration (d : Duration) : Prop := 0 <= d <= Duration_MAX.
Definition from_millis (ms : Z) : Duration := ms * 10 ^ 6.
Definition from_micros (us : Z) : Duration := us * 10 ^ 3.
Definition as_millis (d : Duration) : Z := d / 10 ^ 6.
Definition as_micros (d : Duration) : Z := d / 10 ^ 3.
Definition duration_saturating_mul (d : Duration) (k : Z) : Duration :=
  Z.min (d * k) Duration_MAX.
Definition duration_checked_mul (d : Duration) (k : Z) : option Duration :=
  if d * k <=? Duration_MAX then Some (d * k) else None.

(** * Sequences *)

(** [Option] spliced into a [Vec] ([extend], [into_iter().collect()], or a
    conditional [push]). *)
Definition opt_list {A} (o : option A) : list A :=
  match o with Some a => [a] | None => [] end.

(** [slice.contains(&x)]. *)
Definition contains {A} `{EqDecision A} (l : list A) (x : A) : bool :=
  bool_decide (x ∈ l).

(** [iter().find_map(f)]. *)
Fixpoint find_map {A B} (f : A -> option B) (l : list A) : option B :=
  match l with
  | [] => None
  | x :: l' => match f x with Some b => Some b | None => find_map f l' end
  end.

(** [iter().any(f)] and [iter().all(f)] are [existsb] and [forallb]; [Vec::retain] is [List.filter]. *)
Abbreviation any := existsb.
Abbreviation all := forallb.
Definition retain {A} (f : A -> bool) (l : list A) : list A := List.filter f l.

(** * Automation *)

Create HintDb dlep discriminated.
Create Rewrite HintDb wire.

(** Turns boolean tests in hypotheses and goal into propositions. *)
Ltac bprop :=
  repeat match goal with
  | H : _ && _ = true |- _ => apply andb_true_iff in H as [? ?]
  | H : _ || _ = false |- _ => apply orb_false_iff in H as [? ?]
  | H : negb _ = true |- _ => apply negb_true_iff in H
  | H : negb _ = false |- _ => apply negb_false_iff in H
  | H : (_ =? _) = true |- _ => apply Z.eqb_eq in H
  | H : (_ =? _) = false |- _ => apply Z.eqb_neq in H
  | H : (_ <=? _) = true |- _ => apply Z.leb_le in H
  | H : (_ <=? _) = false |- _ => apply Z.leb_gt in H
  | H : (_ <? _) = true |- _ => apply Z.ltb_lt in H
  | H : (_ <? _) = false |- _ => apply Z.ltb_ge in H
  | H : bool_decide _ = true |- _ => apply bool_decide_eq_true in H
  | H : bool_decide _ = false |- _ => apply bool_decide_eq_false in H
  end.

(** Splits on the scrutinee of the first [match] or [if] in a hypothesis. *)
Ltac case_in H :=
  match type of H with
  | context [match ?x with _ => _ end] =>
      let E := fresh "E" in destruct x eqn:E; try discriminate H
  end.

(** Splits every [match] and [if] of every hypothesis, and reads the tests. *)
Ltac case_hyps :=
  repeat (bprop; match goal with
  | H : context [match ?x with _ => _ end] |- _ =>
      let E := fresh "E" in destruct x eqn:E; try discriminate H
  end); bprop.

(** * Lemmas on octets and big-endian integers *)

Lemma length_to_be_bytes n v : length (to_be_bytes n v) = n.
Proof. induction n; simpl; auto. Qed.

Lemma to_be_bytes_is_bytes n v : is_bytes (to_be_bytes n v).
Proof.
  induction n; simpl; constructor; auto.
  pose proof (Z.mod_pos_bound (Z.shiftr v (8 * Z.of_nat n)) 256 eq_refl).
  unfold is_u8, u8_max. lia.
Qed.
#[export] Hint Resolve to_be_bytes_is_bytes : dlep.

Lemma foldl_be_acc l acc :
  foldl (fun a b => 256 * a + b) acc l
  = acc * 256 ^ Z.of_nat (length l) + foldl (fun a b => 256 * a + b) 0 l.
Proof.
  revert acc. induction l as [|b l IH]; intros acc; cbn [foldl length].
  - change (Z.of_nat 0) with 0. rewrite Z.pow_0_r. lia.
  - rewrite IH, (IH (256 * 0 + b)), Nat2Z.inj_succ, Z.pow_succ_r by lia. ring.
Qed.

Lemma from_be_bytes_cons b l :
  from_be_bytes (b :: l) = b * 256 ^ len l + from_be_bytes l.
Proof. unfold from_be_bytes, len. cbn [foldl]. rewrite foldl_be_acc. ring. Qed.

Lemma from_be_bytes_nil : from_be_bytes [] = 0.
Proof. reflexivity. Qed.

Lemma from_be_bytes_bound l : is_bytes l -> 0 <= from_be_bytes l < 256 ^ len l.
Proof.
  induction 1 as [|b l Hb Hl IH].
  - rewrite from_be_bytes_nil. change (256 ^ len (@nil Z)) with 1. lia.
  - rewrite from_be_bytes_cons. unfold len in *. cbn [length].
    rewrite Nat2Z.inj_succ, Z.pow_succ_r by lia.
    unfold is_u8, u8_max in Hb.
    generalize dependent (256 ^ Z.of_nat (length l)). intros p Hp. nia.
Qed.

Lemma from_to_be_bytes n v :
  0 <= v < 256 ^ Z.of_nat n -> from_be_bytes (to_be_bytes n v) = v.
Proof.
  assert (G : forall w, 0 <= w ->
    from_be_bytes (to_be_bytes n w) = w `mod` 256 ^ Z.of_nat n).
  { intros w Hw. induction n as [|n IH].
    - cbn. by rewrite Z.mod_1_r.
    - cbn [to_be_bytes]. rewrite from_be_bytes_cons, IH. unfold len.
      rewrite length_to_be_bytes, Nat2Z.inj_succ, Z.pow_succ_r by lia.
      rewrite Z.shiftr_div_pow2 by lia.
      replace (2 ^ (8 * Z.of_nat n)) with (256 ^ Z.of_nat n)
        by (rewrite Z.pow_mul_r by lia; reflexivity).
      rewrite (Z.mul_comm 256), Z.rem_mul_r by lia. ring. }
  intros Hv. rewrite G by lia. apply Z.mod_small. lia.
Qed.

Lemma to_be_bytes_shift n k b r :
  (k <= n)%nat -> 0 <= r < 256 ^ Z.of_nat n ->
  to_be_bytes k (b * 256 ^ Z.of_nat n + r) = to_be_bytes k r.
Proof.
  induction k as [|k IH]; intros Hk Hr; [done|]. cbn [to_be_bytes].
  rewrite IH by lia. f_equal. rewrite !Z.shiftr_div_pow2 by lia.
  replace (2 ^ (8 * Z.of_nat k)) with (256 ^ Z.of_nat k)
    by (rewrite Z.pow_mul_r by lia; reflexivity).
  replace (Z.of_nat n) with (1 + (Z.of_nat n - 1 - Z.of_nat k) + Z.of_nat k) by lia.
  rewrite Z.pow_add_r, Z.mul_assoc, Z.div_add_l by lia.
  rewrite Z.pow_add_r by lia. change (256 ^ 1) with 256.
  rewrite (Z.mul_comm 256), Z.mul_assoc, Z.add_comm, Z_mod_plus_full. done.
Qed.

Lemma to_from_be_bytes l n :
  is_bytes l -> n = length l -> to_be_bytes n (from_be_bytes l) = l.
Proof.
  intros Hl ->. induction Hl as [|b l Hb Hl IH]; [done|].
  pose proof (from_be_bytes_bound l Hl) as Hr. unfold len in Hr.
  rewrite from_be_bytes_cons. cbn [length to_be_bytes]. f_equal.
  - rewrite Z.shiftr_div_pow2 by lia.
    replace (2 ^ (8 * Z.of_nat (length l))) with (256 ^ Z.of_nat (length l))
      by (rewrite Z.pow_mul_r by lia; reflexivity).
    unfold len. rewrite Z.div_add_l, Z.div_small, Z.add_0_r by lia.
    apply Z.mod_small. unfold is_u8, u8_max in Hb. lia.
  - unfold len. rewrite to_be_bytes_shift by (lia || done). done.
Qed.

(** * Lemmas on lists *)

Lemma len_app {A} (l k : list A) : len (l ++ k) = len l + len k.
Proof. unfold len. rewrite length_app. lia. Qed.

Lemma len_cons {A} (x : A) l : len (x :: l) = 1 + len l.
Proof. unfold len. simpl. lia. Qed.

Lemma len_nil {A} : len (@nil A) = 0.
Proof. reflexivity. Qed.

Lemma len_nonneg {A} (l : list A) : 0 <= len l.
Proof. unfold len. lia. Qed.

Lemma contains_spec {A} `{EqDecision A} (l : list A) x : contains l x = true <-> x ∈ l.
Proof. apply bool_decide_eq_true. Qed.

Lemma contains_false {A} `{EqDecision A} (l : list A) x : contains l x = false <-> x ∉ l.
Proof. apply bool_decide_eq_false. Qed.

Lemma elem_of_retain {A} (f : A -> bool) l x : x ∈ retain f l <-> f x = true /\ x ∈ l.
Proof.
  unfold retain. rewrite !list_elem_of_In, filter_In. tauto.
Qed.

Lemma NoDup_retain {A} (f : A -> bool) l : NoDup l -> NoDup (retain f l).
Proof. rewrite !NoDup_ListNoDup. apply List.NoDup_filter. Qed.

Lemma retain_all {A} (f : A -> bool) l : (forall x, x ∈ l -> f x = true) -> retain f l = l.
Proof.
  induction l as [|y l IH]; intros H; [done|]. cbn. rewrite (H y) by left.
  f_equal. apply IH. intros x Hx. apply H. by right.
Qed.

Lemma forallb_elem {A} (f : A -> bool) l : forallb f l = true <-> forall x, x ∈ l -> f x = true.
Proof. rewrite forallb_forall. by setoid_rewrite list_elem_of_In. Qed.

Lemma existsb_elem {A} (f : A -> bool) l : existsb f l = true <-> exists x, x ∈ l /\ f x = true.
Proof. rewrite existsb_exists. by setoid_rewrite list_elem_of_In. Qed.

Lemma existsb_elem_false {A} (f : A -> bool) l :
  existsb f l = false <-> forall x, x ∈ l -> f x = false.
Proof.
  rewrite <-not_true_iff_false, existsb_elem. split.
  - intros H x Hx. destruct (f x) eqn:E; [|done]. destruct H; eauto.
  - intros H (x & Hx & E). by rewrite H in E.
Qed.

Lemma find_map_Some {A B} (f : A -> option B) l b :
  find_map f l = Some b -> exists x, x ∈ l /\ f x = Some b.
Proof.
  induction l as [|x l IH]; [done|]. cbn. destruct (f x) eqn:E; intros H.
  - exists x. split; [left|congruence].
  - destruct (IH H) as (y & Hy & Hf). exists y. split; [by right|done].
Qed.

Lemma find_map_is_Some {A B} (f : A -> option B) l x :
  x ∈ l -> is_Some (f x) -> is_Some (find_map f l).
Proof.
  induction l as [|y l IH]; intros Hx Hf; [by apply not_elem_of_nil in Hx|].
  cbn. destruct (f y) eqn:E; [eauto|].
  apply elem_of_cons in Hx as [->|Hx]; [rewrite E in Hf; by destruct Hf|auto].
Qed.

Lemma find_map_None {A B} (f : A -> option B) l :
  (forall x, x ∈ l -> f x = None) -> find_map f l = None.
Proof.
  induction l as [|y l IH]; intros H; [done|]. cbn. rewrite (H y) by left.
  apply IH. intros x Hx. apply H. by right.
Qed.

Arguments to_be_bytes : simpl never.
Arguments from_be_bytes : simpl never.
Arguments Z.mul : simpl never.
Arguments Z.pow : simpl never.
Arguments len : simpl never.
