(* ===== verification/Externs.v ===== *)
(** * Third-party crates

    The code calls two crates that are not part of the repository: [bytes]
    (the buffers the codec reads and writes) and [ipnet] (address prefixes).
    Both are parameters of the model: a class of operations with the documented
    behaviour the code relies on as its laws.  [reference_crates] is one
    instance, used to evaluate the model on concrete inputs. *)

From S2P Require Import Prelude.

(** [ipnet::Ipv4Net] / [ipnet::Ipv6Net]: an address ([addr()], as its
    numeric value) with a prefix length ([prefix_len()]). *)
Record IpNet : Type := mkNet { net_addr : Z; prefix_len : Z }.

#[global] Instance IpNet_eq_dec : EqDecision IpNet.
Proof. solve_decision. Defined.

(** The part of [bytes::Buf] / [bytes::BufMut] the codec uses.  A read past
    the end of a buffer panics, here [None]. *)
Class BytesCrate : Type := {
  put_u8 : bytes -> Z -> bytes;
  put_u16 : bytes -> Z -> bytes;
  put_u32 : bytes -> Z -> bytes;
  put_u64 : bytes -> Z -> bytes;
  put_slice : bytes -> bytes -> bytes;
  buf_truncate : bytes -> nat -> bytes;
  get_u16 : bytes -> option (Z * bytes);
  split_to : bytes -> nat -> option (bytes * bytes);
  copy_to_slice : bytes -> nat -> option (bytes * bytes);
  (** big-endian appends *)
  put_u8_spec : forall b v, put_u8 b v = b ++ [v];
  put_u16_spec : forall b v, put_u16 b v = b ++ to_be_bytes 2 v;
  put_u32_spec : forall b v, put_u32 b v = b ++ to_be_bytes 4 v;
  put_u64_spec : forall b v, put_u64 b v = b ++ to_be_bytes 8 v;
  put_slice_spec : forall b s, put_slice b s = b ++ s;
  (** keeps the first octets, no effect on a shorter buffer *)
  buf_truncate_spec : forall b n, buf_truncate b n = take n b;
  (** big-endian read that advances the cursor *)
  get_u16_spec : forall x y b, get_u16 (x :: y :: b) = Some (from_be_bytes [x; y], b);
  get_u16_short : forall b, (length b < 2)%nat -> get_u16 b = None;
  (** splits off the first octets *)
  split_to_spec : forall b n, (n <= length b)%nat -> split_to b n = Some (take n b, drop n b);
  split_to_short : forall b n, (length b < n)%nat -> split_to b n = None;
  (** copies the first octets out and advances the cursor *)
  copy_to_slice_spec : forall b n, (n <= length b)%nat -> copy_to_slice b n = Some (take n b, drop n b);
  copy_to_slice_short : forall b n, (length b < n)%nat -> copy_to_slice b n = None;
}.

(** The part of [ipnet] the code uses: [new] rejects a prefix longer than the
    address, [network] zeroes the host bits, [trunc] is the same prefix of
    the network address. *)
Class IpnetCrate : Type := {
  Ipv4Net_new : Z -> Z -> option IpNet;
  Ipv6Net_new : Z -> Z -> option IpNet;
  v4_network : IpNet -> Z;
  v6_network : IpNet -> Z;
  v4_trunc : IpNet -> IpNet;
  v6_trunc : IpNet -> IpNet;
  Ipv4Net_new_spec : forall a p, Ipv4Net_new a p = if p <=? 32 then Some (mkNet a p) else None;
  Ipv6Net_new_spec : forall a p, Ipv6Net_new a p = if p <=? 128 then Some (mkNet a p) else None;
  v4_network_spec : forall n, v4_network n = Z.ldiff (net_addr n) (Z.ones (32 - prefix_len n));
  v6_network_spec : forall n, v6_network n = Z.ldiff (net_addr n) (Z.ones (128 - prefix_len n));
  v4_trunc_spec : forall n, v4_trunc n = mkNet (v4_network n) (prefix_len n);
  v6_trunc_spec : forall n, v6_trunc n = mkNet (v6_network n) (prefix_len n);
}.

Class Crates : Type := {
  crates_bytes :: BytesCrate;
  crates_ipnet :: IpnetCrate;
}.

(** * An instance *)

Definition ref_network (bits : Z) (n : IpNet) : Z :=
  Z.ldiff (net_addr n) (Z.ones (bits - prefix_len n)).

Program Definition reference_bytes : BytesCrate := {|
  put_u8 b v := b ++ [v];
  put_u16 b v := b ++ to_be_bytes 2 v;
  put_u32 b v := b ++ to_be_bytes 4 v;
  put_u64 b v := b ++ to_be_bytes 8 v;
  put_slice b s := b ++ s;
  buf_truncate b n := take n b;
  get_u16 b := match b with x :: y :: b' => Some (from_be_bytes [x; y], b') | _ => None end;
  split_to b n := if (n <=? length b)%nat then Some (take n b, drop n b) else None;
  copy_to_slice b n := if (n <=? length b)%nat then Some (take n b, drop n b) else None;
|}.
Solve All Obligations with (try done).
Next Obligation. intros [|x [|y b]] H; cbn in *; done || lia. Qed.
Next Obligation. intros b n H. cbn. by rewrite (proj2 (Nat.leb_le _ _) H). Qed.
Next Obligation. intros b n H. cbn. by rewrite (proj2 (Nat.leb_gt _ _) H). Qed.
Next Obligation. intros b n H. cbn. by rewrite (proj2 (Nat.leb_le _ _) H). Qed.
Next Obligation. intros b n H. cbn. by rewrite (proj2 (Nat.leb_gt _ _) H). Qed.

Program Definition reference_ipnet : IpnetCrate := {|
  Ipv4Net_new a p := if p <=? 32 then Some (mkNet a p) else None;
  Ipv6Net_new a p := if p <=? 128 then Some (mkNet a p) else None;
  v4_network := ref_network 32;
  v6_network := ref_network 128;
  v4_trunc n := mkNet (ref_network 32 n) (prefix_len n);
  v6_trunc n := mkNet (ref_network 128 n) (prefix_len n);
|}.
Solve All Obligations with (try done).

Definition reference_crates : Crates :=
  {| crates_bytes := reference_bytes; crates_ipnet := reference_ipnet |}.

(** * Consequences of the laws *)

#[export] Hint Rewrite @put_u8_spec @put_u16_spec @put_u32_spec @put_u64_spec
  @put_slice_spec @buf_truncate_spec : wire.

(** Zeroing the low bits of an address keeps it in range. *)
Lemma ldiff_ones_range a n bits :
  0 <= n -> 0 <= a < 2 ^ bits -> 0 <= Z.ldiff a (Z.ones n) < 2 ^ bits.
Proof.
  intros Hn [H0 H1]. split; [apply Z.ldiff_nonneg; lia|].
  rewrite Z.ldiff_ones_r, Z.shiftl_mul_pow2, Z.shiftr_div_pow2 by lia.
  pose proof (Z.mul_div_le a (2 ^ n)). pose proof (Z.pow_pos_nonneg 2 n). lia.
Qed.

Section Trunc.
Context `{Crates}.

Lemma v4_trunc_idemp n : v4_trunc (v4_trunc n) = v4_trunc n.
Proof.
  rewrite !v4_trunc_spec, !v4_network_spec. cbn. f_equal.
  by rewrite Z.ldiff_ldiff_l, Z.lor_diag.
Qed.

Lemma v6_trunc_idemp n : v6_trunc (v6_trunc n) = v6_trunc n.
Proof.
  rewrite !v6_trunc_spec, !v6_network_spec. cbn. f_equal.
  by rewrite Z.ldiff_ldiff_l, Z.lor_diag.
Qed.

Lemma v4_network_trunc n : v4_network (v4_trunc n) = v4_network n.
Proof.
  rewrite v4_trunc_spec, !v4_network_spec. cbn. by rewrite Z.ldiff_ldiff_l, Z.lor_diag.
Qed.

Lemma v6_network_trunc n : v6_network (v6_trunc n) = v6_network n.
Proof.
  rewrite v6_trunc_spec, !v6_network_spec. cbn. by rewrite Z.ldiff_ldiff_l, Z.lor_diag.
Qed.

Lemma v4_network_range n :
  0 <= net_addr n < 2 ^ 32 -> prefix_len n <= 32 -> 0 <= v4_network n < 2 ^ 32.
Proof.
  intros. rewrite v4_network_spec. apply ldiff_ones_range; [lia|done].
Qed.

Lemma v6_network_range n :
  0 <= net_addr n < 2 ^ 128 -> prefix_len n <= 128 -> 0 <= v6_network n < 2 ^ 128.
Proof.
  intros. rewrite v6_network_spec. apply ldiff_ones_range; [lia|done].
Qed.

End Trunc.
