(* ===== verification/CoreTypes.v ===== *)
(** * Wire types of [dlep-core]

    Identifiers, status codes, MAC addresses, link metrics, data items, messages
    and signals ([crates/dlep-core/src/{ids,status,mac,metrics,data_item,message,
    signal,error,lib}.rs]).  Newtypes over an integer are the integer; [is_*]
    predicates state what the Rust types guarantee by construction. *)

From S2P Require Import Prelude Externs.

(** ** Identifiers ([ids.rs]) *)

Abbreviation SignalType := Z.
Abbreviation MessageType := Z.
Abbreviation DataItemType := Z.
Abbreviation ExtensionId := Z.

Module SignalType.
Definition PEER_DISCOVERY : SignalType := 1.
Definition PEER_OFFER : SignalType := 2.
End SignalType.

Module MessageType.
Definition SESSION_INITIALIZATION : MessageType := 1.
Definition SESSION_INITIALIZATION_RESPONSE : MessageType := 2.
Definition SESSION_UPDATE : MessageType := 3.
Definition SESSION_UPDATE_RESPONSE : MessageType := 4.
Definition SESSION_TERMINATION : MessageType := 5.
Definition SESSION_TERMINATION_RESPONSE : MessageType := 6.
Definition DESTINATION_UP : MessageType := 7.
Definition DESTINATION_UP_RESPONSE : MessageType := 8.
Definition DESTINATION_ANNOUNCE : MessageType := 9.
Definition DESTINATION_ANNOUNCE_RESPONSE : MessageType := 10.
Definition DESTINATION_DOWN : MessageType := 11.
Definition DESTINATION_DOWN_RESPONSE : MessageType := 12.
Definition DESTINATION_UPDATE : MessageType := 13.
Definition LINK_CHARACTERISTICS_REQUEST : MessageType := 14.
Definition LINK_CHARACTERISTICS_RESPONSE : MessageType := 15.
Definition HEARTBEAT : MessageType := 16.
End MessageType.

Module DataItemType.
Definition STATUS : DataItemType := 1.
Definition IPV4_CONNECTION_POINT : DataItemType := 2.
Definition IPV6_CONNECTION_POINT : DataItemType := 3.
Definition PEER_TYPE : DataItemType := 4.
Definition HEARTBEAT_INTERVAL : DataItemType := 5.
Definition EXTENSIONS_SUPPORTED : DataItemType := 6.
Definition MAC_ADDRESS : DataItemType := 7.
Definition IPV4_ADDRESS : DataItemType := 8.
Definition IPV6_ADDRESS : DataItemType := 9.
Definition IPV4_ATTACHED_SUBNET : DataItemType := 10.
Definition IPV6_ATTACHED_SUBNET : DataItemType := 11.
Definition MAXIMUM_DATA_RATE_RECEIVE : DataItemType := 12.
Definition MAXIMUM_DATA_RATE_TRANSMIT : DataItemType := 13.
Definition CURRENT_DATA_RATE_RECEIVE : DataItemType := 14.
Definition CURRENT_DATA_RATE_TRANSMIT : DataItemType := 15.
Definition LATENCY : DataItemType := 16.
Definition RESOURCES : DataItemType := 17.
Definition RELATIVE_LINK_QUALITY_RECEIVE : DataItemType := 18.
Definition RELATIVE_LINK_QUALITY_TRANSMIT : DataItemType := 19.
Definition MTU : DataItemType := 20.
End DataItemType.

(** ** Status codes ([status.rs]) *)

Abbreviation StatusCode := Z.

Module StatusCode.
Definition SUCCESS : StatusCode := 0.
Definition NOT_INTERESTED : StatusCode := 1.
Definition REQUEST_DENIED : StatusCode := 2.
Definition INCONSISTENT_DATA : StatusCode := 3.
Definition UNKNOWN_MESSAGE : StatusCode := 128.
Definition UNEXPECTED_MESSAGE : StatusCode := 129.
Definition INVALID_DATA : StatusCode := 130.
Definition INVALID_DESTINATION : StatusCode := 131.
Definition TIMED_OUT : StatusCode := 132.
Definition SHUTTING_DOWN : StatusCode := 255.
Definition terminates_session (self : StatusCode) : bool := 128 <=? self.
End StatusCode.

(** ** Constants ([lib.rs]) *)

(** A Rust string is its UTF-8 octets; [str] is a string literal. *)
Abbreviation rstring := (list Z).
Fixpoint str (s : string) : rstring :=
  match s with
  | EmptyString => []
  | String c s' => Z.of_nat (Ascii.nat_of_ascii c) :: str s'
  end.

Definition SIGNAL_PREFIX : bytes := str "DLEP".
Definition DEFAULT_PORT : Z := 854.
Definition MIN_HEARTBEAT_INTERVAL_MS : Z := 1000.

(** ** MAC addresses ([mac.rs]) *)

Inductive MacAddress : Type :=
| Eui48 (octets : bytes)
| Eui64 (octets : bytes).

#[global] Instance MacAddress_eq_dec : EqDecision MacAddress.
Proof. solve_decision. Defined.

#[global] Instance MacAddress_countable : Countable MacAddress.
Proof.
  refine (inj_countable'
    (fun m => match m with Eui48 o => inl o | Eui64 o => inr o end)
    (fun s : bytes + bytes => match s with inl o => Eui48 o | inr o => Eui64 o end) _).
  by intros [].
Defined.

(** [[u8; 6]] and [[u8; 8]]. *)
Definition is_mac (m : MacAddress) : Prop :=
  match m with
  | Eui48 o => is_bytes o /\ length o = 6%nat
  | Eui64 o => is_bytes o /\ length o = 8%nat
  end.

Inductive MacAddressFormat : Type := FormatEui48 | FormatEui64.

#[global] Instance MacAddressFormat_eq_dec : EqDecision MacAddressFormat.
Proof. solve_decision. Defined.

(** [MacAddressFormat::accepts]. *)
Definition accepts (self : MacAddressFormat) (mac : MacAddress) : bool :=
  match self, mac with
  | FormatEui48, Eui48 _ => true
  | FormatEui64, Eui64 _ => true
  | _, _ => false
  end.

Definition mac_as_bytes (self : MacAddress) : bytes :=
  match self with Eui48 o => o | Eui64 o => o end.

Definition mac_len (self : MacAddress) : Z :=
  match self with Eui48 _ => 6 | Eui64 _ => 8 end.

(** ** Link metrics ([metrics.rs]) *)

Record LinkMetrics : Type := mkLinkMetrics {
  max_data_rate_rx_bps : Z;
  max_data_rate_tx_bps : Z;
  current_data_rate_rx_bps : Z;
  current_data_rate_tx_bps : Z;
  latency : Duration;
  resources : option Z;
  rlq_rx : option Z;
  rlq_tx : option Z;
  mtu : option Z;
}.

#[global] Instance LinkMetrics_eq_dec : EqDecision LinkMetrics.
Proof. solve_decision. Defined.

Definition LinkMetrics_default : LinkMetrics := mkLinkMetrics 0 0 0 0 0 None None None None.

Definition is_none {A} (o : option A) : bool := match o with None => true | Some _ => false end.
Definition is_some {A} (o : option A) : bool := negb (is_none o).

Definition supported_by (self initial : LinkMetrics) : bool :=
  (is_none (resources self) || is_some (resources initial))
  && (is_none (rlq_rx self) || is_some (rlq_rx initial))
  && (is_none (rlq_tx self) || is_some (rlq_tx initial))
  && (is_none (mtu self) || is_some (mtu initial)).

Record LinkCharacteristics : Type := mkLinkCharacteristics {
  req_data_rate_rx_bps : option Z;
  req_data_rate_tx_bps : option Z;
  req_latency : option Duration;
}.

#[global] Instance LinkCharacteristics_eq_dec : EqDecision LinkCharacteristics.
Proof. solve_decision. Defined.

Definition LinkCharacteristics_default : LinkCharacteristics :=
  mkLinkCharacteristics None None None.

Definition LinkCharacteristics_is_empty (self : LinkCharacteristics) : bool :=
  is_none (req_data_rate_rx_bps self) && is_none (req_data_rate_tx_bps self)
  && is_none (req_latency self).

(** ** Data items ([data_item.rs]) *)

Record RawDataItem : Type := mkRaw { raw_type_id : DataItemType; raw_value : bytes }.
Record PeerFlags : Type := mkPeerFlags { smi : bool }.
Record ConnectionPointFlags : Type := mkConnectionPointFlags { use_tls : bool }.

#[global] Instance RawDataItem_eq_dec : EqDecision RawDataItem.
Proof. solve_decision. Defined.
#[global] Instance PeerFlags_eq_dec : EqDecision PeerFlags.
Proof. solve_decision. Defined.
#[global] Instance ConnectionPointFlags_eq_dec : EqDecision ConnectionPointFlags.
Proof. solve_decision. Defined.

(** The type's name once [DataItem]'s constructor of the same name is in scope. *)
Abbreviation Mac := MacAddress.

Module DataItem.

Inductive DataItem : Type :=
| Status (code : StatusCode) (text : rstring)
| Ipv4ConnectionPoint (flags : ConnectionPointFlags) (addr : Z) (port : option Z)
| Ipv6ConnectionPoint (flags : ConnectionPointFlags) (addr : Z) (port : option Z)
| PeerType (flags : PeerFlags) (description : rstring)
| HeartbeatInterval (interval : Duration)
| ExtensionsSupported (ids : list ExtensionId)
| MacAddress (mac : CoreTypes.MacAddress)
| Ipv4Address (add : bool) (addr : Z)
| Ipv6Address (add : bool) (addr : Z)
| Ipv4AttachedSubnet (add : bool) (subnet : IpNet)
| Ipv6AttachedSubnet (add : bool) (subnet : IpNet)
| MaxDataRateReceive (bps : Z)
| MaxDataRateTransmit (bps : Z)
| CurrentDataRateReceive (bps : Z)
| CurrentDataRateTransmit (bps : Z)
| Latency (d : Duration)
| Resources (pct : Z)
| RelativeLinkQualityReceive (pct : Z)
| RelativeLinkQualityTransmit (pct : Z)
| Mtu (mtu : Z)
| Unknown (raw : RawDataItem).

#[global] Instance DataItem_eq_dec : EqDecision DataItem.
Proof. solve_decision. Defined.

(** [DataItem::type_id]. *)
Definition type_id (self : DataItem) : DataItemType :=
  match self with
  | Status _ _ => DataItemType.STATUS
  | Ipv4ConnectionPoint _ _ _ => DataItemType.IPV4_CONNECTION_POINT
  | Ipv6ConnectionPoint _ _ _ => DataItemType.IPV6_CONNECTION_POINT
  | PeerType _ _ => DataItemType.PEER_TYPE
  | HeartbeatInterval _ => DataItemType.HEARTBEAT_INTERVAL
  | ExtensionsSupported _ => DataItemType.EXTENSIONS_SUPPORTED
  | MacAddress _ => DataItemType.MAC_ADDRESS
  | Ipv4Address _ _ => DataItemType.IPV4_ADDRESS
  | Ipv6Address _ _ => DataItemType.IPV6_ADDRESS
  | Ipv4AttachedSubnet _ _ => DataItemType.IPV4_ATTACHED_SUBNET
  | Ipv6AttachedSubnet _ _ => DataItemType.IPV6_ATTACHED_SUBNET
  | MaxDataRateReceive _ => DataItemType.MAXIMUM_DATA_RATE_RECEIVE
  | MaxDataRateTransmit _ => DataItemType.MAXIMUM_DATA_RATE_TRANSMIT
  | CurrentDataRateReceive _ => DataItemType.CURRENT_DATA_RATE_RECEIVE
  | CurrentDataRateTransmit _ => DataItemType.CURRENT_DATA_RATE_TRANSMIT
  | Latency _ => DataItemType.LATENCY
  | Resources _ => DataItemType.RESOURCES
  | RelativeLinkQualityReceive _ => DataItemType.RELATIVE_LINK_QUALITY_RECEIVE
  | RelativeLinkQualityTransmit _ => DataItemType.RELATIVE_LINK_QUALITY_TRANSMIT
  | Mtu _ => DataItemType.MTU
  | Unknown r => raw_type_id r
  end.

End DataItem.
Abbreviation DataItem := DataItem.DataItem.

(** ** Messages and signals ([message.rs], [signal.rs]) *)

Record Message : Type := mkMessage {
  message_type : MessageType;
  msg_items : list DataItem;
}.

Definition Message_new (t : MessageType) : Message := mkMessage t [].
Definition with_item (self : Message) (item : DataItem) : Message :=
  mkMessage (message_type self) (msg_items self ++ [item]).

Record Signal : Type := mkSignal {
  signal_type : SignalType;
  sig_items : list DataItem;
}.

Definition Signal_new (t : SignalType) : Signal := mkSignal t [].
Definition sig_with_item (self : Signal) (item : DataItem) : Signal :=
  mkSignal (signal_type self) (sig_items self ++ [item]).

#[global] Instance Message_eq_dec : EqDecision Message.
Proof. solve_decision. Defined.
#[global] Instance Signal_eq_dec : EqDecision Signal.
Proof. solve_decision. Defined.

(** ** Codec errors ([error.rs])

    [InvalidUtf8] and [Io] carry values of the standard library that no caller
    inspects; [Io] is never built by the byte-level codec. *)

Inductive ExpectedLen : Type :=
| Exact (n : Z)
| AtLeast (n : Z)
| OneOf (ns : list Z)
| Multiple (n : Z).

Inductive CodecError : Type :=
| Truncated (needed have : Z)
| MissingSignalPrefix
| LengthMismatch (declared remaining : Z)
| UnknownSignalType (t : SignalType)
| UnknownMessageType (t : MessageType)
| UnknownDataItemType (t : DataItemType)
| InvalidDataItemLength (kind : DataItemType) (expected : ExpectedLen) (got : Z)
| InvalidUtf8
| Io
| OutOfRange (field : string) (value : Z).
