(* ===== verification/Codec.v ===== *)
(** * Byte-level codec ([crates/dlep-core/src/codec.rs]), definitions

    Encoders write into a caller-owned buffer and may leave it half-written on an
    error, so they are state-passing ([stm bytes CodecError]).  Decoders index
    slices after a length check; an index out of range is a [Panic].  The theorems
    are in [CodecItem] (one data item) and [CodecMessage] (messages, signals and
    frames). *)

From S2P Require Import Prelude Externs CoreTypes.
Import DataItem.
Open Scope stm_scope.

(** ** [String::from_utf8] *)

Definition in_range (lo hi b : Z) : bool := (lo <=? b) && (b <=? hi).
Definition continuation (b : Z) : bool := in_range 128 191 b.

(** Well-formed UTF-8: no overlong forms, no surrogates, at most U+10FFFF. *)
Fixpoint utf8_valid (l : bytes) : bool :=
  match l with
  | [] => true
  | b0 :: l0 =>
      if in_range 0 127 b0 then utf8_valid l0
      else match l0 with
      | b1 :: l1 =>
          if in_range 194 223 b0 then continuation b1 && utf8_valid l1
          else match l1 with
          | b2 :: l2 =>
              if in_range 224 239 b0 then
                (if b0 =? 224 then in_range 160 191 b1
                 else if b0 =? 237 then in_range 128 159 b1
                 else continuation b1)
                && continuation b2 && utf8_valid l2
              else match l2 with
              | b3 :: l3 =>
                  in_range 240 244 b0
                  && (if b0 =? 240 then in_range 144 191 b1
                      else if b0 =? 244 then in_range 128 143 b1
                      else continuation b1)
                  && continuation b2 && continuation b3 && utf8_valid l3
              | [] => false
              end
          | [] => false
          end
      | [] => false
      end
  end.

Definition from_utf8 (l : bytes) : outcome CodecError rstring :=
  if utf8_valid l then Ok l else Err InvalidUtf8.

(** ** Constants and checks *)

Definition SIGNAL_HEADER_LEN : nat := 8.
Definition MESSAGE_HEADER_LEN : nat := 4.

Module Field.
Definition DATA_ITEM_FLAGS : string := "data_item_flags".
Definition HEARTBEAT_INTERVAL_MS : string := "heartbeat_interval_ms".
Definition LATENCY_US : string := "latency_us".
Definition RESOURCES : string := "resources".
Definition RLQ_RECEIVE : string := "relative_link_quality_receive".
Definition RLQ_TRANSMIT : string := "relative_link_quality_transmit".
Definition IPV4_ATTACHED_SUBNET_PREFIX : string := "ipv4_attached_subnet_prefix".
Definition IPV6_ATTACHED_SUBNET_PREFIX : string := "ipv6_attached_subnet_prefix".
Definition DATA_ITEM_VALUE_LENGTH : string := "data_item_value_length".
Definition SIGNAL_BODY_LENGTH : string := "signal_body_length".
Definition MESSAGE_BODY_LENGTH : string := "message_body_length".
End Field.

Definition ensure_len (have needed : Z) : outcome CodecError unit :=
  if have <? needed then Err (Truncated needed have) else Ok tt.

Definition expect_exact (kind : DataItemType) (got expected : Z) : outcome CodecError unit :=
  if got =? expected then Ok tt else Err (InvalidDataItemLength kind (Exact expected) got).

Definition validate_flags (byte : Z) : outcome CodecError unit :=
  if negb (Z.land byte 254 =? 0) then Err (OutOfRange Field.DATA_ITEM_FLAGS byte) else Ok tt.

(** [u8::from(bool)]. *)
Definition u8_from_bool (b : bool) : Z := if b then 1 else 0.

Definition encode_cp_flags (flags : ConnectionPointFlags) : Z := u8_from_bool (use_tls flags).
Definition decode_cp_flags (byte : Z) : ConnectionPointFlags :=
  mkConnectionPointFlags (negb (Z.land byte 1 =? 0)).
Definition encode_peer_flags (flags : PeerFlags) : Z := u8_from_bool (smi flags).
Definition decode_peer_flags (byte : Z) : PeerFlags := mkPeerFlags (negb (Z.land byte 1 =? 0)).

Definition check_percent (field : string) (pct : Z) : outcome CodecError unit :=
  if 100 <? pct then Err (OutOfRange field pct) else Ok tt.

Definition decode_percent (kind : DataItemType) (value : bytes) (field : string)
  : outcome CodecError Z :=
  _ ← expect_exact kind (len value) 1;
  pct ← index value 0;
  _ ← check_percent field pct;
  mret pct.

Definition u16_length (field : string) (n : Z) : outcome CodecError Z :=
  if n <=? u16_max then Ok n else Err (OutOfRange field n).

Definition read_u64_be (value : bytes) : outcome CodecError Z :=
  buf ← slice value 0 8;
  mret (from_be_bytes buf).

Section Codec.
Context {crates : Crates}.

(** ** Buffer primitives as state-passing steps *)

Definition buf_len : stm bytes CodecError nat := fun out => (Ok (length out), out).

(** [out[pos..pos + s.len()].copy_from_slice(s)]. *)
Definition patch (pos : nat) (s : bytes) : stm bytes CodecError unit :=
  fun out =>
    if (pos + length s <=? length out)%nat
    then (Ok tt, take pos out ++ s ++ drop (pos + length s)%nat out)
    else (Panic, out).

Definition read_u16 : stm bytes CodecError Z :=
  fun src => match get_u16 src with Some (v, src') => (Ok v, src') | None => (Panic, src) end.
Definition read_split (n : nat) : stm bytes CodecError bytes :=
  fun src => match split_to src n with Some (v, src') => (Ok v, src') | None => (Panic, src) end.
Definition read_copy (n : nat) : stm bytes CodecError bytes :=
  fun src => match copy_to_slice src n with Some (v, src') => (Ok v, src') | None => (Panic, src) end.
Definition remaining : stm bytes CodecError Z := fun src => (Ok (len src), src).

(** ** [RawDataItem] *)

Definition RawDataItem_encode (self : RawDataItem) : stm bytes CodecError unit :=
  l <~ st_lift (u16_length Field.DATA_ITEM_VALUE_LENGTH (len (raw_value self)));;
  st_modify (fun out => put_u16 out (raw_type_id self));;;
  st_modify (fun out => put_u16 out l);;;
  st_modify (fun out => put_slice out (raw_value self)).

Definition RawDataItem_decode : stm bytes CodecError RawDataItem :=
  have <~ remaining;;
  st_lift (ensure_len have 4);;;
  type_id <~ read_u16;;
  l <~ read_u16;;
  have <~ remaining;;
  st_lift (ensure_len have l);;;
  value <~ read_split (Z.to_nat l);;
  st_ret (mkRaw type_id value).

(** ** [DataItem::encode] *)

Definition projected_value_len (self : DataItem) : option Z :=
  match self with
  | Status _ text => Some (saturating_add 1 (len text))
  | PeerType _ description => Some (saturating_add 1 (len description))
  | ExtensionsSupported ids => Some (saturating_mul (len ids) 2)
  | _ => None
  end.

Definition encode_port (port : option Z) : stm bytes CodecError unit :=
  match port with
  | Some p => st_modify (fun out => put_u16 out p)
  | None => st_ret tt
  end.

Fixpoint encode_ids (ids : list ExtensionId) : stm bytes CodecError unit :=
  match ids with
  | [] => st_ret tt
  | id :: ids' => st_modify (fun out => put_u16 out id);;; encode_ids ids'
  end.

(** [u64::try_from(ms).unwrap_or(u64::MAX)]. *)
Definition clamp_u64 (v : Z) : Z := if v <=? u64_max then v else u64_max.

(** The [match self] of [encode_into]: the value octets of each variant. *)
Definition encode_value (self : DataItem) : stm bytes CodecError unit :=
  match self with
  | Status code text =>
      st_modify (fun out => put_u8 out code);;;
      st_modify (fun out => put_slice out text)
  | Ipv4ConnectionPoint flags addr port =>
      st_modify (fun out => put_u8 out (encode_cp_flags flags));;;
      st_modify (fun out => put_slice out (to_be_bytes 4 addr));;;
      encode_port port
  | Ipv6ConnectionPoint flags addr port =>
      st_modify (fun out => put_u8 out (encode_cp_flags flags));;;
      st_modify (fun out => put_slice out (to_be_bytes 16 addr));;;
      encode_port port
  | PeerType flags description =>
      st_modify (fun out => put_u8 out (encode_peer_flags flags));;;
      st_modify (fun out => put_slice out description)
  | HeartbeatInterval d =>
      let ms := as_millis d in
      if ms <? MIN_HEARTBEAT_INTERVAL_MS
      then st_err (OutOfRange Field.HEARTBEAT_INTERVAL_MS (clamp_u64 ms))
      else if u32_max <? ms
      then st_err (OutOfRange Field.HEARTBEAT_INTERVAL_MS (clamp_u64 ms))
      else st_modify (fun out => put_u32 out ms)
  | ExtensionsSupported ids => encode_ids ids
  | MacAddress mac => st_modify (fun out => put_slice out (mac_as_bytes mac))
  | Ipv4Address add addr =>
      st_modify (fun out => put_u8 out (u8_from_bool add));;;
      st_modify (fun out => put_slice out (to_be_bytes 4 addr))
  | Ipv6Address add addr =>
      st_modify (fun out => put_u8 out (u8_from_bool add));;;
      st_modify (fun out => put_slice out (to_be_bytes 16 addr))
  | Ipv4AttachedSubnet add subnet =>
      st_modify (fun out => put_u8 out (u8_from_bool add));;;
      st_modify (fun out => put_slice out (to_be_bytes 4 (v4_network subnet)));;;
      st_modify (fun out => put_u8 out (prefix_len subnet))
  | Ipv6AttachedSubnet add subnet =>
      st_modify (fun out => put_u8 out (u8_from_bool add));;;
      st_modify (fun out => put_slice out (to_be_bytes 16 (v6_network subnet)));;;
      st_modify (fun out => put_u8 out (prefix_len subnet))
  | MaxDataRateReceive bps | MaxDataRateTransmit bps
  | CurrentDataRateReceive bps | CurrentDataRateTransmit bps =>
      st_modify (fun out => put_u64 out bps)
  | Latency d =>
      let us := as_micros d in
      if u64_max <? us
      then st_err (OutOfRange Field.LATENCY_US u64_max)
      else st_modify (fun out => put_u64 out us)
  | Resources pct =>
      st_lift (check_percent Field.RESOURCES pct);;;
      st_modify (fun out => put_u8 out pct)
  | RelativeLinkQualityReceive pct =>
      st_lift (check_percent Field.RLQ_RECEIVE pct);;;
      st_modify (fun out => put_u8 out pct)
  | RelativeLinkQualityTransmit pct =>
      st_lift (check_percent Field.RLQ_TRANSMIT pct);;;
      st_modify (fun out => put_u8 out pct)
  | Mtu mtu => st_modify (fun out => put_u16 out mtu)
  | Unknown _ => st_lift Panic
  end.

(** The up-front length check of variable-length variants. *)
Definition check_projected (self : DataItem) : stm bytes CodecError unit :=
  match projected_value_len self with
  | Some projected =>
      _ <~ st_lift (u16_length Field.DATA_ITEM_VALUE_LENGTH projected);; st_ret tt
  | None => st_ret tt
  end.

(** Type, placeholder length, value, then the patched length. *)
Definition encode_tlv (self : DataItem) : stm bytes CodecError unit :=
  st_modify (fun out => put_u16 out (type_id self));;;
  len_pos <~ buf_len;;
  st_modify (fun out => put_u16 out 0);;;
  value_start <~ buf_len;;
  encode_value self;;;
  value_end <~ buf_len;;
  len_u16 <~ st_lift (u16_length Field.DATA_ITEM_VALUE_LENGTH
                        (Z.of_nat (value_end - value_start)));;
  patch len_pos (to_be_bytes 2 len_u16).

Definition encode_into (self : DataItem) : stm bytes CodecError unit :=
  match self with
  | Unknown raw => RawDataItem_encode raw
  | _ => check_projected self;;; encode_tlv self
  end.

(** [DataItem::encode]. *)
Definition DataItem_encode (self : DataItem) : stm bytes CodecError unit :=
  fun out =>
    let restore_to := length out in
    match encode_into self out with
    | (Err e, out') => (Err e, buf_truncate out' restore_to)
    | r => r
    end.

(** ** [DataItem::decode], one definition per arm *)

Definition decode_status (kind : DataItemType) (v : bytes) : outcome CodecError DataItem :=
  if len v <? 1 then Err (InvalidDataItemLength kind (AtLeast 1) (len v))
  else
    code ← index v 0;
    tail ← slice_from v 1;
    text ← from_utf8 tail;
    mret (Status code text).

Definition decode_ipv4_connection_point (kind : DataItemType) (v : bytes)
  : outcome CodecError DataItem :=
  if negb (len v =? 5) && negb (len v =? 7)
  then Err (InvalidDataItemLength kind (OneOf [5; 7]) (len v))
  else
    b0 ← index v 0;
    _ ← validate_flags b0;
    b1 ← index v 1; b2 ← index v 2; b3 ← index v 3; b4 ← index v 4;
    port ← (if len v =? 7
            then b5 ← index v 5; b6 ← index v 6; mret (Some (from_be_bytes [b5; b6]))
            else mret None);
    mret (Ipv4ConnectionPoint (decode_cp_flags b0) (from_be_bytes [b1; b2; b3; b4]) port).

Definition decode_ipv6_connection_point (kind : DataItemType) (v : bytes)
  : outcome CodecError DataItem :=
  if negb (len v =? 17) && negb (len v =? 19)
  then Err (InvalidDataItemLength kind (OneOf [17; 19]) (len v))
  else
    b0 ← index v 0;
    _ ← validate_flags b0;
    octets ← slice v 1 17;
    port ← (if len v =? 19
            then b17 ← index v 17; b18 ← index v 18; mret (Some (from_be_bytes [b17; b18]))
            else mret None);
    mret (Ipv6ConnectionPoint (decode_cp_flags b0) (from_be_bytes octets) port).

Definition decode_peer_type (kind : DataItemType) (v : bytes) : outcome CodecError DataItem :=
  if len v <? 1 then Err (InvalidDataItemLength kind (AtLeast 1) (len v))
  else
    b0 ← index v 0;
    _ ← validate_flags b0;
    tail ← slice_from v 1;
    description ← from_utf8 tail;
    mret (PeerType (decode_peer_flags b0) description).

Definition decode_heartbeat_interval (kind : DataItemType) (v : bytes)
  : outcome CodecError DataItem :=
  _ ← expect_exact kind (len v) 4;
  b0 ← index v 0; b1 ← index v 1; b2 ← index v 2; b3 ← index v 3;
  let ms := from_be_bytes [b0; b1; b2; b3] in
  if ms <? MIN_HEARTBEAT_INTERVAL_MS then Err (OutOfRange Field.HEARTBEAT_INTERVAL_MS ms)
  else mret (HeartbeatInterval (from_millis ms)).

(** [while i < len { ids.push(..); i += 2 }]; [fuel] bounds the iterations. *)
Fixpoint decode_ids (fuel : nat) (v : bytes) (i : nat) : outcome CodecError (list ExtensionId) :=
  if (i <? length v)%nat then
    match fuel with
    | O => Panic
    | S fuel' =>
        a ← index v i;
        b ← index v (i + 1)%nat;
        rest ← decode_ids fuel' v (i + 2)%nat;
        mret (from_be_bytes [a; b] :: rest)
    end
  else mret [].

Definition decode_extensions_supported (kind : DataItemType) (v : bytes)
  : outcome CodecError DataItem :=
  if negb (len v mod 2 =? 0) then Err (InvalidDataItemLength kind (Multiple 2) (len v))
  else
    ids ← decode_ids (length v) v 0;
    mret (ExtensionsSupported ids).

Definition decode_mac_address (kind : DataItemType) (v : bytes) : outcome CodecError DataItem :=
  if len v =? 6 then octets ← slice v 0 6; mret (MacAddress (Eui48 octets))
  else if len v =? 8 then octets ← slice v 0 8; mret (MacAddress (Eui64 octets))
  else Err (InvalidDataItemLength kind (OneOf [6; 8]) (len v)).

Definition decode_ipv4_address (kind : DataItemType) (v : bytes) : outcome CodecError DataItem :=
  _ ← expect_exact kind (len v) 5;
  b0 ← index v 0;
  _ ← validate_flags b0;
  b1 ← index v 1; b2 ← index v 2; b3 ← index v 3; b4 ← index v 4;
  mret (Ipv4Address (negb (Z.land b0 1 =? 0)) (from_be_bytes [b1; b2; b3; b4])).

Definition decode_ipv6_address (kind : DataItemType) (v : bytes) : outcome CodecError DataItem :=
  _ ← expect_exact kind (len v) 17;
  b0 ← index v 0;
  _ ← validate_flags b0;
  octets ← slice v 1 17;
  mret (Ipv6Address (negb (Z.land b0 1 =? 0)) (from_be_bytes octets)).

Definition decode_ipv4_attached_subnet (kind : DataItemType) (v : bytes)
  : outcome CodecError DataItem :=
  _ ← expect_exact kind (len v) 6;
  b0 ← index v 0;
  _ ← validate_flags b0;
  b1 ← index v 1; b2 ← index v 2; b3 ← index v 3; b4 ← index v 4;
  prefix ← index v 5;
  match Ipv4Net_new (from_be_bytes [b1; b2; b3; b4]) prefix with
  | None => Err (OutOfRange Field.IPV4_ATTACHED_SUBNET_PREFIX prefix)
  | Some net => mret (Ipv4AttachedSubnet (negb (Z.land b0 1 =? 0)) (v4_trunc net))
  end.

Definition decode_ipv6_attached_subnet (kind : DataItemType) (v : bytes)
  : outcome CodecError DataItem :=
  _ ← expect_exact kind (len v) 18;
  b0 ← index v 0;
  _ ← validate_flags b0;
  octets ← slice v 1 17;
  prefix ← index v 17;
  match Ipv6Net_new (from_be_bytes octets) prefix with
  | None => Err (OutOfRange Field.IPV6_ATTACHED_SUBNET_PREFIX prefix)
  | Some net => mret (Ipv6AttachedSubnet (negb (Z.land b0 1 =? 0)) (v6_trunc net))
  end.

(** The five eight-octet arms. *)
Definition decode_u64_item (mk : Z -> DataItem) (kind : DataItemType) (v : bytes)
  : outcome CodecError DataItem :=
  _ ← expect_exact kind (len v) 8;
  x ← read_u64_be v;
  mret (mk x).

(** The three percentage arms. *)
Definition decode_percent_item (mk : Z -> DataItem) (field : string) (kind : DataItemType)
  (v : bytes) : outcome CodecError DataItem :=
  pct ← decode_percent kind v field;
  mret (mk pct).

Definition decode_mtu (kind : DataItemType) (v : bytes) : outcome CodecError DataItem :=
  _ ← expect_exact kind (len v) 2;
  b0 ← index v 0; b1 ← index v 1;
  mret (Mtu (from_be_bytes [b0; b1])).

(** [DataItem::decode]. *)
Definition DataItem_decode (raw : RawDataItem) : outcome CodecError DataItem :=
  let kind := raw_type_id raw in
  let v := raw_value raw in
  if kind =? DataItemType.STATUS then decode_status kind v
  else if kind =? DataItemType.IPV4_CONNECTION_POINT then decode_ipv4_connection_point kind v
  else if kind =? DataItemType.IPV6_CONNECTION_POINT then decode_ipv6_connection_point kind v
  else if kind =? DataItemType.PEER_TYPE then decode_peer_type kind v
  else if kind =? DataItemType.HEARTBEAT_INTERVAL then decode_heartbeat_interval kind v
  else if kind =? DataItemType.EXTENSIONS_SUPPORTED then decode_extensions_supported kind v
  else if kind =? DataItemType.MAC_ADDRESS then decode_mac_address kind v
  else if kind =? DataItemType.IPV4_ADDRESS then decode_ipv4_address kind v
  else if kind =? DataItemType.IPV6_ADDRESS then decode_ipv6_address kind v
  else if kind =? DataItemType.IPV4_ATTACHED_SUBNET then decode_ipv4_attached_subnet kind v
  else if kind =? DataItemType.IPV6_ATTACHED_SUBNET then decode_ipv6_attached_subnet kind v
  else if kind =? DataItemType.MAXIMUM_DATA_RATE_RECEIVE
    then decode_u64_item MaxDataRateReceive kind v
  else if kind =? DataItemType.MAXIMUM_DATA_RATE_TRANSMIT
    then decode_u64_item MaxDataRateTransmit kind v
  else if kind =? DataItemType.CURRENT_DATA_RATE_RECEIVE
    then decode_u64_item CurrentDataRateReceive kind v
  else if kind =? DataItemType.CURRENT_DATA_RATE_TRANSMIT
    then decode_u64_item CurrentDataRateTransmit kind v
  else if kind =? DataItemType.LATENCY
    then decode_u64_item (fun us => Latency (from_micros us)) kind v
  else if kind =? DataItemType.RESOURCES
    then decode_percent_item Resources Field.RESOURCES kind v
  else if kind =? DataItemType.RELATIVE_LINK_QUALITY_RECEIVE
    then decode_percent_item RelativeLinkQualityReceive Field.RLQ_RECEIVE kind v
  else if kind =? DataItemType.RELATIVE_LINK_QUALITY_TRANSMIT
    then decode_percent_item RelativeLinkQualityTransmit Field.RLQ_TRANSMIT kind v
  else if kind =? DataItemType.MTU then decode_mtu kind v
  else mret (Unknown raw).

(** ** Messages and signals *)

(** [for item in &self.data_items { item.encode(&mut body)?; }]. *)
Fixpoint encode_items (items : list DataItem) : stm bytes CodecError unit :=
  match items with
  | [] => st_ret tt
  | item :: items' => DataItem_encode item;;; encode_items items'
  end.

(** [while body.has_remaining() { .. }]; [fuel] bounds the iterations. *)
Fixpoint decode_items (fuel : nat) (body : bytes) : outcome CodecError (list DataItem) :=
  match body with
  | [] => mret []
  | _ =>
      match fuel with
      | O => Panic
      | S fuel' =>
          match RawDataItem_decode body with
          | (Ok raw, body') =>
              item ← DataItem_decode raw;
              items ← decode_items fuel' body';
              mret (item :: items)
          | (Err e, _) => Err e
          | (Panic, _) => Panic
          end
      end
  end.

(** [Message::encode]. *)
Definition Message_encode (self : Message) : outcome CodecError bytes :=
  let '(r, body) := encode_items (msg_items self) [] in
  _ ← r;
  body_len ← u16_length Field.MESSAGE_BODY_LENGTH (len body);
  let out := put_u16 [] (message_type self) in
  let out := put_u16 out body_len in
  mret (put_slice out body).

Definition message_body : stm bytes CodecError (MessageType * bytes) :=
  have <~ remaining;;
  st_lift (ensure_len have (Z.of_nat MESSAGE_HEADER_LEN));;;
  mt <~ read_u16;;
  declared <~ read_u16;;
  have <~ remaining;;
  (if have <? declared then st_err (LengthMismatch declared have) else st_ret tt);;;
  body <~ read_split (Z.to_nat declared);;
  st_ret (mt, body).

(** [Message::decode]. *)
Definition Message_decode (src : bytes) : outcome CodecError Message :=
  '(mt, body) ← (message_body src).1;
  items ← decode_items (length body) body;
  mret (mkMessage mt items).

(** [Signal::encode]. *)
Definition Signal_encode (self : Signal) : outcome CodecError bytes :=
  let '(r, body) := encode_items (sig_items self) [] in
  _ ← r;
  body_len ← u16_length Field.SIGNAL_BODY_LENGTH (len body);
  let out := put_slice [] SIGNAL_PREFIX in
  let out := put_u16 out (signal_type self) in
  let out := put_u16 out body_len in
  mret (put_slice out body).

Definition signal_body : stm bytes CodecError (SignalType * bytes) :=
  have <~ remaining;;
  st_lift (ensure_len have (Z.of_nat SIGNAL_HEADER_LEN));;;
  prefix <~ read_copy 4;;
  (if bool_decide (prefix = SIGNAL_PREFIX) then st_ret tt else st_err MissingSignalPrefix);;;
  st <~ read_u16;;
  declared <~ read_u16;;
  have <~ remaining;;
  (if have =? declared then st_ret tt else st_err (LengthMismatch declared have));;;
  body <~ read_split (Z.to_nat declared);;
  st_ret (st, body).

(** [Signal::decode]. *)
Definition Signal_decode (src : bytes) : outcome CodecError Signal :=
  '(st, body) ← (signal_body src).1;
  items ← decode_items (length body) body;
  mret (mkSignal st items).

(** ** Framing ([crates/dlep-net/src/framed.rs]) *)

(** [MessageCodec::decode]: [Ok None] asks for more octets and consumes none. *)
Definition MessageCodec_decode : stm bytes CodecError (option Message) :=
  fun src =>
    if (length src <? MESSAGE_HEADER_LEN)%nat then (Ok None, src)
    else
      match b2 ← index src 2; b3 ← index src 3; mret (Z.to_nat (from_be_bytes [b2; b3])) with
      | Ok declared =>
          let total := (MESSAGE_HEADER_LEN + declared)%nat in
          if (length src <? total)%nat then (Ok None, src)
          else
            match read_split total src with
            | (Ok frame, src') => (m ← Message_decode frame; mret (Some m), src')
            | (Err e, src') => (Err e, src')
            | (Panic, src') => (Panic, src')
            end
      | Err e => (Err e, src)
      | Panic => (Panic, src)
      end.

(** [Encoder<Message>::encode]. *)
Definition MessageCodec_encode (item : Message) : stm bytes CodecError unit :=
  bs <~ st_lift (Message_encode item);;
  st_modify (fun dst => dst ++ bs).

(** [SignalCodec::decode_datagram] and [SignalCodec::encode_datagram]. *)
Definition decode_datagram (buf : bytes) : outcome CodecError Signal := Signal_decode buf.
Definition encode_datagram (signal : Signal) : outcome CodecError bytes := Signal_encode signal.

End Codec.
