(* ===== verification/CodecItem.v ===== *)
(** * Data items: the codec is a partial inverse pair

    [wire_item] is the reference TLV of a data item and [encodable] the
    values that have one; [DataItem_encode] computes exactly that and leaves its
    buffer alone otherwise.  [DataItem_decode] inverts it up to [canonical_item]
    (units of the wire, host bits of a subnet) and never panics. *)

From S2P Require Import Prelude Externs CoreTypes Codec.
Import DataItem.
Open Scope stm_scope.

(** ** Specification *)

(** What the Rust types of the fields guarantee. *)
Definition is_net (bits : Z) (n : IpNet) : Prop :=
  0 <= net_addr n < 2 ^ bits /\ 0 <= prefix_len n <= bits.

Definition is_item (item : DataItem) : Prop :=
  match item with
  | Status code text => is_u8 code /\ utf8_valid text = true
  | Ipv4ConnectionPoint _ addr port => 0 <= addr < 2 ^ 32 /\ default True (is_u16 <$> port)
  | Ipv6ConnectionPoint _ addr port => 0 <= addr < 2 ^ 128 /\ default True (is_u16 <$> port)
  | PeerType _ description => utf8_valid description = true
  | HeartbeatInterval d => is_duration d
  | ExtensionsSupported ids => Forall is_u16 ids
  | MacAddress mac => is_mac mac
  | Ipv4Address _ addr => 0 <= addr < 2 ^ 32
  | Ipv6Address _ addr => 0 <= addr < 2 ^ 128
  | Ipv4AttachedSubnet _ n => is_net 32 n
  | Ipv6AttachedSubnet _ n => is_net 128 n
  | MaxDataRateReceive v | MaxDataRateTransmit v
  | CurrentDataRateReceive v | CurrentDataRateTransmit v => is_u64 v
  | Latency d => is_duration d
  | Resources v | RelativeLinkQualityReceive v | RelativeLinkQualityTransmit v => is_u8 v
  | Mtu v => is_u16 v
  | Unknown raw => is_u16 (raw_type_id raw) /\ is_bytes (raw_value raw)
  end.

(** The values that have a wire form. *)
Definition encodable (item : DataItem) : bool :=
  match item with
  | Status _ text | PeerType _ text => 1 + len text <=? u16_max
  | HeartbeatInterval d =>
      (MIN_HEARTBEAT_INTERVAL_MS <=? as_millis d) && (as_millis d <=? u32_max)
  | ExtensionsSupported ids => len ids * 2 <=? u16_max
  | Latency d => as_micros d <=? u64_max
  | Resources v | RelativeLinkQualityReceive v | RelativeLinkQualityTransmit v => v <=? 100
  | Unknown raw => len (raw_value raw) <=? u16_max
  | _ => true
  end.

(** The error reported for the others. *)
Definition encode_error (item : DataItem) : CodecError :=
  match item with
  | Status _ text | PeerType _ text =>
      OutOfRange Field.DATA_ITEM_VALUE_LENGTH (saturating_add 1 (len text))
  | HeartbeatInterval d => OutOfRange Field.HEARTBEAT_INTERVAL_MS (clamp_u64 (as_millis d))
  | ExtensionsSupported ids =>
      OutOfRange Field.DATA_ITEM_VALUE_LENGTH (saturating_mul (len ids) 2)
  | Latency _ => OutOfRange Field.LATENCY_US u64_max
  | Resources v => OutOfRange Field.RESOURCES v
  | RelativeLinkQualityReceive v => OutOfRange Field.RLQ_RECEIVE v
  | RelativeLinkQualityTransmit v => OutOfRange Field.RLQ_TRANSMIT v
  | Unknown raw => OutOfRange Field.DATA_ITEM_VALUE_LENGTH (len (raw_value raw))
  | _ => Io
  end.

(** A type id the codec has a typed variant for. *)
Definition known_type (t : DataItemType) : bool := (1 <=? t) && (t <=? 20).

(** [Unknown] really holds an unknown type id. *)
Definition faithful_item (item : DataItem) : Prop :=
  match item with Unknown raw => known_type (raw_type_id raw) = false | _ => True end.

Section Spec.
Context {crates : Crates}.

Definition value_bytes (item : DataItem) : bytes :=
  match item with
  | Status code text => code :: text
  | Ipv4ConnectionPoint flags addr port =>
      encode_cp_flags flags :: to_be_bytes 4 addr ++ default [] (to_be_bytes 2 <$> port)
  | Ipv6ConnectionPoint flags addr port =>
      encode_cp_flags flags :: to_be_bytes 16 addr ++ default [] (to_be_bytes 2 <$> port)
  | PeerType flags description => encode_peer_flags flags :: description
  | HeartbeatInterval d => to_be_bytes 4 (as_millis d)
  | ExtensionsSupported ids => ids ≫= to_be_bytes 2
  | MacAddress mac => mac_as_bytes mac
  | Ipv4Address add addr => u8_from_bool add :: to_be_bytes 4 addr
  | Ipv6Address add addr => u8_from_bool add :: to_be_bytes 16 addr
  | Ipv4AttachedSubnet add n =>
      u8_from_bool add :: to_be_bytes 4 (v4_network n) ++ [prefix_len n]
  | Ipv6AttachedSubnet add n =>
      u8_from_bool add :: to_be_bytes 16 (v6_network n) ++ [prefix_len n]
  | MaxDataRateReceive v | MaxDataRateTransmit v
  | CurrentDataRateReceive v | CurrentDataRateTransmit v => to_be_bytes 8 v
  | Latency d => to_be_bytes 8 (as_micros d)
  | Resources v | RelativeLinkQualityReceive v | RelativeLinkQualityTransmit v => [v]
  | Mtu v => to_be_bytes 2 v
  | Unknown raw => raw_value raw
  end.

(** A raw item on the wire: type, length, value. *)
Definition wire_raw (raw : RawDataItem) : bytes :=
  to_be_bytes 2 (raw_type_id raw) ++ to_be_bytes 2 (len (raw_value raw)) ++ raw_value raw.

Definition to_raw (item : DataItem) : RawDataItem := mkRaw (type_id item) (value_bytes item).
Definition wire_item (item : DataItem) : bytes := wire_raw (to_raw item).

(** What a peer reads back: whole milliseconds and microseconds, network form. *)
Definition canonical_item (item : DataItem) : DataItem :=
  match item with
  | HeartbeatInterval d => HeartbeatInterval (from_millis (as_millis d))
  | Latency d => Latency (from_micros (as_micros d))
  | Ipv4AttachedSubnet add n => Ipv4AttachedSubnet add (v4_trunc n)
  | Ipv6AttachedSubnet add n => Ipv6AttachedSubnet add (v6_trunc n)
  | i => i
  end.

(** Value octets with the host bits of an attached subnet zeroed. *)
Definition canonical_value (raw : RawDataItem) : bytes :=
  let v := raw_value raw in
  if raw_type_id raw =? DataItemType.IPV4_ATTACHED_SUBNET then
    take 1 v ++ to_be_bytes 4 (v4_network (mkNet (from_be_bytes (take 4 (drop 1 v)))
                                             (from_be_bytes (drop 5 v)))) ++ drop 5 v
  else if raw_type_id raw =? DataItemType.IPV6_ATTACHED_SUBNET then
    take 1 v ++ to_be_bytes 16 (v6_network (mkNet (from_be_bytes (take 16 (drop 1 v)))
                                              (from_be_bytes (drop 17 v)))) ++ drop 17 v
  else v.

Definition canonical_raw (raw : RawDataItem) : RawDataItem :=
  mkRaw (raw_type_id raw) (canonical_value raw).

End Spec.

(** ** Octets and flags *)

Lemma utf8_valid_bytes l : utf8_valid l = true -> is_bytes l.
Proof.
  unfold is_bytes. induction l as [l IH] using (induction_ltof1 _ length). unfold ltof in IH.
  intros H. destruct l as [|b0 l0]; [constructor|]. cbn [utf8_valid] in H.
  unfold continuation, in_range in H.
  case_hyps;
    repeat (apply Forall_cons; split; [unfold is_u8, u8_max; lia|]);
    (apply IH; [cbn; lia|done]).
Qed.

Lemma flag_inv b :
  is_u8 b -> validate_flags b = Ok tt -> u8_from_bool (negb (Z.land b 1 =? 0)) = b.
Proof.
  unfold is_u8, u8_max, validate_flags. intros Hb H. case_in H. bprop.
  assert (b = 0 \/ b = 1) as [-> | ->]; [|done..].
  destruct (decide (b <= 1)); [lia|exfalso].
  assert (Hm : Z.testbit (Z.land b 254) (Z.log2 b) = false) by (rewrite E; apply Z.bits_0).
  rewrite Z.land_spec, Z.bit_log2, andb_true_l in Hm by lia.
  assert (1 <= Z.log2 b) by (apply Z.log2_le_pow2; lia).
  assert (Z.log2 b < 8) by (apply Z.log2_lt_pow2; lia).
  assert (Hc : forall k, 1 <= k < 8 -> Z.testbit 254 k = true).
  { intros k Hk. assert (k = 1 \/ k = 2 \/ k = 3 \/ k = 4 \/ k = 5 \/ k = 6 \/ k = 7) by lia.
    destruct_or?; by subst. }
  rewrite Hc in Hm by lia. done.
Qed.

Lemma is_u8_flag (b : bool) : is_u8 (u8_from_bool b).
Proof. unfold is_u8, u8_max. destruct b; cbn; lia. Qed.
#[export] Hint Resolve is_u8_flag : dlep.

(** ** Encoding *)

Section Encode.
Context {crates : Crates}.

Lemma encode_ids_spec ids out :
  encode_ids ids out = (Ok tt, out ++ (ids ≫= to_be_bytes 2)).
Proof.
  revert out. induction ids as [|id ids IH]; intros out; cbn; [by rewrite app_nil_r|].
  unfold st_bind, st_modify. cbn. rewrite IH, put_u16_spec. by rewrite <-app_assoc.
Qed.

Lemma check_percent_spec f v :
  check_percent f v = if v <=? 100 then Ok tt else Err (OutOfRange f v).
Proof. unfold check_percent. destruct (Z.ltb_spec 100 v), (Z.leb_spec v 100); done || lia. Qed.

Lemma encode_value_spec item out :
  (forall raw, item <> Unknown raw) ->
  match item with
  | HeartbeatInterval _ | Latency _ | Resources _ | RelativeLinkQualityReceive _
  | RelativeLinkQualityTransmit _ =>
      encode_value item out
      = if encodable item then (Ok tt, out ++ value_bytes item) else (Err (encode_error item), out)
  | _ => encode_value item out = (Ok tt, out ++ value_bytes item)
  end.
Proof.
  intros Hu. destruct item; try (by destruct (Hu raw));
    cbn [encode_value encodable value_bytes encode_error];
    unfold encode_port, st_bind, st_modify, st_lift, st_err, st_ret;
    rewrite ?check_percent_spec; autorewrite with wire;
    rewrite <-?app_assoc; try done.
  - destruct port; cbn; autorewrite with wire; rewrite <-?app_assoc, ?app_nil_r; done.
  - destruct port; cbn; autorewrite with wire; rewrite <-?app_assoc, ?app_nil_r; done.
  - destruct (Z.ltb_spec (as_millis interval) MIN_HEARTBEAT_INTERVAL_MS),
      (Z.leb_spec MIN_HEARTBEAT_INTERVAL_MS (as_millis interval)); try lia; cbn; [done|].
    destruct (Z.ltb_spec u32_max (as_millis interval)),
      (Z.leb_spec (as_millis interval) u32_max); try lia; by rewrite ?put_u32_spec.
  - apply encode_ids_spec.
  - destruct (Z.ltb_spec u64_max (as_micros d)), (Z.leb_spec (as_micros d) u64_max);
      try lia; by rewrite ?put_u64_spec.
  - by destruct (pct <=? 100).
  - by destruct (pct <=? 100).
  - by destruct (pct <=? 100).
Qed.

Lemma length_ids ids : length (ids ≫= to_be_bytes 2) = (2 * length ids)%nat.
Proof.
  induction ids as [|i l IH]; [done|].
  rewrite bind_cons, length_app, IH, length_to_be_bytes, length_cons. lia.
Qed.

(** A value that passes the checks fits the 16-bit length field. *)
Lemma encodable_len item :
  is_item item -> encodable item = true -> len (value_bytes item) <= u16_max.
Proof.
  unfold u16_max, len. destruct item; cbn [is_item encodable value_bytes]; intros Hi He; bprop;
    try (destruct port); cbn [from_option id fmap option_fmap option_map];
    repeat rewrite ?length_app, ?length_cons, ?length_to_be_bytes, ?length_nil, ?length_ids;
    unfold len, u16_max in *; cbn [length]; try lia.
  destruct mac; cbn in *; lia.
Qed.

Lemma patch_spec a (x y : Z) b s :
  length s = 2%nat ->
  patch (length a) s (a ++ x :: y :: b) = (Ok tt, a ++ s ++ b).
Proof.
  intros Hs. unfold patch. rewrite length_app, Hs. cbn [length].
  rewrite (proj2 (Nat.leb_le _ _)) by lia. rewrite take_app_length.
  rewrite drop_app_ge by lia. by replace (length a + 2 - length a)%nat with 2%nat by lia.
Qed.

Lemma u16_length_ok f n : n <= u16_max -> u16_length f n = Ok n.
Proof. intros. unfold u16_length. by rewrite (proj2 (Z.leb_le _ _)). Qed.

(** The TLV after the up-front check, once the value octets are known. *)
Lemma encode_tlv_ok item out :
  is_item item -> encodable item = true ->
  (forall out, encode_value item out = (Ok tt, out ++ value_bytes item)) ->
  encode_tlv item out = (Ok tt, out ++ wire_item item).
Proof.
  intros Hi He Hv. unfold encode_tlv, st_bind, st_modify, buf_len, st_lift.
  rewrite Hv. autorewrite with wire.
  rewrite length_app, Nat.add_comm, Nat.add_sub.
  pose proof (encodable_len item Hi He) as Hl. unfold len in Hl.
  rewrite u16_length_ok by done.
  unfold wire_item, wire_raw, to_raw. cbn [raw_type_id raw_value].
  rewrite (app_assoc out), <-(app_assoc _ _ (value_bytes item)).
  change (to_be_bytes 2 0) with [0; 0]. cbn [app].
  by rewrite patch_spec.
Qed.

Lemma encode_tlv_err item out e :
  (forall out, encode_value item out = (Err e, out)) ->
  exists x, encode_tlv item out = (Err e, out ++ x).
Proof.
  intros Hv. unfold encode_tlv, st_bind, st_modify, buf_len. rewrite Hv.
  autorewrite with wire. rewrite <-!app_assoc. eauto.
Qed.

Lemma RawDataItem_encode_spec raw out :
  RawDataItem_encode raw out
  = if len (raw_value raw) <=? u16_max then (Ok tt, out ++ wire_raw raw)
    else (Err (OutOfRange Field.DATA_ITEM_VALUE_LENGTH (len (raw_value raw))), out).
Proof.
  unfold RawDataItem_encode, st_bind, st_lift, st_modify, u16_length, wire_raw.
  destruct (_ <=? _); [|done]. autorewrite with wire. by rewrite <-!app_assoc.
Qed.

(** The up-front check agrees with [encodable]. *)
Lemma projected_check item n :
  projected_value_len item = Some n ->
  encode_error item = OutOfRange Field.DATA_ITEM_VALUE_LENGTH n
  /\ encodable item = (n <=? u16_max).
Proof.
  assert (Hmin : forall k, (Z.min k usize_max <=? u16_max) = (k <=? u16_max)).
  { intros k. unfold usize_max, u64_max, u16_max.
    destruct (Z.leb_spec k 65535); [apply Z.leb_le|apply Z.leb_gt]; lia. }
  unfold saturating_add, saturating_mul.
  destruct item; cbn; intros [= <-]; unfold saturating_add, saturating_mul;
    by rewrite Hmin.
Qed.

Lemma check_projected_spec item out :
  check_projected item out
  = if is_some (projected_value_len item) && negb (encodable item)
    then (Err (encode_error item), out) else (Ok tt, out).
Proof.
  unfold check_projected. destruct (projected_value_len item) as [n|] eqn:Hp; [|done].
  apply projected_check in Hp as [-> ->]. unfold st_bind, st_lift, u16_length.
  by destruct (n <=? u16_max).
Qed.

(** Without an up-front check, the value itself is written or refused. *)
Lemma encode_value_checked item out :
  (forall raw, item <> Unknown raw) ->
  (encodable item = true -> encode_value item out = (Ok tt, out ++ value_bytes item))
  /\ (encodable item = false -> projected_value_len item = None ->
      encode_value item out = (Err (encode_error item), out)).
Proof.
  intros Hu. pose proof (encode_value_spec item out Hu) as Hv.
  split; intros He; rewrite ?He in Hv; destruct item; done.
Qed.

(** [DataItem::encode] on every item: the TLV is appended, or the error is
    reported and the buffer is as it was. *)
Lemma DataItem_encode_spec item out :
  is_item item ->
  DataItem_encode item out
  = if encodable item then (Ok tt, out ++ wire_item item) else (Err (encode_error item), out).
Proof.
  intros Hi. unfold DataItem_encode.
  assert (Hun : (exists raw, item = Unknown raw) \/ forall raw, item <> Unknown raw)
    by (destruct item; eauto; by right; intros ?).
  destruct Hun as [[raw ->]|Hun].
  { cbn [encode_into encodable encode_error]. rewrite RawDataItem_encode_spec.
    destruct (_ <=? _); [by destruct raw|]. by rewrite buf_truncate_spec, take_ge. }
  assert (encode_into item = (check_projected item;;; encode_tlv item)) as ->
    by (destruct item; try done; by destruct (Hun raw)).
  unfold st_bind. rewrite check_projected_spec.
  destruct (encodable item) eqn:He; rewrite ?andb_false_r; cbn [negb].
  - rewrite encode_tlv_ok; try done. intros o. by apply encode_value_checked.
  - rewrite andb_true_r. destruct (projected_value_len item) eqn:Hp;
      cbn [is_some is_none negb].
    + by rewrite buf_truncate_spec, take_ge.
    + edestruct (encode_tlv_err item out) as [x ->].
      { intros o. by apply encode_value_checked. }
      by rewrite buf_truncate_spec, take_app_length.
Qed.

(** Encoding never panics, whatever the item. *)
Lemma DataItem_encode_no_panic item out : (DataItem_encode item out).1 <> Panic.
Proof.
  unfold DataItem_encode.
  assert (Hun : (exists raw, item = Unknown raw) \/ forall raw, item <> Unknown raw)
    by (destruct item; eauto; by right; intros ?).
  destruct Hun as [[raw ->]|Hun].
  { cbn [encode_into]. rewrite RawDataItem_encode_spec. by destruct (_ <=? _). }
  assert (encode_into item = (check_projected item;;; encode_tlv item)) as ->
    by (destruct item; try done; by destruct (Hun raw)).
  unfold st_bind. rewrite check_projected_spec. destruct (is_some _ && _); [done|].
  unfold encode_tlv, st_bind, st_modify, buf_len, st_lift.
  assert (Hv : forall o, encode_value item o = (Ok tt, o ++ value_bytes item)
                         \/ encode_value item o = (Err (encode_error item), o)).
  { intros o. pose proof (encode_value_spec item o Hun) as H.
    destruct item; auto; destruct (encodable _) in H; auto. }
  destruct (Hv (put_u16 (put_u16 out (type_id item)) 0)) as [->| ->]; [|done].
  autorewrite with wire. unfold u16_length. destruct (_ <=? _); [|done].
  generalize (out ++ to_be_bytes 2 (type_id item)). intros o. rewrite <-(app_assoc o).
  change (to_be_bytes 2 0) with [0; 0]. cbn [app]. by rewrite patch_spec.
Qed.

End Encode.

(** ** Decoding what was encoded *)

Section DecodeWire.
Context {crates : Crates}.

Lemma len_leb_1 {A} (x : A) l : (len (x :: l) <? 1) = false.
Proof. rewrite len_cons. pose proof (len_nonneg l). apply Z.ltb_ge. lia. Qed.

Lemma from_utf8_ok l : utf8_valid l = true -> from_utf8 l = Ok l.
Proof. unfold from_utf8. by intros ->. Qed.

(** The loop over extension ids reads the pairs from its position on. *)
Lemma decode_ids_spec ids fuel (pre : bytes) :
  Forall is_u16 ids -> (length ids <= fuel)%nat ->
  decode_ids fuel (pre ++ (ids ≫= to_be_bytes 2)) (length pre) = Ok ids.
Proof.
  revert fuel pre. induction ids as [|id ids IH]; intros fuel pre Hi Hf.
  { cbn [mbind list_bind]. rewrite app_nil_r.
    destruct fuel; cbn [decode_ids]; by rewrite Nat.ltb_irrefl. }
  destruct fuel as [|fuel]; [cbn in Hf; lia|]. apply Forall_cons in Hi as [Hid Hi].
  rewrite bind_cons. cbn [decode_ids].
  rewrite (proj2 (Nat.ltb_lt _ _)) by (rewrite !length_app, length_to_be_bytes; lia).
  set (rest := ids ≫= to_be_bytes 2).
  assert (Hid' : from_be_bytes (to_be_bytes 2 id) = id)
    by (apply from_to_be_bytes; unfold is_u16, u16_max in Hid; change (256 ^ Z.of_nat 2) with 65536; lia).
  specialize (IH fuel (pre ++ to_be_bytes 2 id) Hi ltac:(cbn in Hf; lia)).
  rewrite <-app_assoc, length_app, length_to_be_bytes in IH. fold rest in IH.
  remember (to_be_bytes 2 id) as w eqn:Hw.
  assert (exists a b, w = [a; b]) as (a & b & ->) by (subst w; by eexists _, _).
  unfold index. rewrite (lookup_app_r _ _ (length pre)) by lia.
  rewrite (lookup_app_r _ _ (length pre + 1)) by lia.
  replace (length pre - length pre)%nat with 0%nat by lia.
  replace (length pre + 1 - length pre)%nat with 1%nat by lia.
  cbn [lookup list_lookup app expect mbind outcome_bind] in *. rewrite IH. cbn. by rewrite Hid'.
Qed.

Lemma decode_wire_extensions ids :
  Forall is_u16 ids ->
  DataItem_decode (to_raw (ExtensionsSupported ids)) = Ok (ExtensionsSupported ids).
Proof.
  intros Hi.
  change (decode_extensions_supported 6 (ids ≫= to_be_bytes 2) = Ok (ExtensionsSupported ids)).
  unfold decode_extensions_supported, len.
  rewrite length_ids, Nat2Z.inj_mul, Z.mul_comm, Z.mod_mul by lia.
  pose proof (decode_ids_spec ids (2 * length ids) [] Hi ltac:(lia)) as H. cbn in H |- *.
  by rewrite H.
Qed.

Lemma decode_wire_text code flags text :
  utf8_valid text = true ->
  DataItem_decode (to_raw (Status code text)) = Ok (Status code text)
  /\ DataItem_decode (to_raw (PeerType flags text)) = Ok (PeerType flags text).
Proof.
  intros Hu. split.
  - change (decode_status 1 (code :: text) = Ok (Status code text)).
    unfold decode_status. rewrite len_leb_1. cbn. by rewrite from_utf8_ok.
  - change (decode_peer_type 4 (encode_peer_flags flags :: text) = Ok (PeerType flags text)).
    unfold decode_peer_type. rewrite len_leb_1.
    destruct flags as [[|]]; cbn; by rewrite from_utf8_ok.
Qed.

Lemma decode_wire_heartbeat d :
  encodable (HeartbeatInterval d) = true ->
  DataItem_decode (to_raw (HeartbeatInterval d))
  = Ok (HeartbeatInterval (from_millis (as_millis d))).
Proof.
  cbn [encodable]. intros He. bprop. set (ms := as_millis d) in *.
  transitivity (let v := from_be_bytes (to_be_bytes 4 ms) in
    if v <? MIN_HEARTBEAT_INTERVAL_MS then Err (OutOfRange Field.HEARTBEAT_INTERVAL_MS v)
    else Ok (HeartbeatInterval (from_millis v))); [reflexivity|]. cbn zeta.
  unfold u32_max, MIN_HEARTBEAT_INTERVAL_MS in *.
  rewrite from_to_be_bytes by (change (256 ^ Z.of_nat 4) with (2 ^ 32); lia).
  by rewrite (proj2 (Z.ltb_ge _ _)).
Qed.

Lemma decode_wire_connection_point flags addr port :
  default True (is_u16 <$> port) ->
  (0 <= addr < 2 ^ 32 ->
   DataItem_decode (to_raw (Ipv4ConnectionPoint flags addr port))
   = Ok (Ipv4ConnectionPoint flags addr port))
  /\ (0 <= addr < 2 ^ 128 ->
   DataItem_decode (to_raw (Ipv6ConnectionPoint flags addr port))
   = Ok (Ipv6ConnectionPoint flags addr port)).
Proof.
  intros Hp.
  assert (Hport : port = (fun p => from_be_bytes (to_be_bytes 2 p)) <$> port).
  { destruct port as [p|]; [|done]. cbn. f_equal. symmetry. apply from_to_be_bytes.
    cbn in Hp. unfold is_u16, u16_max in Hp. change (256 ^ Z.of_nat 2) with 65536. lia. }
  split; intros Ha.
  - pose proof (from_to_be_bytes 4 addr Ha) as Hb.
    rewrite <-Hb at 2. rewrite Hport at 2. by destruct flags as [[|]], port.
  - pose proof (from_to_be_bytes 16 addr Ha) as Hb.
    rewrite <-Hb at 2. rewrite Hport at 2. by destruct flags as [[|]], port.
Qed.

Lemma decode_wire_address add addr :
  (0 <= addr < 2 ^ 32 ->
   DataItem_decode (to_raw (Ipv4Address add addr)) = Ok (Ipv4Address add addr))
  /\ (0 <= addr < 2 ^ 128 ->
   DataItem_decode (to_raw (Ipv6Address add addr)) = Ok (Ipv6Address add addr)).
Proof.
  split; intros Ha.
  - rewrite <-(from_to_be_bytes 4 addr Ha) at 2. by destruct add.
  - rewrite <-(from_to_be_bytes 16 addr Ha) at 2. by destruct add.
Qed.

Lemma decode_wire_subnet4 add n :
  is_net 32 n ->
  DataItem_decode (to_raw (Ipv4AttachedSubnet add n)) = Ok (Ipv4AttachedSubnet add (v4_trunc n)).
Proof.
  intros [Ha Hp]. pose proof (v4_network_range n Ha ltac:(lia)) as Hn.
  transitivity (match Ipv4Net_new (from_be_bytes (to_be_bytes 4 (v4_network n))) (prefix_len n) with
    | None => Err (OutOfRange Field.IPV4_ATTACHED_SUBNET_PREFIX (prefix_len n))
    | Some net => Ok (Ipv4AttachedSubnet add (v4_trunc net)) end); [by destruct add|].
  rewrite (from_to_be_bytes 4 _ Hn), Ipv4Net_new_spec, (proj2 (Z.leb_le _ _)) by lia.
  by rewrite <-v4_trunc_spec, v4_trunc_idemp.
Qed.

Lemma decode_wire_subnet6 add n :
  is_net 128 n ->
  DataItem_decode (to_raw (Ipv6AttachedSubnet add n)) = Ok (Ipv6AttachedSubnet add (v6_trunc n)).
Proof.
  intros [Ha Hp]. pose proof (v6_network_range n Ha ltac:(lia)) as Hn.
  transitivity (match Ipv6Net_new (from_be_bytes (to_be_bytes 16 (v6_network n))) (prefix_len n) with
    | None => Err (OutOfRange Field.IPV6_ATTACHED_SUBNET_PREFIX (prefix_len n))
    | Some net => Ok (Ipv6AttachedSubnet add (v6_trunc net)) end); [by destruct add|].
  rewrite (from_to_be_bytes 16 _ Hn), Ipv6Net_new_spec, (proj2 (Z.leb_le _ _)) by lia.
  by rewrite <-v6_trunc_spec, v6_trunc_idemp.
Qed.

Lemma decode_u64_wire mk kind v :
  is_u64 v -> decode_u64_item mk kind (to_be_bytes 8 v) = Ok (mk v).
Proof.
  intros Hv. transitivity (@Ok CodecError _ (mk (from_be_bytes (to_be_bytes 8 v)))); [done|].
  rewrite from_to_be_bytes; [done|]. unfold is_u64, u64_max in Hv.
  change (256 ^ Z.of_nat 8) with 18446744073709551616. lia.
Qed.

Lemma decode_percent_wire mk f kind v :
  v <= 100 -> decode_percent_item mk f kind [v] = Ok (mk v).
Proof.
  intros Hv. unfold decode_percent_item, decode_percent. cbn.
  by rewrite check_percent_spec, (proj2 (Z.leb_le _ _)).
Qed.

Lemma decode_unknown raw :
  known_type (raw_type_id raw) = false -> DataItem_decode raw = Ok (Unknown raw).
Proof.
  destruct raw as [t v]. unfold DataItem_decode. cbn [raw_type_id raw_value]. intros H.
  assert (Hn : forall k, known_type k = true -> (t =? k) = false)
    by (intros k Hk; apply Z.eqb_neq; intros ->; congruence).
  by rewrite !Hn.
Qed.

(** The canonical form is what a peer decodes. *)
Lemma decode_to_raw item :
  is_item item -> encodable item = true -> faithful_item item ->
  DataItem_decode (to_raw item) = Ok (canonical_item item).
Proof.
  intros Hi He Hf. destruct item; cbn [is_item canonical_item faithful_item] in *.
  - exact (proj1 (decode_wire_text _ (mkPeerFlags false) _ (proj2 Hi))).
  - exact (proj1 (decode_wire_connection_point _ _ _ (proj2 Hi)) (proj1 Hi)).
  - exact (proj2 (decode_wire_connection_point _ _ _ (proj2 Hi)) (proj1 Hi)).
  - exact (proj2 (decode_wire_text 0 _ _ Hi)).
  - by apply decode_wire_heartbeat.
  - by apply decode_wire_extensions.
  - destruct mac as [o|o], Hi as [_ Hl]; do 9 (destruct o as [|? o]; try done).
  - exact (proj1 (decode_wire_address _ _) Hi).
  - exact (proj2 (decode_wire_address _ _) Hi).
  - by apply decode_wire_subnet4.
  - by apply decode_wire_subnet6.
  - by apply (decode_u64_wire MaxDataRateReceive).
  - by apply (decode_u64_wire MaxDataRateTransmit).
  - by apply (decode_u64_wire CurrentDataRateReceive).
  - by apply (decode_u64_wire CurrentDataRateTransmit).
  - apply (decode_u64_wire (fun us => Latency (from_micros us))). cbn in He. bprop.
    split; [|done]. apply Z.div_pos; unfold is_duration in Hi; lia.
  - apply (decode_percent_wire Resources). cbn in He. by bprop.
  - apply (decode_percent_wire RelativeLinkQualityReceive). cbn in He. by bprop.
  - apply (decode_percent_wire RelativeLinkQualityTransmit). cbn in He. by bprop.
  - rewrite <-(from_to_be_bytes 2 mtu) at 2; [done|].
    unfold is_u16, u16_max in Hi. change (256 ^ Z.of_nat 2) with 65536. lia.
  - destruct raw. by apply decode_unknown.
Qed.

End DecodeWire.

(** ** Decoding any octets

    [decode_post raw r]: [r] is not a panic, and an item decoded from [raw] is
    well typed, encodable and canonical, and its octets are those of [raw] with
    the host bits of a subnet zeroed. *)

Section DecodeAny.
Context {crates : Crates}.

Definition decode_post (raw : RawDataItem) (r : outcome CodecError DataItem) : Prop :=
  match r with
  | Panic => False
  | Err _ => True
  | Ok item =>
      to_raw item = canonical_raw raw /\ is_item item /\ encodable item = true
      /\ canonical_item item = item /\ faithful_item item
  end.

Lemma is_bytes_cons b l : is_bytes (b :: l) <-> is_u8 b /\ is_bytes l.
Proof. apply Forall_cons. Qed.

Lemma bytes_range (l : bytes) n : is_bytes l -> length l = n -> 0 <= from_be_bytes l < 256 ^ Z.of_nat n.
Proof. intros Hl <-. by apply from_be_bytes_bound. Qed.

Lemma expect_exact_cases kind got n :
  (got = n /\ expect_exact kind got n = Ok tt) \/ exists e, expect_exact kind got n = Err e.
Proof. unfold expect_exact. destruct (Z.eqb_spec got n); eauto. Qed.

Lemma validate_flags_cases b :
  is_u8 b ->
  (validate_flags b = Ok tt /\ u8_from_bool (negb (Z.land b 1 =? 0)) = b)
  \/ exists e, validate_flags b = Err e.
Proof.
  intros Hb. pose proof (flag_inv b Hb) as H. unfold validate_flags in *.
  destruct (negb (Z.land b 254 =? 0)); eauto.
Qed.

Lemma decode_status_post v :
  is_bytes v -> len v <= u16_max ->
  decode_post (mkRaw DataItemType.STATUS v) (decode_status DataItemType.STATUS v).
Proof.
  intros Hv Hl. unfold decode_status. destruct v as [|b v]; [done|].
  rewrite len_leb_1. cbn [index slice_from lookup list_lookup expect mbind outcome_bind].
  unfold from_utf8. cbn. case_match eqn:Hu; [|done]. cbn.
  apply is_bytes_cons in Hv as [Hb Hv]. rewrite len_cons in Hl.
  repeat split; try apply Hb; [done|by apply Z.leb_le].
Qed.

Lemma decode_peer_type_post v :
  is_bytes v -> len v <= u16_max ->
  decode_post (mkRaw DataItemType.PEER_TYPE v) (decode_peer_type DataItemType.PEER_TYPE v).
Proof.
  intros Hv Hl. unfold decode_peer_type. destruct v as [|b v]; [done|].
  rewrite len_leb_1. apply is_bytes_cons in Hv as [Hb Hv]. cbn.
  destruct (validate_flags_cases b Hb) as [[-> Hf]|[e ->]]; [|done]. cbn.
  unfold from_utf8. case_match eqn:Hu; [|done]. cbn. rewrite len_cons in Hl.
  repeat split; [|done|by apply Z.leb_le].
  unfold to_raw, canonical_raw, canonical_value. cbn. unfold encode_peer_flags. cbn. by rewrite Hf.
Qed.

Lemma to_from_4 a b c d : is_bytes [a; b; c; d] -> to_be_bytes 4 (from_be_bytes [a; b; c; d]) = [a; b; c; d].
Proof. intros H. by apply to_from_be_bytes. Qed.

Lemma to_from_2 a b : is_bytes [a; b] -> to_be_bytes 2 (from_be_bytes [a; b]) = [a; b].
Proof. intros H. by apply to_from_be_bytes. Qed.

Lemma u16_of_2 a b : is_bytes [a; b] -> is_u16 (from_be_bytes [a; b]).
Proof.
  intros H. pose proof (bytes_range [a; b] 2 H eq_refl) as Hr.
  change (256 ^ Z.of_nat 2) with 65536 in Hr. unfold is_u16, u16_max. lia.
Qed.

Lemma decode_ipv4_cp_post v :
  is_bytes v ->
  decode_post (mkRaw DataItemType.IPV4_CONNECTION_POINT v)
    (decode_ipv4_connection_point DataItemType.IPV4_CONNECTION_POINT v).
Proof.
  intros Hv. unfold decode_ipv4_connection_point.
  destruct (Z.eqb_spec (len v) 5) as [Hl|H5], (Z.eqb_spec (len v) 7) as [Hl'|H7]; try done; try lia.
  - unfold len in Hl.
    destruct v as [|b0 [|b1 [|b2 [|b3 [|b4 [|? v]]]]]]; try (cbn in Hl; lia). cbn.
    apply is_bytes_cons in Hv as [Hb Hv].
    destruct (validate_flags_cases _ Hb) as [[-> Hf]|[e ->]]; [|done]. cbn.
    unfold decode_post, to_raw, canonical_raw, canonical_value. cbn.
    unfold encode_cp_flags. cbn. rewrite Hf, to_from_4 by done.
    repeat split; by apply (bytes_range _ 4).
  - unfold len in Hl'.
    destruct v as [|b0 [|b1 [|b2 [|b3 [|b4 [|b5 [|b6 [|? v]]]]]]]]; try (cbn in Hl'; lia). cbn.
    apply is_bytes_cons in Hv as [Hb Hv].
    destruct (validate_flags_cases _ Hb) as [[-> Hf]|[e ->]]; [|done]. cbn.
    apply (Forall_app _ [b1; b2; b3; b4] [b5; b6]) in Hv as [Hv1 Hv2].
    unfold decode_post, to_raw, canonical_raw, canonical_value. cbn.
    unfold encode_cp_flags. cbn. rewrite Hf, to_from_4, to_from_2 by done.
    repeat split; try (by apply (bytes_range _ 4)); by apply u16_of_2.
Qed.

(** Sixteen octets behind the flags. *)
Lemma split_17 (v : bytes) :
  (17 <= length v)%nat -> exists b o r, v = b :: o ++ r /\ length o = 16%nat.
Proof.
  intros H. destruct v as [|b v]; [cbn in H; lia|]. cbn in H.
  exists b, (take 16 v), (drop 16 v). rewrite take_drop, length_take. split; [done|lia].
Qed.

Lemma slice_17 {E} (b : Z) (o r : bytes) :
  length o = 16%nat -> slice (E := E) (b :: o ++ r) 1 17 = Ok o.
Proof.
  intros Ho. unfold slice. cbn [length]. rewrite length_app, Ho, (proj2 (Nat.leb_le _ _)) by lia.
  cbn. f_equal. rewrite <-Ho. apply take_app_length.
Qed.

Lemma index_17 {E} (b : Z) (o r : bytes) k :
  length o = 16%nat -> index (E := E) (b :: o ++ r) (17 + k) = expect (r !! k).
Proof.
  intros Ho. unfold index. f_equal.
  change ((b :: o ++ r) !! (17 + k)%nat) with ((o ++ r) !! (16 + k)%nat).
  rewrite lookup_app_r by lia. f_equal. lia.
Qed.

Lemma decode_ipv6_cp_post v :
  is_bytes v ->
  decode_post (mkRaw DataItemType.IPV6_CONNECTION_POINT v)
    (decode_ipv6_connection_point DataItemType.IPV6_CONNECTION_POINT v).
Proof.
  intros Hv. unfold decode_ipv6_connection_point.
  destruct (negb (len v =? 17) && negb (len v =? 19)) eqn:E; [done|].
  assert (Hl : len v = 17 \/ len v = 19).
  { destruct (Z.eqb_spec (len v) 17), (Z.eqb_spec (len v) 19); auto; done. }
  destruct (split_17 v) as (b & o & r & -> & Ho); [unfold len in Hl; lia|].
  apply is_bytes_cons in Hv as [Hb Hv]. apply Forall_app in Hv as [Hvo Hvr].
  rewrite slice_17, (index_17 b o r 0), (index_17 b o r 1) by done.
  cbn [index lookup list_lookup expect mbind outcome_bind].
  destruct (validate_flags_cases _ Hb) as [[-> Hf]|[e ->]]; [|done].
  pose proof (bytes_range o 16 Hvo Ho) as Hr.
  rewrite len_cons, len_app in *. replace (len o) with 16 in * by (unfold len; lia).
  destruct Hl as [Hl|Hl].
  - rewrite Hl. destruct r; [|rewrite len_cons in Hl; pose proof (len_nonneg r); lia]. cbn.
    unfold decode_post, to_raw, canonical_raw, canonical_value. cbn.
    unfold encode_cp_flags. cbn. rewrite Hf, to_from_be_bytes by done.
    repeat split; apply Hr.
  - rewrite Hl. destruct r as [|x [|y [|z r]]]; rewrite ?len_cons, ?len_nil in Hl; try lia;
      [|pose proof (len_nonneg r); lia]. cbn.
    unfold decode_post, to_raw, canonical_raw, canonical_value. cbn.
    unfold encode_cp_flags. cbn. rewrite Hf, to_from_be_bytes, to_from_2 by done.
    repeat split; try apply Hr; by apply u16_of_2.
Qed.

Lemma millis_of_millis ms : as_millis (from_millis ms) = ms.
Proof. apply Z.div_mul. lia. Qed.

Lemma micros_of_micros us : as_micros (from_micros us) = us.
Proof. apply Z.div_mul. lia. Qed.

Lemma decode_heartbeat_post v :
  is_bytes v ->
  decode_post (mkRaw DataItemType.HEARTBEAT_INTERVAL v)
    (decode_heartbeat_interval DataItemType.HEARTBEAT_INTERVAL v).
Proof.
  intros Hv. unfold decode_heartbeat_interval.
  destruct (expect_exact_cases DataItemType.HEARTBEAT_INTERVAL (len v) 4) as [[Hl ->]|[e ->]]; [|done].
  unfold len in Hl.
  destruct v as [|b0 [|b1 [|b2 [|b3 [|? v]]]]]; try (cbn in Hl; lia). cbn.
  pose proof (bytes_range _ 4 Hv eq_refl) as Hr. change (256 ^ Z.of_nat 4) with 4294967296 in Hr.
  set (ms := from_be_bytes [b0; b1; b2; b3]) in *.
  destruct (Z.ltb_spec ms MIN_HEARTBEAT_INTERVAL_MS) as [|Hm]; [done|].
  unfold decode_post, to_raw, canonical_raw, canonical_value, mret, outcome_ret.
  cbn [canonical_item is_item encodable faithful_item type_id value_bytes].
  rewrite !millis_of_millis. unfold ms at 1. rewrite to_from_4 by done.
  split; [done|]. split; [|split; [|done]].
  - unfold is_duration, from_millis, Duration_MAX, u64_max. lia.
  - unfold u32_max. apply andb_true_iff. split; apply Z.leb_le; lia.
Qed.

(** The id loop consumes an even number of octets without running off the end. *)
Lemma decode_ids_total v (ids_fuel i : nat) :
  is_bytes v -> (i <= length v)%nat -> Nat.even (length v - i) = true ->
  (length v - i <= 2 * ids_fuel)%nat ->
  exists ids, decode_ids ids_fuel v i = Ok ids /\ Forall is_u16 ids
    /\ (ids ≫= to_be_bytes 2) = drop i v.
Proof.
  intros Hv. revert i. induction ids_fuel as [|fuel IH]; intros i Hi He Hf; cbn [decode_ids].
  { rewrite (proj2 (Nat.ltb_ge _ _)) by lia. exists []. cbn. rewrite drop_ge by lia. done. }
  destruct (Nat.ltb_spec i (length v)) as [Hlt|Hge].
  2: { exists []. cbn. rewrite drop_ge by lia. done. }
  assert (Hge2 : (i + 2 <= length v)%nat).
  { destruct (length v - i)%nat as [|[|n]] eqn:E; [lia|done|lia]. }
  destruct (lookup_lt_is_Some_2 v i) as [a Ha]; [lia|].
  destruct (lookup_lt_is_Some_2 v (i + 1)) as [b Hb]; [lia|].
  destruct (IH (i + 2)%nat) as (ids & -> & Hids & Hdrop); [lia| |lia|].
  { replace (length v - i)%nat with (S (S (length v - (i + 2)))) in He by lia. done. }
  unfold index. rewrite Ha, Hb. cbn. eexists. split; [done|].
  assert (Hab : is_bytes [a; b]).
  { apply is_bytes_cons; split; [by eapply (Forall_lookup_1 is_u8 v)|].
    apply is_bytes_cons; split; [by eapply (Forall_lookup_1 is_u8 v)|constructor]. }
  split; [constructor; [by apply u16_of_2|done]|].
  change (to_be_bytes 2 (from_be_bytes [a; b]) ++ (ids ≫= to_be_bytes 2) = drop i v).
  rewrite to_from_2, Hdrop by done.
  rewrite (drop_S v a i Ha), (drop_S v b (S i)) by (rewrite <-Hb; f_equal; lia).
  cbn. do 2 f_equal. f_equal. lia.
Qed.

Lemma decode_extensions_post v :
  is_bytes v -> len v <= u16_max ->
  decode_post (mkRaw DataItemType.EXTENSIONS_SUPPORTED v)
    (decode_extensions_supported DataItemType.EXTENSIONS_SUPPORTED v).
Proof.
  intros Hv Hl. unfold decode_extensions_supported.
  destruct (Z.eqb_spec (len v mod 2) 0) as [Hm|]; [|done]. cbn [negb].
  assert (He : Nat.even (length v) = true).
  { apply Nat.even_spec. unfold len in Hm. exists (Z.to_nat (Z.of_nat (length v) / 2)).
    pose proof (Z.div_mod (Z.of_nat (length v)) 2 ltac:(lia)). lia. }
  destruct (decode_ids_total v (length v) 0 Hv) as (ids & -> & Hids & Hdrop); rewrite ?Nat.sub_0_r;
    [lia|done|lia|]. cbn.
  unfold to_raw, canonical_raw, canonical_value. cbn. cbn in Hdrop. rewrite Hdrop, drop_0.
  split; [done|]. split; [done|]. split; [|done].
  apply Z.leb_le. rewrite drop_0 in Hdrop.
  pose proof (length_ids ids) as Hli. rewrite Hdrop in Hli. unfold len in *. lia.
Qed.

Lemma decode_mac_post v :
  is_bytes v ->
  decode_post (mkRaw DataItemType.MAC_ADDRESS v) (decode_mac_address DataItemType.MAC_ADDRESS v).
Proof.
  intros Hv. unfold decode_mac_address, len.
  destruct (Z.eqb_spec (Z.of_nat (length v)) 6) as [H6|]; [|
    destruct (Z.eqb_spec (Z.of_nat (length v)) 8) as [H8|]; [|done]].
  - unfold slice. rewrite (proj2 (Nat.leb_le 6 (length v))) by lia. cbn.
    rewrite drop_0, take_ge by lia. repeat split; [done|lia].
  - unfold slice. rewrite (proj2 (Nat.leb_le 8 (length v))) by lia. cbn.
    rewrite drop_0, take_ge by lia. repeat split; [done|lia].
Qed.

Lemma decode_ipv4_address_post v :
  is_bytes v ->
  decode_post (mkRaw DataItemType.IPV4_ADDRESS v) (decode_ipv4_address DataItemType.IPV4_ADDRESS v).
Proof.
  intros Hv. unfold decode_ipv4_address.
  destruct (expect_exact_cases DataItemType.IPV4_ADDRESS (len v) 5) as [[Hl ->]|[e ->]]; [|done].
  unfold len in Hl.
  destruct v as [|b0 [|b1 [|b2 [|b3 [|b4 [|? v]]]]]]; try (cbn in Hl; lia). cbn.
  apply is_bytes_cons in Hv as [Hb Hv].
  destruct (validate_flags_cases _ Hb) as [[-> Hf]|[e ->]]; [|done]. cbn.
  unfold to_raw, canonical_raw, canonical_value. cbn. rewrite Hf, to_from_4 by done.
  repeat split; by apply (bytes_range _ 4).
Qed.

Lemma decode_ipv6_address_post v :
  is_bytes v ->
  decode_post (mkRaw DataItemType.IPV6_ADDRESS v) (decode_ipv6_address DataItemType.IPV6_ADDRESS v).
Proof.
  intros Hv. unfold decode_ipv6_address.
  destruct (expect_exact_cases DataItemType.IPV6_ADDRESS (len v) 17) as [[Hl ->]|[e ->]]; [|done].
  destruct (split_17 v) as (b & o & r & -> & Ho); [unfold len in Hl; lia|].
  apply is_bytes_cons in Hv as [Hb Hv]. apply Forall_app in Hv as [Hvo Hvr].
  rewrite slice_17 by done. cbn [index lookup list_lookup expect mbind outcome_bind].
  destruct (validate_flags_cases _ Hb) as [[-> Hf]|[e ->]]; [|done].
  unfold len in Hl. cbn [length] in Hl. rewrite length_app in Hl.
  destruct r; [|cbn in Hl; lia]. cbn.
  unfold to_raw, canonical_raw, canonical_value. cbn.
  rewrite app_nil_r, Hf, to_from_be_bytes by done. repeat split; by apply (bytes_range _ 16).
Qed.

Lemma from_be_bytes_1 b : from_be_bytes [b] = b.
Proof. reflexivity. Qed.

Lemma decode_ipv4_subnet_post v :
  is_bytes v ->
  decode_post (mkRaw DataItemType.IPV4_ATTACHED_SUBNET v)
    (decode_ipv4_attached_subnet DataItemType.IPV4_ATTACHED_SUBNET v).
Proof.
  intros Hv. unfold decode_ipv4_attached_subnet.
  destruct (expect_exact_cases DataItemType.IPV4_ATTACHED_SUBNET (len v) 6) as [[Hl ->]|[e ->]]; [|done].
  unfold len in Hl.
  destruct v as [|b0 [|b1 [|b2 [|b3 [|b4 [|b5 [|? v]]]]]]]; try (cbn in Hl; lia). cbn.
  apply is_bytes_cons in Hv as [Hb Hv].
  apply (Forall_app _ [b1; b2; b3; b4] [b5]) in Hv as [Hv1 Hv2].
  destruct (validate_flags_cases _ Hb) as [[-> Hf]|[e ->]]; [|done]. cbn.
  rewrite Ipv4Net_new_spec. destruct (Z.leb_spec b5 32); [|done]. cbn.
  apply is_bytes_cons in Hv2 as [H5 _]. unfold is_u8 in H5.
  pose proof (bytes_range _ 4 Hv1 eq_refl) as Hr.
  rewrite v4_trunc_idemp. split.
  { unfold to_raw, canonical_raw, canonical_value. cbn.
    rewrite from_be_bytes_1, Hf, v4_network_trunc, v4_trunc_spec. done. }
  rewrite v4_trunc_spec. repeat split; cbn; try lia;
    by apply v4_network_range.
Qed.

Lemma decode_ipv6_subnet_post v :
  is_bytes v ->
  decode_post (mkRaw DataItemType.IPV6_ATTACHED_SUBNET v)
    (decode_ipv6_attached_subnet DataItemType.IPV6_ATTACHED_SUBNET v).
Proof.
  intros Hv. unfold decode_ipv6_attached_subnet.
  destruct (expect_exact_cases DataItemType.IPV6_ATTACHED_SUBNET (len v) 18) as [[Hl ->]|[e ->]]; [|done].
  destruct (split_17 v) as (b & o & r & -> & Ho); [unfold len in Hl; lia|].
  apply is_bytes_cons in Hv as [Hb Hv]. apply Forall_app in Hv as [Hvo Hvr].
  rewrite slice_17, (index_17 b o r 0) by done.
  cbn [index lookup list_lookup expect mbind outcome_bind].
  destruct (validate_flags_cases _ Hb) as [[-> Hf]|[e ->]]; [|done].
  unfold len in Hl. cbn [length] in Hl. rewrite length_app in Hl.
  destruct r as [|p [|? r]]; try (cbn in Hl; lia). cbn.
  rewrite Ipv6Net_new_spec. destruct (Z.leb_spec p 128); [|done]. cbn.
  apply is_bytes_cons in Hvr as [Hp _]. unfold is_u8 in Hp.
  pose proof (bytes_range o 16 Hvo Ho) as Hr.
  rewrite v6_trunc_idemp. split.
  { unfold to_raw, canonical_raw, canonical_value. cbn [raw_type_id raw_value type_id value_bytes].
    cbn [Z.eqb DataItemType.IPV6_ATTACHED_SUBNET DataItemType.IPV4_ATTACHED_SUBNET Pos.eqb].
    change (drop 1 (b :: o ++ [p])) with (o ++ [p]).
    change (drop 17 (b :: o ++ [p])) with (drop 16 (o ++ [p])).
    rewrite <-Ho, take_app_length, drop_app_length, Ho, from_be_bytes_1, Hf, v6_network_trunc.
    by rewrite v6_trunc_spec. }
  rewrite v6_trunc_spec. repeat split; cbn; try lia; by apply v6_network_range.
Qed.

Lemma decode_u64_post mk kind v :
  is_bytes v ->
  (forall x, is_u64 x -> decode_post (mkRaw kind (to_be_bytes 8 x)) (Ok (mk x))) ->
  decode_post (mkRaw kind v) (decode_u64_item mk kind v).
Proof.
  intros Hv Hmk. unfold decode_u64_item.
  destruct (expect_exact_cases kind (len v) 8) as [[Hl ->]|[e ->]]; [|done].
  assert (H8 : length v = 8%nat) by (unfold len in Hl; lia).
  cbn. unfold read_u64_be, slice. rewrite H8. cbn. rewrite drop_0, take_ge by lia.
  pose proof (bytes_range v 8 Hv H8) as Hr. change (256 ^ Z.of_nat 8) with (u64_max + 1) in Hr.
  specialize (Hmk (from_be_bytes v)). rewrite to_from_be_bytes in Hmk by done.
  apply Hmk. unfold is_u64. lia.
Qed.

Lemma decode_percent_post mk f kind v :
  is_bytes v ->
  (forall x, is_u8 x -> x <= 100 -> decode_post (mkRaw kind [x]) (Ok (mk x))) ->
  decode_post (mkRaw kind v) (decode_percent_item mk f kind v).
Proof.
  intros Hv Hmk. unfold decode_percent_item, decode_percent.
  destruct (expect_exact_cases kind (len v) 1) as [[Hl ->]|[e ->]]; [|done].
  unfold len in Hl. destruct v as [|x [|? v]]; try (cbn in Hl; lia). cbn.
  rewrite check_percent_spec. destruct (Z.leb_spec x 100); [|done].
  apply is_bytes_cons in Hv as [Hx _]. by apply Hmk.
Qed.

Lemma decode_mtu_post v :
  is_bytes v -> decode_post (mkRaw DataItemType.MTU v) (decode_mtu DataItemType.MTU v).
Proof.
  intros Hv. unfold decode_mtu.
  destruct (expect_exact_cases DataItemType.MTU (len v) 2) as [[Hl ->]|[e ->]]; [|done].
  unfold len in Hl. destruct v as [|a [|b [|? v]]]; try (cbn in Hl; lia). cbn.
  unfold to_raw, canonical_raw, canonical_value. cbn. rewrite to_from_2 by done.
  repeat split; by apply u16_of_2.
Qed.

Lemma latency_post x :
  is_u64 x ->
  decode_post (mkRaw DataItemType.LATENCY (to_be_bytes 8 x)) (Ok (Latency (from_micros x))).
Proof.
  intros Hx. unfold is_u64 in Hx. cbn.
  unfold to_raw, canonical_raw, canonical_value. cbn. rewrite !micros_of_micros.
  split; [done|]. split; [|split; [apply Z.leb_le; lia|done]].
  unfold is_duration, from_micros, Duration_MAX, u64_max in *. lia.
Qed.

(** A percentage in range is its own canonical form. *)
Ltac percent_item :=
  intros x Hx Hle; split; [done|]; split; [done|]; split; [by apply Z.leb_le|done].

(** Decoding any raw item of octets. *)
Lemma DataItem_decode_post raw :
  is_u16 (raw_type_id raw) -> is_bytes (raw_value raw) -> len (raw_value raw) <= u16_max ->
  decode_post raw (DataItem_decode raw).
Proof.
  destruct raw as [t v]. cbn [raw_type_id raw_value]. intros Ht Hv Hl.
  unfold DataItem_decode. cbn [raw_type_id raw_value].
  destruct (Z.eqb_spec t DataItemType.STATUS) as [->|N1]; [by apply decode_status_post|].
  destruct (Z.eqb_spec t DataItemType.IPV4_CONNECTION_POINT) as [->|N2]; [by apply decode_ipv4_cp_post|].
  destruct (Z.eqb_spec t DataItemType.IPV6_CONNECTION_POINT) as [->|N3]; [by apply decode_ipv6_cp_post|].
  destruct (Z.eqb_spec t DataItemType.PEER_TYPE) as [->|N4]; [by apply decode_peer_type_post|].
  destruct (Z.eqb_spec t DataItemType.HEARTBEAT_INTERVAL) as [->|N5]; [by apply decode_heartbeat_post|].
  destruct (Z.eqb_spec t DataItemType.EXTENSIONS_SUPPORTED) as [->|N6]; [by apply decode_extensions_post|].
  destruct (Z.eqb_spec t DataItemType.MAC_ADDRESS) as [->|N7]; [by apply decode_mac_post|].
  destruct (Z.eqb_spec t DataItemType.IPV4_ADDRESS) as [->|N8]; [by apply decode_ipv4_address_post|].
  destruct (Z.eqb_spec t DataItemType.IPV6_ADDRESS) as [->|N9]; [by apply decode_ipv6_address_post|].
  destruct (Z.eqb_spec t DataItemType.IPV4_ATTACHED_SUBNET) as [->|N10]; [by apply decode_ipv4_subnet_post|].
  destruct (Z.eqb_spec t DataItemType.IPV6_ATTACHED_SUBNET) as [->|N11]; [by apply decode_ipv6_subnet_post|].
  destruct (Z.eqb_spec t DataItemType.MAXIMUM_DATA_RATE_RECEIVE) as [->|N12]; [by apply decode_u64_post|].
  destruct (Z.eqb_spec t DataItemType.MAXIMUM_DATA_RATE_TRANSMIT) as [->|N13]; [by apply decode_u64_post|].
  destruct (Z.eqb_spec t DataItemType.CURRENT_DATA_RATE_RECEIVE) as [->|N14]; [by apply decode_u64_post|].
  destruct (Z.eqb_spec t DataItemType.CURRENT_DATA_RATE_TRANSMIT) as [->|N15]; [by apply decode_u64_post|].
  destruct (Z.eqb_spec t DataItemType.LATENCY) as [->|N16];
    [apply decode_u64_post; [done|apply latency_post]|].
  destruct (Z.eqb_spec t DataItemType.RESOURCES) as [->|N17];
    [apply decode_percent_post; [done|percent_item]|].
  destruct (Z.eqb_spec t DataItemType.RELATIVE_LINK_QUALITY_RECEIVE) as [->|N18];
    [apply decode_percent_post; [done|percent_item]|].
  destruct (Z.eqb_spec t DataItemType.RELATIVE_LINK_QUALITY_TRANSMIT) as [->|N19];
    [apply decode_percent_post; [done|percent_item]|].
  destruct (Z.eqb_spec t DataItemType.MTU) as [->|N20]; [by apply decode_mtu_post|].
  cbn. unfold to_raw, canonical_raw, canonical_value. cbn.
  rewrite (proj2 (Z.eqb_neq t _) N10), (proj2 (Z.eqb_neq t _) N11).
  split; [done|]. split; [done|]. split; [by apply Z.leb_le|]. split; [done|].
  unfold known_type. apply not_true_iff_false. intros Hk. bprop.
  cbv in N1, N2, N3, N4, N5, N6, N7, N8, N9, N10, N11, N12, N13, N14, N15, N16, N17, N18, N19, N20.
  lia.
Qed.

End DecodeAny.
