(* ===== verification/CodecMessage.v ===== *)
(** * Messages, signals and frames

    Theorems about [Message::encode]/[decode], [Signal::encode]/[decode] and the
    stream framing of [MessageCodec]: round trips in both directions, panic
    freedom on any octets, and framing that does not depend on how the stream is
    cut. *)

From S2P Require Import Prelude Externs CoreTypes Codec CodecItem.
Import DataItem.
Open Scope stm_scope.

(** ** Specification *)

Definition is_raw (raw : RawDataItem) : Prop :=
  is_u16 (raw_type_id raw) /\ is_bytes (raw_value raw) /\ len (raw_value raw) <= u16_max.

(** What the Rust types guarantee of a message or signal. *)
Definition is_message (m : Message) : Prop :=
  is_u16 (message_type m) /\ Forall is_item (msg_items m).
Definition is_signal (s : Signal) : Prop :=
  is_u16 (signal_type s) /\ Forall is_item (sig_items s).

Section Spec.
Context {crates : Crates}.

Definition wire_items (items : list DataItem) : bytes := items ≫= wire_item.
Definition wire_raws (raws : list RawDataItem) : bytes := raws ≫= wire_raw.

(** The frame of a message: type, body length, body. *)
Definition wire_frame (mt : MessageType) (body : bytes) : bytes :=
  to_be_bytes 2 mt ++ to_be_bytes 2 (len body) ++ body.

Definition canonical_message (m : Message) : Message :=
  mkMessage (message_type m) (canonical_item <$> msg_items m).
Definition canonical_signal (s : Signal) : Signal :=
  mkSignal (signal_type s) (canonical_item <$> sig_items s).

(** Every item has a wire form and the body fits the 16-bit length field. *)
Definition message_encodable (items : list DataItem) : bool :=
  all encodable items && (len (wire_items items) <=? u16_max).

End Spec.

Section Raw.
Context {crates : Crates}.

Lemma get_2 v rest : get_u16 (to_be_bytes 2 v ++ rest) = Some (from_be_bytes (to_be_bytes 2 v), rest).
Proof. apply get_u16_spec. Qed.

Lemma read_u16_app v rest :
  is_u16 v -> read_u16 (to_be_bytes 2 v ++ rest) = (Ok v, rest).
Proof.
  intros Hv. unfold read_u16. rewrite get_2, from_to_be_bytes; [done|].
  unfold is_u16, u16_max in Hv. change (256 ^ Z.of_nat 2) with 65536. lia.
Qed.

Lemma read_split_app n (v rest : bytes) :
  n = length v -> read_split n (v ++ rest) = (Ok v, rest).
Proof.
  intros ->. unfold read_split. rewrite split_to_spec by (rewrite length_app; lia).
  by rewrite take_app_length, drop_app_length.
Qed.

Lemma ensure_len_ok have needed : needed <= have -> ensure_len have needed = Ok tt.
Proof. intros. unfold ensure_len. by rewrite (proj2 (Z.ltb_ge _ _)). Qed.

Lemma len_is_u16 {A} (l : list A) : len l <= u16_max -> is_u16 (len l).
Proof. split; [apply len_nonneg|done]. Qed.

(** Reading back a raw item leaves the octets behind it. *)
Lemma RawDataItem_decode_wire raw rest :
  is_raw raw -> RawDataItem_decode (wire_raw raw ++ rest) = (Ok raw, rest).
Proof.
  intros (Ht & Hv & Hl). unfold RawDataItem_decode, wire_raw, remaining, st_bind, st_lift, st_ret.
  rewrite <-!app_assoc.
  rewrite ensure_len_ok
    by (rewrite !len_app; unfold len at 1 2; rewrite !length_to_be_bytes;
        pose proof (len_nonneg (raw_value raw)); pose proof (len_nonneg rest); lia).
  rewrite read_u16_app, read_u16_app by (done || by apply len_is_u16).
  rewrite ensure_len_ok by (rewrite len_app; pose proof (len_nonneg rest); lia).
  rewrite read_split_app by (unfold len; lia). by destruct raw.
Qed.

Lemma be_2 (a b : Z) : is_bytes [a; b] -> to_be_bytes 2 (from_be_bytes [a; b]) = [a; b].
Proof. intros H. by apply to_from_be_bytes. Qed.

(** Any octets: no panic, and a raw item is a prefix of what was read. *)
Lemma RawDataItem_decode_any body :
  is_bytes body ->
  match RawDataItem_decode body with
  | (Ok raw, rest) => body = wire_raw raw ++ rest /\ is_raw raw /\ is_bytes rest
  | (Err _, _) => True
  | (Panic, _) => False
  end.
Proof.
  intros Hb. unfold RawDataItem_decode, remaining, st_bind, st_lift, st_ret, ensure_len.
  destruct (Z.ltb_spec (len body) 4) as [|H4]; [done|].
  unfold len in H4. destruct body as [|a [|b [|c [|d body]]]]; try (cbn in H4; lia).
  apply (Forall_app _ [a; b] (c :: d :: body)) in Hb as [Hab Hb].
  apply (Forall_app _ [c; d] body) in Hb as [Hcd Hb].
  unfold read_u16 at 1. rewrite get_u16_spec. unfold read_u16. rewrite get_u16_spec.
  set (l := from_be_bytes [c; d]).
  assert (Hl : is_u16 l) by (by apply u16_of_2).
  destruct (Z.ltb_spec (len body) l) as [|Hlen]; [done|].
  unfold is_u16 in Hl. unfold len in Hlen.
  unfold read_split. rewrite split_to_spec by lia.
  assert (Hlt : len (take (Z.to_nat l) body) = l) by (unfold len; rewrite length_take; lia).
  unfold wire_raw, is_raw. cbn [raw_type_id raw_value]. rewrite Hlt, be_2 by done.
  unfold l. rewrite be_2 by done. fold l.
  split; [|split; [split; [by apply u16_of_2|split; [by apply Forall_take|unfold u16_max in *; lia]]|by apply Forall_drop]].
  by rewrite <-!app_assoc, take_drop.
Qed.

Lemma length_wire_raw raw : length (wire_raw raw) = (4 + length (raw_value raw))%nat.
Proof. unfold wire_raw. rewrite !length_app, !length_to_be_bytes. lia. Qed.

Lemma wire_raw_cons raw rest : exists x l, wire_raw raw ++ rest = x :: l.
Proof. by eexists _, _. Qed.

End Raw.

Section Items.
Context {crates : Crates}.

Lemma encode_items_ok items out :
  Forall is_item items -> all encodable items = true ->
  encode_items items out = (Ok tt, out ++ wire_items items).
Proof.
  intros Hi. revert out. induction Hi as [|item items Hi His IH]; intros out He.
  { cbn. by rewrite app_nil_r. }
  cbn in He. bprop. cbn [encode_items]. unfold st_bind.
  rewrite DataItem_encode_spec, H by done. rewrite IH by done.
  unfold wire_items. by rewrite bind_cons, app_assoc.
Qed.

Lemma encode_items_err items out :
  Forall is_item items -> all encodable items = false ->
  exists e out', encode_items items out = (Err e, out').
Proof.
  intros Hi. revert out. induction Hi as [|item items Hi His IH]; intros out He; [done|].
  cbn in He. cbn [encode_items]. unfold st_bind. rewrite DataItem_encode_spec by done.
  destruct (encodable item); eauto.
Qed.

Lemma is_bytes_app a b : is_bytes a -> is_bytes b -> is_bytes (a ++ b).
Proof. intros. by apply Forall_app. Qed.

Lemma port_is_bytes port : is_bytes (default [] (to_be_bytes 2 <$> port)).
Proof. destruct port; cbn; [apply to_be_bytes_is_bytes|constructor]. Qed.

Lemma prefix_is_bytes bits n : bits <= 255 -> is_net bits n -> is_bytes [prefix_len n].
Proof. intros ? [_ ?]. constructor; [unfold is_u8, u8_max; lia|constructor]. Qed.

Lemma value_is_bytes item : is_item item -> is_bytes (value_bytes item).
Proof.
  destruct item; cbn [is_item value_bytes]; intros Hi;
    try (by apply to_be_bytes_is_bytes); try (by constructor; [apply Hi|constructor]).
  - apply is_bytes_cons. split; [apply Hi|apply utf8_valid_bytes, Hi].
  - apply is_bytes_cons. split; [apply is_u8_flag|].
    apply is_bytes_app; [apply to_be_bytes_is_bytes|apply port_is_bytes].
  - apply is_bytes_cons. split; [apply is_u8_flag|].
    apply is_bytes_app; [apply to_be_bytes_is_bytes|apply port_is_bytes].
  - apply is_bytes_cons. split; [apply is_u8_flag|apply utf8_valid_bytes, Hi].
  - apply Forall_bind, Forall_forall. intros. apply to_be_bytes_is_bytes.
  - by destruct mac, Hi.
  - apply is_bytes_cons. split; [apply is_u8_flag|apply to_be_bytes_is_bytes].
  - apply is_bytes_cons. split; [apply is_u8_flag|apply to_be_bytes_is_bytes].
  - apply is_bytes_cons. split; [apply is_u8_flag|].
    apply is_bytes_app; [apply to_be_bytes_is_bytes|apply (prefix_is_bytes 32); [lia|done]].
  - apply is_bytes_cons. split; [apply is_u8_flag|].
    apply is_bytes_app; [apply to_be_bytes_is_bytes|apply (prefix_is_bytes 128); [lia|done]].
  - apply Hi.
Qed.

Lemma to_raw_is_raw item :
  is_item item -> encodable item = true -> is_raw (to_raw item).
Proof.
  intros Hi He. split; [|split; [by apply value_is_bytes|by apply encodable_len]].
  destruct item; cbn in *; try (by unfold is_u16, u16_max); apply Hi.
Qed.

(** The item loop reads back exactly what was written. *)
Lemma decode_items_wire items fuel :
  Forall is_item items -> all encodable items = true -> Forall faithful_item items ->
  (length items <= fuel)%nat ->
  decode_items fuel (wire_items items) = Ok (canonical_item <$> items).
Proof.
  intros Hi. revert fuel. induction Hi as [|item items Hi His IH]; intros fuel He Hf Hl.
  { by destruct fuel. }
  cbn in He. bprop. apply Forall_cons in Hf as [Hf Hfs].
  destruct fuel as [|fuel]; [cbn in Hl; lia|].
  unfold wire_items. rewrite bind_cons.
  pose proof (RawDataItem_decode_wire (to_raw item) (items ≫= wire_item)
    (to_raw_is_raw _ Hi H)) as Hraw.
  fold (wire_item item) in Hraw.
  destruct (wire_raw_cons (to_raw item) (items ≫= wire_item)) as (x & l & Hx).
  unfold wire_item at 1. unfold wire_item at 1 in Hraw. rewrite Hx in Hraw |- *.
  cbn [decode_items]. rewrite Hraw, decode_to_raw by done. cbn.
  fold (wire_items items). rewrite IH by (done || cbn in Hl; lia). done.
Qed.

Lemma length_wire_items items : (length items <= length (wire_items items))%nat.
Proof.
  induction items as [|i l IH]; [done|]. unfold wire_items in *.
  rewrite bind_cons, length_app. unfold wire_item at 1. rewrite length_wire_raw. cbn. lia.
Qed.

(** Any octets: the item loop ends without a panic, and what it read is the raw
    items, each in canonical form. *)
Lemma decode_items_any fuel body :
  is_bytes body -> (length body <= fuel)%nat ->
  match decode_items fuel body with
  | Ok items =>
      exists raws, body = wire_raws raws /\ Forall is_raw raws
        /\ Forall2 (fun raw item => DataItem_decode raw = Ok item) raws items
  | Err _ => True
  | Panic => False
  end.
Proof.
  revert body. induction fuel as [|fuel IH]; intros body Hb Hl.
  { destruct body; [|cbn in Hl; lia]. exists []. by repeat split. }
  destruct body as [|x body]; [exists []; by repeat split|]. cbn [decode_items].
  set (b := x :: body) in *.
  pose proof (RawDataItem_decode_any b Hb) as Hr.
  destruct (RawDataItem_decode b) as [[raw|e|] rest]; [|done|done].
  destruct Hr as (Hbody & Hraw & Hrest).
  pose proof (DataItem_decode_post raw (proj1 Hraw) (proj1 (proj2 Hraw)) (proj2 (proj2 Hraw))) as Hp.
  destruct (DataItem_decode raw) as [item|e|] eqn:Hd; [|done|done]. cbn.
  assert (Hlr : (length rest <= fuel)%nat).
  { apply (f_equal length) in Hbody. rewrite length_app, length_wire_raw in Hbody. lia. }
  specialize (IH rest Hrest Hlr).
  destruct (decode_items fuel rest) as [items|e|]; [|done|done]. cbn.
  destruct IH as (raws & -> & Hraws & Hall).
  exists (raw :: raws). unfold wire_raws. rewrite bind_cons. repeat split; [done|by constructor..].
Qed.

End Items.

Section Frames.
Context {crates : Crates}.

Lemma encode_items_no_panic items out : (encode_items items out).1 <> Panic.
Proof.
  revert out. induction items as [|i items IH]; intros out; [done|]. cbn. unfold st_bind.
  pose proof (DataItem_encode_no_panic i out) as H.
  destruct (DataItem_encode i out) as [[u|e|] out']; [apply IH|done|done].
Qed.

(** [Message::encode] returns a frame or an error, whatever the message. *)
Lemma Message_encode_no_panic m : Message_encode m <> Panic.
Proof.
  unfold Message_encode. pose proof (encode_items_no_panic (msg_items m) []) as H.
  destruct (encode_items _ _) as [[u|e|] body]; cbn; [|done|done].
  unfold u16_length. by destruct (_ <=? _).
Qed.

Lemma Message_encode_spec m :
  is_message m ->
  if message_encodable (msg_items m)
  then Message_encode m = Ok (wire_frame (message_type m) (wire_items (msg_items m)))
  else exists e, Message_encode m = Err e.
Proof.
  intros [Ht Hi]. unfold message_encodable, Message_encode.
  destruct (all encodable (msg_items m)) eqn:He; cbn [andb].
  - rewrite encode_items_ok by done. cbn [app mbind outcome_bind]. unfold u16_length.
    destruct (_ <=? _); cbn; [|eauto]. autorewrite with wire. by rewrite <-!app_assoc.
  - destruct (encode_items_err _ [] Hi He) as (e & out' & ->). cbn. eauto.
Qed.

Lemma Message_encode_Ok m bs :
  is_message m -> Message_encode m = Ok bs ->
  message_encodable (msg_items m) = true
  /\ bs = wire_frame (message_type m) (wire_items (msg_items m)).
Proof.
  intros Hm H. pose proof (Message_encode_spec m Hm) as Hs.
  destruct (message_encodable (msg_items m)); [|destruct Hs]; split; congruence.
Qed.

Lemma Signal_encode_spec s :
  is_signal s ->
  if message_encodable (sig_items s)
  then Signal_encode s = Ok (SIGNAL_PREFIX ++ wire_frame (signal_type s) (wire_items (sig_items s)))
  else exists e, Signal_encode s = Err e.
Proof.
  intros [Ht Hi]. unfold message_encodable, Signal_encode.
  destruct (all encodable (sig_items s)) eqn:He; cbn [andb].
  - rewrite encode_items_ok by done. cbn [app mbind outcome_bind]. unfold u16_length.
    destruct (_ <=? _); cbn [mbind outcome_bind]; [|eauto]. autorewrite with wire.
    rewrite app_nil_l. by rewrite <-!app_assoc.
  - destruct (encode_items_err _ [] Hi He) as (e & out' & ->). cbn. eauto.
Qed.

(** The header of a frame. *)
Lemma message_body_frame mt body rest :
  is_u16 mt -> len body <= u16_max ->
  message_body (wire_frame mt body ++ rest) = (Ok (mt, body), rest).
Proof.
  intros Ht Hl. unfold message_body, remaining, st_bind, st_lift, st_ret, wire_frame.
  rewrite <-!app_assoc.
  rewrite ensure_len_ok
    by (rewrite !len_app; unfold len at 1 2; rewrite !length_to_be_bytes;
        pose proof (len_nonneg body); pose proof (len_nonneg rest);
        change (Z.of_nat MESSAGE_HEADER_LEN) with 4; lia).
  rewrite read_u16_app, read_u16_app by (done || by apply len_is_u16).
  rewrite (proj2 (Z.ltb_ge _ _)) by (rewrite len_app; pose proof (len_nonneg rest); lia).
  by rewrite read_split_app by (unfold len; lia).
Qed.

Lemma signal_body_frame st body :
  is_u16 st -> len body <= u16_max ->
  signal_body (SIGNAL_PREFIX ++ wire_frame st body) = (Ok (st, body), []).
Proof.
  intros Ht Hl. unfold signal_body, remaining, st_bind, st_lift, st_ret, wire_frame.
  rewrite ensure_len_ok
    by (rewrite !len_app; unfold len at 1 2 3; rewrite !length_to_be_bytes;
        pose proof (len_nonneg body); change (length SIGNAL_PREFIX) with 4%nat;
        change (Z.of_nat SIGNAL_HEADER_LEN) with 8; lia).
  assert (read_copy 4 (SIGNAL_PREFIX ++ to_be_bytes 2 st ++ to_be_bytes 2 (len body) ++ body)
    = (Ok SIGNAL_PREFIX, to_be_bytes 2 st ++ to_be_bytes 2 (len body) ++ body)) as ->.
  { unfold read_copy. rewrite copy_to_slice_spec by (rewrite length_app; cbn; lia). done. }
  rewrite bool_decide_true by done.
  rewrite read_u16_app, read_u16_app by (done || by apply len_is_u16).
  rewrite Z.eqb_refl. pose proof (read_split_app (Z.to_nat (len body)) body []) as Hs.
  rewrite app_nil_r in Hs. rewrite Hs by (unfold len; lia). done.
Qed.

(** The datagram boundary is authoritative. *)
Lemma signal_body_extra st body extra :
  is_u16 st -> len body <= u16_max -> extra <> [] ->
  (signal_body (SIGNAL_PREFIX ++ wire_frame st body ++ extra)).1
  = Err (LengthMismatch (len body) (len (body ++ extra))).
Proof.
  intros Ht Hl Hx. unfold signal_body, remaining, st_bind, st_lift, st_ret, wire_frame.
  rewrite <-!app_assoc. assert (Hextra : 0 < len extra)
    by (destruct extra; [done|rewrite len_cons; pose proof (len_nonneg extra); lia]).
  rewrite ensure_len_ok
    by (rewrite !len_app; unfold len at 1 2 3; rewrite !length_to_be_bytes;
        pose proof (len_nonneg body); change (length SIGNAL_PREFIX) with 4%nat;
        change (Z.of_nat SIGNAL_HEADER_LEN) with 8; lia).
  set (tl := to_be_bytes 2 st ++ to_be_bytes 2 (len body) ++ body ++ extra).
  assert (read_copy 4 (SIGNAL_PREFIX ++ tl) = (Ok SIGNAL_PREFIX, tl)) as ->.
  { unfold read_copy. rewrite copy_to_slice_spec by (rewrite length_app; cbn; lia). done. }
  rewrite bool_decide_true by done. unfold tl.
  rewrite read_u16_app, read_u16_app by (done || by apply len_is_u16).
  by rewrite (proj2 (Z.eqb_neq _ _)) by (rewrite len_app; lia).
Qed.

(** Any octets behind a message header. *)
Lemma message_body_any src :
  is_bytes src ->
  match message_body src with
  | (Ok (mt, body), rest) =>
      src = wire_frame mt body ++ rest /\ is_u16 mt /\ is_bytes body /\ len body <= u16_max
  | (Err _, _) => True
  | (Panic, _) => False
  end.
Proof.
  intros Hb. unfold message_body, remaining, st_bind, st_lift, st_ret, ensure_len.
  change (Z.of_nat MESSAGE_HEADER_LEN) with 4.
  destruct (Z.ltb_spec (len src) 4) as [|H4]; [done|].
  unfold len in H4. destruct src as [|a [|b [|c [|d src]]]]; try (cbn in H4; lia).
  apply (Forall_app _ [a; b] (c :: d :: src)) in Hb as [Hab Hb].
  apply (Forall_app _ [c; d] src) in Hb as [Hcd Hb].
  unfold read_u16 at 1. rewrite get_u16_spec. unfold read_u16. rewrite get_u16_spec.
  set (l := from_be_bytes [c; d]). assert (Hl : is_u16 l) by (by apply u16_of_2).
  destruct (Z.ltb_spec (len src) l) as [|Hlen]; [done|].
  unfold is_u16 in Hl. unfold len in Hlen.
  unfold read_split. rewrite split_to_spec by lia.
  assert (Hlt : len (take (Z.to_nat l) src) = l) by (unfold len; rewrite length_take; lia).
  unfold wire_frame. rewrite Hlt, be_2 by done. unfold l. rewrite be_2 by done. fold l.
  split; [by rewrite <-!app_assoc, take_drop|].
  split; [by apply u16_of_2|]. split; [by apply Forall_take|lia].
Qed.

Lemma signal_body_any src :
  is_bytes src ->
  match signal_body src with
  | (Ok (st, body), _) => is_u16 st /\ is_bytes body
  | (Err _, _) => True
  | (Panic, _) => False
  end.
Proof.
  intros Hb. unfold signal_body, remaining, st_bind, st_lift, st_ret, st_err, ensure_len.
  change (Z.of_nat SIGNAL_HEADER_LEN) with 8.
  destruct (Z.ltb_spec (len src) 8) as [|H8]; [done|]. unfold len in H8.
  unfold read_copy. rewrite copy_to_slice_spec by lia.
  case_bool_decide; [|done].
  assert (Hd : is_bytes (drop 4 src)) by (by apply Forall_drop).
  pose proof (length_drop src 4) as Hdl.
  destruct (drop 4 src) as [|a [|b [|c [|d s]]]]; try (cbn in Hdl; lia).
  apply (Forall_app _ [a; b] (c :: d :: s)) in Hd as [Hab Hd].
  apply (Forall_app _ [c; d] s) in Hd as [Hcd Hd].
  unfold read_u16 at 1. rewrite get_u16_spec. unfold read_u16. rewrite get_u16_spec.
  assert (Hl : is_u16 (from_be_bytes [c; d])) by (by apply u16_of_2).
  destruct (Z.eqb_spec (len s) (from_be_bytes [c; d])) as [Hlen|]; [|done].
  assert (Ht : is_u16 (from_be_bytes [a; b])) by (by apply u16_of_2).
  unfold is_u16, len in *. unfold read_split. rewrite split_to_spec by lia.
  split; [done|by apply Forall_take].
Qed.

(** A frame is not mistaken for a shorter one. *)
Lemma MessageCodec_decode_frame mt body rest :
  is_u16 mt -> len body <= u16_max ->
  MessageCodec_decode (wire_frame mt body ++ rest)
  = (m ← Message_decode (wire_frame mt body); mret (Some m), rest).
Proof.
  intros Ht Hl. unfold MessageCodec_decode.
  assert (Hlen : length (wire_frame mt body) = (4 + length body)%nat)
    by (unfold wire_frame; rewrite !length_app, !length_to_be_bytes; lia).
  rewrite (proj2 (Nat.ltb_ge _ _)) by (rewrite length_app, Hlen; unfold MESSAGE_HEADER_LEN; lia).
  assert (Hpeek : (b2 ← index (wire_frame mt body ++ rest) 2;
                   b3 ← index (wire_frame mt body ++ rest) 3;
                   mret (Z.to_nat (from_be_bytes [b2; b3])))
    = @Ok CodecError _ (Z.to_nat (from_be_bytes (to_be_bytes 2 (len body))))) by done.
  rewrite Hpeek, from_to_be_bytes
    by (change (256 ^ Z.of_nat 2) with (u16_max + 1); pose proof (len_nonneg body); lia).
  unfold MESSAGE_HEADER_LEN.
  rewrite (proj2 (Nat.ltb_ge _ _)) by (rewrite length_app, Hlen; unfold len; lia).
  by rewrite read_split_app by (rewrite Hlen; unfold len; lia).
Qed.

(** An incomplete frame is left alone. *)
Lemma MessageCodec_decode_partial mt body p q :
  is_u16 mt -> len body <= u16_max -> wire_frame mt body = p ++ q -> q <> [] ->
  MessageCodec_decode p = (Ok None, p).
Proof.
  intros Ht Hl Hw Hq. unfold MessageCodec_decode, MESSAGE_HEADER_LEN.
  destruct (Nat.ltb_spec (length p) 4) as [|H4]; [done|].
  assert (Hlen : (length p < 4 + length body)%nat).
  { apply (f_equal length) in Hw. unfold wire_frame in Hw.
    rewrite !length_app, !length_to_be_bytes in Hw. destruct q; [done|]. cbn in Hw. lia. }
  destruct p as [|a [|b [|c [|d p]]]]; try (cbn in H4; lia).
  pose proof (from_to_be_bytes 2 (len body)) as Hf.
  assert (Hcd : to_be_bytes 2 (len body) = [c; d]) by (unfold wire_frame in Hw; cbv [to_be_bytes] in Hw |- *; cbn in Hw; congruence).
  cbn [index lookup list_lookup expect mbind outcome_bind]. unfold mret, outcome_ret.
  rewrite <-Hcd, Hf
    by (change (256 ^ Z.of_nat 2) with (u16_max + 1); pose proof (len_nonneg body); lia).
  by rewrite (proj2 (Nat.ltb_lt _ _)) by (unfold len; lia).
Qed.

End Frames.

(** ** Re-encoding what was decoded *)

Section Reencode.
Context {crates : Crates}.

Lemma expect_exact_Ok kind got n u : expect_exact kind got n = Ok u -> got = n.
Proof. unfold expect_exact. destruct (Z.eqb_spec got n); congruence. Qed.

(** Zeroing host bits keeps the length of a decodable item. *)
Lemma canonical_value_length raw item :
  DataItem_decode raw = Ok item -> length (canonical_value raw) = length (raw_value raw).
Proof.
  intros Hd. unfold canonical_value.
  destruct (Z.eqb_spec (raw_type_id raw) DataItemType.IPV4_ATTACHED_SUBNET) as [E|N4].
  { unfold DataItem_decode in Hd. rewrite E in Hd. cbn in Hd.
    unfold decode_ipv4_attached_subnet in Hd.
    destruct (expect_exact _ (len (raw_value raw)) 6) eqn:Hx; [|done|done].
    apply expect_exact_Ok in Hx. unfold len in Hx.
    rewrite !length_app, length_to_be_bytes, length_take, !length_drop. lia. }
  destruct (Z.eqb_spec (raw_type_id raw) DataItemType.IPV6_ATTACHED_SUBNET) as [E|N6]; [|done].
  unfold DataItem_decode in Hd. rewrite E in Hd. cbn in Hd.
  unfold decode_ipv6_attached_subnet in Hd.
  destruct (expect_exact _ (len (raw_value raw)) 18) eqn:Hx; [|done|done].
  apply expect_exact_Ok in Hx. unfold len in Hx.
  rewrite !length_app, length_to_be_bytes, length_take, !length_drop. lia.
Qed.

(** Decoded items are well typed and encodable, and their octets are the
    canonical form of the octets they came from. *)
Lemma decoded_items raws items :
  Forall is_raw raws ->
  Forall2 (fun raw item => DataItem_decode raw = Ok item) raws items ->
  Forall is_item items /\ all encodable items = true
  /\ wire_items items = wire_raws (canonical_raw <$> raws)
  /\ len (wire_items items) = len (wire_raws raws)
  /\ Forall faithful_item items /\ canonical_item <$> items = items.
Proof.
  intros Hr H. induction H as [|raw item raws items Hd H IH]; [by repeat split|].
  apply Forall_cons in Hr as [(Ht & Hv & Hl) Hr].
  destruct (IH Hr) as (Hi & He & Hw & Hlen & Hf & Hc).
  pose proof (DataItem_decode_post raw Ht Hv Hl) as Hp. rewrite Hd in Hp.
  destruct Hp as (Hraw & Hit & Hen & Hca & Hfa).
  assert (Hwi : wire_item item = wire_raw (canonical_raw raw)) by (unfold wire_item; by rewrite Hraw).
  unfold wire_items, wire_raws in *. rewrite fmap_cons, !bind_cons, !len_app, Hwi, Hw.
  split; [by constructor|]. split; [cbn; by rewrite Hen, He|]. split; [done|].
  split; [|split; [by constructor|cbn; by rewrite Hca, Hc]].
  rewrite <-Hw, Hlen. f_equal. unfold len. rewrite !length_wire_raw. cbn [raw_value canonical_raw].
  by erewrite canonical_value_length.
Qed.

(** What [Message::decode] accepts. *)
Lemma Message_decode_inv src m :
  is_bytes src -> Message_decode src = Ok m ->
  exists raws rest,
    src = wire_frame (message_type m) (wire_raws raws) ++ rest
    /\ is_u16 (message_type m) /\ Forall is_raw raws /\ len (wire_raws raws) <= u16_max
    /\ Forall2 (fun raw item => DataItem_decode raw = Ok item) raws (msg_items m).
Proof.
  intros Hb H. unfold Message_decode in H. pose proof (message_body_any src Hb) as Hm.
  destruct (message_body src) as [[[mt body]|e|] rest]; cbn in H; [|done|done].
  destruct Hm as (Hsrc & Ht & Hbody & Hl).
  pose proof (decode_items_any (length body) body Hbody (le_n _)) as Hi.
  destruct (decode_items (length body) body) as [items|e|]; [|done|done].
  cbn in H. injection H as <-. destruct Hi as (raws & -> & Hraws & Hall). eauto 10.
Qed.

(** What a datagram decodes to is within the types, and encodes. *)
Lemma Signal_decode_typed src s :
  is_bytes src -> Signal_decode src = Ok s ->
  is_signal s /\ all encodable (sig_items s) = true /\ canonical_signal s = s.
Proof.
  intros Hb H. unfold Signal_decode in H. pose proof (signal_body_any src Hb) as Hm.
  destruct (signal_body src) as [[[st body]|e|] rest]; cbn in H; [|done|done].
  destruct Hm as (Ht & Hbody).
  pose proof (decode_items_any (length body) body Hbody (le_n _)) as Hi.
  destruct (decode_items (length body) body) as [items|e|]; [|done|done].
  cbn in H. injection H as <-. destruct Hi as (raws & -> & Hraws & Hall).
  destruct (decoded_items raws items Hraws Hall) as (Hitems & He & _ & _ & _ & Hc).
  split; [done|]. split; [done|]. unfold canonical_signal. cbn. by rewrite Hc.
Qed.

End Reencode.

(** ** A connection as a stream of frames

    [tokio_util]'s [Framed] calls [encode] once per message sent, and [decode]
    on its receive buffer until it answers that more octets are needed. *)
Section Stream.
Context {crates : Crates}.

Fixpoint send_all (ms : list Message) : stm bytes CodecError unit :=
  match ms with
  | [] => st_ret tt
  | m :: ms => MessageCodec_encode m ;;; send_all ms
  end.

Fixpoint recv_all (fuel : nat) (src : bytes) : outcome CodecError (list Message) * bytes :=
  match fuel with
  | O => (Panic, src)
  | S fuel =>
      match MessageCodec_decode src with
      | (Ok (Some m), src') =>
          let '(r, rest) := recv_all fuel src' in (ms ← r; mret (m :: ms), rest)
      | (Ok None, src') => (Ok [], src')
      | (Err e, src') => (Err e, src')
      | (Panic, src') => (Panic, src')
      end
  end.

Definition frame_of (m : Message) : bytes := wire_frame (message_type m) (wire_items (msg_items m)).

Definition sendable (m : Message) : Prop :=
  is_message m /\ Forall faithful_item (msg_items m).

Lemma send_all_frames ms out out' :
  Forall sendable ms -> send_all ms out = (Ok tt, out') ->
  Forall (fun m => message_encodable (msg_items m) = true) ms
  /\ out' = out ++ concat (frame_of <$> ms).
Proof.
  revert out. induction ms as [|m ms IH]; intros out Hs H; cbn in *.
  - injection H as <-. by rewrite app_nil_r.
  - apply Forall_cons in Hs as [[Hm _] Hs]. unfold st_bind, MessageCodec_encode in H.
    pose proof (Message_encode_Ok m) as He.
    destruct (Message_encode m) as [bs|e|]; cbn in H; [|done|done].
    destruct (He bs Hm eq_refl) as [Hen ->].
    destruct (IH _ Hs H) as [Hf ->]. rewrite <-app_assoc. auto.
Qed.

Lemma length_frame_of m : (4 <= length (frame_of m))%nat.
Proof. unfold frame_of, wire_frame. rewrite !length_app, !length_to_be_bytes. lia. Qed.

(** Decoding an encoded message, with any octets behind it. *)
Lemma Message_decode_encoded m bs rest :
  is_message m -> Forall faithful_item (msg_items m) -> Message_encode m = Ok bs ->
  Message_decode (bs ++ rest) = Ok (canonical_message m).
Proof.
  intros Hm Hf He. destruct (Message_encode_Ok m bs Hm He) as [Hen ->].
  unfold message_encodable in Hen. bprop. destruct Hm as [Ht Hi].
  unfold Message_decode. rewrite message_body_frame by done. cbn.
  rewrite decode_items_wire by (done || apply length_wire_items). done.
Qed.

Lemma Signal_decode_encoded s bs :
  is_signal s -> Forall faithful_item (sig_items s) -> Signal_encode s = Ok bs ->
  Signal_decode bs = Ok (canonical_signal s)
  /\ forall extra, extra <> [] -> exists d r, Signal_decode (bs ++ extra) = Err (LengthMismatch d r).
Proof.
  intros Hs Hf He. pose proof (Signal_encode_spec s Hs) as Hspec.
  destruct (message_encodable (sig_items s)) eqn:Hen; [|destruct Hspec; congruence].
  assert (bs = SIGNAL_PREFIX ++ wire_frame (signal_type s) (wire_items (sig_items s))) as ->
    by congruence.
  unfold message_encodable in Hen. bprop. destruct Hs as [Ht Hi]. unfold Signal_decode. split.
  - rewrite signal_body_frame by done. cbn.
    rewrite decode_items_wire by (done || apply length_wire_items). done.
  - intros extra Hx. rewrite <-app_assoc, signal_body_extra by done. cbn. eauto.
Qed.

Lemma MessageCodec_decode_message m rest :
  sendable m -> message_encodable (msg_items m) = true ->
  MessageCodec_decode (frame_of m ++ rest) = (Ok (Some (canonical_message m)), rest).
Proof.
  intros [[Ht Hi] Hf] Hen. unfold message_encodable in Hen. bprop. unfold frame_of.
  rewrite MessageCodec_decode_frame by done. f_equal. unfold Message_decode.
  pose proof (message_body_frame (message_type m) (wire_items (msg_items m)) [] Ht) as Hb.
  rewrite app_nil_r in Hb. rewrite Hb by done. cbn.
  rewrite decode_items_wire by (done || apply length_wire_items). done.
Qed.

Lemma recv_all_frames ms n :
  Forall sendable ms -> Forall (fun m => message_encodable (msg_items m) = true) ms ->
  (length ms < n)%nat ->
  recv_all n (concat (frame_of <$> ms)) = (Ok (canonical_message <$> ms), []).
Proof.
  revert n. induction ms as [|m ms IH]; intros [|n] Hs He Hn; try (cbn in Hn; lia); [done|].
  apply Forall_cons in Hs as [Hm Hs]. apply Forall_cons in He as [Hem He]. cbn in Hn.
  cbn [fmap list_fmap concat recv_all].
  rewrite MessageCodec_decode_message by done. by rewrite IH by (done || lia).
Qed.

Lemma length_frames ms : (length ms <= length (concat (frame_of <$> ms)))%nat.
Proof.
  induction ms as [|m ms IH]; cbn; [lia|]. rewrite length_app.
  pose proof (length_frame_of m). lia.
Qed.

Lemma recv_all_split ms n p q :
  Forall sendable ms -> Forall (fun m => message_encodable (msg_items m) = true) ms ->
  concat (frame_of <$> ms) = p ++ q -> (length p < n)%nat ->
  exists k rest,
    recv_all n p = (Ok (canonical_message <$> take k ms), rest)
    /\ rest ++ q = concat (frame_of <$> drop k ms).
Proof.
  revert n p. induction ms as [|m ms IH]; intros [|n] p Hs He Hc Hn; try lia.
  - cbn in Hc. symmetry in Hc. apply app_eq_nil in Hc as [-> ->]. by exists 0%nat, [].
  - apply Forall_cons in Hs as [Hm Hs]. apply Forall_cons in He as [Hem He].
    cbn [fmap list_fmap concat] in Hc.
    destruct (decide (length p < length (frame_of m))%nat) as [Hlt|Hge].
    + exists 0%nat, p. split; [|done].
      apply app_eq_inv in Hc as [(k & Hk & _)|(k & -> & _)]; [|rewrite length_app in Hlt; lia].
      cbn [recv_all]. destruct Hm as [[Ht _] _]. unfold message_encodable in Hem. bprop.
      rewrite (MessageCodec_decode_partial _ _ p k Ht) by
        (done || (intros ->; rewrite app_nil_r in Hk; rewrite Hk in Hlt; lia)).
      done.
    + assert (exists p', p = frame_of m ++ p' /\ concat (frame_of <$> ms) = p' ++ q) as (p' & -> & Hp').
      { apply app_eq_inv in Hc as [(k & Hk & Hq)|(k & -> & Hq)]; [|eauto].
        assert (k = []) as ->.
        { destruct k; [done|]. rewrite Hk, length_app in Hge. cbn in Hge. lia. }
        exists []. rewrite app_nil_r in Hk |- *. done. }
      pose proof (length_frame_of m). rewrite length_app in Hn.
      destruct (IH n p' Hs He Hp' ltac:(lia)) as (k & rest & Hr & Hrest).
      exists (S k), rest. split; [|done]. cbn [recv_all].
      rewrite MessageCodec_decode_message by done. by rewrite Hr.
Qed.

End Stream.

(** ** Properties *)

(** A sample message: a destination with an attached subnet given with host
    bits, and a latency that is not a whole number of microseconds. *)
Definition sample_message : Message :=
  mkMessage MessageType.DESTINATION_UP
    [MacAddress (Eui48 [1; 2; 3; 4; 5; 6]);
     Ipv4AttachedSubnet true (mkNet 167772165 24);
     Latency 1500].

Definition sample_bytes : bytes :=
  [0; 7; 0; 32; 0; 7; 0; 6; 1; 2; 3; 4; 5; 6; 0; 10; 0; 6; 1; 10; 0; 0; 0; 24;
   0; 16; 0; 8; 0; 0; 0; 0; 0; 0; 0; 1].

Lemma sample_message_ok : is_message sample_message.
Proof.
  split; [by unfold is_u16, u16_max|]. unfold sample_message. cbn [msg_items].
  apply Forall_cons; split; [split; [|done]; repeat constructor; unfold u8_max; lia|].
  apply Forall_cons; split; [by repeat split|]. apply Forall_cons; split; [by split|constructor].
Qed.

Section Properties.
Context {crates : Crates}.

(** C34: Round trip.  Whatever octets [Message::encode] produces for a message,
    [Message::decode] reads back from them (also with further octets behind) the
    same message, with durations in wire units and subnets in network form. *)
Theorem message_roundtrip m bs rest :
  is_message m -> Forall faithful_item (msg_items m) -> Message_encode m = Ok bs ->
  Message_decode (bs ++ rest) = Ok (canonical_message m).
Proof. apply Message_decode_encoded. Qed.

(** C35: Re-encoding.  Any octets accepted by [Message::decode] are a frame of raw
    items; re-encoding the decoded message gives the same frame, octet for octet,
    except that the host bits of attached subnets are zeroed. *)
Theorem message_reencode src m :
  is_bytes src -> Message_decode src = Ok m ->
  exists raws rest,
    src = wire_frame (message_type m) (wire_raws raws) ++ rest
    /\ Message_encode m = Ok (wire_frame (message_type m) (wire_raws (canonical_raw <$> raws)))
    /\ canonical_message m = m.
Proof.
  intros Hb H. destruct (Message_decode_inv src m Hb H) as (raws & rest & Hs & Ht & Hr & Hl & Hd).
  destruct (decoded_items raws (msg_items m) Hr Hd) as (Hi & He & Hw & Hlen & Hf & Hc).
  exists raws, rest. split; [done|]. split.
  - pose proof (Message_encode_spec m (conj Ht Hi)) as Hspec.
    unfold message_encodable in Hspec. rewrite He, Hlen, (proj2 (Z.leb_le _ _) Hl) in Hspec.
    cbn in Hspec. by rewrite Hspec, Hw.
  - unfold canonical_message. rewrite Hc. by destruct m.
Qed.

Lemma Message_decode_no_panic src : is_bytes src -> Message_decode src <> Panic.
Proof.
  intros Hs. unfold Message_decode. pose proof (message_body_any src Hs) as H.
  destruct (message_body src) as [[[mt body]|e|] rest]; cbn; [|done|done].
  destruct H as (_ & _ & Hb & _). pose proof (decode_items_any _ body Hb (le_n _)) as Hi.
  by destruct (decode_items (length body) body).
Qed.

(** The stream decoder never panics and leaves octets behind. *)
Lemma MessageCodec_decode_any src :
  is_bytes src ->
  (MessageCodec_decode src).1 <> Panic /\ is_bytes (MessageCodec_decode src).2.
Proof.
  intros Hb. unfold MessageCodec_decode, MESSAGE_HEADER_LEN.
  destruct (Nat.ltb_spec (length src) 4); [done|].
  destruct src as [|a [|b [|c [|d s]]]]; try (cbn in *; lia).
  cbn [index lookup list_lookup expect mbind outcome_bind mret outcome_ret].
  destruct (Nat.ltb_spec (length (a :: b :: c :: d :: s)) (4 + Z.to_nat (from_be_bytes [c; d])));
    [done|].
  unfold read_split. rewrite split_to_spec by done.
  pose proof (Message_decode_no_panic _
    (Forall_take is_u8 (4 + Z.to_nat (from_be_bytes [c; d])) _ Hb)) as Hm. cbn [fst snd].
  split; [by destruct (Message_decode _)|by apply Forall_drop].
Qed.

Lemma Signal_decode_no_panic src : is_bytes src -> Signal_decode src <> Panic.
Proof.
  intros Hb.
  unfold Signal_decode. pose proof (signal_body_any src Hb) as H.
  destruct (signal_body src) as [[[st body]|e|] rest]; cbn; [|done|done].
  pose proof (decode_items_any _ body (proj2 H) (le_n _)) as Hi.
  by destruct (decode_items (length body) body).
Qed.

(** C36: Panic freedom.  [Message::decode], [Signal::decode] and the stream decoder
    return a value or an error on any octets: no index, slice or buffer read is
    out of range, and the item loops end. *)
Theorem decode_never_panics src :
  is_bytes src ->
  Message_decode src <> Panic /\ Signal_decode src <> Panic
  /\ (MessageCodec_decode src).1 <> Panic.
Proof.
  intros Hb. split_and!; [by apply Message_decode_no_panic|by apply Signal_decode_no_panic|by apply MessageCodec_decode_any].
Qed.

(** Encoding one item.  [DataItem::encode] appends exactly the TLV of a value
    that has one, and for any other value returns an error and leaves the
    caller's buffer as it was. *)
Theorem item_encode_exact item out :
  is_item item ->
  DataItem_encode item out
  = if encodable item then (Ok tt, out ++ wire_item item) else (Err (encode_error item), out).
Proof. apply DataItem_encode_spec. Qed.

(** Discovery signals.  A signal that encodes is read back from its datagram,
    and the datagram is rejected when octets are added to it. *)
Theorem signal_roundtrip s bs :
  is_signal s -> Forall faithful_item (sig_items s) -> Signal_encode s = Ok bs ->
  Signal_decode bs = Ok (canonical_signal s)
  /\ forall extra, extra <> [] -> exists d r, Signal_decode (bs ++ extra) = Err (LengthMismatch d r).
Proof. apply Signal_decode_encoded. Qed.

(** C37: Framing.  However the octet stream of a sequence of messages is cut in
    two, reading the first part yields a prefix of the messages and keeps the
    octets of a partial frame, and reading those with the second part yields
    exactly the rest of the messages, with no octet left. *)
Theorem stream_framing ms p q :
  Forall sendable ms -> send_all ms [] = (Ok tt, p ++ q) ->
  exists k rest,
    recv_all (S (length p)) p = (Ok (canonical_message <$> take k ms), rest)
    /\ recv_all (S (length (rest ++ q))) (rest ++ q) = (Ok (canonical_message <$> drop k ms), []).
Proof.
  intros Hs H. destruct (send_all_frames ms [] _ Hs H) as [He Hc]. cbn in Hc.
  destruct (recv_all_split ms (S (length p)) p q Hs He (eq_sym Hc) ltac:(lia))
    as (k & rest & Hr & Hrest).
  exists k, rest. split; [done|]. rewrite Hrest.
  apply recv_all_frames; [by apply Forall_drop|by apply Forall_drop|].
  pose proof (length_frames (drop k ms)). lia.
Qed.

End Properties.

(** ** Witnesses *)

Lemma sample_faithful : Forall faithful_item (msg_items sample_message).
Proof. repeat (apply Forall_cons; split; [done|]). constructor. Qed.

Lemma sample_bytes_ok : is_bytes sample_bytes.
Proof. by apply (bool_decide_unpack _). Qed.

Lemma message_roundtrip_witness :
  Message_encode (crates := reference_crates) sample_message = Ok sample_bytes
  /\ Message_decode (crates := reference_crates) (sample_bytes ++ [9])
     = Ok (canonical_message (crates := reference_crates) sample_message).
Proof.
  split; [by vm_compute|].
  apply (message_roundtrip (crates := reference_crates));
    [apply sample_message_ok|apply sample_faithful|by vm_compute].
Defined.

Lemma message_reencode_witness :
  exists m raws rest,
    Message_decode (crates := reference_crates) sample_bytes = Ok m
    /\ sample_bytes = wire_frame (message_type m) (wire_raws raws) ++ rest
    /\ Message_encode (crates := reference_crates) m
       = Ok (wire_frame (message_type m)
               (wire_raws (canonical_raw (crates := reference_crates) <$> raws)))
    /\ canonical_message (crates := reference_crates) m = m.
Proof.
  exists (canonical_message (crates := reference_crates) sample_message).
  destruct (message_reencode (crates := reference_crates) sample_bytes
    (canonical_message (crates := reference_crates) sample_message) sample_bytes_ok
    ltac:(by vm_compute)) as (raws & rest & H). exists raws, rest. split; [by vm_compute|exact H].
Defined.

Lemma decode_never_panics_witness :
  Message_decode (crates := reference_crates) [0; 1; 0; 9; 7] <> Panic
  /\ Signal_decode (crates := reference_crates) [0; 1; 0; 9; 7] <> Panic
  /\ (MessageCodec_decode (crates := reference_crates) [0; 1; 0; 9; 7]).1 <> Panic.
Proof. apply (decode_never_panics (crates := reference_crates)). by apply (bool_decide_unpack _). Defined.

Lemma item_encode_exact_witness :
  DataItem_encode (crates := reference_crates) (Resources 101) [1; 2]
  = (Err (encode_error (Resources 101)), [1; 2]).
Proof.
  refine (eq_trans (item_encode_exact (crates := reference_crates) (Resources 101) [1; 2] _) _);
    [by split|reflexivity].
Defined.

Definition sample_signal : Signal :=
  mkSignal SignalType.PEER_OFFER
    [Ipv4ConnectionPoint (mkConnectionPointFlags true) 3232235777 (Some 854)].

Lemma signal_roundtrip_witness :
  exists bs, Signal_encode (crates := reference_crates) sample_signal = Ok bs
  /\ Signal_decode (crates := reference_crates) bs
     = Ok (canonical_signal (crates := reference_crates) sample_signal)
  /\ forall extra, extra <> [] -> exists d r,
       Signal_decode (crates := reference_crates) (bs ++ extra) = Err (LengthMismatch d r).
Proof.
  exists [68; 76; 69; 80; 0; 2; 0; 11; 0; 2; 0; 7; 1; 192; 168; 1; 1; 3; 86].
  split; [by vm_compute|].
  apply (signal_roundtrip (crates := reference_crates)); [| |by vm_compute].
  - by repeat constructor.
  - by repeat constructor.
Defined.

Lemma stream_framing_witness :
  exists k rest,
    recv_all (crates := reference_crates) 10 (take 9 sample_bytes)
    = (Ok (canonical_message (crates := reference_crates) <$> take k [sample_message]), rest)
    /\ recv_all (crates := reference_crates) (S (length (rest ++ drop 9 sample_bytes)))
         (rest ++ drop 9 sample_bytes)
       = (Ok (canonical_message (crates := reference_crates) <$> drop k [sample_message]), []).
Proof.
  apply (stream_framing (crates := reference_crates) [sample_message]
    (take 9 sample_bytes) (drop 9 sample_bytes)); [|by vm_compute].
  constructor; [|constructor]. split; [apply sample_message_ok|apply sample_faithful].
Defined.
