(* ===== verification/Addresses.v ===== *)
(** * Address and attached-subnet state

    [dlep-fsm/src/addresses.rs]: the complete address set of a destination or of
    the session ([DestinationAddrs]), explicit changes to it ([AddressChanges]),
    and the two ways to apply them.  [apply_family] is proved equal to a
    reference on sets (keep unless removed, add unless removed); [apply_strict]
    is atomic; the wire form of changes is read back. *)

From S2P Require Import Prelude Externs CoreTypes Codec CodecItem CodecMessage.
Import DataItem.

(** IPv4 and IPv6 addresses are their 32-bit and 128-bit values. *)
Abbreviation Ipv4Addr := Z.
Abbreviation Ipv6Addr := Z.

Record DestinationAddrs : Type := mkAddrs {
  v4 : list Ipv4Addr;
  v6 : list Ipv6Addr;
  v4_subnets : list IpNet;
  v6_subnets : list IpNet;
}.

Definition DestinationAddrs_default : DestinationAddrs := mkAddrs [] [] [] [].

Record AddressChanges : Type := mkChanges {
  added : DestinationAddrs;
  removed : DestinationAddrs;
}.

Definition AddressChanges_default : AddressChanges :=
  mkChanges DestinationAddrs_default DestinationAddrs_default.

#[global] Instance DestinationAddrs_eq_dec : EqDecision DestinationAddrs.
Proof. solve_decision. Defined.
#[global] Instance AddressChanges_eq_dec : EqDecision AddressChanges.
Proof. solve_decision. Defined.

Definition is_empty_list {A} (l : list A) : bool :=
  match l with [] => true | _ => false end.

Definition DestinationAddrs_is_empty (self : DestinationAddrs) : bool :=
  is_empty_list (v4 self) && is_empty_list (v6 self)
  && is_empty_list (v4_subnets self) && is_empty_list (v6_subnets self).

Definition AddressChanges_is_empty (self : AddressChanges) : bool :=
  DestinationAddrs_is_empty (added self) && DestinationAddrs_is_empty (removed self).

Section Addresses.
Context {crates : Crates}.

Definition addrs_canonical (self : DestinationAddrs) : DestinationAddrs :=
  mkAddrs (v4 self) (v6 self) (v4_trunc <$> v4_subnets self) (v6_trunc <$> v6_subnets self).

Definition changes_canonical (self : AddressChanges) : AddressChanges :=
  mkChanges (addrs_canonical (added self)) (addrs_canonical (removed self)).

(** ** Reading changes from a message *)

Definition push_v4 (a : Ipv4Addr) (s : DestinationAddrs) : DestinationAddrs :=
  mkAddrs (v4 s ++ [a]) (v6 s) (v4_subnets s) (v6_subnets s).
Definition push_v6 (a : Ipv6Addr) (s : DestinationAddrs) : DestinationAddrs :=
  mkAddrs (v4 s) (v6 s ++ [a]) (v4_subnets s) (v6_subnets s).
Definition push_v4_subnet (n : IpNet) (s : DestinationAddrs) : DestinationAddrs :=
  mkAddrs (v4 s) (v6 s) (v4_subnets s ++ [n]) (v6_subnets s).
Definition push_v6_subnet (n : IpNet) (s : DestinationAddrs) : DestinationAddrs :=
  mkAddrs (v4 s) (v6 s) (v4_subnets s) (v6_subnets s ++ [n]).

(** [let set = if *add { &mut changes.added } else { &mut changes.removed }]. *)
Definition update_set (add : bool) (f : DestinationAddrs -> DestinationAddrs)
    (changes : AddressChanges) : AddressChanges :=
  if add then mkChanges (f (added changes)) (removed changes)
  else mkChanges (added changes) (f (removed changes)).

Definition from_message_item (changes : AddressChanges) (item : DataItem) : AddressChanges :=
  match item with
  | Ipv4Address add addr => update_set add (push_v4 addr) changes
  | Ipv6Address add addr => update_set add (push_v6 addr) changes
  | Ipv4AttachedSubnet add subnet => update_set add (push_v4_subnet (v4_trunc subnet)) changes
  | Ipv6AttachedSubnet add subnet => update_set add (push_v6_subnet (v6_trunc subnet)) changes
  | _ => changes
  end.

Definition from_message (message : Message) : AddressChanges :=
  foldl from_message_item AddressChanges_default (msg_items message).

(** ** Writing changes to a message *)

Definition push_item (message : Message) (item : DataItem) : Message :=
  mkMessage (message_type message) (msg_items message ++ [item]).

Definition append_set (message : Message) (add : bool) (addresses : DestinationAddrs) : Message :=
  let message := foldl (fun m addr => push_item m (Ipv4Address add addr)) message (v4 addresses) in
  let message := foldl (fun m addr => push_item m (Ipv6Address add addr)) message (v6 addresses) in
  let message := foldl (fun m subnet => push_item m (Ipv4AttachedSubnet add (v4_trunc subnet)))
                   message (v4_subnets addresses) in
  foldl (fun m subnet => push_item m (Ipv6AttachedSubnet add (v6_trunc subnet)))
    message (v6_subnets addresses).

Definition append_to (self : AddressChanges) (message : Message) : Message :=
  foldl (fun m '(add, addresses) => append_set m add addresses) message
    [(false, removed self); (true, added self)].

(** ** Validation *)

(** [l.iter().enumerate().all(|(n, value)| !l[..n].contains(value) && p(value))]. *)
Fixpoint all_fresh {A} `{EqDecision A} (before : list A) (p : A -> bool) (l : list A) : bool :=
  match l with
  | [] => true
  | value :: rest =>
      negb (contains before value) && p value && all_fresh (before ++ [value]) p rest
  end.

(** The inner [valid] of [validate]. *)
Definition valid_change {A} `{EqDecision A} (add remove : list A) : bool :=
  all_fresh [] (fun value => negb (contains remove value)) add
  && all_fresh [] (fun _ => true) remove.

Definition validate (self : AddressChanges) : outcome StatusCode unit :=
  let changes := changes_canonical self in
  if valid_change (v4 (added changes)) (v4 (removed changes))
     && valid_change (v6 (added changes)) (v6 (removed changes))
     && valid_change (v4_subnets (added changes)) (v4_subnets (removed changes))
     && valid_change (v6_subnets (added changes)) (v6_subnets (removed changes))
  then Ok tt
  else Err StatusCode.INVALID_DATA.

(** ** Application *)

(** The inner [apply] of [apply_lenient]. *)
Definition apply_push {A} `{EqDecision A} (remove : list A) (current : list A) (a : A) : list A :=
  if negb (contains remove a) && negb (contains current a) then current ++ [a] else current.

Definition apply_family {A} `{EqDecision A} (current add remove : list A) : list A :=
  foldl (apply_push remove)
    (retain (fun a => negb (contains remove a) || contains add a) current) add.

Definition apply_lenient (self : AddressChanges) (current : DestinationAddrs)
    : DestinationAddrs :=
  let changes := changes_canonical self in
  mkAddrs
    (apply_family (v4 current) (v4 (added changes)) (v4 (removed changes)))
    (apply_family (v6 current) (v6 (added changes)) (v6 (removed changes)))
    (apply_family (v4_subnets current) (v4_subnets (added changes)) (v4_subnets (removed changes)))
    (apply_family (v6_subnets current) (v6_subnets (added changes)) (v6_subnets (removed changes))).

(** The inner [valid] of [apply_strict]. *)
Definition valid_strict {A} `{EqDecision A} (current add remove : list A) : bool :=
  all (fun a => negb (contains current a)) add && all (fun a => contains current a) remove.

(** The borrowed [current] is the state: it keeps its value on an error. *)
Definition apply_strict (self : AddressChanges) (current : DestinationAddrs)
    : outcome StatusCode unit * DestinationAddrs :=
  match validate self with
  | Ok _ =>
      let changes := changes_canonical self in
      if negb (valid_strict (v4 current) (v4 (added changes)) (v4 (removed changes)))
         || negb (valid_strict (v6 current) (v6 (added changes)) (v6 (removed changes)))
         || negb (valid_strict (v4_subnets current) (v4_subnets (added changes))
                    (v4_subnets (removed changes)))
         || negb (valid_strict (v6_subnets current) (v6_subnets (added changes))
                    (v6_subnets (removed changes)))
      then (Err StatusCode.INVALID_DATA, current)
      else (Ok tt, apply_lenient changes current)
  | Err e => (Err e, current)
  | Panic => (Panic, current)
  end.

(** [between], with its inner [difference]. *)
Definition difference (a b : DestinationAddrs) : DestinationAddrs :=
  mkAddrs
    (retain (fun v => negb (contains (v4 b) v)) (v4 a))
    (retain (fun v => negb (contains (v6 b) v)) (v6 a))
    (retain (fun v => negb (contains (v4_subnets b) v)) (v4_subnets a))
    (retain (fun v => negb (contains (v6_subnets b) v)) (v6_subnets a)).

Definition between (old new : DestinationAddrs) : AddressChanges :=
  mkChanges (difference new old) (difference old new).

End Addresses.

(** ** Specification: address sets *)

(** One address or subnet of any of the four families. *)
Inductive Entry : Type :=
  | EntryV4 (a : Ipv4Addr)
  | EntryV6 (a : Ipv6Addr)
  | EntryV4Subnet (n : IpNet)
  | EntryV6Subnet (n : IpNet).

Definition has (d : DestinationAddrs) (e : Entry) : Prop :=
  match e with
  | EntryV4 a => a ∈ v4 d
  | EntryV6 a => a ∈ v6 d
  | EntryV4Subnet n => n ∈ v4_subnets d
  | EntryV6Subnet n => n ∈ v6_subnets d
  end.

#[global] Instance has_dec d e : Decision (has d e).
Proof. destruct e; unfold has; apply _. Defined.

(** Every family lists a value at most once. *)
Definition addrs_nodup (d : DestinationAddrs) : Prop :=
  NoDup (v4 d) /\ NoDup (v6 d) /\ NoDup (v4_subnets d) /\ NoDup (v6_subnets d).

(** Two complete sets that hold the same entries. *)
Definition addrs_equiv (a b : DestinationAddrs) : Prop := forall e, has a e <-> has b e.

#[global] Instance addrs_equiv_equivalence : Equivalence addrs_equiv.
Proof.
  split.
  - intros a e. done.
  - intros a b H e. by rewrite (H e).
  - intros a b c H1 H2 e. by rewrite (H1 e), (H2 e).
Qed.

#[global] Instance has_proper : Proper (addrs_equiv ==> eq ==> iff) has.
Proof. intros a b H e _ <-. apply H. Qed.

(** Changes that mean one thing: nothing listed twice, nothing both added and
    removed. *)
Definition unambiguous (c : AddressChanges) : Prop :=
  addrs_nodup (added c) /\ addrs_nodup (removed c)
  /\ forall e, has (added c) e -> ~ has (removed c) e.

(** Changes that fit the current set: adds are new, removals are known. *)
Definition applicable (c : AddressChanges) (cur : DestinationAddrs) : Prop :=
  forall e, (has (added c) e -> ~ has cur e) /\ (has (removed c) e -> has cur e).

Section Facts.
Context {crates : Crates}.

Lemma elem_of_apply_push {A} `{EqDecision A} (rem add : list A) acc x :
  x ∈ foldl (apply_push rem) acc add <-> x ∈ acc \/ (x ∈ add /\ x ∉ rem).
Proof.
  revert acc. induction add as [|a add IH]; intros acc; cbn; [set_solver|].
  rewrite IH. unfold apply_push.
  destruct (contains rem a) eqn:Hr; [apply contains_spec in Hr|apply contains_false in Hr]; cbn.
  - set_solver.
  - destruct (contains acc a) eqn:Ha; [apply contains_spec in Ha|]; cbn; set_solver.
Qed.

Lemma NoDup_apply_push {A} `{EqDecision A} (rem add : list A) acc :
  NoDup acc -> NoDup (foldl (apply_push rem) acc add).
Proof.
  revert acc. induction add as [|a add IH]; intros acc H; cbn; [done|].
  apply IH. unfold apply_push. destruct (contains rem a); cbn; [done|].
  destruct (contains acc a) eqn:Ha; cbn; [done|]. apply contains_false in Ha.
  apply NoDup_app. split; [done|]. split; [|apply NoDup_singleton]. set_solver.
Qed.

Lemma elem_of_apply_family {A} `{EqDecision A} (cur add rem : list A) x :
  x ∈ apply_family cur add rem
  <-> (x ∈ cur /\ (x ∉ rem \/ x ∈ add)) \/ (x ∈ add /\ x ∉ rem).
Proof.
  unfold apply_family. rewrite elem_of_apply_push, elem_of_retain, orb_true_iff, negb_true_iff,
    contains_false, contains_spec. tauto.
Qed.

Lemma NoDup_apply_family {A} `{EqDecision A} (cur add rem : list A) :
  NoDup cur -> NoDup (apply_family cur add rem).
Proof. intros H. by apply NoDup_apply_push, NoDup_retain. Qed.

Lemma all_fresh_spec {A} `{EqDecision A} (before : list A) p l :
  all_fresh before p l = true
  <-> NoDup l /\ forall x, x ∈ l -> x ∉ before /\ p x = true.
Proof.
  revert before. induction l as [|a l IH]; intros before; cbn.
  - split; [|done]. intros _. split; [constructor|]. set_solver.
  - rewrite !andb_true_iff, negb_true_iff, contains_false, IH, NoDup_cons. set_solver.
Qed.

Lemma valid_change_spec {A} `{EqDecision A} (add rem : list A) :
  valid_change add rem = true
  <-> NoDup add /\ NoDup rem /\ forall x, x ∈ add -> x ∉ rem.
Proof.
  unfold valid_change. rewrite andb_true_iff, !all_fresh_spec.
  setoid_rewrite negb_true_iff. setoid_rewrite contains_false. set_solver.
Qed.

Lemma valid_strict_spec {A} `{EqDecision A} (cur add rem : list A) :
  valid_strict cur add rem = true
  <-> (forall x, x ∈ add -> x ∉ cur) /\ (forall x, x ∈ rem -> x ∈ cur).
Proof.
  unfold valid_strict. rewrite andb_true_iff, !forallb_elem.
  setoid_rewrite negb_true_iff. setoid_rewrite contains_false. by setoid_rewrite contains_spec.
Qed.

Lemma validate_spec c :
  validate c = Ok tt /\ unambiguous (changes_canonical c)
  \/ validate c = Err StatusCode.INVALID_DATA /\ ~ unambiguous (changes_canonical c).
Proof.
  unfold validate. set (k := changes_canonical c).
  destruct (valid_change (v4 (added k)) _ && _ && _ && _) eqn:E.
  - left. split; [done|]. rewrite !andb_true_iff, !valid_change_spec in E.
    destruct E as [[[(?&?&?) (?&?&?)] (?&?&?)] (?&?&?)]. repeat split; try done.
    intros [a|a|n|n]; cbn; auto.
  - right. split; [done|]. intros [(?&?&?&?) [(?&?&?&?) Hd]]. apply not_true_iff_false in E.
    apply E. rewrite !andb_true_iff, !valid_change_spec.
    pose proof (fun a => Hd (EntryV4 a)). pose proof (fun a => Hd (EntryV6 a)).
    pose proof (fun a => Hd (EntryV4Subnet a)). pose proof (fun a => Hd (EntryV6Subnet a)).
    by repeat split.
Qed.

Lemma changes_canonical_idemp c : changes_canonical (changes_canonical c) = changes_canonical c.
Proof.
  unfold changes_canonical, addrs_canonical; cbn. rewrite <-!list_fmap_compose.
  do 2 f_equal; apply list_fmap_ext; intros; cbn; (apply v4_trunc_idemp || apply v6_trunc_idemp).
Qed.

Lemma apply_lenient_canonical c cur :
  apply_lenient (changes_canonical c) cur = apply_lenient c cur.
Proof. unfold apply_lenient. by rewrite changes_canonical_idemp. Qed.

Lemma has_apply_lenient c cur e :
  has (apply_lenient c cur) e
  <-> (has cur e /\ (~ has (removed (changes_canonical c)) e \/ has (added (changes_canonical c)) e))
      \/ (has (added (changes_canonical c)) e /\ ~ has (removed (changes_canonical c)) e).
Proof. destruct e; cbn [has]; unfold apply_lenient; cbn [v4 v6 v4_subnets v6_subnets];
  apply elem_of_apply_family. Qed.

Lemma apply_lenient_nodup c cur : addrs_nodup cur -> addrs_nodup (apply_lenient c cur).
Proof. intros (?&?&?&?). repeat split; by apply NoDup_apply_family. Qed.

Lemma apply_strict_spec c cur :
  apply_strict c cur = (Ok tt, apply_lenient c cur)
    /\ unambiguous (changes_canonical c) /\ applicable (changes_canonical c) cur
  \/ apply_strict c cur = (Err StatusCode.INVALID_DATA, cur)
    /\ ~ (unambiguous (changes_canonical c) /\ applicable (changes_canonical c) cur).
Proof.
  unfold apply_strict. destruct (validate_spec c) as [[-> Hu]|[-> Hu]]; [|right; tauto].
  rewrite apply_lenient_canonical. rewrite <-!negb_andb.
  destruct (valid_strict (v4 cur) _ _ && _ && _ && _) eqn:E; cbn [negb].
  - left. split; [done|]. split; [done|]. rewrite !andb_true_iff, !valid_strict_spec in E.
    destruct E as [[[[? ?] [? ?]] [? ?]] [? ?]]. intros [a|a|n|n]; cbn [has]; auto.
  - right. split; [done|]. intros [_ Ha]. apply not_true_iff_false in E. apply E.
    rewrite !andb_true_iff, !valid_strict_spec.
    pose proof (fun a => Ha (EntryV4 a)). pose proof (fun a => Ha (EntryV6 a)).
    pose proof (fun a => Ha (EntryV4Subnet a)). pose proof (fun a => Ha (EntryV6Subnet a)).
    cbn [has] in *. firstorder.
Qed.

Lemma has_difference a b e : has (difference a b) e <-> has a e /\ ~ has b e.
Proof.
  destruct e; cbn; rewrite elem_of_retain, negb_true_iff, contains_false; tauto.
Qed.

(** ** Wire form of changes *)

Lemma foldl_push_item {A} (f : A -> DataItem) l msg :
  foldl (fun m a => push_item m (f a)) msg l
  = mkMessage (message_type msg) (msg_items msg ++ (f <$> l)).
Proof.
  revert msg. induction l as [|a l IH]; intros msg; cbn.
  - rewrite app_nil_r. by destruct msg.
  - rewrite IH. cbn. by rewrite <-app_assoc.
Qed.

(** The items of one side of the changes. *)
Definition set_items (add : bool) (d : DestinationAddrs) : list DataItem :=
  (Ipv4Address add <$> v4 d) ++ (Ipv6Address add <$> v6 d)
  ++ ((fun n => Ipv4AttachedSubnet add (v4_trunc n)) <$> v4_subnets d)
  ++ ((fun n => Ipv6AttachedSubnet add (v6_trunc n)) <$> v6_subnets d).

Definition changes_items (c : AddressChanges) : list DataItem :=
  set_items false (removed c) ++ set_items true (added c).

Lemma append_set_items msg add d :
  append_set msg add d = mkMessage (message_type msg) (msg_items msg ++ set_items add d).
Proof. unfold append_set, set_items. rewrite !foldl_push_item. cbn. by rewrite <-!app_assoc. Qed.

Lemma append_to_items c msg :
  append_to c msg = mkMessage (message_type msg) (msg_items msg ++ changes_items c).
Proof.
  unfold append_to, changes_items. cbn. rewrite !append_set_items. cbn. by rewrite <-app_assoc.
Qed.

Lemma foldl_from_set_items add d c :
  foldl from_message_item c (set_items add d)
  = update_set add (fun s => mkAddrs (v4 s ++ v4 (addrs_canonical d)) (v6 s ++ v6 (addrs_canonical d))
      (v4_subnets s ++ v4_subnets (addrs_canonical d))
      (v6_subnets s ++ v6_subnets (addrs_canonical d))) c.
Proof.
  assert (H4 : forall l s, foldl from_message_item s (Ipv4Address add <$> l)
    = update_set add (fun s => mkAddrs (v4 s ++ l) (v6 s) (v4_subnets s) (v6_subnets s)) s).
  { intros l. induction l as [|a l IH]; intros [[] []]; cbn; [destruct add; cbn; by rewrite app_nil_r|].
    rewrite IH. destruct add; cbn; by rewrite <-app_assoc. }
  assert (H6 : forall l s, foldl from_message_item s (Ipv6Address add <$> l)
    = update_set add (fun s => mkAddrs (v4 s) (v6 s ++ l) (v4_subnets s) (v6_subnets s)) s).
  { intros l. induction l as [|a l IH]; intros [[] []]; cbn; [destruct add; cbn; by rewrite app_nil_r|].
    rewrite IH. destruct add; cbn; by rewrite <-app_assoc. }
  assert (Hs4 : forall l s,
    foldl from_message_item s ((fun n => Ipv4AttachedSubnet add (v4_trunc n)) <$> l)
    = update_set add (fun s => mkAddrs (v4 s) (v6 s) (v4_subnets s ++ (v4_trunc <$> l)) (v6_subnets s)) s).
  { intros l. induction l as [|a l IH]; intros [[] []]; cbn; [destruct add; cbn; by rewrite app_nil_r|].
    rewrite IH. rewrite v4_trunc_idemp. destruct add; cbn; by rewrite <-app_assoc. }
  assert (Hs6 : forall l s,
    foldl from_message_item s ((fun n => Ipv6AttachedSubnet add (v6_trunc n)) <$> l)
    = update_set add (fun s => mkAddrs (v4 s) (v6 s) (v4_subnets s) (v6_subnets s ++ (v6_trunc <$> l))) s).
  { intros l. induction l as [|a l IH]; intros [[] []]; cbn; [destruct add; cbn; by rewrite app_nil_r|].
    rewrite IH. rewrite v6_trunc_idemp. destruct add; cbn; by rewrite <-app_assoc. }
  unfold set_items. rewrite !foldl_app, H4, H6, Hs4, Hs6. by destruct add.
Qed.

Definition address_item (i : DataItem) : bool :=
  match i with
  | Ipv4Address _ _ | Ipv6Address _ _ | Ipv4AttachedSubnet _ _ | Ipv6AttachedSubnet _ _ => true
  | _ => false
  end.

Lemma foldl_from_other c items :
  Forall (fun i => address_item i = false) items -> foldl from_message_item c items = c.
Proof. induction 1 as [|i items Hi _ IH]; cbn; [done|]. by destruct i. Qed.

Lemma from_append c msg :
  Forall (fun i => address_item i = false) (msg_items msg) ->
  from_message (append_to c msg) = changes_canonical c.
Proof.
  intros H. unfold from_message. rewrite append_to_items. cbn [msg_items].
  unfold changes_items. rewrite !foldl_app, (foldl_from_other _ (msg_items msg)), !foldl_from_set_items by done. done.
Qed.

Lemma from_message_canonical m : from_message (canonical_message m) = from_message m.
Proof.
  unfold from_message, canonical_message. cbn [msg_items].
  generalize AddressChanges_default. induction (msg_items m) as [|i l IH]; intros c; cbn; [done|].
  rewrite IH. f_equal. destruct i; cbn; by rewrite ?v4_trunc_idemp, ?v6_trunc_idemp.
Qed.

Lemma changes_items_faithful c : Forall faithful_item (changes_items c).
Proof.
  unfold changes_items, set_items. rewrite !Forall_app, !Forall_fmap.
  repeat split; by apply Forall_true.
Qed.

(** ** Deltas between complete sets *)

(** Canonical sets are those whose subnets have no host bits. *)
Definition entry_canonical (e : Entry) : Prop :=
  match e with
  | EntryV4Subnet n => v4_trunc n = n
  | EntryV6Subnet n => v6_trunc n = n
  | _ => True
  end.

Lemma fmap_fixed {A} (f : A -> A) (l : list A) : f <$> l = l <-> forall x, x ∈ l -> f x = x.
Proof.
  induction l as [|a l IH]; cbn; [set_solver|]. split.
  - intros [=Ha Hl] x Hx. apply elem_of_cons in Hx as [->|Hx]; [done|]. by apply IH.
  - intros H. rewrite H by left. f_equal. apply IH. intros x Hx. apply H. by right.
Qed.

Lemma canonical_has d : addrs_canonical d = d <-> forall e, has d e -> entry_canonical e.
Proof.
  destruct d as [w x y z]. unfold addrs_canonical. cbn. split.
  - intros [=Hy Hz]. rewrite fmap_fixed in Hy, Hz. intros [a|a|n|n]; cbn; auto.
  - intros H. rewrite (proj2 (fmap_fixed v4_trunc y)), (proj2 (fmap_fixed v6_trunc z)); [done| |].
    + intros n Hn. by apply (H (EntryV6Subnet n)).
    + intros n Hn. by apply (H (EntryV4Subnet n)).
Qed.

Lemma addrs_canonical_has d e : has (addrs_canonical d) e -> entry_canonical e.
Proof.
  destruct e; cbn; try done; intros (n' & -> & _)%list_elem_of_fmap;
    [apply v4_trunc_idemp|apply v6_trunc_idemp].
Qed.

Lemma apply_lenient_is_canonical c cur :
  addrs_canonical cur = cur -> addrs_canonical (apply_lenient c cur) = apply_lenient c cur.
Proof.
  rewrite !canonical_has. intros H e. rewrite has_apply_lenient. cbn.
  intros [[He _]|[He _]]; [by apply H|by eapply addrs_canonical_has].
Qed.

Section Between.
Context (old new : DestinationAddrs).
Hypothesis Ho : addrs_nodup old.
Hypothesis Hn : addrs_nodup new.
Hypothesis Co : addrs_canonical old = old.
Hypothesis Cn : addrs_canonical new = new.

Lemma between_canonical : changes_canonical (between old new) = between old new.
Proof.
  unfold changes_canonical, between. cbn. f_equal; apply canonical_has; intros e;
    rewrite has_difference; intros [He _].
  - by apply (proj1 (canonical_has new)).
  - by apply (proj1 (canonical_has old)).
Qed.

Lemma between_unambiguous : unambiguous (between old new).
Proof.
  destruct Ho as (?&?&?&?), Hn as (?&?&?&?).
  split; [|split; [|intros e; cbn; rewrite !has_difference; tauto]];
    repeat split; by apply NoDup_retain.
Qed.

Lemma between_applicable cur : addrs_equiv cur old -> applicable (between old new) cur.
Proof. intros Hc e. cbn. rewrite Hc, !has_difference. tauto. Qed.

Lemma apply_between cur :
  addrs_equiv cur old ->
  apply_strict (between old new) cur = (Ok tt, apply_lenient (between old new) cur)
  /\ addrs_equiv (apply_lenient (between old new) cur) new.
Proof.
  intros Hc. destruct (apply_strict_spec (between old new) cur) as [(-> & _ & _)|[_ []]].
  - split; [done|]. intros e. rewrite has_apply_lenient, between_canonical.
    cbn [added removed between]. rewrite (Hc e), !has_difference.
    destruct (decide (has old e)), (decide (has new e)); tauto.
  - rewrite between_canonical. split; [apply between_unambiguous|by apply between_applicable].
Qed.

End Between.

(** ** Properties *)

(** Applying changes to a destination.  [apply_lenient] keeps an entry unless
    it is only removed, adds an entry unless the same message removes it, and
    never lists an entry twice. *)
Theorem address_lenient c cur :
  addrs_nodup cur ->
  addrs_nodup (apply_lenient c cur)
  /\ let k := changes_canonical c in
     forall e, has (apply_lenient c cur) e
       <-> (has cur e /\ (~ has (removed k) e \/ has (added k) e))
           \/ (has (added k) e /\ ~ has (removed k) e).
Proof. intros H. split; [by apply apply_lenient_nodup|]. intros k e. apply has_apply_lenient. Qed.

(** Applying changes to the session.  [apply_strict] succeeds exactly on
    unambiguous changes whose adds are new and whose removals are known, and then
    yields the old set without the removals and with the adds; otherwise it
    reports Invalid Data and the current set is untouched. *)
Theorem address_strict c cur :
  let k := changes_canonical c in
  (exists cur', apply_strict c cur = (Ok tt, cur')
    /\ unambiguous k /\ applicable k cur
    /\ (addrs_nodup cur -> addrs_nodup cur')
    /\ forall e, has cur' e <-> (has cur e /\ ~ has (removed k) e) \/ has (added k) e)
  \/ (apply_strict c cur = (Err StatusCode.INVALID_DATA, cur) /\ ~ (unambiguous k /\ applicable k cur)).
Proof.
  intros k. destruct (apply_strict_spec c cur) as [(-> & Hu & Ha)|H]; [left|by right].
  eexists. split; [done|]. do 2 (split; [done|]). split; [apply apply_lenient_nodup|].
  intros e. rewrite has_apply_lenient. fold k. destruct Hu as (_ & _ & Hd).
  specialize (Hd e). tauto.
Qed.

(** Deltas.  The changes [between] two complete canonical sets, applied to the
    old one, are accepted and give a set with exactly the entries of the new one. *)
Theorem address_between old new :
  addrs_nodup old -> addrs_nodup new ->
  addrs_canonical old = old -> addrs_canonical new = new ->
  exists cur, apply_strict (between old new) old = (Ok tt, cur) /\ addrs_equiv cur new.
Proof. intros Ho Hn Co Cn. eexists. by apply apply_between. Qed.

(** Addresses on the wire.  Address changes appended to a message that has no
    other address items are what [from_message] reads in the decoded message,
    subnets in network form. *)
Theorem address_wire_roundtrip c msg bs :
  Forall (fun i => address_item i = false) (msg_items msg) ->
  Forall faithful_item (msg_items msg) -> is_message (append_to c msg) ->
  Message_encode (append_to c msg) = Ok bs ->
  exists m, Message_decode bs = Ok m /\ from_message m = changes_canonical c.
Proof.
  intros Ho Hf Hm He. exists (canonical_message (append_to c msg)). split.
  - rewrite <-(app_nil_r bs). apply Message_decode_encoded; [done| |done].
    rewrite append_to_items. cbn [msg_items]. apply Forall_app. split; [done|].
    apply changes_items_faithful.
  - rewrite from_message_canonical. by apply from_append.
Qed.

End Facts.

(** ** Witnesses *)

Definition sample_addrs : DestinationAddrs := mkAddrs [1; 2] [] [mkNet 256 24] [].
Definition sample_addrs' : DestinationAddrs := mkAddrs [2; 3] [7] [] [].
Definition sample_changes : AddressChanges :=
  mkChanges (mkAddrs [3; 1] [] [] []) (mkAddrs [1; 9] [] [mkNet 259 24] []).

Lemma sample_addrs_nodup : addrs_nodup sample_addrs /\ addrs_nodup sample_addrs'.
Proof. repeat split; by apply (bool_decide_unpack _). Qed.

Lemma address_lenient_witness :
  apply_lenient (crates := reference_crates) sample_changes sample_addrs = mkAddrs [1; 2; 3] [] [] []
  /\ addrs_nodup (apply_lenient (crates := reference_crates) sample_changes sample_addrs).
Proof.
  split; [by vm_compute|].
  apply (address_lenient (crates := reference_crates) sample_changes sample_addrs),
    (proj1 sample_addrs_nodup).
Defined.

Lemma address_between_witness :
  exists cur, apply_strict (crates := reference_crates) (between sample_addrs sample_addrs')
                sample_addrs = (Ok tt, cur) /\ addrs_equiv cur sample_addrs'.
Proof.
  apply (address_between (crates := reference_crates));
    [apply sample_addrs_nodup|apply sample_addrs_nodup|by vm_compute|by vm_compute].
Defined.

Lemma address_wire_roundtrip_witness :
  exists bs m,
    Message_encode (crates := reference_crates) (append_to (crates := reference_crates) sample_changes
      (Message_new MessageType.SESSION_UPDATE)) = Ok bs
    /\ Message_decode (crates := reference_crates) bs = Ok m
    /\ from_message (crates := reference_crates) m
       = changes_canonical (crates := reference_crates) sample_changes.
Proof.
  set (msg := Message_new MessageType.SESSION_UPDATE).
  destruct (Message_encode (crates := reference_crates)
    (append_to (crates := reference_crates) sample_changes msg)) as [bs| |] eqn:E;
    [|exfalso; by vm_compute in E|exfalso; by vm_compute in E].
  destruct (address_wire_roundtrip (crates := reference_crates) sample_changes msg bs)
    as (m & Hm & Hf); [by constructor|by constructor| |done|by exists bs, m].
  split; [by apply (bool_decide_unpack _)|].
  repeat (apply Forall_cons; split; [by repeat split|]). constructor.
Defined.
