(* ===== verification/Events.v ===== *)
(** * Events, actions and commands of the state machines

    [dlep-fsm/src/{timers,events,commands,transaction}.rs]: what goes into and
    comes out of every [step], and the tracker of outstanding requests.  The
    tracker refines an abstract set of busy scopes. *)

From S2P Require Import Prelude Externs CoreTypes Addresses.

(** ** Timers *)

Abbreviation TimerId := Z.

Inductive TimerKind : Type :=
  | THeartbeat
  | THeartbeatMissed
  | TSessionInit
  | TTermination
  | TDiscovery.

#[global] Instance TimerKind_eq_dec : EqDecision TimerKind.
Proof. solve_decision. Defined.

(** The timers of a session, one of each kind at most. *)
Definition TIMER_SESSION_INIT : TimerId := 1.
Definition TIMER_TERMINATION : TimerId := 2.
Definition TIMER_HEARTBEAT : TimerId := 3.
Definition TIMER_HEARTBEAT_MISSED : TimerId := 4.

(** ** Socket addresses ([std::net::SocketAddr]) *)

Inductive SocketAddr : Type :=
  | SocketV4 (ip : Ipv4Addr) (port : Z)
  | SocketV6 (ip : Ipv6Addr) (port flowinfo scope_id : Z).

#[global] Instance SocketAddr_eq_dec : EqDecision SocketAddr.
Proof. solve_decision. Defined.

Definition socket_port (a : SocketAddr) : Z :=
  match a with SocketV4 _ port | SocketV6 _ port _ _ => port end.

Definition set_port (a : SocketAddr) (port : Z) : SocketAddr :=
  match a with
  | SocketV4 ip _ => SocketV4 ip port
  | SocketV6 ip _ flow scope => SocketV6 ip port flow scope
  end.

Definition is_ipv6 (a : SocketAddr) : bool :=
  match a with SocketV4 _ _ => false | SocketV6 _ _ _ _ => true end.

(** [Ipv6Addr::is_unicast_link_local]: the prefix fe80::/10. *)
Definition is_unicast_link_local (addr : Ipv6Addr) : bool := Z.shiftr addr 118 =? 1018.

(** A connection point of a Peer Offer ([discovery_common.rs]). *)
Record OfferEndpoint : Type := mkEndpoint { ep_addr : SocketAddr; ep_use_tls : bool }.

#[global] Instance OfferEndpoint_eq_dec : EqDecision OfferEndpoint.
Proof. solve_decision. Defined.

(** ** Local commands and their outcomes *)

Inductive CommandKind : Type :=
  | KAddDestination
  | KDropDestination
  | KUpdateMetrics
  | KUpdateAddresses
  | KSessionAddresses
  | KSessionMetrics
  | KAnnounceDestination
  | KLinkCharacteristics
  | KLinkCharacteristicsResponse.

Record CommandInfo : Type := mkCommandInfo {
  kind : CommandKind;
  destination : option MacAddress;
}.

Inductive CommandError : Type :=
  | Busy
  | NotReady
  | UnknownDestination
  | AlreadyExists
  | Unsupported
  | InvalidInput
  | NoPendingRequest
  | MacAddressFormatMismatch.

Record CommandRejection : Type := mkRejection {
  command_info : CommandInfo;
  reason : CommandError;
}.

(** ** Events *)

Inductive SendTarget : Type :=
  | DiscoveryGroup
  | Unicast (a : SocketAddr).

Inductive FsmEvent : Type :=
  | RecvMessage (msg : Message)
  | RecvExtensionMessage
  | ProtocolError (status : StatusCode)
  | RecvSignal (signal : Signal) (from : SocketAddr)
  | TcpConnected
  | TcpAccepted
  | TcpClosed
  | TimerExpired (id : TimerId) (kind : TimerKind)
  | AppAddDestination (mac : MacAddress) (metrics : LinkMetrics) (addrs : DestinationAddrs)
  | AppDropDestination (mac : MacAddress) (reason : StatusCode)
  | AppUpdateMetrics (mac : MacAddress) (metrics : LinkMetrics)
  | AppUpdateAddresses (mac : MacAddress) (changes : AddressChanges)
  | AppSessionAddresses (changes : AddressChanges)
  | AppAnnounceDestination (mac : MacAddress)
  | AppSessionUpdate (metrics : LinkMetrics)
  | AppRequestLinkCharacteristics (mac : MacAddress) (requested : LinkCharacteristics)
  | AppLinkCharacteristicsResponse (mac : MacAddress) (status : StatusCode) (text : rstring)
      (metrics : option LinkMetrics)
  | AppStartDiscovery
  | AppShutdown (reason : StatusCode).

Inductive EmittedEvent : Type :=
  | CommandRejected (r : CommandRejection)
  | SessionUp (peer_extensions : list ExtensionId)
  | SessionDown (status : StatusCode)
  | PeerDiscovered (endpoints : list OfferEndpoint) (peer_description : option rstring)
  | DestinationUp (mac : MacAddress) (metrics : LinkMetrics) (addrs : DestinationAddrs)
  | DestinationDown (mac : MacAddress) (reason : StatusCode)
  | DestinationUpdate (mac : MacAddress) (metrics : LinkMetrics)
  | DestinationAddressesUpdate (mac : MacAddress) (changes : AddressChanges)
      (addresses : DestinationAddrs)
  | SessionAddressesUpdate (changes : AddressChanges) (addresses : DestinationAddrs)
  | LinkCharacteristicsResponse (mac : MacAddress) (status : StatusCode) (text : rstring)
      (metrics : LinkMetrics)
  | LinkCharacteristicsRequested (mac : MacAddress) (requested : LinkCharacteristics)
      (metrics : LinkMetrics) (pending : bool)
  | SessionMetricsUpdate (metrics : LinkMetrics)
  | DestinationAnnounced (mac : MacAddress) (requested_addresses : AddressChanges).

Inductive FsmAction : Type :=
  | SendMessage (msg : Message)
  | SendSignal (signal : Signal) (target : SendTarget)
  | StartTimer (id : TimerId) (kind : TimerKind) (duration : Duration) (periodic : bool)
  | CancelTimer (id : TimerId)
  | ResetHeartbeat (timer_id : TimerId) (missed_deadline : Duration)
  | CloseTcp
  | Emit (e : EmittedEvent).

(** [FsmEvent::command]: the events that are local commands. *)
Definition command (self : FsmEvent) : option CommandInfo :=
  match self with
  | AppAddDestination mac _ _ => Some (mkCommandInfo KAddDestination (Some mac))
  | AppDropDestination mac _ => Some (mkCommandInfo KDropDestination (Some mac))
  | AppUpdateMetrics mac _ => Some (mkCommandInfo KUpdateMetrics (Some mac))
  | AppUpdateAddresses mac _ => Some (mkCommandInfo KUpdateAddresses (Some mac))
  | AppSessionAddresses _ => Some (mkCommandInfo KSessionAddresses None)
  | AppSessionUpdate _ => Some (mkCommandInfo KSessionMetrics None)
  | AppAnnounceDestination mac => Some (mkCommandInfo KAnnounceDestination (Some mac))
  | AppRequestLinkCharacteristics mac _ => Some (mkCommandInfo KLinkCharacteristics (Some mac))
  | AppLinkCharacteristicsResponse mac _ _ _ =>
      Some (mkCommandInfo KLinkCharacteristicsResponse (Some mac))
  | _ => None
  end.

(** ** Outstanding requests ([transaction.rs]) *)

Inductive RequestKind : Type :=
  | RSessionUpdate
  | RSessionTermination
  | RDestinationUp
  | RDestinationAnnounce
  | RDestinationDown
  | RLinkCharacteristics.

#[global] Instance RequestKind_eq_dec : EqDecision RequestKind.
Proof. solve_decision. Defined.

Record PendingRequest : Type := mkPending { pending_kind : RequestKind }.

Record TransactionTracker : Type := mkTracker {
  session_pending : option PendingRequest;
  per_destination : gmap MacAddress PendingRequest;
}.

Definition TransactionTracker_default : TransactionTracker := mkTracker None ∅.

Definition session_busy (self : TransactionTracker) : bool := is_some (session_pending self).

Definition destination_busy (self : TransactionTracker) (mac : MacAddress) : bool :=
  is_some (per_destination self !! mac).

Definition open_session (kind : RequestKind) : stm TransactionTracker PendingRequest unit :=
  fun self =>
    match session_pending self with
    | Some existing => (Err existing, self)
    | None => (Ok tt, mkTracker (Some (mkPending kind)) (per_destination self))
    end.

Definition close_session (self : TransactionTracker)
    : option PendingRequest * TransactionTracker :=
  (session_pending self, mkTracker None (per_destination self)).

Definition open_destination (mac : MacAddress) (kind : RequestKind)
    : stm TransactionTracker PendingRequest unit :=
  fun self =>
    match per_destination self !! mac with
    | Some existing => (Err existing, self)
    | None =>
        (Ok tt, mkTracker (session_pending self) (<[mac := mkPending kind]> (per_destination self)))
    end.

Definition close_destination (mac : MacAddress) (self : TransactionTracker)
    : option PendingRequest * TransactionTracker :=
  (per_destination self !! mac, mkTracker (session_pending self) (delete mac (per_destination self))).

(** ** Specification of the tracker: at most one request per scope *)

(** A scope is the session ([None]) or one destination. *)
Abbreviation scope := (option MacAddress).

Definition scopes (t : TransactionTracker) (s : scope) : option RequestKind :=
  match s with
  | None => pending_kind <$> session_pending t
  | Some mac => pending_kind <$> per_destination t !! mac
  end.

(** An operation on the tracker, by scope. *)
Definition open_scope (s : scope) (k : RequestKind) : stm TransactionTracker PendingRequest unit :=
  match s with None => open_session k | Some mac => open_destination mac k end.

Definition close_scope (s : scope) (t : TransactionTracker)
    : option PendingRequest * TransactionTracker :=
  match s with None => close_session t | Some mac => close_destination mac t end.

Lemma is_some_false {A} (o : option A) : is_some o = false <-> o = None.
Proof. by destruct o. Qed.

Lemma close_scope_other s s' t : s' <> s -> scopes (close_scope s t).2 s' = scopes t s'.
Proof.
  intros H. destruct s as [mac|], s' as [mac'|]; cbn; try done.
  rewrite lookup_delete_ne; [done|congruence].
Qed.

Lemma open_scope_other s k s' t : s' <> s -> scopes (open_scope s k t).2 s' = scopes t s'.
Proof.
  intros H. destruct s as [mac|], s' as [mac'|]; cbn; unfold open_session, open_destination;
    try (by destruct (session_pending t)); try (by destruct (per_destination t !! mac)); try done.
  destruct (per_destination t !! mac) eqn:E; cbn; [done|]. rewrite lookup_insert_ne; [done|congruence].
Qed.

(** Transaction serialisation.  A request can be opened in a scope exactly
    when none is outstanding there; opening it makes it the one outstanding
    request of that scope, a refused one changes nothing, closing returns it and
    frees the scope, and no other scope is ever affected. *)
Theorem tracker_serialises t s k :
  ((exists t', scopes t s = None /\ open_scope s k t = (Ok tt, t') /\ scopes t' s = Some k
      /\ close_scope s t' = (Some (mkPending k), (close_scope s t').2)
      /\ scopes (close_scope s t').2 s = None)
  \/ (exists r, scopes t s = Some (pending_kind r) /\ open_scope s k t = (Err r, t)
      /\ close_scope s t = (Some r, (close_scope s t).2)))
  /\ forall s', s' <> s ->
       scopes (open_scope s k t).2 s' = scopes t s' /\ scopes (close_scope s t).2 s' = scopes t s'.
Proof.
  split; [|auto using open_scope_other, close_scope_other].
  destruct s as [mac|]; cbn;
    unfold open_destination, open_session, close_destination, close_session.
  - destruct (per_destination t !! mac) as [r|]; [right; by exists r|left].
    eexists. do 2 (split; [done|]). cbn. by rewrite lookup_insert_eq, lookup_delete_eq.
  - destruct (session_pending t) as [r|]; [right; by exists r|left]. by eexists.
Qed.
