(* ===== verification/SessionCommon.v ===== *)
(** * What both session state machines share

    [dlep-fsm/src/session_common.rs]: the configuration, the message builders and
    extractors, metric merging and the locally originated session address update.
    Builders and extractors are proved inverse to each other, also across the
    wire. *)

From S2P Require Import Prelude Externs CoreTypes Codec CodecItem CodecMessage Addresses Events.
Import DataItem.

Record SessionConfig : Type := mkConfig {
  mac_address_format : MacAddressFormat;
  peer_description : rstring;
  initial_metrics : LinkMetrics;
  heartbeat_interval_ms : Z;
  session_init_timeout : Duration;
  cfg_termination_timeout : option Duration;
  advertised_extensions : list ExtensionId;
  defer_link_characteristics : bool;
}.

Definition SessionConfig_default : SessionConfig :=
  mkConfig FormatEui48 (str "dlep-router") LinkMetrics_default 60000 (from_millis 5000) None [] false.

(** What the Rust types of the configuration guarantee. *)
Definition is_metrics (m : LinkMetrics) : Prop :=
  is_u64 (max_data_rate_rx_bps m) /\ is_u64 (max_data_rate_tx_bps m)
  /\ is_u64 (current_data_rate_rx_bps m) /\ is_u64 (current_data_rate_tx_bps m)
  /\ is_duration (latency m)
  /\ default True (is_u8 <$> resources m) /\ default True (is_u8 <$> rlq_rx m)
  /\ default True (is_u8 <$> rlq_tx m) /\ default True (is_u16 <$> mtu m).

Definition is_config (c : SessionConfig) : Prop :=
  utf8_valid (peer_description c) = true /\ is_metrics (initial_metrics c)
  /\ is_u32 (heartbeat_interval_ms c) /\ is_duration (session_init_timeout c)
  /\ default True (is_duration <$> cfg_termination_timeout c)
  /\ Forall is_u16 (advertised_extensions c).

Definition local_heartbeat_interval (config : SessionConfig) : Duration :=
  from_millis (Z.max (heartbeat_interval_ms config) MIN_HEARTBEAT_INTERVAL_MS).

Definition termination_timeout (self : SessionConfig) : Duration :=
  match cfg_termination_timeout self with
  | Some d => d
  | None => duration_saturating_mul (local_heartbeat_interval self) 4
  end.

(** ** Metric items *)

Definition push_opt {A} (mk : A -> DataItem) (o : option A) (msg : Message) : Message :=
  match o with Some value => with_item msg (mk value) | None => msg end.

Definition push_metric_items (msg : Message) (m : LinkMetrics) : Message :=
  let msg := with_item msg (MaxDataRateReceive (max_data_rate_rx_bps m)) in
  let msg := with_item msg (MaxDataRateTransmit (max_data_rate_tx_bps m)) in
  let msg := with_item msg (CurrentDataRateReceive (current_data_rate_rx_bps m)) in
  let msg := with_item msg (CurrentDataRateTransmit (current_data_rate_tx_bps m)) in
  let msg := with_item msg (Latency (latency m)) in
  let msg := push_opt Resources (resources m) msg in
  let msg := push_opt RelativeLinkQualityReceive (rlq_rx m) msg in
  let msg := push_opt RelativeLinkQualityTransmit (rlq_tx m) msg in
  push_opt Mtu (mtu m) msg.

Definition push_extensions_supported (msg : Message) (ids : list ExtensionId) : Message :=
  if is_empty_list ids then msg else with_item msg (ExtensionsSupported ids).

(** One iteration of [merge_link_metrics]. *)
Definition merge_metric (acc : bool * LinkMetrics) (item : DataItem) : bool * LinkMetrics :=
  let '(found, m) := acc in
  let '(mkLinkMetrics a b c d e f g h i) := m in
  match item with
  | MaxDataRateReceive v => (true, mkLinkMetrics v b c d e f g h i)
  | MaxDataRateTransmit v => (true, mkLinkMetrics a v c d e f g h i)
  | CurrentDataRateReceive v => (true, mkLinkMetrics a b v d e f g h i)
  | CurrentDataRateTransmit v => (true, mkLinkMetrics a b c v e f g h i)
  | Latency v => (true, mkLinkMetrics a b c d v f g h i)
  | Resources v => (true, mkLinkMetrics a b c d e (Some v) g h i)
  | RelativeLinkQualityReceive v => (true, mkLinkMetrics a b c d e f (Some v) h i)
  | RelativeLinkQualityTransmit v => (true, mkLinkMetrics a b c d e f g (Some v) i)
  | Mtu v => (true, mkLinkMetrics a b c d e f g h (Some v))
  | _ => (found, m)
  end.

Definition merge_link_metrics (msg : Message) (m : LinkMetrics) : bool * LinkMetrics :=
  foldl merge_metric (false, m) (msg_items msg).

Definition extract_link_metrics (msg : Message) : option LinkMetrics :=
  let '(found, m) := merge_link_metrics msg LinkMetrics_default in
  if found then Some m else None.

(** ** Builders *)

Definition status_item (code : StatusCode) : DataItem := Status code [].

Definition build_session_termination (reason : StatusCode) : Message :=
  with_item (Message_new MessageType.SESSION_TERMINATION) (status_item reason).

Definition build_session_termination_response : Message :=
  Message_new MessageType.SESSION_TERMINATION_RESPONSE.

Definition build_session_update (metrics : LinkMetrics) : Message :=
  push_metric_items (Message_new MessageType.SESSION_UPDATE) metrics.

Definition build_session_update_response (status : StatusCode) : Message :=
  with_item (Message_new MessageType.SESSION_UPDATE_RESPONSE) (status_item status).

Definition build_link_characteristics_request (mac : Mac) (requested : LinkCharacteristics)
    : Message :=
  let message := with_item (Message_new MessageType.LINK_CHARACTERISTICS_REQUEST) (MacAddress mac) in
  let message := push_opt CurrentDataRateReceive (req_data_rate_rx_bps requested) message in
  let message := push_opt CurrentDataRateTransmit (req_data_rate_tx_bps requested) message in
  push_opt Latency (req_latency requested) message.

Definition build_link_characteristics_response (mac : Mac) (status : StatusCode)
    (metrics : LinkMetrics) : Message :=
  push_metric_items
    (with_item
       (with_item (Message_new MessageType.LINK_CHARACTERISTICS_RESPONSE) (MacAddress mac))
       (status_item status)) metrics.

Definition build_destination_announce (mac : Mac) : Message :=
  with_item (Message_new MessageType.DESTINATION_ANNOUNCE) (MacAddress mac).

Definition build_destination_announce_response (mac : Mac) (status : StatusCode) : Message :=
  with_item (with_item (Message_new MessageType.DESTINATION_ANNOUNCE_RESPONSE) (MacAddress mac))
    (status_item status).

Definition build_heartbeat : Message := Message_new MessageType.HEARTBEAT.

Definition build_destination_up (mac : Mac) (metrics : LinkMetrics)
    (addrs : DestinationAddrs) : Message :=
  let msg := with_item (Message_new MessageType.DESTINATION_UP) (MacAddress mac) in
  let msg := foldl (fun m a => with_item m (Ipv4Address true a)) msg (v4 addrs) in
  let msg := foldl (fun m a => with_item m (Ipv6Address true a)) msg (v6 addrs) in
  let msg := foldl (fun m s => with_item m (Ipv4AttachedSubnet true s)) msg (v4_subnets addrs) in
  let msg := foldl (fun m s => with_item m (Ipv6AttachedSubnet true s)) msg (v6_subnets addrs) in
  push_metric_items msg metrics.

Definition build_destination_up_response (mac : Mac) (status : StatusCode) : Message :=
  with_item (with_item (Message_new MessageType.DESTINATION_UP_RESPONSE) (MacAddress mac))
    (status_item status).

Definition build_destination_update (mac : Mac) (metrics : LinkMetrics) : Message :=
  push_metric_items (with_item (Message_new MessageType.DESTINATION_UPDATE) (MacAddress mac)) metrics.

Definition build_destination_down (mac : Mac) (_reason : StatusCode) : Message :=
  with_item (Message_new MessageType.DESTINATION_DOWN) (MacAddress mac).

Definition build_destination_down_response (mac : Mac) (status : StatusCode) : Message :=
  with_item (with_item (Message_new MessageType.DESTINATION_DOWN_RESPONSE) (MacAddress mac))
    (status_item status).

(** ** Extractors *)

Definition extract_status (msg : Message) : option StatusCode :=
  find_map (fun item => match item with Status code _ => Some code | _ => None end) (msg_items msg).

(** The first Status item whose code ends the session. *)
Definition fatal_status (msg : Message) : option DataItem :=
  find_map (fun i => match i with
                     | Status code _ => if StatusCode.terminates_session code then Some i else None
                     | _ => None
                     end) (msg_items msg).

Definition extract_heartbeat_interval (msg : Message) : option Duration :=
  find_map (fun item => match item with HeartbeatInterval d => Some d | _ => None end)
    (msg_items msg).

Definition extract_extensions_supported (msg : Message) : option (list ExtensionId) :=
  find_map (fun item => match item with ExtensionsSupported ids => Some ids | _ => None end)
    (msg_items msg).

Definition extract_destination_mac (msg : Message) : option Mac :=
  find_map (fun item => match item with MacAddress m => Some m | _ => None end) (msg_items msg).

(** One iteration of [extract_link_characteristics]. *)
Definition extract_characteristic (r : LinkCharacteristics) (item : DataItem)
    : LinkCharacteristics :=
  let '(mkLinkCharacteristics a b c) := r in
  match item with
  | CurrentDataRateReceive value => mkLinkCharacteristics (Some value) b c
  | CurrentDataRateTransmit value => mkLinkCharacteristics a (Some value) c
  | Latency value => mkLinkCharacteristics a b (Some value)
  | _ => r
  end.

Definition extract_link_characteristics (msg : Message) : LinkCharacteristics :=
  foldl extract_characteristic LinkCharacteristics_default (msg_items msg).

Definition heartbeat_reset_action (timer_id : TimerId) (peer_interval : option Duration)
    : option FsmAction :=
  d ← peer_interval;
  if d <? from_millis MIN_HEARTBEAT_INTERVAL_MS then None
  else missed_deadline ← duration_checked_mul d 2; Some (ResetHeartbeat timer_id missed_deadline).

Section SessionCommon.
Context {crates : Crates}.

Definition extract_destination_addrs (msg : Message) : DestinationAddrs :=
  apply_lenient (from_message msg) DestinationAddrs_default.

(** ** Locally originated session address updates *)

Definition validate_local_address_update (local : DestinationAddrs) (changes : AddressChanges)
    : outcome CommandError unit :=
  _ ← map_err (fun _ => InvalidInput) (validate changes);
  let desired := apply_lenient changes local in
  _ ← map_err (fun _ => InvalidInput)
        (Message_encode (append_to (between local desired) (Message_new MessageType.SESSION_UPDATE)));
  mret tt.

(** The borrowed tracker and local address set are the state. *)
Definition apply_local_address_update (changes : AddressChanges)
    (tx : TransactionTracker) (local : DestinationAddrs)
    : panics (list FsmAction * TransactionTracker * DestinationAddrs) :=
  let validation :=
    if session_busy tx then Err Busy else validate_local_address_update local changes in
  match validation with
  | Panic => Panic
  | Err reason =>
      mret ([Emit (CommandRejected (mkRejection (mkCommandInfo KSessionAddresses None) reason))],
            tx, local)
  | Ok _ =>
      let desired := apply_lenient changes local in
      let effective := between local desired in
      if AddressChanges_is_empty effective then mret ([], tx, local)
      else
        let message := append_to effective (Message_new MessageType.SESSION_UPDATE) in
        match open_session RSessionUpdate tx with
        | (Ok _, tx') => mret ([SendMessage message], tx', desired)
        | _ => Panic
        end
  end.

End SessionCommon.

(** ** Items of the built messages *)

Definition metric_items (m : LinkMetrics) : list DataItem :=
  [MaxDataRateReceive (max_data_rate_rx_bps m); MaxDataRateTransmit (max_data_rate_tx_bps m);
   CurrentDataRateReceive (current_data_rate_rx_bps m);
   CurrentDataRateTransmit (current_data_rate_tx_bps m); Latency (latency m)]
  ++ (Resources <$> opt_list (resources m)) ++ (RelativeLinkQualityReceive <$> opt_list (rlq_rx m))
  ++ (RelativeLinkQualityTransmit <$> opt_list (rlq_tx m)) ++ (Mtu <$> opt_list (mtu m)).

Definition metric_item (i : DataItem) : bool :=
  match i with
  | MaxDataRateReceive _ | MaxDataRateTransmit _ | CurrentDataRateReceive _
  | CurrentDataRateTransmit _ | Latency _ | Resources _ | RelativeLinkQualityReceive _
  | RelativeLinkQualityTransmit _ | Mtu _ => true
  | _ => false
  end.

(** The metrics [m] laid over [base]: absent optional metrics keep their value. *)
Definition or_else {A} (o d : option A) : option A := match o with Some a => Some a | None => d end.

Definition overlay (base m : LinkMetrics) : LinkMetrics :=
  mkLinkMetrics (max_data_rate_rx_bps m) (max_data_rate_tx_bps m) (current_data_rate_rx_bps m)
    (current_data_rate_tx_bps m) (latency m) (or_else (resources m) (resources base))
    (or_else (rlq_rx m) (rlq_rx base)) (or_else (rlq_tx m) (rlq_tx base)) (or_else (mtu m) (mtu base)).

(** The latency of the wire is a whole number of microseconds. *)
Definition wire_latency (d : Duration) : Duration := from_micros (as_micros d).

Definition wire_metrics (m : LinkMetrics) : LinkMetrics :=
  mkLinkMetrics (max_data_rate_rx_bps m) (max_data_rate_tx_bps m) (current_data_rate_rx_bps m)
    (current_data_rate_tx_bps m) (wire_latency (latency m)) (resources m) (rlq_rx m) (rlq_tx m) (mtu m).

Definition wire_characteristics (r : LinkCharacteristics) : LinkCharacteristics :=
  mkLinkCharacteristics (req_data_rate_rx_bps r) (req_data_rate_tx_bps r)
    (wire_latency <$> req_latency r).

Lemma push_opt_items {A} (mk : A -> DataItem) o msg :
  push_opt mk o msg = mkMessage (message_type msg) (msg_items msg ++ (mk <$> opt_list o)).
Proof. destruct o; cbn; [done|]. rewrite app_nil_r. by destruct msg. Qed.

Lemma push_metric_items_items msg m :
  push_metric_items msg m = mkMessage (message_type msg) (msg_items msg ++ metric_items m).
Proof.
  unfold push_metric_items. rewrite !push_opt_items. cbn. unfold metric_items.
  by rewrite <-!app_assoc.
Qed.

Lemma merge_metric_other acc items :
  Forall (fun i => metric_item i = false) items -> foldl merge_metric acc items = acc.
Proof.
  induction 1 as [|i items Hi _ IH]; [done|]. cbn [foldl].
  destruct acc as [f []]. by destruct i.
Qed.

Lemma merge_metric_items f base m :
  foldl merge_metric (f, base) (metric_items m) = (true, overlay base m).
Proof. destruct base, m as [a b c d e [] [] [] []]; reflexivity. Qed.

Lemma merge_link_metrics_built msg items m base :
  msg_items msg = items ++ metric_items m ->
  Forall (fun i => metric_item i = false) items ->
  merge_link_metrics msg base = (true, overlay base m).
Proof.
  intros Hi Ho. unfold merge_link_metrics. rewrite Hi, foldl_app, (merge_metric_other _ items) by done.
  apply merge_metric_items.
Qed.

Lemma metric_items_other m :
  Forall (fun i => address_item i = false) (metric_items m)
  /\ Forall faithful_item (metric_items m).
Proof. destruct m as [a b c d e [] [] [] []]; split; by repeat constructor. Qed.

(** Messages made of a list of items. *)
Lemma foldl_with_item {A} (f : A -> DataItem) l msg :
  foldl (fun m a => with_item m (f a)) msg l
  = mkMessage (message_type msg) (msg_items msg ++ (f <$> l)).
Proof. apply foldl_push_item. Qed.

Definition addrs_items (d : DestinationAddrs) : list DataItem :=
  (Ipv4Address true <$> v4 d) ++ (Ipv6Address true <$> v6 d)
  ++ (Ipv4AttachedSubnet true <$> v4_subnets d) ++ (Ipv6AttachedSubnet true <$> v6_subnets d).

Lemma build_destination_up_items mac metrics addrs :
  build_destination_up mac metrics addrs
  = mkMessage MessageType.DESTINATION_UP (MacAddress mac :: addrs_items addrs ++ metric_items metrics).
Proof.
  unfold build_destination_up. rewrite push_metric_items_items, !foldl_with_item.
  cbn. unfold addrs_items. by rewrite <-!app_assoc.
Qed.

Section Facts.
Context {crates : Crates}.

(** ** Across the wire *)

Lemma extract_mac_canonical m :
  extract_destination_mac (canonical_message m) = extract_destination_mac m.
Proof.
  unfold extract_destination_mac, canonical_message. cbn [msg_items].
  induction (msg_items m) as [|i l IH]; [done|]. cbn. rewrite IH. by destruct i.
Qed.

Lemma metric_items_canonical m : canonical_item <$> metric_items m = metric_items (wire_metrics m).
Proof. destruct m as [a b c d e [] [] [] []]; reflexivity. Qed.

Lemma canonical_other_metric items :
  Forall (fun i => metric_item i = false) items ->
  Forall (fun i => metric_item i = false) (canonical_item <$> items).
Proof. rewrite Forall_fmap. intros H. eapply Forall_impl; [exact H|]. by intros []. Qed.

Lemma merge_canonical msg items m base :
  msg_items msg = items ++ metric_items m ->
  Forall (fun i => metric_item i = false) items ->
  merge_link_metrics (canonical_message msg) base = (true, overlay base (wire_metrics m)).
Proof.
  intros Hi Ho. apply (merge_link_metrics_built _ (canonical_item <$> items)).
  - unfold canonical_message. cbn [msg_items]. by rewrite Hi, fmap_app, metric_items_canonical.
  - by apply canonical_other_metric.
Qed.

Lemma addrs_items_other d :
  Forall (fun i => metric_item i = false) (addrs_items d)
  /\ Forall faithful_item (addrs_items d).
Proof.
  unfold addrs_items. rewrite !Forall_app, !Forall_fmap. repeat split; by apply Forall_true.
Qed.

Lemma foldl_from_addrs_items d c :
  foldl from_message_item c (addrs_items d)
  = foldl from_message_item c (set_items true d).
Proof.
  unfold addrs_items, set_items. rewrite !foldl_app.
  assert (H4 : forall l s, foldl from_message_item s (Ipv4AttachedSubnet true <$> l)
    = foldl from_message_item s ((fun n => Ipv4AttachedSubnet true (v4_trunc n)) <$> l)).
  { intros l. induction l as [|n l IH]; intros s; [done|]. cbn. by rewrite v4_trunc_idemp, IH. }
  assert (H6 : forall l s, foldl from_message_item s (Ipv6AttachedSubnet true <$> l)
    = foldl from_message_item s ((fun n => Ipv6AttachedSubnet true (v6_trunc n)) <$> l)).
  { intros l. induction l as [|n l IH]; intros s; [done|]. cbn. by rewrite v6_trunc_idemp, IH. }
  by rewrite H4, H6.
Qed.

Lemma from_message_destination_up mac metrics addrs :
  from_message (build_destination_up mac metrics addrs)
  = mkChanges (addrs_canonical addrs) DestinationAddrs_default.
Proof.
  unfold from_message. rewrite build_destination_up_items. cbn [msg_items foldl].
  rewrite foldl_app, foldl_from_addrs_items, foldl_from_set_items,
    foldl_from_other by apply metric_items_other. done.
Qed.

(** ** Local session address updates *)

Lemma session_busy_open tx k :
  session_busy tx = false ->
  open_session k tx = (Ok tt, mkTracker (Some (mkPending k)) (per_destination tx)).
Proof. unfold session_busy, open_session. by destruct (session_pending tx). Qed.

Lemma validate_no_panic c : validate c <> Panic.
Proof. destruct (validate_spec c) as [[-> _]|[-> _]]; done. Qed.

Lemma validate_local_no_panic local c : validate_local_address_update local c <> Panic.
Proof.
  unfold validate_local_address_update. pose proof (validate_no_panic c).
  destruct (validate c); cbn; [|done|done].
  pose proof (Message_encode_no_panic
    (append_to (between local (apply_lenient c local)) (Message_new MessageType.SESSION_UPDATE))).
  by destruct (Message_encode _).
Qed.

Lemma apply_local_no_panic c tx local : apply_local_address_update c tx local <> Panic.
Proof.
  unfold apply_local_address_update.
  destruct (session_busy tx) eqn:Hb; [done|]. pose proof (validate_local_no_panic local c).
  destruct (validate_local_address_update local c); cbn; [|done|done].
  destruct (AddressChanges_is_empty _); [done|]. by rewrite session_busy_open.
Qed.

End Facts.

(** ** Typing of the items sent *)

Definition is_addrs (d : DestinationAddrs) : Prop :=
  Forall (fun a => 0 <= a < 2 ^ 32) (v4 d) /\ Forall (fun a => 0 <= a < 2 ^ 128) (v6 d)
  /\ Forall (is_net 32) (v4_subnets d) /\ Forall (is_net 128) (v6_subnets d).

Section Typing.
Context {crates : Crates}.

Definition is_entry (e : Entry) : Prop :=
  match e with
  | EntryV4 a => 0 <= a < 2 ^ 32
  | EntryV6 a => 0 <= a < 2 ^ 128
  | EntryV4Subnet n => is_net 32 n
  | EntryV6Subnet n => is_net 128 n
  end.

Lemma is_addrs_has d : is_addrs d <-> forall e, has d e -> is_entry e.
Proof.
  unfold is_addrs. rewrite !Forall_forall. split.
  - intros (H1 & H2 & H3 & H4) [a|a|n|n]; cbn; auto.
  - intros H. split_and!; intros a Ha; by
      first [apply (H (EntryV4 a))|apply (H (EntryV6 a))|apply (H (EntryV4Subnet a))
            |apply (H (EntryV6Subnet a))].
Qed.

Lemma is_net_trunc4 n : is_net 32 n -> is_net 32 (v4_trunc n).
Proof.
  intros [Ha Hp]. rewrite v4_trunc_spec. split; cbn; [apply v4_network_range; [done|lia]|done].
Qed.

Lemma is_net_trunc6 n : is_net 128 n -> is_net 128 (v6_trunc n).
Proof.
  intros [Ha Hp]. rewrite v6_trunc_spec. split; cbn; [apply v6_network_range; [done|lia]|done].
Qed.

Lemma is_addrs_canonical d : is_addrs d -> is_addrs (addrs_canonical d).
Proof.
  intros (H1 & H2 & H3 & H4). split_and!; cbn; try done; rewrite Forall_fmap;
    eapply Forall_impl; eauto using is_net_trunc4, is_net_trunc6.
Qed.

Lemma is_addrs_apply c cur : is_addrs (added c) -> is_addrs cur -> is_addrs (apply_lenient c cur).
Proof.
  intros Ha%is_addrs_canonical Hc. rewrite is_addrs_has in *. intros e.
  rewrite has_apply_lenient. cbn. intros [[He _]|[He _]]; auto.
Qed.

Lemma is_addrs_difference a b : is_addrs a -> is_addrs (difference a b).
Proof. rewrite !is_addrs_has. intros H e. rewrite has_difference. intros [He _]. auto. Qed.

Lemma set_items_ok add d : is_addrs d -> Forall is_item (set_items add d).
Proof.
  intros (H1 & H2 & H3 & H4). unfold set_items. rewrite !Forall_app, !Forall_fmap.
  split_and!; try done.
  - eapply Forall_impl; [exact H3|]. apply is_net_trunc4.
  - eapply Forall_impl; [exact H4|]. apply is_net_trunc6.
Qed.

Lemma changes_items_ok c :
  is_addrs (added c) -> is_addrs (removed c) -> Forall is_item (changes_items c).
Proof. intros. apply Forall_app. auto using set_items_ok. Qed.

Lemma addrs_items_ok d : is_addrs d -> Forall is_item (addrs_items d).
Proof.
  intros (H1 & H2 & H3 & H4). unfold addrs_items. rewrite !Forall_app, !Forall_fmap. done.
Qed.

Lemma Forall_opt_list {A} (P : A -> Prop) o : default True (P <$> o) -> Forall P (opt_list o).
Proof. by destruct o; repeat constructor. Qed.

Lemma metric_items_ok m : is_metrics m -> Forall is_item (metric_items m).
Proof.
  destruct m as [a b c d e f g h i]. intros (?&?&?&?&?&?&?&?&?).
  unfold metric_items. rewrite !Forall_app, !Forall_fmap. cbn in *.
  split_and!; try (by apply Forall_opt_list).
  repeat (apply Forall_cons; split; [done|]). constructor.
Qed.

End Typing.

(** ** Properties *)

Section Properties.
Context {crates : Crates}.

(** Destination reports.  A Destination Up that encodes is read by the peer
    as the same destination: same MAC, the metrics in wire units laid over the
    peer's defaults, and exactly the reported addresses and networks. *)
Theorem destination_up_wire mac metrics addrs bs base :
  is_mac mac -> is_metrics metrics -> is_addrs addrs ->
  Message_encode (build_destination_up mac metrics addrs) = Ok bs ->
  exists m, Message_decode bs = Ok m
    /\ message_type m = MessageType.DESTINATION_UP
    /\ extract_destination_mac m = Some mac
    /\ merge_link_metrics m base = (true, overlay base (wire_metrics metrics))
    /\ addrs_nodup (extract_destination_addrs m)
    /\ addrs_equiv (extract_destination_addrs m) (addrs_canonical addrs).
Proof.
  intros Hmac Hmet Had He.
  assert (Hi : msg_items (build_destination_up mac metrics addrs)
               = (MacAddress mac :: addrs_items addrs) ++ metric_items metrics)
    by by rewrite build_destination_up_items.
  assert (Ht : message_type (build_destination_up mac metrics addrs) = MessageType.DESTINATION_UP)
    by by rewrite build_destination_up_items.
  eexists. split.
  { rewrite <-(app_nil_r bs). apply Message_decode_encoded; [| |exact He]; [split|]; rewrite ?Ht, ?Hi.
    - by unfold is_u16, u16_max.
    - apply Forall_app. split; [|by apply metric_items_ok]. constructor; [done|by apply addrs_items_ok].
    - apply Forall_app. split; [|apply metric_items_other]. constructor; [done|apply addrs_items_other]. }
  split; [done|]. split; [by rewrite extract_mac_canonical; unfold extract_destination_mac; rewrite Hi|].
  split; [eapply merge_canonical; [exact Hi|]; constructor; [done|apply addrs_items_other]|].
  unfold extract_destination_addrs. rewrite from_message_canonical, from_message_destination_up.
  split; [apply apply_lenient_nodup; repeat split; constructor|].
  intros e. rewrite has_apply_lenient. cbn [changes_canonical added removed].
  replace (addrs_canonical (addrs_canonical addrs)) with (addrs_canonical addrs)
    by (symmetry; apply canonical_has, addrs_canonical_has).
  assert (Hnone : forall e, ~ has DestinationAddrs_default e) by (intros []; cbn; set_solver).
  assert (Hnone' : forall e, ~ has (addrs_canonical DestinationAddrs_default) e) by exact Hnone.
  specialize (Hnone e). specialize (Hnone' e). tauto.
Qed.

(** Requested characteristics.  A Link Characteristics Request arrives with
    the MAC and exactly the characteristics that were asked for. *)
Theorem characteristics_request_wire mac r bs :
  is_mac mac -> is_message (build_link_characteristics_request mac r) ->
  Message_encode (build_link_characteristics_request mac r) = Ok bs ->
  exists m, Message_decode bs = Ok m /\ extract_destination_mac m = Some mac
    /\ extract_link_characteristics m = wire_characteristics r.
Proof.
  intros Hmac Hm He. eexists. split.
  { rewrite <-(app_nil_r bs). apply Message_decode_encoded; [done| |exact He].
    destruct r as [[] [] []]; by repeat constructor. }
  destruct r as [[] [] []]; by split.
Qed.

(** Session addresses stay in step.  When the local side sends a Session
    Update for its own addresses, the message encodes, the session scope is busy
    until it is answered, and a peer that knows the same addresses accepts it and
    then knows the new ones; when nothing is sent, nothing changes. *)
Theorem session_address_sync changes tx local peer acts tx' local' :
  addrs_nodup local -> addrs_canonical local = local -> is_addrs local ->
  is_addrs (added changes) -> addrs_equiv peer local ->
  apply_local_address_update changes tx local = Ok (acts, tx', local') ->
  (exists m bs m' peer', acts = [SendMessage m]
     /\ scopes tx None = None /\ scopes tx' None = Some RSessionUpdate
     /\ Message_encode m = Ok bs /\ Message_decode bs = Ok m'
     /\ apply_strict (from_message m') peer = (Ok tt, peer') /\ addrs_equiv peer' local')
  \/ (tx' = tx /\ local' = local /\ forall m, SendMessage m ∉ acts).
Proof.
  intros Hn Hc Hi Ha Hp. unfold apply_local_address_update.
  destruct (session_busy tx) eqn:Hb.
  { intros [= <- <- <-]. right. repeat split; set_solver. }
  destruct (validate_local_address_update local changes) as [u|r|] eqn:Hv; [| |done].
  2:{ intros [= <- <- <-]. right. repeat split; set_solver. }
  set (desired := apply_lenient changes local).
  destruct (AddressChanges_is_empty _); [intros [= <- <- <-]; right; repeat split; set_solver|].
  rewrite session_busy_open by done. cbn. intros [= <- <- <-]. left.
  assert (Hd : addrs_nodup desired) by by apply apply_lenient_nodup.
  assert (Cd : addrs_canonical desired = desired) by by apply apply_lenient_is_canonical.
  set (msg := append_to (between local desired) (Message_new MessageType.SESSION_UPDATE)).
  assert (exists bs, Message_encode msg = Ok bs) as [bs He].
  { unfold validate_local_address_update in Hv.
    destruct (validate changes); cbn [map_err mbind outcome_bind] in Hv; [|done|done].
    fold desired msg in Hv.
    destruct (Message_encode msg) as [bs| |]; [eauto|done|done]. }
  assert (is_addrs desired) by by apply is_addrs_apply.
  exists msg, bs, (canonical_message msg), (apply_lenient (between local desired) peer).
  split; [done|]. split; [by destruct tx as [[]]|]. split; [done|]. split; [done|]. split.
  { rewrite <-(app_nil_r bs). apply Message_decode_encoded; [| |done];
      unfold msg; rewrite append_to_items; cbn [msg_items message_type Message_new app].
    - split; [by unfold is_u16, u16_max|]. apply changes_items_ok; by apply is_addrs_difference.
    - apply changes_items_faithful. }
  unfold msg. rewrite from_message_canonical, from_append by constructor.
  rewrite between_canonical by done. by apply apply_between.
Qed.

(** The missed-heartbeat deadline.  A heartbeat interval read from the wire
    always arms the deadline, at twice the peer's interval and at least two
    seconds. *)
Theorem heartbeat_deadline src m d id :
  is_bytes src -> Message_decode src = Ok m -> extract_heartbeat_interval m = Some d ->
  heartbeat_reset_action id (Some d) = Some (ResetHeartbeat id (2 * d)) /\ from_millis 2000 <= 2 * d.
Proof.
  intros Hb Hd He. destruct (Message_decode_inv src m Hb Hd) as (raws & rest & _ & _ & Hr & _ & Hl).
  destruct (decoded_items raws (msg_items m) Hr Hl) as (_ & Hen & _ & _ & _ & Hcan).
  apply find_map_Some in He as (i & Hin & Hi). destruct i; try done. injection Hi as ->.
  rewrite forallb_elem in Hen. specialize (Hen _ Hin). cbn in Hen. bprop.
  assert (Hd2 : d = from_millis (as_millis d)).
  { apply (fmap_fixed canonical_item) with (x := HeartbeatInterval d) in Hcan; [|done].
    injection Hcan as Hcan. done. }
  unfold heartbeat_reset_action, duration_checked_mul. cbn.
  unfold from_millis, u32_max, MIN_HEARTBEAT_INTERVAL_MS in *.
  rewrite (proj2 (Z.ltb_ge _ _)) by lia. rewrite (proj2 (Z.leb_le _ _)).
  - cbn. split; [|lia]. by rewrite Z.mul_comm.
  - unfold Duration_MAX, u64_max. lia.
Qed.

End Properties.

(** ** Witnesses *)

#[local] Existing Instance reference_crates.

Definition sample_mac : Mac := Eui48 [1; 2; 3; 4; 5; 6].
Definition sample_metrics : LinkMetrics :=
  mkLinkMetrics 1000000 500000 800000 400000 1500 (Some 80) None (Some 7) (Some 1500).

Lemma sample_mac_ok : is_mac sample_mac.
Proof. split; [|done]. by apply (bool_decide_unpack _). Qed.

Lemma sample_metrics_ok : is_metrics sample_metrics.
Proof. by repeat split. Qed.

Lemma sample_addrs_ok : is_addrs sample_addrs /\ is_addrs (added sample_changes).
Proof.
  unfold sample_addrs, sample_changes, is_addrs. cbn.
  split; split_and!; repeat (apply Forall_cons; split; [by repeat split|]); constructor.
Qed.

Lemma destination_up_wire_witness :
  exists bs m, Message_encode (build_destination_up sample_mac sample_metrics sample_addrs) = Ok bs
    /\ Message_decode bs = Ok m /\ extract_destination_mac m = Some sample_mac.
Proof.
  destruct (Message_encode (build_destination_up sample_mac sample_metrics sample_addrs))
    as [bs| |] eqn:E; [|exfalso; by vm_compute in E|exfalso; by vm_compute in E].
  destruct (destination_up_wire sample_mac sample_metrics sample_addrs bs LinkMetrics_default
    sample_mac_ok sample_metrics_ok (proj1 sample_addrs_ok) E) as (m & H1 & _ & H2 & _).
  exists bs, m. exact (conj eq_refl (conj H1 H2)).
Defined.

Definition sample_request : LinkCharacteristics := mkLinkCharacteristics (Some 5) None (Some 2500).

Lemma characteristics_request_wire_witness :
  exists bs m, Message_encode (build_link_characteristics_request sample_mac sample_request) = Ok bs
    /\ Message_decode bs = Ok m
    /\ extract_link_characteristics m = mkLinkCharacteristics (Some 5) None (Some 2000).
Proof.
  destruct (Message_encode (build_link_characteristics_request sample_mac sample_request))
    as [bs| |] eqn:E; [|exfalso; by vm_compute in E|exfalso; by vm_compute in E].
  destruct (characteristics_request_wire sample_mac sample_request bs sample_mac_ok) as (m & H1 & _ & H2);
    [|exact E|exists bs, m; exact (conj eq_refl (conj H1 H2))].
  split; [by unfold is_u16, u16_max|]. cbn.
  repeat (apply Forall_cons; split; [apply sample_mac_ok || by repeat split|]). constructor.
Defined.

Lemma session_address_sync_witness :
  exists acts tx' local',
    apply_local_address_update (mkChanges (mkAddrs [3] [] [] []) (mkAddrs [1] [] [] []))
      TransactionTracker_default sample_addrs = Ok (acts, tx', local')
    /\ ((exists m bs m' peer', acts = [SendMessage m]
          /\ scopes TransactionTracker_default None = None /\ scopes tx' None = Some RSessionUpdate
          /\ Message_encode m = Ok bs /\ Message_decode bs = Ok m'
          /\ apply_strict (from_message m') sample_addrs = (Ok tt, peer')
          /\ addrs_equiv peer' local')
        \/ (tx' = TransactionTracker_default /\ local' = sample_addrs
            /\ forall m, SendMessage m ∉ acts)).
Proof.
  do 3 eexists. split; [vm_compute; reflexivity|].
  eapply (session_address_sync (mkChanges (mkAddrs [3] [] [] []) (mkAddrs [1] [] [] []))
            _ sample_addrs);
    [apply sample_addrs_nodup|by vm_compute|apply sample_addrs_ok| |done|vm_compute; reflexivity].
  split_and!; cbn; repeat (apply Forall_cons; split; [done|]); constructor.
Defined.

Lemma heartbeat_deadline_witness :
  heartbeat_reset_action 2 (Some (from_millis 5000)) = Some (ResetHeartbeat 2 (2 * from_millis 5000)).
Proof.
  apply (heartbeat_deadline [0; 1; 0; 8; 0; 5; 0; 4; 0; 0; 19; 136]
    (mkMessage 1 [HeartbeatInterval (from_millis 5000)]));
    [by apply (bool_decide_unpack _)|by vm_compute|done].
Defined.
