(* ===== verification/Validation.v ===== *)
(** * Message grammar and transaction checks

    [dlep-fsm/src/validation.rs]: which message is expected from which role in
    which phase, which data items it may and must carry, and whether it fits the
    outstanding requests.  The loop with its two sets is proved equal to a check by
    the tables of the code, which [Grammar] proves to be the productions of RFC 8175. *)

From S2P Require Import Prelude Externs CoreTypes Codec CodecItem CodecMessage Addresses Events.
From S2P Require Import SessionCommon.
Import DataItem.

(** [matches!(t, A | B | ..)] on the numeric identifiers. *)
Definition one_of (t : Z) (l : list Z) : bool := contains l t.

Definition validate_mac_format (msg : Message) (format : MacAddressFormat)
    : outcome StatusCode unit :=
  if any (fun item => match item with MacAddress mac => negb (accepts format mac) | _ => false end)
       (msg_items msg)
  then Err StatusCode.INVALID_DATA
  else Ok tt.

(** The message types a role may receive, during initialization and after. *)
Definition expected_message (mt : MessageType) (router initializing : bool) : bool :=
  if initializing then
    mt =? (if router then MessageType.SESSION_INITIALIZATION_RESPONSE
           else MessageType.SESSION_INITIALIZATION)
  else
    one_of mt [MessageType.SESSION_UPDATE; MessageType.SESSION_UPDATE_RESPONSE;
               MessageType.SESSION_TERMINATION; MessageType.HEARTBEAT]
    || if router then
         one_of mt [MessageType.DESTINATION_UP; MessageType.DESTINATION_ANNOUNCE_RESPONSE;
                    MessageType.DESTINATION_DOWN; MessageType.DESTINATION_DOWN_RESPONSE;
                    MessageType.DESTINATION_UPDATE; MessageType.LINK_CHARACTERISTICS_RESPONSE]
       else
         one_of mt [MessageType.DESTINATION_UP_RESPONSE; MessageType.DESTINATION_ANNOUNCE;
                    MessageType.DESTINATION_DOWN; MessageType.DESTINATION_DOWN_RESPONSE;
                    MessageType.LINK_CHARACTERISTICS_REQUEST].

Definition address_type (t : DataItemType) : bool := (8 <=? t) && (t <=? 11).
Definition metric_type (t : DataItemType) : bool := (12 <=? t) && (t <=? 20).

(** The data item types a message type may carry. *)
Definition allowed_item (mt : MessageType) (router : bool) (t : DataItemType) : bool :=
  let address := address_type t in
  let metric := metric_type t in
  if mt =? MessageType.SESSION_INITIALIZATION then
    one_of t [DataItemType.PEER_TYPE; DataItemType.HEARTBEAT_INTERVAL;
              DataItemType.EXTENSIONS_SUPPORTED] || address
  else if mt =? MessageType.SESSION_INITIALIZATION_RESPONSE then
    one_of t [DataItemType.STATUS; DataItemType.PEER_TYPE; DataItemType.HEARTBEAT_INTERVAL;
              DataItemType.EXTENSIONS_SUPPORTED] || address || metric
  else if mt =? MessageType.SESSION_UPDATE then address || (router && metric)
  else if one_of mt [MessageType.SESSION_UPDATE_RESPONSE; MessageType.SESSION_TERMINATION] then
    t =? DataItemType.STATUS
  else if one_of mt [MessageType.DESTINATION_UP; MessageType.DESTINATION_UPDATE] then
    (t =? DataItemType.MAC_ADDRESS) || address || metric
  else if one_of mt [MessageType.DESTINATION_UP_RESPONSE; MessageType.DESTINATION_DOWN_RESPONSE] then
    one_of t [DataItemType.MAC_ADDRESS; DataItemType.STATUS]
  else if mt =? MessageType.DESTINATION_ANNOUNCE then
    one_of t [DataItemType.MAC_ADDRESS; DataItemType.IPV4_ADDRESS; DataItemType.IPV6_ADDRESS]
  else if mt =? MessageType.DESTINATION_ANNOUNCE_RESPONSE then
    one_of t [DataItemType.MAC_ADDRESS; DataItemType.STATUS] || address || metric
  else if mt =? MessageType.LINK_CHARACTERISTICS_RESPONSE then
    one_of t [DataItemType.MAC_ADDRESS; DataItemType.STATUS] || metric
  else if mt =? MessageType.DESTINATION_DOWN then t =? DataItemType.MAC_ADDRESS
  else if mt =? MessageType.LINK_CHARACTERISTICS_REQUEST then
    one_of t [DataItemType.MAC_ADDRESS; DataItemType.CURRENT_DATA_RATE_RECEIVE;
              DataItemType.CURRENT_DATA_RATE_TRANSMIT; DataItemType.LATENCY]
  else false.

(** The data item types a message type must carry. *)
Definition required_items (mt : MessageType) : list DataItemType :=
  if mt =? MessageType.SESSION_INITIALIZATION then
    [DataItemType.PEER_TYPE; DataItemType.HEARTBEAT_INTERVAL]
  else if mt =? MessageType.SESSION_INITIALIZATION_RESPONSE then
    [DataItemType.STATUS; DataItemType.PEER_TYPE; DataItemType.HEARTBEAT_INTERVAL;
     DataItemType.MAXIMUM_DATA_RATE_RECEIVE; DataItemType.MAXIMUM_DATA_RATE_TRANSMIT;
     DataItemType.CURRENT_DATA_RATE_RECEIVE; DataItemType.CURRENT_DATA_RATE_TRANSMIT;
     DataItemType.LATENCY]
  else if one_of mt [MessageType.SESSION_UPDATE_RESPONSE; MessageType.SESSION_TERMINATION] then
    [DataItemType.STATUS]
  else if one_of mt [MessageType.DESTINATION_UP_RESPONSE; MessageType.DESTINATION_ANNOUNCE_RESPONSE;
                     MessageType.DESTINATION_DOWN_RESPONSE;
                     MessageType.LINK_CHARACTERISTICS_RESPONSE] then
    [DataItemType.MAC_ADDRESS; DataItemType.STATUS]
  else if one_of mt [MessageType.DESTINATION_UP; MessageType.DESTINATION_ANNOUNCE;
                     MessageType.DESTINATION_DOWN; MessageType.DESTINATION_UPDATE;
                     MessageType.LINK_CHARACTERISTICS_REQUEST] then
    [DataItemType.MAC_ADDRESS]
  else [].

Definition unknown_item (item : DataItem) : bool :=
  match item with Unknown _ => true | _ => false end.

(** An address item with [add: false]. *)
Definition drop_item (item : DataItem) : bool :=
  match item with
  | Ipv4Address false _ | Ipv6Address false _
  | Ipv4AttachedSubnet false _ | Ipv6AttachedSubnet false _ => true
  | _ => false
  end.

Definition unrecognized_extension (msg : Message) (local_extensions : list ExtensionId) : bool :=
  any (fun i => match i with
                | ExtensionsSupported ids => any (fun id => negb (contains local_extensions id)) ids
                | _ => false
                end) (msg_items msg).

Definition characteristic_types : list DataItemType :=
  [DataItemType.CURRENT_DATA_RATE_RECEIVE; DataItemType.CURRENT_DATA_RATE_TRANSMIT;
   DataItemType.LATENCY].

Section Validation.
Context {crates : Crates}.

(** The two sets of the item loop: types seen, and encoded addresses seen. *)
Abbreviation seen := (gset DataItemType * gset bytes)%type.

Definition validate_item (msg : Message) (router initializing : bool)
    (local_extensions : list ExtensionId) (s : seen) (item : DataItem) : outcome StatusCode seen :=
  let '(types, addresses) := s in
  let t := type_id item in
  if unknown_item item then
    if initializing && unrecognized_extension msg local_extensions then Ok s
    else Err StatusCode.INVALID_DATA
  else if negb (allowed_item (message_type msg) router t) then Err StatusCode.INVALID_DATA
  else
    let '(r, bytes) := DataItem_encode item [] in
    _ ← map_err (fun _ => StatusCode.INVALID_DATA) r;
    if address_type t then
      if bool_decide (bytes ∈ addresses) then Err StatusCode.INVALID_DATA
      else if initializing && drop_item item then Err StatusCode.INVALID_DATA
      else Ok (types, {[bytes]} ∪ addresses)
    else if bool_decide (t ∈ types) then Err StatusCode.INVALID_DATA
    else Ok ({[t]} ∪ types, addresses).

Fixpoint validate_items (msg : Message) (router initializing : bool)
    (local_extensions : list ExtensionId) (s : seen) (items : list DataItem)
    : outcome StatusCode seen :=
  match items with
  | [] => Ok s
  | item :: items' =>
      s' ← validate_item msg router initializing local_extensions s item;
      validate_items msg router initializing local_extensions s' items'
  end.

Definition validate_message (msg : Message) (router initializing : bool)
    (local_extensions : list ExtensionId) : outcome StatusCode unit :=
  let mt := message_type msg in
  if negb ((1 <=? mt) && (mt <=? 16)) then Err StatusCode.UNKNOWN_MESSAGE
  else if negb (expected_message mt router initializing) then Err StatusCode.UNEXPECTED_MESSAGE
  else
    '(types, _) ← validate_items msg router initializing local_extensions (∅, ∅) (msg_items msg);
    if any (fun t => negb (bool_decide (t ∈ (types : gset Z)))) (required_items mt)
    then Err StatusCode.INVALID_DATA
    else if (mt =? MessageType.LINK_CHARACTERISTICS_REQUEST)
            && negb (any (fun t => one_of t characteristic_types) (elements (types : gset Z)))
    then Err StatusCode.INVALID_DATA
    else Ok tt.

End Validation.

(** ** Transactions *)

Definition pending_is (p : option PendingRequest) (k : RequestKind) : bool :=
  match p with Some r => bool_decide (pending_kind r = k) | None => false end.

(** The request a response message answers. *)
Definition response_kind (mt : MessageType) : option RequestKind :=
  if mt =? MessageType.DESTINATION_UP_RESPONSE then Some RDestinationUp
  else if mt =? MessageType.DESTINATION_DOWN_RESPONSE then Some RDestinationDown
  else if mt =? MessageType.DESTINATION_ANNOUNCE_RESPONSE then Some RDestinationAnnounce
  else if mt =? MessageType.LINK_CHARACTERISTICS_RESPONSE then Some RLinkCharacteristics
  else None.

Definition validate_transaction (msg : Message) (tx : TransactionTracker) (destination_up : bool)
    : outcome StatusCode unit :=
  let mt := message_type msg in
  if (mt =? MessageType.SESSION_UPDATE) && session_busy tx then Err StatusCode.UNEXPECTED_MESSAGE
  else if (mt =? MessageType.SESSION_UPDATE_RESPONSE)
          && negb (pending_is (session_pending tx) RSessionUpdate)
  then Err StatusCode.UNEXPECTED_MESSAGE
  else
    match extract_destination_mac msg with
    | None => Ok tt
    | Some mac =>
        match response_kind mt with
        | Some kind =>
            if negb (pending_is (per_destination tx !! mac) kind)
            then Err StatusCode.UNEXPECTED_MESSAGE else Ok tt
        | None =>
            if one_of mt [MessageType.DESTINATION_UP; MessageType.DESTINATION_ANNOUNCE;
                          MessageType.DESTINATION_DOWN; MessageType.LINK_CHARACTERISTICS_REQUEST]
               && destination_busy tx mac
            then Err StatusCode.UNEXPECTED_MESSAGE
            else if one_of mt [MessageType.DESTINATION_UPDATE; MessageType.DESTINATION_DOWN;
                               MessageType.LINK_CHARACTERISTICS_REQUEST] && negb destination_up
            then Err StatusCode.INVALID_DESTINATION
            else if one_of mt [MessageType.DESTINATION_UP; MessageType.DESTINATION_ANNOUNCE]
                    && destination_up
            then Err StatusCode.UNEXPECTED_MESSAGE
            else Ok tt
        end
    end.

(** ** The loop *)

(** Types of the items that may occur once, in order. *)
Definition plain_types (items : list DataItem) : list DataItemType :=
  type_id <$> retain (fun i => negb (unknown_item i) && negb (address_type (type_id i))) items.

Definition address_items (items : list DataItem) : list DataItem :=
  retain (fun i => negb (unknown_item i) && address_type (type_id i)) items.

Lemma fresh_cons {X} `{Countable X} (x : X) l (S : gset X) :
  x ∉ S ->
  (NoDup l /\ forall t, t ∈ l -> t ∉ {[x]} ∪ S) <-> (NoDup (x :: l) /\ forall t, t ∈ x :: l -> t ∉ S).
Proof.
  intros Hx. rewrite NoDup_cons. setoid_rewrite elem_of_cons. setoid_rewrite not_elem_of_union.
  setoid_rewrite elem_of_singleton. firstorder congruence.
Qed.

Section Grammar.
Context {crates : Crates}.
Context (msg : Message) (router initializing : bool) (local_extensions : list ExtensionId).

(** An item that may stand in the message: an unknown one only while
    initializing with a peer that announces other extensions, a known one when
    its type is allowed and its value has a wire form; addresses cannot be
    dropped while initializing. *)
Definition item_ok (i : DataItem) : bool :=
  if unknown_item i then initializing && unrecognized_extension msg local_extensions
  else allowed_item (message_type msg) router (type_id i) && encodable i
       && negb (address_type (type_id i) && (initializing && drop_item i)).

(** By the tables: every item may stand there, no type occurs twice, no address is
    listed twice, everything required is present, and a request for link
    characteristics asks for something. *)
Definition grammar (items : list DataItem) : Prop :=
  Forall (fun i => item_ok i = true) items
  /\ NoDup (plain_types items) /\ NoDup (wire_item <$> address_items items)
  /\ required_items (message_type msg) ⊆ plain_types items
  /\ (message_type msg = MessageType.LINK_CHARACTERISTICS_REQUEST ->
      exists t, t ∈ plain_types items /\ t ∈ characteristic_types).

(** The part of it the loop checks, from sets [T] and [A] already seen. *)
Definition good (T : gset DataItemType) (A : gset bytes) (items : list DataItem) : Prop :=
  Forall (fun i => item_ok i = true) items
  /\ NoDup (plain_types items) /\ (forall t, t ∈ plain_types items -> t ∉ T)
  /\ NoDup (wire_item <$> address_items items)
  /\ (forall w, w ∈ wire_item <$> address_items items -> w ∉ A).

Lemma address_items_cons i items :
  address_items (i :: items)
  = if negb (unknown_item i) && address_type (type_id i) then i :: address_items items
    else address_items items.
Proof. done. Qed.

Lemma plain_types_cons i items :
  plain_types (i :: items)
  = if negb (unknown_item i) && negb (address_type (type_id i))
    then type_id i :: plain_types items else plain_types items.
Proof. unfold plain_types. cbn. by destruct (_ && _). Qed.

Lemma validate_item_spec T A i :
  is_item i ->
  validate_item msg router initializing local_extensions (T, A) i
  = if negb (item_ok i) then Err StatusCode.INVALID_DATA
    else if unknown_item i then Ok (T, A)
    else if address_type (type_id i) then
      if bool_decide (wire_item i ∈ A) then Err StatusCode.INVALID_DATA
      else Ok (T, {[wire_item i]} ∪ A)
    else if bool_decide (type_id i ∈ T) then Err StatusCode.INVALID_DATA
    else Ok ({[type_id i]} ∪ T, A).
Proof.
  intros Hi. unfold validate_item, item_ok. destruct (unknown_item i).
  { by destruct (initializing && _). }
  rewrite DataItem_encode_spec by done. cbn [app].
  destruct (allowed_item _ _ _); cbn [negb andb]; [|done].
  destruct (encodable i); cbn [negb andb map_err mbind outcome_bind]; [|done].
  destruct (address_type (type_id i)); cbn [negb andb]; [|done].
  destruct (initializing && drop_item i); cbn [negb]; by destruct (bool_decide _).
Qed.

Lemma validate_items_spec items T A :
  Forall is_item items ->
  match validate_items msg router initializing local_extensions (T, A) items with
  | Ok (T', _) => good T A items /\ forall t, t ∈ T' <-> t ∈ T \/ t ∈ plain_types items
  | Err e => e = StatusCode.INVALID_DATA /\ ~ good T A items
  | Panic => False
  end.
Proof.
  revert T A. induction items as [|i items IH]; intros T A Hi.
  { split; [|set_solver]. repeat split; try constructor; set_solver. }
  apply Forall_cons in Hi as [Hi His]. cbn [validate_items]. rewrite validate_item_spec by done.
  destruct (item_ok i) eqn:Hok; cbn [negb mbind outcome_bind].
  2:{ split; [done|]. intros [Hf _]. apply Forall_cons in Hf as [Hf _]. congruence. }
  assert (Hcons : good T A (i :: items) <->
    Forall (fun j => item_ok j = true) items
    /\ NoDup (plain_types (i :: items)) /\ (forall t, t ∈ plain_types (i :: items) -> t ∉ T)
    /\ NoDup (wire_item <$> address_items (i :: items))
    /\ (forall w, w ∈ wire_item <$> address_items (i :: items) -> w ∉ A))
    by (unfold good; rewrite Forall_cons, Hok; tauto).
  revert Hcons. generalize (good T A (i :: items)). intros G.
  rewrite plain_types_cons, address_items_cons.
  destruct (unknown_item i); cbn [negb andb mbind outcome_bind]; intros Hcons.
  { specialize (IH T A His). fold (good T A items) in Hcons.
    destruct (validate_items _ _ _ _ _ items) as [[T' A']|e|]; [|by rewrite Hcons|done].
    by rewrite Hcons. }
  destruct (address_type (type_id i)); cbn [negb] in *.
  - case_bool_decide as Hin; cbn [mbind outcome_bind].
    { split; [done|]. intros (_ & _ & _ & _ & H)%Hcons. by apply (H (wire_item i)); [left|]. }
    specialize (IH T ({[wire_item i]} ∪ A) His).
    assert (Hg : good T ({[wire_item i]} ∪ A) items <-> G).
    { rewrite Hcons. unfold good. rewrite fmap_cons.
      pose proof (fresh_cons (wire_item i) (wire_item <$> address_items items) A Hin). tauto. }
    destruct (validate_items _ _ _ _ _ items) as [[T' A']|e|]; [|by rewrite <-Hg|done].
    by rewrite <-Hg.
  - case_bool_decide as Hin; cbn [mbind outcome_bind].
    { split; [done|]. intros (_ & _ & H & _)%Hcons. by apply (H (type_id i)); [left|]. }
    specialize (IH ({[type_id i]} ∪ T) A His).
    assert (Hg : good ({[type_id i]} ∪ T) A items <-> G).
    { rewrite Hcons. unfold good.
      pose proof (fresh_cons (type_id i) (plain_types items) T Hin). tauto. }
    destruct (validate_items _ _ _ _ _ items) as [[T' A']|e|]; [|by rewrite <-Hg|done].
    rewrite <-Hg. destruct IH as [? IH]. split; [done|]. set_solver.
Qed.

Lemma validate_message_spec :
  is_message msg ->
  let mt := message_type msg in
  let r := validate_message msg router initializing local_extensions in
  if negb ((1 <=? mt) && (mt <=? 16)) then r = Err StatusCode.UNKNOWN_MESSAGE
  else if negb (expected_message mt router initializing) then r = Err StatusCode.UNEXPECTED_MESSAGE
  else (r = Ok tt /\ grammar (msg_items msg))
       \/ (r = Err StatusCode.INVALID_DATA /\ ~ grammar (msg_items msg)).
Proof.
  intros [_ Hi] mt r. unfold r, validate_message. fold mt. destruct (negb (_ && _)); [done|].
  destruct (negb (expected_message _ _ _)); [done|].
  pose proof (validate_items_spec (msg_items msg) ∅ ∅ Hi) as H.
  assert (Hgood : good ∅ ∅ (msg_items msg) <-> Forall (fun i => item_ok i = true) (msg_items msg)
    /\ NoDup (plain_types (msg_items msg)) /\ NoDup (wire_item <$> address_items (msg_items msg)))
    by (unfold good; set_solver).
  unfold grammar. fold mt. destruct (validate_items _ _ _ _ _ _) as [[T A]|e|]; [| |done]; cbn.
  2:{ destruct H as [-> H]. right. split; [done|]. tauto. }
  destruct H as [Hg Hin]. apply Hgood in Hg as (Hf & Hp & Ha).
  destruct (existsb _ (required_items mt)) eqn:Hr.
  { right. split; [done|]. intros (_ & _ & _ & Hsub & _).
    apply existsb_elem in Hr as (t & Ht & Hnt). apply negb_true_iff, bool_decide_eq_false in Hnt.
    set_solver. }
  assert (Hsub : required_items mt ⊆ plain_types (msg_items msg)).
  { intros t Ht. rewrite existsb_elem_false in Hr. specialize (Hr t Ht).
    apply negb_false_iff, bool_decide_eq_true in Hr. set_solver. }
  destruct (Z.eqb_spec mt MessageType.LINK_CHARACTERISTICS_REQUEST) as [Hmt|Hmt]; cbn; [|left; tauto].
  destruct (existsb _ (elements _)) eqn:Hc; cbn.
  - left. split; [done|]. do 4 (split; [done|]). intros _.
    apply existsb_elem in Hc as (t & Ht & Hct). exists t.
    split; [set_solver|by apply contains_spec].
  - right. split; [done|]. intros (_ & _ & _ & _ & H). destruct (H Hmt) as (t & Ht & Hct).
    rewrite existsb_elem_false in Hc. specialize (Hc t ltac:(set_solver)).
    apply contains_false in Hc. done.
Qed.

Lemma grammar_accepted :
  is_message msg -> 1 <= message_type msg <= 16 ->
  expected_message (message_type msg) router initializing = true -> grammar (msg_items msg) ->
  validate_message msg router initializing local_extensions = Ok tt.
Proof.
  intros Hm Ht He Hg. pose proof (validate_message_spec Hm) as H. cbv zeta in H.
  rewrite He, (proj2 (Z.leb_le _ _) (proj1 Ht)), (proj2 (Z.leb_le _ _) (proj2 Ht)) in H. cbn in H.
  tauto.
Qed.

End Grammar.

(** ** What an accepted message guarantees *)

Section Accepted.
Context {crates : Crates}.

Lemma validate_items_types msg router initializing exts items T A T' A' :
  validate_items msg router initializing exts (T, A) items = Ok (T', A') ->
  forall t, t ∈ T' -> t ∈ T \/ exists i, i ∈ items /\ unknown_item i = false /\ type_id i = t.
Proof.
  revert T A. induction items as [|i items IH]; intros T A H t Ht; cbn [validate_items] in H.
  { injection H as <- <-. by left. }
  assert (Hstep : exists T1 A1, validate_item msg router initializing exts (T, A) i = Ok (T1, A1)
    /\ (T1 = T \/ unknown_item i = false /\ T1 = {[type_id i]} ∪ T)).
  { revert H. unfold validate_item. destruct (unknown_item i).
    { destruct (_ && _); [|done]. intros _. eauto 6. }
    destruct (negb _); [done|]. destruct (DataItem_encode i []) as [[u|e|] bs]; cbn; [|done|done].
    destruct (address_type _).
    - destruct (bool_decide _); [done|]. destruct (_ && _); [done|]. intros _. eauto 6.
    - destruct (bool_decide _); [done|]. intros _. eauto 8. }
  destruct Hstep as (T1 & A1 & Hv & HT). rewrite Hv in H. cbn in H.
  destruct (IH T1 A1 H t Ht) as [Hin|(j & Hj & Hu & <-)].
  - destruct HT as [->|[Hu ->]]; [by left|]. apply elem_of_union in Hin as [Hin|Hin]; [|by left].
    apply elem_of_singleton in Hin as ->. right. exists i. split; [left|done].
  - right. exists j. split; [by right|done].
Qed.

Lemma validate_message_Ok msg router initializing exts :
  validate_message msg router initializing exts = Ok tt ->
  expected_message (message_type msg) router initializing = true
  /\ forall t, t ∈ required_items (message_type msg) ->
       exists i, i ∈ msg_items msg /\ unknown_item i = false /\ type_id i = t.
Proof.
  unfold validate_message. destruct (negb (_ && _)); [done|].
  destruct (expected_message _ _ _); [|done]. cbn [negb].
  destruct (validate_items _ _ _ _ _ _) as [[T A]|e|] eqn:Hv; [|done|done]. cbn.
  destruct (existsb _ (required_items _)) eqn:Hr; [done|]. intros _. split; [done|]. intros t Ht.
  rewrite existsb_elem_false in Hr. specialize (Hr t Ht). apply negb_false_iff, bool_decide_eq_true in Hr.
  destruct (validate_items_types _ _ _ _ _ _ _ _ _ Hv t Hr); [set_solver|done].
Qed.

Lemma type_id_mac i : unknown_item i = false -> type_id i = DataItemType.MAC_ADDRESS ->
  exists mac, i = MacAddress mac.
Proof. destruct i; try done. eauto. Qed.

Lemma validated_mac msg router initializing exts :
  validate_message msg router initializing exts = Ok tt ->
  DataItemType.MAC_ADDRESS ∈ required_items (message_type msg) ->
  exists mac, extract_destination_mac msg = Some mac.
Proof.
  intros Hv Hr. destruct (validate_message_Ok _ _ _ _ Hv) as [_ H].
  destruct (H _ Hr) as (i & Hi & Hu & Ht). destruct (type_id_mac i Hu Ht) as [mac ->].
  apply (find_map_is_Some _ _ _ Hi). eauto.
Qed.

Lemma validated_status msg router initializing exts :
  validate_message msg router initializing exts = Ok tt ->
  DataItemType.STATUS ∈ required_items (message_type msg) ->
  exists s, extract_status msg = Some s.
Proof.
  intros Hv Hr. destruct (validate_message_Ok _ _ _ _ Hv) as [_ H].
  destruct (H _ Hr) as (i & Hi & Hu & Ht). destruct i; try done.
  apply (find_map_is_Some _ _ _ Hi). eauto.
Qed.

Lemma validate_message_no_panic msg router initializing exts :
  validate_message msg router initializing exts <> Panic.
Proof.
  unfold validate_message. destruct (negb _); [done|]. destruct (negb _); [done|].
  assert (H : forall items s, validate_items msg router initializing exts s items <> Panic).
  { intros items. induction items as [|i items IH]; intros [T A]; [done|]. cbn [validate_items].
    assert (Hi : validate_item msg router initializing exts (T, A) i <> Panic).
    { unfold validate_item. destruct (unknown_item i); [by destruct (_ && _)|].
      destruct (negb _); [done|]. pose proof (DataItem_encode_no_panic i []) as He.
      destruct (DataItem_encode i []) as [[u|e|] bs]; cbn; [|done|done].
      destruct (address_type _); [|by destruct (bool_decide _)].
      destruct (bool_decide _); [done|]. by destruct (_ && _). }
    destruct (validate_item _ _ _ _ _ i); [apply IH|done|done]. }
  specialize (H (msg_items msg) (∅, ∅)).
  destruct (validate_items _ _ _ _ _ _) as [[T A]|e|]; [|done|done]. cbn.
  destruct (existsb _ _); [done|]. by destruct (_ && _).
Qed.

End Accepted.
