(* ===== verification/Grammar.v ===== *)
(** * The message grammar of RFC 8175

    The grammar [validate_message] of [dlep-fsm/src/validation.rs] checks, written down as
    the productions of RFC 8175, section 12: per message type the data items it consists
    of and how often each may occur, by the constructors of [DataItem] and not by their
    numbers.  [Validation] reduces the loop to the tables of the code; here the tables
    are proved to be the productions. *)

From S2P Require Import Prelude Externs CoreTypes Codec CodecItem CodecMessage Addresses Events.
From S2P Require Import SessionCommon Validation.
Import DataItem.

(** ** Productions *)

Inductive kind : Type :=
  | KStatus | KConnectionPoint4 | KConnectionPoint6 | KPeerType | KHeartbeatInterval | KExtensions | KMac
  | KAddress4 | KAddress6 | KSubnet4 | KSubnet6
  | KMaxRateReceive | KMaxRateTransmit | KRateReceive | KRateTransmit | KLatency
  | KResources | KQualityReceive | KQualityTransmit | KMtu.

#[global] Instance kind_eq_dec : EqDecision kind.
Proof. solve_decision. Defined.

Definition kind_of (i : DataItem) : option kind :=
  match i with
  | Status _ _ => Some KStatus
  | Ipv4ConnectionPoint _ _ _ => Some KConnectionPoint4
  | Ipv6ConnectionPoint _ _ _ => Some KConnectionPoint6
  | PeerType _ _ => Some KPeerType
  | HeartbeatInterval _ => Some KHeartbeatInterval
  | ExtensionsSupported _ => Some KExtensions
  | MacAddress _ => Some KMac
  | Ipv4Address _ _ => Some KAddress4
  | Ipv6Address _ _ => Some KAddress6
  | Ipv4AttachedSubnet _ _ => Some KSubnet4
  | Ipv6AttachedSubnet _ _ => Some KSubnet6
  | MaxDataRateReceive _ => Some KMaxRateReceive
  | MaxDataRateTransmit _ => Some KMaxRateTransmit
  | CurrentDataRateReceive _ => Some KRateReceive
  | CurrentDataRateTransmit _ => Some KRateTransmit
  | Latency _ => Some KLatency
  | Resources _ => Some KResources
  | RelativeLinkQualityReceive _ => Some KQualityReceive
  | RelativeLinkQualityTransmit _ => Some KQualityTransmit
  | Mtu _ => Some KMtu
  | Unknown _ => None
  end.

(** How often an item occurs: once, at most once, or any number of times. *)
Inductive times : Type := Once | Optional | Many.

#[global] Instance times_eq_dec : EqDecision times.
Proof. solve_decision. Defined.

Definition address_rules : list (kind * times) :=
  [(KAddress4, Many); (KAddress6, Many); (KSubnet4, Many); (KSubnet6, Many)].
Definition metric_rules : list (kind * times) :=
  [(KMaxRateReceive, Optional); (KMaxRateTransmit, Optional); (KRateReceive, Optional); (KRateTransmit, Optional);
   (KLatency, Optional); (KResources, Optional); (KQualityReceive, Optional); (KQualityTransmit, Optional);
   (KMtu, Optional)].

(** Message types by number; a router receives metrics in a Session Update, a modem does not. *)
Definition production (mt : MessageType) (router : bool) : list (kind * times) :=
  match mt with
  | 1 (* Session Initialization *) =>
      [(KPeerType, Once); (KHeartbeatInterval, Once); (KExtensions, Optional)] ++ address_rules
  | 2 (* Session Initialization Response *) =>
      [(KStatus, Once); (KPeerType, Once); (KHeartbeatInterval, Once); (KExtensions, Optional);
       (KMaxRateReceive, Once); (KMaxRateTransmit, Once); (KRateReceive, Once); (KRateTransmit, Once);
       (KLatency, Once); (KResources, Optional); (KQualityReceive, Optional); (KQualityTransmit, Optional);
       (KMtu, Optional)] ++ address_rules
  | 3 (* Session Update *) => address_rules ++ if router then metric_rules else []
  | 4 (* Session Update Response *) => [(KStatus, Once)]
  | 5 (* Session Termination *) => [(KStatus, Once)]
  | 7 (* Destination Up *) => (KMac, Once) :: address_rules ++ metric_rules
  | 8 (* Destination Up Response *) => [(KMac, Once); (KStatus, Once)]
  | 9 (* Destination Announce *) => [(KMac, Once); (KAddress4, Many); (KAddress6, Many)]
  | 10 (* Destination Announce Response *) => (KMac, Once) :: (KStatus, Once) :: address_rules ++ metric_rules
  | 11 (* Destination Down *) => [(KMac, Once)]
  | 12 (* Destination Down Response *) => [(KMac, Once); (KStatus, Once)]
  | 13 (* Destination Update *) => (KMac, Once) :: address_rules ++ metric_rules
  | 14 (* Link Characteristics Request *) =>
      [(KMac, Once); (KRateReceive, Optional); (KRateTransmit, Optional); (KLatency, Optional)]
  | 15 (* Link Characteristics Response *) => (KMac, Once) :: (KStatus, Once) :: metric_rules
  | _ (* Session Termination Response, Heartbeat *) => []
  end.

(** The message types a role is sent, before and after initialization. *)
Definition due (router initializing : bool) : list MessageType :=
  match initializing, router with
  | true, true => [2]
  | true, false => [1]
  | false, true => [3; 4; 5; 7; 10; 11; 12; 13; 15; 16]
  | false, false => [3; 4; 5; 8; 9; 11; 12; 14; 16]
  end.

Definition occurrences (k : kind) (items : list DataItem) : nat :=
  length (retain (fun i => bool_decide (kind_of i = Some k)) items).

(** An address, and an address that is taken back. *)
Definition is_address (i : DataItem) : bool :=
  match i with
  | Ipv4Address _ _ | Ipv6Address _ _ | Ipv4AttachedSubnet _ _ | Ipv6AttachedSubnet _ _ => true
  | _ => false
  end.
Definition takes_back (i : DataItem) : Prop :=
  match i with
  | Ipv4Address add _ | Ipv6Address add _ | Ipv4AttachedSubnet add _ | Ipv6AttachedSubnet add _ => add = false
  | _ => False
  end.

Section Conforms.
Context {crates : Crates} (rules : list (kind * times)) (initializing : bool) (local_extensions : list ExtensionId)
  (items : list DataItem).

(** Unknown items are tolerated while initializing with a peer that announces an
    extension this one does not have; a known item has a rule and a wire form; every rule
    is kept; no address is listed twice, nor taken back while initializing. *)
Record conforms : Prop := {
  cf_unknown : forall raw, Unknown raw ∈ items ->
    initializing = true
    /\ exists ids id, ExtensionsSupported ids ∈ items /\ id ∈ ids /\ id ∉ local_extensions;
  cf_rule : forall i k, i ∈ items -> kind_of i = Some k -> (exists n, (k, n) ∈ rules) /\ encodable i = true;
  cf_times : forall k n, (k, n) ∈ rules ->
    match n with
    | Once => occurrences k items = 1%nat
    | Optional => (occurrences k items <= 1)%nat
    | Many => True
    end;
  cf_addresses : NoDup (wire_item <$> retain is_address items);
  cf_takes_back : initializing = true -> forall i, i ∈ items -> ~ takes_back i;
}.
End Conforms.

(** A Link Characteristics Request asks for something. *)
Definition asks_something (items : list DataItem) : Prop :=
  (occurrences KRateReceive items + occurrences KRateTransmit items + occurrences KLatency items >= 1)%nat.

Definition conforming {crates : Crates} (msg : Message) (router initializing : bool) (local_extensions : list ExtensionId) : Prop :=
  conforms (production (message_type msg) router) initializing local_extensions (msg_items msg)
  /\ (message_type msg = 14 -> asks_something (msg_items msg)).

(** What a message is answered. *)
Inductive verdict {crates : Crates} (msg : Message) (router initializing : bool) (local_extensions : list ExtensionId)
    : outcome StatusCode unit -> Prop :=
  | verdict_unknown : ~ 1 <= message_type msg <= 16 ->
      verdict msg router initializing local_extensions (Err StatusCode.UNKNOWN_MESSAGE)
  | verdict_unexpected : 1 <= message_type msg <= 16 -> message_type msg ∉ due router initializing ->
      verdict msg router initializing local_extensions (Err StatusCode.UNEXPECTED_MESSAGE)
  | verdict_invalid : message_type msg ∈ due router initializing ->
      ~ conforming msg router initializing local_extensions ->
      verdict msg router initializing local_extensions (Err StatusCode.INVALID_DATA)
  | verdict_accepted : message_type msg ∈ due router initializing ->
      conforming msg router initializing local_extensions ->
      verdict msg router initializing local_extensions (Ok tt).

(** ** The tables of the code *)

Definition number (k : kind) : DataItemType :=
  match k with
  | KStatus => 1 | KConnectionPoint4 => 2 | KConnectionPoint6 => 3 | KPeerType => 4 | KHeartbeatInterval => 5
  | KExtensions => 6 | KMac => 7 | KAddress4 => 8 | KAddress6 => 9 | KSubnet4 => 10 | KSubnet6 => 11
  | KMaxRateReceive => 12 | KMaxRateTransmit => 13 | KRateReceive => 14 | KRateTransmit => 15 | KLatency => 16
  | KResources => 17 | KQualityReceive => 18 | KQualityTransmit => 19 | KMtu => 20
  end.

Definition all_kinds : list kind :=
  [KStatus; KConnectionPoint4; KConnectionPoint6; KPeerType; KHeartbeatInterval; KExtensions; KMac;
   KAddress4; KAddress6; KSubnet4; KSubnet6; KMaxRateReceive; KMaxRateTransmit; KRateReceive; KRateTransmit;
   KLatency; KResources; KQualityReceive; KQualityTransmit; KMtu].

Lemma all_kinds_complete k : k ∈ all_kinds.
Proof. destruct k; unfold all_kinds; set_solver. Qed.

Lemma number_inj k k' : number k = number k' -> k = k'.
Proof. by destruct k, k'. Qed.

Lemma kind_number i k : kind_of i = Some k -> unknown_item i = false /\ type_id i = number k.
Proof. by destruct i; intros [= <-]. Qed.

Lemma known_kind i : unknown_item i = false -> exists k, kind_of i = Some k.
Proof. destruct i; try done; intros _; by eexists. Qed.

Lemma is_address_spec i : is_address i = negb (unknown_item i) && address_type (type_id i).
Proof. by destruct i. Qed.

Lemma takes_back_spec i : takes_back i <-> drop_item i = true.
Proof. destruct i; cbn; try done; by destruct add. Qed.

(** The three tables against the productions, at one message type. *)
Definition tables_agree (mt : MessageType) (router : bool) : bool :=
  let rules := production mt router in
  forallb (fun k =>
    Bool.eqb (allowed_item mt router (number k)) (existsb (fun r => bool_decide (r.1 = k)) rules)
    && Bool.eqb (bool_decide ((k, Once) ∈ rules)) (contains (required_items mt) (number k))
    && implb (bool_decide ((k, Many) ∈ rules)) (address_type (number k))
    && implb (bool_decide ((k, Once) ∈ rules)) (negb (address_type (number k)))
    && implb (bool_decide ((k, Optional) ∈ rules)) (negb (address_type (number k)))) all_kinds
  && forallb (fun t => existsb (fun k => t =? number k) all_kinds) (required_items mt)
  && forallb (fun initializing =>
       Bool.eqb (expected_message mt router initializing) (bool_decide (mt ∈ due router initializing)))
       [true; false].

Lemma tables_agree_all mt router : 1 <= mt <= 16 -> tables_agree mt router = true.
Proof.
  intros Hmt.
  assert (H : forallb (fun mt => tables_agree mt true && tables_agree mt false) (seqZ 1 16) = true)
    by (vm_compute; reflexivity).
  rewrite forallb_elem in H. specialize (H mt). rewrite elem_of_seqZ in H.
  specialize (H ltac:(lia)). apply andb_true_iff in H as [? ?]. by destruct router.
Qed.

Section Tables.
Context (mt : MessageType) (router : bool) (Hmt : 1 <= mt <= 16).

Lemma tables_kind k :
  (allowed_item mt router (number k) = true <-> exists n, (k, n) ∈ production mt router)
  /\ ((k, Once) ∈ production mt router <-> number k ∈ required_items mt)
  /\ ((k, Many) ∈ production mt router -> address_type (number k) = true)
  /\ ((k, Once) ∈ production mt router \/ (k, Optional) ∈ production mt router ->
      address_type (number k) = false).
Proof.
  pose proof (tables_agree_all mt router Hmt) as H. unfold tables_agree in H.
  apply andb_true_iff in H as [[H _]%andb_true_iff _]. rewrite forallb_elem in H.
  specialize (H k (all_kinds_complete k)). apply andb_true_iff in H as [[[[H1 H2]%andb_true_iff H3]%andb_true_iff H4]%andb_true_iff H5].
  apply eqb_prop in H1, H2. rewrite implb_true_iff, bool_decide_eq_true in H3, H4, H5.
  rewrite negb_true_iff in H4, H5. split_and!; [| |done|tauto].
  - rewrite H1, existsb_elem. setoid_rewrite bool_decide_eq_true. split.
    + intros ([k' n] & Hin & E). cbn in E. subst k'. by exists n.
    + intros [n Hin]. by exists (k, n).
  - rewrite <-(contains_spec (required_items mt)), <-H2. by rewrite bool_decide_eq_true.
Qed.

Lemma tables_required t : t ∈ required_items mt -> exists k, t = number k /\ (k, Once) ∈ production mt router.
Proof.
  intros Ht. pose proof (tables_agree_all mt router Hmt) as H. unfold tables_agree in H.
  apply andb_true_iff in H as [[_ H]%andb_true_iff _]. rewrite forallb_elem in H.
  specialize (H t Ht). apply existsb_elem in H as (k & _ & ->%Z.eqb_eq). exists k. split; [done|].
  by apply (tables_kind k).
Qed.

Lemma tables_expected initializing :
  expected_message mt router initializing = true <-> mt ∈ due router initializing.
Proof.
  pose proof (tables_agree_all mt router Hmt) as H. unfold tables_agree in H.
  apply andb_true_iff in H as [_ H]. rewrite forallb_elem in H.
  specialize (H initializing ltac:(destruct initializing; set_solver)). apply eqb_prop in H.
  by rewrite H, bool_decide_eq_true.
Qed.
End Tables.

(** ** Counting *)

Lemma occurrences_cons k i items :
  occurrences k (i :: items) = ((if bool_decide (kind_of i = Some k) then 1 else 0) + occurrences k items)%nat.
Proof. unfold occurrences. cbn. by destruct (bool_decide _). Qed.

Lemma occurrences_pos k items : (1 <= occurrences k items)%nat <-> exists i, i ∈ items /\ kind_of i = Some k.
Proof.
  induction items as [|i items IH]; [cbn; split; [lia|set_solver]|].
  rewrite occurrences_cons. case_bool_decide as Hk.
  - split; [intros _; exists i; set_solver|lia].
  - rewrite Nat.add_0_l, IH. set_solver.
Qed.

(** Items that are no address, by kind and by number. *)
Lemma plain_occurs k items :
  address_type (number k) = false -> number k ∈ plain_types items <-> (1 <= occurrences k items)%nat.
Proof.
  intros Hk. rewrite occurrences_pos. unfold plain_types. rewrite list_elem_of_fmap.
  setoid_rewrite elem_of_retain. setoid_rewrite andb_true_iff. setoid_rewrite negb_true_iff. split.
  - intros (i & Ht & (Hu & _) & Hi). destruct (known_kind i Hu) as [k' Hk']. exists i. split; [done|].
    destruct (kind_number i k' Hk') as [_ Hn]. rewrite Hk'. f_equal. apply number_inj. congruence.
  - intros (i & Hi & Hki). destruct (kind_number i k Hki) as [Hu Ht]. exists i. by rewrite Ht.
Qed.

Lemma plain_once items :
  NoDup (plain_types items) <->
  forall k, address_type (number k) = false -> (occurrences k items <= 1)%nat.
Proof.
  induction items as [|i items IH].
  { split; [intros _ k _; cbn; lia|intros _; constructor]. }
  rewrite plain_types_cons. setoid_rewrite occurrences_cons.
  destruct (negb (unknown_item i) && negb (address_type (type_id i))) eqn:E.
  - apply andb_true_iff in E as [Hu%negb_true_iff Ha%negb_true_iff].
    destruct (known_kind i Hu) as [k Hk]. destruct (kind_number i k Hk) as [_ Hn]. rewrite Hn in *.
    rewrite NoDup_cons, IH, plain_occurs by done. split.
    + intros [H0 H] k' Hk'. specialize (H k' Hk'). case_bool_decide as Hd; [|lia].
      assert (k' = k) as -> by congruence. lia.
    + intros H. split; [|intros k' Hk'; specialize (H k' Hk'); lia].
      specialize (H k Ha). rewrite bool_decide_eq_true_2 in H by done. lia.
  - rewrite IH. split; intros H k Hk; specialize (H k Hk); [|lia]. case_bool_decide as Hd; [|lia].
    destruct (kind_number i k Hd) as [Hu Hn]. rewrite Hu, Hn, Hk in E. done.
Qed.

(** ** The grammar is what the loop checks *)

Section Equivalence.
Context {crates : Crates}.
Context (msg : Message) (router initializing : bool) (local_extensions : list ExtensionId).
Hypothesis Hmt : 1 <= message_type msg <= 16.
Abbreviation rules := (production (message_type msg) router).
Abbreviation items := (msg_items msg).
Abbreviation ok := (item_ok msg router initializing local_extensions).

Lemma unrecognized_spec :
  unrecognized_extension msg local_extensions = true
  <-> exists ids id, ExtensionsSupported ids ∈ items /\ id ∈ ids /\ id ∉ local_extensions.
Proof.
  unfold unrecognized_extension. rewrite existsb_elem. split.
  - intros (i & Hi & H). destruct i; try done. apply existsb_elem in H as (id & Hid & Hn).
    apply negb_true_iff in Hn. exists ids, id. split_and!; [done|done|]. by apply contains_false.
  - intros (ids & id & Hi & Hid & Hn). exists (ExtensionsSupported ids). split; [done|].
    apply existsb_elem. exists id. split; [done|]. by apply negb_true_iff, contains_false.
Qed.

Lemma item_ok_known i k :
  kind_of i = Some k ->
  ok i = true <-> (exists n, (k, n) ∈ rules) /\ encodable i = true /\ (initializing = true -> ~ takes_back i).
Proof.
  intros Hk. destruct (kind_number i k Hk) as [Hu Ht]. unfold item_ok. rewrite Hu, Ht.
  rewrite !andb_true_iff, negb_true_iff, takes_back_spec.
  destruct (tables_kind (message_type msg) router Hmt k) as [Ha _]. rewrite Ha.
  assert (Hd : drop_item i = true -> address_type (number k) = true).
  { rewrite <-Ht. by destruct i. }
  destruct initializing, (drop_item i), (address_type (number k)); cbn; intuition congruence.
Qed.

Lemma item_ok_unknown raw :
  ok (Unknown raw) = true <->
  initializing = true /\ exists ids id, ExtensionsSupported ids ∈ items /\ id ∈ ids /\ id ∉ local_extensions.
Proof. unfold item_ok. cbn. by rewrite andb_true_iff, unrecognized_spec. Qed.

Lemma items_ok_spec :
  Forall (fun i => ok i = true) items <->
  (forall raw, Unknown raw ∈ items -> initializing = true
     /\ exists ids id, ExtensionsSupported ids ∈ items /\ id ∈ ids /\ id ∉ local_extensions)
  /\ (forall i k, i ∈ items -> kind_of i = Some k -> (exists n, (k, n) ∈ rules) /\ encodable i = true)
  /\ (initializing = true -> forall i, i ∈ items -> ~ takes_back i).
Proof.
  rewrite Forall_forall. split.
  - intros H. split_and!.
    + intros raw Hr. by apply (proj1 (item_ok_unknown raw)), H.
    + intros i k Hi Hk. specialize (H i Hi). apply (item_ok_known i k Hk) in H. tauto.
    + intros E i Hi Hb. specialize (H i Hi).
      destruct (kind_of i) as [k|] eqn:Hk; [|by destruct i]. apply (item_ok_known i k Hk) in H. tauto.
  - intros (H1 & H2 & H3) i Hi. destruct (kind_of i) as [k|] eqn:Hk.
    + apply (item_ok_known i k Hk). destruct (H2 i k Hi Hk). split_and!; [done|done|]. intros E. by apply H3.
    + destruct i; try done. by apply (proj2 (item_ok_unknown raw)), (H1 raw).
Qed.

Lemma address_items_spec : address_items items = retain is_address items.
Proof.
  induction items as [|i l IH]; [done|]. rewrite address_items_cons, IH, <-is_address_spec. done.
Qed.

Lemma times_spec :
  (forall i k, i ∈ items -> kind_of i = Some k -> exists n, (k, n) ∈ rules) ->
  (NoDup (plain_types items) /\ required_items (message_type msg) ⊆ plain_types items)
  <-> forall k n, (k, n) ∈ rules ->
        match n with
        | Once => occurrences k items = 1%nat
        | Optional => (occurrences k items <= 1)%nat
        | Many => True
        end.
Proof.
  intros Hrule. rewrite plain_once. split.
  - intros [H1 H2] k n Hin. destruct (tables_kind (message_type msg) router Hmt k) as (_ & Ho & _ & Ha).
    destruct n; [|auto|done].
    assert (Hk : address_type (number k) = false) by (by apply Ha; left).
    specialize (H1 k Hk). specialize (H2 (number k) (proj1 Ho Hin)). apply plain_occurs in H2; [lia|done].
  - intros H. split.
    + intros k Hk. destruct (decide (1 <= occurrences k items)%nat) as [Hp|]; [|lia].
      apply occurrences_pos in Hp as (i & Hi & Hki). destruct (Hrule i k Hi Hki) as [n Hn]. specialize (H k n Hn).
      destruct n; [lia|done|]. destruct (tables_kind (message_type msg) router Hmt k) as (_ & _ & Hm & _).
      specialize (Hm Hn). congruence.
    + intros t Ht. destruct (tables_required (message_type msg) router Hmt t Ht) as (k & -> & Hin).
      destruct (tables_kind (message_type msg) router Hmt k) as (_ & _ & _ & Ha).
      specialize (H k Once Hin). cbn in H. apply plain_occurs; [by apply Ha; left|lia].
Qed.

Lemma asks_spec :
  (exists t, t ∈ plain_types items /\ t ∈ characteristic_types) <-> asks_something items.
Proof.
  unfold asks_something.
  pose proof (plain_occurs KRateReceive items eq_refl) as H1.
  pose proof (plain_occurs KRateTransmit items eq_refl) as H2.
  pose proof (plain_occurs KLatency items eq_refl) as H3. cbn in H1, H2, H3.
  unfold characteristic_types. split.
  - intros (t & Ht & Hin). rewrite !elem_of_cons in Hin. destruct Hin as [->|[->|[->|[]%not_elem_of_nil]]].
    + apply H1 in Ht. lia.
    + apply H2 in Ht. lia.
    + apply H3 in Ht. lia.
  - intros H. destruct (decide (1 <= occurrences KRateReceive items)%nat) as [H'%H1|];
      [exists 14; split; [done|set_solver]|].
    destruct (decide (1 <= occurrences KRateTransmit items)%nat) as [H'%H2|];
      [exists 15; split; [done|set_solver]|].
    exists 16. split; [apply H3; lia|set_solver].
Qed.

Lemma grammar_conforming :
  grammar msg router initializing local_extensions items <-> conforming msg router initializing local_extensions.
Proof.
  unfold grammar, conforming. rewrite items_ok_spec, address_items_spec, asks_spec.
  change MessageType.LINK_CHARACTERISTICS_REQUEST with 14. split.
  - intros ((Hu & Hr & Hb) & Hp & Ha & Hq & Hc). split; [|done].
    split; [done|done| |done|done]. apply times_spec; [|done]. intros i k Hi Hk. by destruct (Hr i k Hi Hk).
  - intros [[Hu Hr Ht Ha Hb] Hc]. apply times_spec in Ht as [Hp Hq]; [done|].
    intros i k Hi Hk. by destruct (Hr i k Hi Hk).
Qed.
End Equivalence.

Lemma due_known mt router initializing : mt ∈ due router initializing -> 1 <= mt <= 16.
Proof.
  intros H. assert (Hf : Forall (fun mt => 1 <= mt <= 16) (due router initializing)).
  { destruct router, initializing; repeat constructor; lia. }
  rewrite Forall_forall in Hf. by apply Hf.
Qed.

Lemma verdict_unique {crates : Crates} msg router initializing exts r r' :
  verdict msg router initializing exts r -> verdict msg router initializing exts r' -> r = r'.
Proof. destruct 1, 1; try done; exfalso; eauto using due_known. Qed.

(** C38: The message grammar.  A message gets exactly the verdict of RFC 8175: an unknown type
    is answered Unknown Message, a type not due in this role and phase Unexpected
    Message; of the others exactly those are accepted that are made by the production of
    their type, each required data item occurring once, each optional one at most once,
    nothing else but any number of different addresses, and every other one is answered
    Invalid Data. *)
Theorem validate_message_grammar {crates : Crates} msg router initializing local_extensions :
  is_message msg ->
  forall r, validate_message msg router initializing local_extensions = r
    <-> verdict msg router initializing local_extensions r.
Proof.
  intros Hm.
  assert (Hv : verdict msg router initializing local_extensions
                 (validate_message msg router initializing local_extensions)).
  { pose proof (validate_message_spec msg router initializing local_extensions Hm) as H. cbv zeta in H.
    destruct (_ && _) eqn:Hmt; cbn [negb] in H.
    2: { rewrite H. apply verdict_unknown. intros Hr. apply andb_false_iff in Hmt as [Hmt|Hmt]; bprop; lia. }
    assert (Ht : 1 <= message_type msg <= 16) by (bprop; lia). clear Hmt.
    pose proof (tables_expected (message_type msg) router Ht initializing) as Hd.
    destruct (expected_message _ _ _); cbn [negb] in H.
    2: { rewrite H. apply verdict_unexpected; [done|]. by rewrite <-Hd. }
    rewrite (grammar_conforming msg router initializing local_extensions Ht) in H.
    destruct H as [[-> Hg]|[-> Hg]]; constructor; tauto. }
  intros r. split; [by intros <-|]. by apply verdict_unique.
Qed.

(** ** Witness *)

#[local] Existing Instance reference_crates.

Lemma validate_message_grammar_witness :
  let msg := build_link_characteristics_request sample_mac sample_request in
  validate_message msg false false [] = Ok tt /\ verdict msg false false [] (Ok tt).
Proof.
  intros msg. assert (Hm : is_message msg).
  { split; [by unfold is_u16, u16_max|]. cbn.
    repeat (apply Forall_cons; split; [apply sample_mac_ok || by repeat split|]). constructor. }
  assert (Hv : validate_message msg false false [] = Ok tt) by (vm_compute; reflexivity).
  split; [exact Hv|]. apply (validate_message_grammar msg false false [] Hm). exact Hv.
Defined.
