(* ===== verification/SessionFacts.v ===== *)
(** * Facts both session state machines rest on

    Well-formed address sets, what a validated message guarantees to the handler
    that consumes it, and the heartbeat deadline of an established session. *)

From S2P Require Import Prelude Externs CoreTypes Codec CodecItem CodecMessage Addresses Events.
From S2P Require Import SessionCommon Validation.
Import DataItem.

(** A set as the wire delivers it: no entry twice, subnets in network form. *)
Definition addrs_ok {crates : Crates} (d : DestinationAddrs) : Prop :=
  addrs_nodup d /\ addrs_canonical d = d.

(** The peer's interval arms the missed-heartbeat deadline. *)
Definition heartbeat_ok (interval : option Duration) : Prop :=
  exists d, heartbeat_reset_action TIMER_HEARTBEAT_MISSED interval
            = Some (ResetHeartbeat TIMER_HEARTBEAT_MISSED d).

Section Facts.
Context {crates : Crates}.

Lemma addrs_ok_default : addrs_ok DestinationAddrs_default.
Proof. split; [|done]. repeat split; constructor. Qed.

(** ** Address sets of a message *)

Lemma from_message_entries msg e :
  has (added (from_message msg)) e \/ has (removed (from_message msg)) e -> entry_canonical e.
Proof.
  unfold from_message.
  assert (H : forall items c,
    (forall e, has (added c) e \/ has (removed c) e -> entry_canonical e) ->
    forall e, has (added (foldl from_message_item c items)) e
              \/ has (removed (foldl from_message_item c items)) e -> entry_canonical e).
  { intros items. induction items as [|i items IH]; intros c Hc; [done|]. cbn [foldl]. apply IH.
    assert (Hu : forall add f,
      (forall s x, has (f s) x -> has s x \/ entry_canonical x) ->
      forall x, has (added (update_set add f c)) x \/ has (removed (update_set add f c)) x ->
        entry_canonical x).
    { intros add f Hf x. destruct add; cbn; intros [Hx|Hx]; auto;
        destruct (Hf _ _ Hx); auto. }
    destruct i; cbn [from_message_item]; try done; apply Hu; intros s [a|a|n|n]; cbn; auto;
      rewrite elem_of_app, list_elem_of_singleton; intros [?| ->]; auto;
      right; apply v4_trunc_idemp || apply v6_trunc_idemp. }
  apply H. intros [a|a|n|n]; cbn; set_solver.
Qed.

Lemma from_message_canonical_changes msg : changes_canonical (from_message msg) = from_message msg.
Proof.
  destruct (from_message msg) as [a r] eqn:E. unfold changes_canonical. cbn.
  f_equal; apply canonical_has; intros e He; apply (from_message_entries msg); rewrite E; auto.
Qed.

Lemma apply_strict_ok c cur cur' :
  apply_strict c cur = (Ok tt, cur') -> addrs_ok cur -> addrs_ok cur'.
Proof.
  intros H [Hn Hc]. destruct (apply_strict_spec c cur) as [(Hs & _)|[Hs _]]; rewrite Hs in H; [|done].
  injection H as <-. split; [by apply apply_lenient_nodup|by apply apply_lenient_is_canonical].
Qed.

Lemma apply_strict_added msg cur cur' :
  apply_strict (from_message msg) cur = (Ok tt, cur') -> addrs_ok (added (from_message msg)).
Proof.
  intros H. destruct (apply_strict_spec (from_message msg) cur) as [(_ & Hu & _)|[Hs _]];
    [|by rewrite Hs in H].
  rewrite from_message_canonical_changes in Hu. split; [apply Hu|].
  apply canonical_has. intros e He. apply (from_message_entries msg). by left.
Qed.

Lemma apply_lenient_ok c cur : addrs_ok cur -> addrs_ok (apply_lenient c cur).
Proof. intros []. split; [by apply apply_lenient_nodup|by apply apply_lenient_is_canonical]. Qed.

(** ** Validated messages *)

Lemma validate_items_encode msg router initializing exts items s s' :
  validate_items msg router initializing exts s items = Ok s' ->
  forall i, i ∈ items -> unknown_item i = false -> is_ok (DataItem_encode i []).1 = true.
Proof.
  revert s. induction items as [|j items IH]; intros s H i Hi Hu; [set_solver|].
  cbn [validate_items] in H.
  destruct (validate_item msg router initializing exts s j) as [s1| |] eqn:Hv; [|done|done].
  apply elem_of_cons in Hi as [->|Hi]; [|by eapply IH].
  unfold validate_item in Hv. destruct s as [T A]. rewrite Hu in Hv.
  destruct (negb _); [done|]. by destruct (DataItem_encode j []) as [[]].
Qed.

Lemma validated_encodes msg router initializing exts i :
  validate_message msg router initializing exts = Ok tt ->
  i ∈ msg_items msg -> unknown_item i = false -> is_ok (DataItem_encode i []).1 = true.
Proof.
  unfold validate_message. destruct (negb (_ && _)); [done|]. destruct (negb _); [done|].
  destruct (validate_items _ _ _ _ _ _) as [[T A]|e|] eqn:Hv; [|done|done].
  intros _. by eapply validate_items_encode.
Qed.

Lemma heartbeat_encodes d :
  is_ok (DataItem_encode (HeartbeatInterval d) []).1 = true ->
  MIN_HEARTBEAT_INTERVAL_MS <= as_millis d <= u32_max.
Proof.
  unfold DataItem_encode. cbn [encode_into]. unfold check_projected, encode_tlv. cbn.
  unfold st_bind, st_modify, buf_len, st_ret. cbn.
  destruct (Z.ltb_spec (as_millis d) MIN_HEARTBEAT_INTERVAL_MS); [done|].
  destruct (Z.ltb_spec u32_max (as_millis d)); [done|]. lia.
Qed.

Lemma heartbeat_ok_interval d :
  MIN_HEARTBEAT_INTERVAL_MS <= as_millis d <= u32_max -> heartbeat_ok (Some d).
Proof.
  unfold heartbeat_ok, heartbeat_reset_action, duration_checked_mul, as_millis, from_millis,
    MIN_HEARTBEAT_INTERVAL_MS, u32_max. intros H. cbn.
  change (10 ^ 6) with 1000000 in *.
  pose proof (Z.div_mod d 1000000 ltac:(lia)). pose proof (Z.mod_pos_bound d 1000000 ltac:(lia)).
  rewrite (proj2 (Z.ltb_ge _ _)) by lia. rewrite (proj2 (Z.leb_le _ _)); [by eexists|].
  unfold Duration_MAX, u64_max. change (10 ^ 9) with 1000000000. lia.
Qed.

Lemma validated_heartbeat msg router initializing exts :
  validate_message msg router initializing exts = Ok tt ->
  DataItemType.HEARTBEAT_INTERVAL ∈ required_items (message_type msg) ->
  heartbeat_ok (extract_heartbeat_interval msg).
Proof.
  intros Hv Hr. destruct (validate_message_Ok _ _ _ _ Hv) as [_ H].
  destruct (H _ Hr) as (i & Hi & Hu & Ht). destruct i; try done.
  destruct (find_map_is_Some (fun item => match item with HeartbeatInterval d => Some d | _ => None end)
    _ _ Hi (ex_intro _ _ eq_refl)) as [d Hd].
  unfold extract_heartbeat_interval. rewrite Hd. apply find_map_Some in Hd as (j & Hj & Hd).
  destruct j; try done. injection Hd as ->. apply heartbeat_ok_interval, heartbeat_encodes.
  by eapply validated_encodes.
Qed.

Lemma fatal_status_status msg i : fatal_status msg = Some i -> exists code text, i = Status code text.
Proof.
  intros (j & _ & Hj)%find_map_Some. destruct j; try done.
  destruct (StatusCode.terminates_session code); [|done]. injection Hj as <-. eauto.
Qed.

(** ** Accepted transactions *)

Lemma pending_is_scopes t mac k :
  pending_is (per_destination t !! mac) k = true -> scopes t (Some mac) = Some k.
Proof. cbn. destruct (per_destination t !! mac) as [[]|]; [|done]. cbn. by intros ->%bool_decide_eq_true. Qed.

(** A response that passed the transaction check answers an outstanding request. *)
Lemma transaction_response msg t known mac k :
  validate_transaction msg t known = Ok tt -> extract_destination_mac msg = Some mac ->
  response_kind (message_type msg) = Some k -> scopes t (Some mac) = Some k.
Proof.
  unfold validate_transaction. intros H Hm Hk. destruct (_ && _); [done|]. destruct (_ && _); [done|].
  rewrite Hm, Hk in H. apply pending_is_scopes.
  by destruct (pending_is _ k).
Qed.

(** An update or a withdrawal that passed it is about a known destination. *)
Lemma transaction_known msg t known mac :
  validate_transaction msg t known = Ok tt -> extract_destination_mac msg = Some mac ->
  message_type msg = MessageType.DESTINATION_UPDATE \/ message_type msg = MessageType.DESTINATION_DOWN ->
  known = true.
Proof.
  unfold validate_transaction. intros H Hm Ht. destruct Ht as [Ht|Ht]; rewrite Ht, Hm in H; cbn in H;
    try destruct (destination_busy t mac); by destruct known.
Qed.

Lemma transaction_idle msg t known mac :
  validate_transaction msg t known = Ok tt -> extract_destination_mac msg = Some mac ->
  message_type msg = MessageType.DESTINATION_UP \/ message_type msg = MessageType.DESTINATION_DOWN ->
  destination_busy t mac = false.
Proof.
  unfold validate_transaction. intros H Hm Ht. destruct Ht as [Ht|Ht]; rewrite Ht, Hm in H; cbn in H;
    by destruct (destination_busy t mac).
Qed.

Lemma validate_transaction_no_panic msg t known : validate_transaction msg t known <> Panic.
Proof.
  unfold validate_transaction. destruct (_ && _); [done|]. destruct (_ && _); [done|].
  destruct (extract_destination_mac msg); [|done]. destruct (response_kind _); [by destruct (negb _)|].
  destruct (_ && _); [done|]. destruct (_ && _); [done|]. by destruct (_ && _).
Qed.

Lemma validate_mac_format_no_panic msg f : validate_mac_format msg f <> Panic.
Proof. unfold validate_mac_format. by destruct (existsb _ _). Qed.

End Facts.
