(* ===== verification/SessionRouter.v ===== *)
(** * The router's session state machine

    [dlep-fsm/src/session_router.rs]: the record of the session, one definition
    per arm of [step] and [step] itself.  A Rust panic ([expect], [unreachable!])
    is the outcome [Panic]. *)

From S2P Require Import Prelude Externs CoreTypes Codec CodecItem CodecMessage Addresses Events.
From S2P Require Import SessionCommon Validation.
Import DataItem.

Module Router.

Inductive RouterSessionState : Type :=
  | Closed
  | SessionInitPending
  | InSession
  | Terminating
  | Terminated.

#[global] Instance RouterSessionState_eq_dec : EqDecision RouterSessionState.
Proof. solve_decision. Defined.

Record DestinationState : Type := mkDestination {
  up : bool;
  metrics : LinkMetrics;
  addrs : DestinationAddrs;
}.

Record RouterSessionFsm : Type := mkRouter {
  state : RouterSessionState;
  tx : TransactionTracker;
  destinations : gmap Mac DestinationState;
  session_metrics : LinkMetrics;
  session_metric_types : gset DataItemType;
  peer_addresses : DestinationAddrs;
  local_addresses : DestinationAddrs;
  config : SessionConfig;
  termination_reason : StatusCode;
  peer_heartbeat_interval : option Duration;
  peer_extensions : list ExtensionId;
}.

(** Assignment to a field. *)
Definition set_state (s : RouterSessionState) (f : RouterSessionFsm) : RouterSessionFsm :=
  mkRouter s (tx f) (destinations f) (session_metrics f) (session_metric_types f)
    (peer_addresses f) (local_addresses f) (config f) (termination_reason f)
    (peer_heartbeat_interval f) (peer_extensions f).
Definition set_tx (t : TransactionTracker) (f : RouterSessionFsm) : RouterSessionFsm :=
  mkRouter (state f) t (destinations f) (session_metrics f) (session_metric_types f)
    (peer_addresses f) (local_addresses f) (config f) (termination_reason f)
    (peer_heartbeat_interval f) (peer_extensions f).
Definition set_destinations (d : gmap Mac DestinationState) (f : RouterSessionFsm)
    : RouterSessionFsm :=
  mkRouter (state f) (tx f) d (session_metrics f) (session_metric_types f)
    (peer_addresses f) (local_addresses f) (config f) (termination_reason f)
    (peer_heartbeat_interval f) (peer_extensions f).
Definition set_session_metrics (m : LinkMetrics) (f : RouterSessionFsm) : RouterSessionFsm :=
  mkRouter (state f) (tx f) (destinations f) m (session_metric_types f)
    (peer_addresses f) (local_addresses f) (config f) (termination_reason f)
    (peer_heartbeat_interval f) (peer_extensions f).
Definition set_session_metric_types (t : gset DataItemType) (f : RouterSessionFsm)
    : RouterSessionFsm :=
  mkRouter (state f) (tx f) (destinations f) (session_metrics f) t
    (peer_addresses f) (local_addresses f) (config f) (termination_reason f)
    (peer_heartbeat_interval f) (peer_extensions f).
Definition set_peer_addresses (a : DestinationAddrs) (f : RouterSessionFsm) : RouterSessionFsm :=
  mkRouter (state f) (tx f) (destinations f) (session_metrics f) (session_metric_types f)
    a (local_addresses f) (config f) (termination_reason f)
    (peer_heartbeat_interval f) (peer_extensions f).
Definition set_local_addresses (a : DestinationAddrs) (f : RouterSessionFsm) : RouterSessionFsm :=
  mkRouter (state f) (tx f) (destinations f) (session_metrics f) (session_metric_types f)
    (peer_addresses f) a (config f) (termination_reason f)
    (peer_heartbeat_interval f) (peer_extensions f).
Definition set_termination_reason (r : StatusCode) (f : RouterSessionFsm) : RouterSessionFsm :=
  mkRouter (state f) (tx f) (destinations f) (session_metrics f) (session_metric_types f)
    (peer_addresses f) (local_addresses f) (config f) r
    (peer_heartbeat_interval f) (peer_extensions f).
Definition set_peer_heartbeat_interval (i : option Duration) (f : RouterSessionFsm)
    : RouterSessionFsm :=
  mkRouter (state f) (tx f) (destinations f) (session_metrics f) (session_metric_types f)
    (peer_addresses f) (local_addresses f) (config f) (termination_reason f)
    i (peer_extensions f).
Definition set_peer_extensions (e : list ExtensionId) (f : RouterSessionFsm) : RouterSessionFsm :=
  mkRouter (state f) (tx f) (destinations f) (session_metrics f) (session_metric_types f)
    (peer_addresses f) (local_addresses f) (config f) (termination_reason f)
    (peer_heartbeat_interval f) e.

Definition with_config (c : SessionConfig) : RouterSessionFsm :=
  mkRouter Closed TransactionTracker_default ∅ LinkMetrics_default ∅
    DestinationAddrs_default DestinationAddrs_default c StatusCode.SUCCESS None [].

(** What a step yields: the next record and the ordered actions. *)
Abbreviation result := (panics (RouterSessionFsm * list FsmAction)).

Definition build_session_initialization (c : SessionConfig) : Message :=
  let message :=
    with_item
      (with_item (Message_new MessageType.SESSION_INITIALIZATION)
         (HeartbeatInterval (local_heartbeat_interval c)))
      (PeerType (mkPeerFlags false) (peer_description c)) in
  push_extensions_supported message (advertised_extensions c).

(** The reset of the missed-heartbeat deadline, as zero or one action. *)
Definition heartbeat_reset (self : RouterSessionFsm) : list FsmAction :=
  opt_list (heartbeat_reset_action TIMER_HEARTBEAT_MISSED (peer_heartbeat_interval self)).

Definition start_termination_timer (self : RouterSessionFsm) : FsmAction :=
  StartTimer TIMER_TERMINATION TTermination (termination_timeout (config self)) false.

Definition protocol_error (status : DataItem) (self : RouterSessionFsm) : result :=
  match status with
  | Status code _ =>
      match state self with
      | Terminating | Terminated => mret (self, [])
      | _ =>
          mret (set_termination_reason code (set_state Terminating self),
                [CancelTimer TIMER_SESSION_INIT; CancelTimer TIMER_HEARTBEAT;
                 CancelTimer TIMER_HEARTBEAT_MISSED;
                 SendMessage (with_item (Message_new MessageType.SESSION_TERMINATION) status);
                 start_termination_timer self])
      end
  | _ => Panic
  end.

Section Step.
Context {crates : Crates}.

(** [self.destinations.get(mac).is_some_and(|d| d.up)]. *)
Definition destination_is_up (self : RouterSessionFsm) (mac : Mac) : bool :=
  match destinations self !! mac with Some d => up d | None => false end.

(** An address family held by another destination. *)
Definition held_elsewhere {A} `{EqDecision A} (family : DestinationAddrs -> list A)
    (self : RouterSessionFsm) (mac : Mac) (a : A) : bool :=
  any (fun '(m, d) => negb (bool_decide (m = mac)) && contains (family (addrs d)) a)
    (map_to_list (destinations self)).

(** The closure given to [retain], for one family. *)
Definition keep_added {A} `{EqDecision A} (family : DestinationAddrs -> list A)
    (self : RouterSessionFsm) (mac : Mac) (rem : DestinationAddrs) (a : A) : bool :=
  contains (family rem) a
  || (negb (contains (family (peer_addresses self)) a)
      && negb (held_elsewhere family self mac a)).

Definition destination_address_changes (self : RouterSessionFsm) (mac : Mac) (msg : Message)
    : AddressChanges :=
  let changes := from_message msg in
  let rem := removed changes in
  mkChanges
    (mkAddrs (retain (keep_added v4 self mac rem) (v4 (added changes)))
             (retain (keep_added v6 self mac rem) (v6 (added changes)))
             (retain (keep_added v4_subnets self mac rem) (v4_subnets (added changes)))
             (retain (keep_added v6_subnets self mac rem) (v6_subnets (added changes))))
    rem.

Definition check_command (self : RouterSessionFsm) (event : FsmEvent)
    : outcome CommandError unit :=
  if negb (bool_decide (state self = InSession)) then Err NotReady
  else if negb match event with
               | AppDropDestination _ _ | AppAnnounceDestination _
               | AppRequestLinkCharacteristics _ _ | AppSessionAddresses _ => true
               | _ => false
               end then Err Unsupported
  else
    info ← expect (command event);
    _ ← match destination info with
        | Some mac =>
            if negb (accepts (mac_address_format (config self)) mac)
            then Err MacAddressFormatMismatch
            else if destination_busy (tx self) mac then Err Busy
            else Ok tt
        | None => if session_busy (tx self) then Err Busy else Ok tt
        end;
    match event with
    | AppDropDestination mac _ =>
        if negb (destination_is_up self mac) then Err UnknownDestination else Ok tt
    | AppRequestLinkCharacteristics mac requested =>
        if negb (destination_is_up self mac) then Err UnknownDestination
        else if LinkCharacteristics_is_empty requested then Err InvalidInput
        else
          _ ← map_err (fun _ => InvalidInput)
                (Message_encode (build_link_characteristics_request mac requested));
          Ok tt
    | AppAnnounceDestination mac =>
        if destination_is_up self mac then Err AlreadyExists else Ok tt
    | AppSessionAddresses changes =>
        validate_local_address_update (local_addresses self) changes
    | _ => Err Unsupported
    end.

(** Data item types of the metrics a message carries. *)
Definition metric_types (msg : Message) : gset DataItemType :=
  list_to_set (retain metric_type (type_id <$> msg_items msg)).

(** The [checked] closure of [step]. *)
Definition check_message (self : RouterSessionFsm) (msg : Message) : outcome StatusCode unit :=
  let initializing := bool_decide (state self = SessionInitPending) in
  _ ← validate_message msg true initializing (advertised_extensions (config self));
  _ ← validate_mac_format msg (mac_address_format (config self));
  _ ← (if initializing || (message_type msg =? MessageType.SESSION_UPDATE)
       then (apply_strict (from_message msg) (peer_addresses self)).1
       else Ok tt);
  if initializing then Ok tt
  else if any (fun t => metric_type t && negb (bool_decide (t ∈ session_metric_types self)))
            (type_id <$> msg_items msg)
  then Err StatusCode.INVALID_DATA
  else if (message_type msg =? MessageType.LINK_CHARACTERISTICS_RESPONSE)
          && negb (bool_decide (metric_types msg = session_metric_types self))
  then Err StatusCode.INVALID_DATA
  else
    let known :=
      match extract_destination_mac msg with
      | Some mac => destination_is_up self mac
      | None => false
      end in
    validate_transaction msg (tx self) known.

(** *** Arms of [step], in the order of the source *)

Definition on_tcp_connected (self : RouterSessionFsm) : result :=
  mret (set_state SessionInitPending self,
        [SendMessage (build_session_initialization (config self));
         StartTimer TIMER_SESSION_INIT TSessionInit (session_init_timeout (config self)) false]).

Definition on_init_response (msg : Message) (self : RouterSessionFsm) : result :=
  let status := default StatusCode.SUCCESS (extract_status msg) in
  if negb (status =? StatusCode.SUCCESS) then
    protocol_error (Status StatusCode.UNEXPECTED_MESSAGE (str "initialization did not succeed")) self
  else
    let self := set_peer_addresses (added (from_message msg)) self in
    let self := set_session_metrics (merge_link_metrics msg (session_metrics self)).2 self in
    let self := set_session_metric_types (metric_types msg) self in
    let self := set_peer_heartbeat_interval (extract_heartbeat_interval msg) self in
    let self := set_peer_extensions
                  match extract_extensions_supported msg with Some ids => ids | None => [] end self in
    let self := set_state InSession self in
    mret (self,
      [CancelTimer TIMER_SESSION_INIT;
       StartTimer TIMER_HEARTBEAT THeartbeat (local_heartbeat_interval (config self)) true]
      ++ heartbeat_reset self
      ++ [Emit (SessionUp (peer_extensions self)); Emit (SessionMetricsUpdate (session_metrics self))]
      ++ (if negb (DestinationAddrs_is_empty (peer_addresses self))
          then [Emit (SessionAddressesUpdate
                        (mkChanges (peer_addresses self) DestinationAddrs_default)
                        (peer_addresses self))]
          else [])).

Definition on_init_timeout (self : RouterSessionFsm) : result :=
  mret (set_state Terminated self, [CloseTcp; Emit (SessionDown StatusCode.TIMED_OUT)]).

Definition on_init_closed (self : RouterSessionFsm) : result :=
  mret (set_state Terminated self, [Emit (SessionDown StatusCode.TIMED_OUT)]).

Definition on_init_shutdown (reason : StatusCode) (self : RouterSessionFsm) : result :=
  mret (set_state Terminated self,
        [CancelTimer TIMER_SESSION_INIT; CloseTcp; Emit (SessionDown reason)]).

Definition on_init_other (self : RouterSessionFsm) : result :=
  mret (set_state Terminated self,
        [CancelTimer TIMER_SESSION_INIT; CloseTcp; Emit (SessionDown StatusCode.INVALID_DATA)]).

Definition on_session_termination (msg : Message) (self : RouterSessionFsm) : result :=
  let status := default StatusCode.SHUTTING_DOWN (extract_status msg) in
  mret (set_state Terminated self,
        [CancelTimer TIMER_HEARTBEAT; CancelTimer TIMER_HEARTBEAT_MISSED;
         SendMessage build_session_termination_response; CloseTcp; Emit (SessionDown status)]).

(** The destination a Destination Up or a successful Announce Response reports. *)
Definition reported_destination (self : RouterSessionFsm) (mac : Mac) (msg : Message)
    : DestinationState :=
  mkDestination true (merge_link_metrics msg (session_metrics self)).2
    (apply_lenient (destination_address_changes self mac msg) DestinationAddrs_default).

Definition on_destination_up (msg : Message) (self : RouterSessionFsm) : result :=
  mac ← expect (extract_destination_mac msg);
  let d := reported_destination self mac msg in
  mret (set_destinations (<[mac := d]> (destinations self)) self,
        [SendMessage (build_destination_up_response mac StatusCode.SUCCESS);
         Emit (DestinationUp mac (metrics d) (addrs d))]
        ++ heartbeat_reset self).

Definition on_destination_update (msg : Message) (self : RouterSessionFsm) : result :=
  mac ← expect (extract_destination_mac msg);
  let changes := destination_address_changes self mac msg in
  d ← expect (destinations self !! mac);
  let addrs' := apply_lenient changes (addrs d) in
  let changes' := between (addrs d) addrs' in
  let '(found, metrics') := merge_link_metrics msg (metrics d) in
  mret (set_destinations (<[mac := mkDestination (up d) metrics' addrs']> (destinations self)) self,
        (if found then [Emit (DestinationUpdate mac metrics')] else [])
        ++ (if negb (AddressChanges_is_empty changes')
            then [Emit (DestinationAddressesUpdate mac changes' addrs')] else [])
        ++ heartbeat_reset self).

Definition on_destination_down (msg : Message) (self : RouterSessionFsm) : result :=
  mac ← expect (extract_destination_mac msg);
  let reason := default StatusCode.SUCCESS (extract_status msg) in
  mret (set_destinations (delete mac (destinations self)) self,
        [SendMessage (build_destination_down_response mac StatusCode.SUCCESS);
         Emit (DestinationDown mac reason)]
        ++ heartbeat_reset self).

(** [self.tx.open_destination(mac, kind).expect(..)] followed by one send. *)
Definition open_and_send (mac : Mac) (kind : RequestKind) (msg : Message)
    (self : RouterSessionFsm) : result :=
  match open_destination mac kind (tx self) with
  | (Ok _, tx') => mret (set_tx tx' self, [SendMessage msg])
  | _ => Panic
  end.

Definition on_app_drop_destination (mac : Mac) (self : RouterSessionFsm) : result :=
  open_and_send mac RDestinationDown (build_destination_down mac StatusCode.SUCCESS) self.

Definition on_destination_down_response (msg : Message) (self : RouterSessionFsm) : result :=
  mac ← expect (extract_destination_mac msg);
  reason ← expect (extract_status msg);
  let self := set_tx (close_destination mac (tx self)).2 self in
  let self := set_destinations (delete mac (destinations self)) self in
  mret (self, [Emit (DestinationDown mac reason)] ++ heartbeat_reset self).

Definition on_session_update (msg : Message) (self : RouterSessionFsm) : result :=
  let changes := from_message msg in
  match apply_strict changes (peer_addresses self) with
  | (Ok _, addresses) =>
      let self := set_peer_addresses addresses self in
      let '(found, metrics') := merge_link_metrics msg (session_metrics self) in
      let self := set_session_metrics metrics' self in
      let self :=
        if found
        then set_destinations
               ((fun d => mkDestination (up d) (merge_link_metrics msg (metrics d)).2 (addrs d))
                <$> destinations self) self
        else self in
      mret (self,
        [SendMessage (build_session_update_response StatusCode.SUCCESS)]
        ++ (if negb (AddressChanges_is_empty changes)
            then [Emit (SessionAddressesUpdate changes (peer_addresses self))] else [])
        ++ (if found then [Emit (SessionMetricsUpdate (session_metrics self))] else [])
        ++ heartbeat_reset self)
  | _ => Panic
  end.

Definition on_session_update_response (self : RouterSessionFsm) : result :=
  let self := set_tx (close_session (tx self)).2 self in
  mret (self, heartbeat_reset self).

Definition on_announce_response (msg : Message) (self : RouterSessionFsm) : result :=
  mac ← expect (extract_destination_mac msg);
  let self := set_tx (close_destination mac (tx self)).2 self in
  if bool_decide (extract_status msg = Some StatusCode.SUCCESS) then
    let d := reported_destination self mac msg in
    mret (set_destinations (<[mac := d]> (destinations self)) self,
          [Emit (DestinationUp mac (metrics d) (addrs d))] ++ heartbeat_reset self)
  else mret (self, heartbeat_reset self).

Definition on_app_request_link_characteristics (mac : Mac) (requested : LinkCharacteristics)
    (self : RouterSessionFsm) : result :=
  open_and_send mac RLinkCharacteristics (build_link_characteristics_request mac requested) self.

Definition extract_status_text (msg : Message) : option (StatusCode * rstring) :=
  find_map (fun item => match item with Status code text => Some (code, text) | _ => None end)
    (msg_items msg).

Definition on_link_characteristics_response (msg : Message) (self : RouterSessionFsm) : result :=
  mac ← expect (extract_destination_mac msg);
  d ← expect (destinations self !! mac);
  let d := mkDestination (up d) (merge_link_metrics msg (metrics d)).2 (addrs d) in
  '(status, text) ← expect (extract_status_text msg);
  let self := set_destinations (<[mac := d]> (destinations self)) self in
  let self := set_tx (close_destination mac (tx self)).2 self in
  mret (self, [Emit (LinkCharacteristicsResponse mac status text (metrics d))]
              ++ heartbeat_reset self).

Definition on_app_session_addresses (changes : AddressChanges) (self : RouterSessionFsm) : result :=
  '(acts, tx', local') ← apply_local_address_update changes (tx self) (local_addresses self);
  mret (set_local_addresses local' (set_tx tx' self), acts).

Definition on_heartbeat_missed (self : RouterSessionFsm) : result :=
  mret (set_state Terminating (set_termination_reason StatusCode.TIMED_OUT self),
        [CancelTimer TIMER_HEARTBEAT; SendMessage (build_session_termination StatusCode.TIMED_OUT);
         start_termination_timer self]).

Definition on_app_announce_destination (mac : Mac) (self : RouterSessionFsm) : result :=
  open_and_send mac RDestinationAnnounce (build_destination_announce mac) self.

Definition on_shutdown (reason : StatusCode) (self : RouterSessionFsm) : result :=
  mret (set_state Terminating (set_termination_reason reason self),
        [CancelTimer TIMER_HEARTBEAT; CancelTimer TIMER_HEARTBEAT_MISSED;
         SendMessage (build_session_termination reason); start_termination_timer self]).

Definition on_closed (self : RouterSessionFsm) : result :=
  mret (set_state Terminated self,
        [CancelTimer TIMER_HEARTBEAT; CancelTimer TIMER_HEARTBEAT_MISSED;
         Emit (SessionDown StatusCode.TIMED_OUT)]).

Definition on_termination_response (self : RouterSessionFsm) : result :=
  mret (set_state Terminated self,
        [CancelTimer TIMER_TERMINATION; CloseTcp; Emit (SessionDown (termination_reason self))]).

Definition on_termination_timeout (self : RouterSessionFsm) : result :=
  mret (set_state Terminated self, [CloseTcp; Emit (SessionDown StatusCode.TIMED_OUT)]).

Definition on_terminating_closed (self : RouterSessionFsm) : result :=
  mret (set_state Terminated self,
        [CancelTimer TIMER_TERMINATION; Emit (SessionDown (termination_reason self))]).

(** The [RecvMessage] arms of [InSession]. *)
Definition in_session_message (msg : Message) (self : RouterSessionFsm) : result :=
  let mt := message_type msg in
  if mt =? MessageType.SESSION_TERMINATION then on_session_termination msg self
  else if mt =? MessageType.DESTINATION_UP then on_destination_up msg self
  else if mt =? MessageType.DESTINATION_UPDATE then on_destination_update msg self
  else if mt =? MessageType.DESTINATION_DOWN then on_destination_down msg self
  else if mt =? MessageType.DESTINATION_DOWN_RESPONSE then on_destination_down_response msg self
  else if mt =? MessageType.SESSION_UPDATE then on_session_update msg self
  else if mt =? MessageType.SESSION_UPDATE_RESPONSE then on_session_update_response self
  else if mt =? MessageType.DESTINATION_ANNOUNCE_RESPONSE then on_announce_response msg self
  else if mt =? MessageType.LINK_CHARACTERISTICS_RESPONSE then
    on_link_characteristics_response msg self
  else if mt =? MessageType.HEARTBEAT then mret (self, heartbeat_reset self)
  else protocol_error (Status StatusCode.UNEXPECTED_MESSAGE []) self.

(** [match (self.state, event)]. *)
Definition dispatch (event : FsmEvent) (self : RouterSessionFsm) : result :=
  match state self, event with
  | Closed, TcpConnected => on_tcp_connected self
  | Closed, AppShutdown _ => mret (set_state Terminated self, [])
  | Closed, TcpClosed => mret (set_state Terminated self, [])
  | SessionInitPending, RecvMessage msg =>
      if message_type msg =? MessageType.SESSION_INITIALIZATION_RESPONSE
      then on_init_response msg self
      else on_init_other self
  | SessionInitPending, TimerExpired _ TSessionInit => on_init_timeout self
  | SessionInitPending, TcpClosed => on_init_closed self
  | SessionInitPending, AppShutdown reason => on_init_shutdown reason self
  | InSession, RecvMessage msg => in_session_message msg self
  | InSession, AppDropDestination mac _ => on_app_drop_destination mac self
  | InSession, AppRequestLinkCharacteristics mac requested =>
      on_app_request_link_characteristics mac requested self
  | InSession, AppSessionAddresses changes => on_app_session_addresses changes self
  | InSession, RecvExtensionMessage => mret (self, heartbeat_reset self)
  | InSession, TimerExpired _ THeartbeat => mret (self, [SendMessage build_heartbeat])
  | InSession, TimerExpired _ THeartbeatMissed => on_heartbeat_missed self
  | InSession, AppSessionUpdate _ => mret (self, [])
  | InSession, AppAnnounceDestination mac => on_app_announce_destination mac self
  | InSession, AppShutdown reason => on_shutdown reason self
  | InSession, TcpClosed => on_closed self
  | Terminating, RecvMessage msg =>
      if message_type msg =? MessageType.SESSION_TERMINATION_RESPONSE
      then on_termination_response self
      else mret (self, [])
  | Terminating, TimerExpired _ TTermination => on_termination_timeout self
  | Terminating, TcpClosed => on_terminating_closed self
  | _, _ => mret (self, [])
  end.

(** The checks of a received message, while one can be received. *)
Definition guard_message (msg : Message) (self : RouterSessionFsm) (k : result) : result :=
  match state self with
  | SessionInitPending | InSession =>
      match (if negb (message_type msg =? MessageType.SESSION_TERMINATION)
             then fatal_status msg else None) with
      | Some item => protocol_error item self
      | None =>
          match check_message self msg with
          | Ok _ => k
          | Err code => protocol_error (Status code []) self
          | Panic => Panic
          end
      end
  | _ => k
  end.

(** What [step] does once a command has passed its check. *)
Definition accepted (event : FsmEvent) (self : RouterSessionFsm) : result :=
  match event with
  | RecvMessage msg => guard_message msg self (dispatch event self)
  | ProtocolError code => protocol_error (Status code []) self
  | _ => dispatch event self
  end.

Definition step (event : FsmEvent) (self : RouterSessionFsm) : result :=
  match command event with
  | Some info =>
      match check_command self event with
      | Ok _ => accepted event self
      | Err reason => mret (self, [Emit (CommandRejected (mkRejection info reason))])
      | Panic => Panic
      end
  | None => accepted event self
  end.

End Step.

End Router.
