(* ===== verification/SessionModem.v ===== *)
(** * The modem's session state machine

    [dlep-fsm/src/session_modem.rs]: the record of the session, one definition
    per arm of [step] and [step] itself.  A Rust panic ([expect], indexing a map
    with an absent key, [unreachable!]) is the outcome [Panic]. *)

From S2P Require Import Prelude Externs CoreTypes Codec CodecItem CodecMessage Addresses Events.
From S2P Require Import SessionCommon Validation.
Import DataItem.

Module Modem.

Inductive ModemSessionState : Type :=
  | Listening
  | AwaitingSessionInit
  | InSession
  | Terminating
  | Terminated.

#[global] Instance ModemSessionState_eq_dec : EqDecision ModemSessionState.
Proof. solve_decision. Defined.

Record DestinationState : Type := mkDestination {
  announced : bool;
  pending_metrics : bool;
  metrics : LinkMetrics;
  addrs : DestinationAddrs;
  advertised_addrs : DestinationAddrs;
}.

Record ModemSessionFsm : Type := mkModem {
  state : ModemSessionState;
  tx : TransactionTracker;
  destinations : gmap Mac DestinationState;
  peer_addresses : DestinationAddrs;
  local_addresses : DestinationAddrs;
  session_metrics : LinkMetrics;
  config : SessionConfig;
  termination_reason : StatusCode;
  peer_heartbeat_interval : option Duration;
  peer_extensions : list ExtensionId;
  pending_link_requests : gset Mac;
}.

(** Assignment to a field. *)
Definition set_state (x : ModemSessionState) (f : ModemSessionFsm) : ModemSessionFsm :=
  mkModem x (tx f) (destinations f) (peer_addresses f) (local_addresses f) (session_metrics f)
    (config f) (termination_reason f) (peer_heartbeat_interval f) (peer_extensions f)
    (pending_link_requests f).
Definition set_tx (x : TransactionTracker) (f : ModemSessionFsm) : ModemSessionFsm :=
  mkModem (state f) x (destinations f) (peer_addresses f) (local_addresses f)
    (session_metrics f) (config f) (termination_reason f) (peer_heartbeat_interval f)
    (peer_extensions f) (pending_link_requests f).
Definition set_destinations (x : gmap Mac DestinationState) (f : ModemSessionFsm) : ModemSessionFsm :=
  mkModem (state f) (tx f) x (peer_addresses f) (local_addresses f) (session_metrics f)
    (config f) (termination_reason f) (peer_heartbeat_interval f) (peer_extensions f)
    (pending_link_requests f).
Definition set_peer_addresses (x : DestinationAddrs) (f : ModemSessionFsm) : ModemSessionFsm :=
  mkModem (state f) (tx f) (destinations f) x (local_addresses f) (session_metrics f) (config f)
    (termination_reason f) (peer_heartbeat_interval f) (peer_extensions f)
    (pending_link_requests f).
Definition set_local_addresses (x : DestinationAddrs) (f : ModemSessionFsm) : ModemSessionFsm :=
  mkModem (state f) (tx f) (destinations f) (peer_addresses f) x (session_metrics f) (config f)
    (termination_reason f) (peer_heartbeat_interval f) (peer_extensions f)
    (pending_link_requests f).
Definition set_session_metrics (x : LinkMetrics) (f : ModemSessionFsm) : ModemSessionFsm :=
  mkModem (state f) (tx f) (destinations f) (peer_addresses f) (local_addresses f) x (config f)
    (termination_reason f) (peer_heartbeat_interval f) (peer_extensions f)
    (pending_link_requests f).
Definition set_termination_reason (x : StatusCode) (f : ModemSessionFsm) : ModemSessionFsm :=
  mkModem (state f) (tx f) (destinations f) (peer_addresses f) (local_addresses f)
    (session_metrics f) (config f) x (peer_heartbeat_interval f) (peer_extensions f)
    (pending_link_requests f).
Definition set_peer_heartbeat_interval (x : option Duration) (f : ModemSessionFsm) : ModemSessionFsm :=
  mkModem (state f) (tx f) (destinations f) (peer_addresses f) (local_addresses f)
    (session_metrics f) (config f) (termination_reason f) x (peer_extensions f)
    (pending_link_requests f).
Definition set_peer_extensions (x : list ExtensionId) (f : ModemSessionFsm) : ModemSessionFsm :=
  mkModem (state f) (tx f) (destinations f) (peer_addresses f) (local_addresses f)
    (session_metrics f) (config f) (termination_reason f) (peer_heartbeat_interval f) x
    (pending_link_requests f).
Definition set_pending_link_requests (x : gset Mac) (f : ModemSessionFsm) : ModemSessionFsm :=
  mkModem (state f) (tx f) (destinations f) (peer_addresses f) (local_addresses f)
    (session_metrics f) (config f) (termination_reason f) (peer_heartbeat_interval f)
    (peer_extensions f) x.

Definition with_config (c : SessionConfig) : ModemSessionFsm :=
  mkModem Listening TransactionTracker_default ∅ DestinationAddrs_default DestinationAddrs_default
    (initial_metrics c) c StatusCode.SUCCESS None [] ∅.

(** What a step yields: the next record and the ordered actions. *)
Abbreviation result := (panics (ModemSessionFsm * list FsmAction)).

Definition link_characteristics_pending (self : ModemSessionFsm) (mac : Mac) : bool :=
  bool_decide (mac ∈ pending_link_requests self).

Definition build_session_initialization_response (c : SessionConfig) : Message :=
  let message :=
    with_item
      (with_item
         (with_item (Message_new MessageType.SESSION_INITIALIZATION_RESPONSE)
            (status_item StatusCode.SUCCESS))
         (HeartbeatInterval (local_heartbeat_interval c)))
      (PeerType (mkPeerFlags false) (peer_description c)) in
  let message := push_extensions_supported message (advertised_extensions c) in
  push_metric_items message (initial_metrics c).

(** The first Status item gets the explanatory text. *)
Fixpoint set_status_text (text : rstring) (items : list DataItem) : list DataItem :=
  match items with
  | [] => []
  | Status code _ :: items' => Status code text :: items'
  | item :: items' => item :: set_status_text text items'
  end.

Definition build_link_characteristics_reply (mac : Mac) (status : StatusCode) (text : rstring)
    (m : LinkMetrics) : Message :=
  let message := build_link_characteristics_response mac status m in
  mkMessage (message_type message) (set_status_text text (msg_items message)).

(** [merge_link_metrics(&build_session_update(&m), &mut base)]. *)
Definition merge_update (m base : LinkMetrics) : LinkMetrics :=
  (merge_link_metrics (build_session_update m) base).2.

Definition heartbeat_reset (self : ModemSessionFsm) : list FsmAction :=
  opt_list (heartbeat_reset_action TIMER_HEARTBEAT_MISSED (peer_heartbeat_interval self)).

Definition start_termination_timer (self : ModemSessionFsm) : FsmAction :=
  StartTimer TIMER_TERMINATION TTermination (termination_timeout (config self)) false.

Definition protocol_error (status : DataItem) (self : ModemSessionFsm) : result :=
  match status with
  | Status code _ =>
      match state self with
      | Terminating | Terminated => mret (self, [])
      | AwaitingSessionInit =>
          mret (set_state Terminated self,
                [CancelTimer TIMER_SESSION_INIT; CloseTcp; Emit (SessionDown code)])
      | _ =>
          mret (set_termination_reason code (set_state Terminating self),
                [CancelTimer TIMER_SESSION_INIT; CancelTimer TIMER_HEARTBEAT;
                 CancelTimer TIMER_HEARTBEAT_MISSED;
                 SendMessage (with_item (Message_new MessageType.SESSION_TERMINATION) status);
                 start_termination_timer self])
      end
  | _ => Panic
  end.

(** [self.destinations.get_mut(&mac)] with an assignment behind it. *)
Definition put_destination (mac : Mac) (d : DestinationState) (self : ModemSessionFsm)
    : ModemSessionFsm :=
  set_destinations (<[mac := d]> (destinations self)) self.

Section Step.
Context {crates : Crates}.

Definition valid_metrics (self : ModemSessionFsm) (m : LinkMetrics) : bool :=
  supported_by m (initial_metrics (config self)) && is_ok (Message_encode (build_session_update m)).

(** The scope part of [check_command]: format, pending requests, transactions. *)
Definition check_scope (self : ModemSessionFsm) (event : FsmEvent) (info : CommandInfo)
    : outcome CommandError unit :=
  match destination info with
  | Some mac =>
      if negb (accepts (mac_address_format (config self)) mac) then Err MacAddressFormatMismatch
      else
        let pending := bool_decide (mac ∈ pending_link_requests self) in
        _ ← match event with
            | AppLinkCharacteristicsResponse _ _ _ _ =>
                if negb pending then Err NoPendingRequest else Ok tt
            | AppDropDestination _ _ => if pending then Err Busy else Ok tt
            | _ => Ok tt
            end;
        match per_destination (tx self) !! mac with
        | Some p =>
            let retained :=
              match event with
              | AppUpdateMetrics _ _ | AppUpdateAddresses _ _ =>
                  bool_decide (pending_kind p = RDestinationUp)
              | _ => false
              end in
            if negb retained then Err Busy else Ok tt
        | None => Ok tt
        end
  | None => if session_busy (tx self) then Err Busy else Ok tt
  end.

Definition check_add (self : ModemSessionFsm) (mac : Mac) (m : LinkMetrics) (a : DestinationAddrs)
    : outcome CommandError unit :=
  if is_some (destinations self !! mac) then Err AlreadyExists
  else if negb (valid_metrics self m) then Err InvalidInput
  else
    _ ← map_err (fun _ => InvalidInput) (validate (mkChanges a DestinationAddrs_default));
    let effective := merge_update m (session_metrics self) in
    _ ← map_err (fun _ => InvalidInput) (Message_encode (build_destination_up mac effective a));
    Ok tt.

Definition check_update_addresses (self : ModemSessionFsm) (mac : Mac) (changes : AddressChanges)
    : outcome CommandError unit :=
  match destinations self !! mac with
  | None => Err UnknownDestination
  | Some d =>
      _ ← map_err (fun _ => InvalidInput) (validate changes);
      let desired := apply_lenient changes (addrs d) in
      _ ← map_err (fun _ => InvalidInput)
            (Message_encode (build_destination_up mac (metrics d) desired));
      Ok tt
  end.

Definition check_link_response (self : ModemSessionFsm) (mac : Mac) (status : StatusCode)
    (text : rstring) (m : option LinkMetrics) : outcome CommandError unit :=
  if StatusCode.terminates_session status then Err InvalidInput
  else
    d ← expect (destinations self !! mac);
    effective ← match m with
                | Some m =>
                    if negb (valid_metrics self m) then Err InvalidInput
                    else Ok (merge_update m (metrics d))
                | None => Ok (metrics d)
                end;
    _ ← map_err (fun _ => InvalidInput)
          (Message_encode (build_link_characteristics_reply mac status text effective));
    Ok tt.

Definition check_command (self : ModemSessionFsm) (event : FsmEvent)
    : outcome CommandError unit :=
  if negb (bool_decide (state self = InSession)) then Err NotReady
  else
    info ← expect (command event);
    _ ← match event with
        | AppAnnounceDestination _ | AppRequestLinkCharacteristics _ _ => Err Unsupported
        | _ => Ok tt
        end;
    _ ← check_scope self event info;
    match event with
    | AppAddDestination mac m a => check_add self mac m a
    | AppDropDestination mac _ =>
        if is_none (destinations self !! mac) then Err UnknownDestination else Ok tt
    | AppUpdateMetrics mac m =>
        if is_none (destinations self !! mac) then Err UnknownDestination
        else if negb (valid_metrics self m) then Err InvalidInput else Ok tt
    | AppUpdateAddresses mac changes => check_update_addresses self mac changes
    | AppSessionUpdate m => if negb (valid_metrics self m) then Err InvalidInput else Ok tt
    | AppLinkCharacteristicsResponse mac status text m => check_link_response self mac status text m
    | AppSessionAddresses changes =>
        validate_local_address_update (local_addresses self) changes
    | _ => Err Unsupported
    end.

(** The [checked] closure of [step]. *)
Definition check_message (self : ModemSessionFsm) (msg : Message) : outcome StatusCode unit :=
  let initializing := bool_decide (state self = AwaitingSessionInit) in
  _ ← validate_message msg false initializing (advertised_extensions (config self));
  _ ← validate_mac_format msg (mac_address_format (config self));
  _ ← (if initializing || (message_type msg =? MessageType.SESSION_UPDATE)
       then (apply_strict (from_message msg) (peer_addresses self)).1
       else Ok tt);
  if initializing then Ok tt
  else
    let mac := extract_destination_mac msg in
    let known :=
      match mac with
      | Some mac =>
          match destinations self !! mac with Some d => announced d | None => false end
      | None => false
      end in
    if match mac with
       | Some mac => bool_decide (mac ∈ pending_link_requests self)
       | None => false
       end
       && one_of (message_type msg)
            [MessageType.DESTINATION_DOWN; MessageType.LINK_CHARACTERISTICS_REQUEST]
    then Err StatusCode.UNEXPECTED_MESSAGE
    else validate_transaction msg (tx self) known.


(** *** Arms of [step], in the order of the source *)

Definition on_tcp_accepted (self : ModemSessionFsm) : result :=
  mret (set_state AwaitingSessionInit self,
        [StartTimer TIMER_SESSION_INIT TSessionInit (session_init_timeout (config self)) false]).

Definition on_session_initialization (msg : Message) (self : ModemSessionFsm) : result :=
  let self := set_peer_addresses (added (from_message msg)) self in
  let self := set_peer_heartbeat_interval (extract_heartbeat_interval msg) self in
  let self := set_peer_extensions
                match extract_extensions_supported msg with Some ids => ids | None => [] end self in
  let self := set_state InSession self in
  mret (self,
    [CancelTimer TIMER_SESSION_INIT;
     SendMessage (build_session_initialization_response (config self));
     StartTimer TIMER_HEARTBEAT THeartbeat (local_heartbeat_interval (config self)) true]
    ++ heartbeat_reset self
    ++ [Emit (SessionUp (peer_extensions self))]
    ++ (if negb (DestinationAddrs_is_empty (peer_addresses self))
        then [Emit (SessionAddressesUpdate
                      (mkChanges (peer_addresses self) DestinationAddrs_default)
                      (peer_addresses self))]
        else [])).

Definition on_init_timeout (self : ModemSessionFsm) : result :=
  mret (set_state Terminated self, [CloseTcp; Emit (SessionDown StatusCode.TIMED_OUT)]).

Definition on_init_closed (self : ModemSessionFsm) : result :=
  mret (set_state Terminated self,
        [CancelTimer TIMER_SESSION_INIT; Emit (SessionDown StatusCode.TIMED_OUT)]).

Definition on_init_shutdown (reason : StatusCode) (self : ModemSessionFsm) : result :=
  mret (set_state Terminated self,
        [CancelTimer TIMER_SESSION_INIT; CloseTcp; Emit (SessionDown reason)]).

Definition on_init_other (self : ModemSessionFsm) : result :=
  mret (set_state Terminated self,
        [CancelTimer TIMER_SESSION_INIT; CloseTcp; Emit (SessionDown StatusCode.INVALID_DATA)]).

Definition on_session_termination (msg : Message) (self : ModemSessionFsm) : result :=
  let status := default StatusCode.SHUTTING_DOWN (extract_status msg) in
  mret (set_state Terminated self,
        [CancelTimer TIMER_HEARTBEAT; CancelTimer TIMER_HEARTBEAT_MISSED;
         SendMessage build_session_termination_response; CloseTcp; Emit (SessionDown status)]).

Definition on_app_add_destination (mac : Mac) (m : LinkMetrics) (a : DestinationAddrs)
    (self : ModemSessionFsm) : result :=
  let m := merge_update m (session_metrics self) in
  let a := addrs_canonical a in
  match open_destination mac RDestinationUp (tx self) with
  | (Ok _, tx') =>
      let d := mkDestination false false m (addrs_canonical a) (addrs_canonical a) in
      mret (put_destination mac d (set_tx tx' self), [SendMessage (build_destination_up mac m a)])
  | _ => Panic
  end.

(** The destination after a successful response, and the update it releases. *)
Definition release_updates (mac : Mac) (d : DestinationState) : DestinationState * list FsmAction :=
  let changes := between (advertised_addrs d) (addrs d) in
  if pending_metrics d || negb (AddressChanges_is_empty changes) then
    let message :=
      if pending_metrics d then build_destination_update mac (metrics d)
      else with_item (Message_new MessageType.DESTINATION_UPDATE) (MacAddress mac) in
    (mkDestination true false (metrics d) (addrs d) (addrs d),
     [SendMessage (append_to changes message)])
  else (mkDestination true (pending_metrics d) (metrics d) (addrs d) (advertised_addrs d), []).

Definition on_destination_up_response (msg : Message) (self : ModemSessionFsm) : result :=
  let status := default StatusCode.SUCCESS (extract_status msg) in
  let '(self, actions) :=
    match extract_destination_mac msg with
    | None => (self, [])
    | Some mac =>
        let self := set_tx (close_destination mac (tx self)).2 self in
        match destinations self !! mac with
        | None => (self, [])
        | Some d =>
            if status =? StatusCode.SUCCESS then
              let '(d, actions) := release_updates mac d in (put_destination mac d self, actions)
            else
              (put_destination mac
                 (mkDestination false (pending_metrics d) (metrics d) (addrs d) (advertised_addrs d))
                 self, [])
        end
    end in
  mret (self, actions ++ heartbeat_reset self).

Definition on_app_update_metrics (mac : Mac) (m : LinkMetrics) (self : ModemSessionFsm) : result :=
  d ← expect (destinations self !! mac);
  let m' := merge_update m (metrics d) in
  if negb (announced d) || destination_busy (tx self) mac then
    mret (put_destination mac
            (mkDestination (announced d) true m' (addrs d) (advertised_addrs d)) self, [])
  else
    mret (put_destination mac
            (mkDestination (announced d) (pending_metrics d) m' (addrs d) (advertised_addrs d)) self,
          [SendMessage (build_destination_update mac m)]).

Definition on_app_update_addresses (mac : Mac) (changes : AddressChanges) (self : ModemSessionFsm)
    : result :=
  d ← expect (destinations self !! mac);
  let desired := apply_lenient changes (addrs d) in
  let d := mkDestination (announced d) (pending_metrics d) (metrics d) desired (advertised_addrs d) in
  if negb (announced d) || destination_busy (tx self) mac then mret (put_destination mac d self, [])
  else
    let effective := between (advertised_addrs d) (addrs d) in
    if AddressChanges_is_empty effective then mret (put_destination mac d self, [])
    else
      mret (put_destination mac
              (mkDestination (announced d) (pending_metrics d) (metrics d) (addrs d) (addrs d)) self,
            [SendMessage (append_to effective
               (with_item (Message_new MessageType.DESTINATION_UPDATE) (MacAddress mac)))]).

Definition on_app_drop_destination (mac : Mac) (reason : StatusCode) (self : ModemSessionFsm)
    : result :=
  d ← expect (destinations self !! mac);
  if negb (announced d) && negb (destination_busy (tx self) mac) then
    mret (set_destinations (delete mac (destinations self)) self, [])
  else
    match open_destination mac RDestinationDown (tx self) with
    | (Ok _, tx') => mret (set_tx tx' self, [SendMessage (build_destination_down mac reason)])
    | _ => Panic
    end.

Definition on_destination_down (msg : Message) (self : ModemSessionFsm) : result :=
  mac ← expect (extract_destination_mac msg);
  d ← expect (destinations self !! mac);
  let self := put_destination mac
                (mkDestination false false (metrics d) (addrs d) (advertised_addrs d)) self in
  mret (self, [SendMessage (build_destination_down_response mac StatusCode.SUCCESS);
               Emit (DestinationDown mac StatusCode.SUCCESS)]
              ++ heartbeat_reset self).

Definition on_destination_down_response (msg : Message) (self : ModemSessionFsm) : result :=
  let self :=
    match extract_destination_mac msg with
    | Some mac =>
        let self := set_tx (close_destination mac (tx self)).2 self in
        set_destinations (delete mac (destinations self)) self
    | None => self
    end in
  mret (self, heartbeat_reset self).

Definition on_session_update (msg : Message) (self : ModemSessionFsm) : result :=
  let changes := from_message msg in
  match apply_strict changes (peer_addresses self) with
  | (Ok _, addresses) =>
      let self := set_peer_addresses addresses self in
      mret (self,
        [SendMessage (build_session_update_response StatusCode.SUCCESS)]
        ++ (if negb (AddressChanges_is_empty changes)
            then [Emit (SessionAddressesUpdate changes (peer_addresses self))] else [])
        ++ heartbeat_reset self)
  | _ => Panic
  end.

Definition on_session_update_response (self : ModemSessionFsm) : result :=
  let self := set_tx (close_session (tx self)).2 self in
  mret (self, heartbeat_reset self).

(** The response to an Announce for a destination the modem knows. *)
Definition announce_success (mac : Mac) (d : DestinationState) : Message :=
  let up := build_destination_up mac (metrics d) (addrs d) in
  push_item (mkMessage MessageType.DESTINATION_ANNOUNCE_RESPONSE (msg_items up))
    (status_item StatusCode.SUCCESS).

Definition on_destination_announce (msg : Message) (self : ModemSessionFsm) : result :=
  mac ← expect (extract_destination_mac msg);
  let '(self, response) :=
    match destinations self !! mac with
    | Some d =>
        (put_destination mac (mkDestination true false (metrics d) (addrs d) (addrs d)) self,
         announce_success mac d)
    | None => (self, build_destination_announce_response mac StatusCode.REQUEST_DENIED)
    end in
  mret (self, [SendMessage response; Emit (DestinationAnnounced mac (from_message msg))]
              ++ heartbeat_reset self).

Definition on_link_characteristics_request (msg : Message) (self : ModemSessionFsm) : result :=
  mac ← expect (extract_destination_mac msg);
  d ← expect (destinations self !! mac);
  let pending := defer_link_characteristics (config self) in
  let '(self, actions) :=
    if pending
    then (set_pending_link_requests ({[mac]} ∪ pending_link_requests self) self, [])
    else (self, [SendMessage (build_link_characteristics_response mac StatusCode.REQUEST_DENIED
                                (metrics d))]) in
  mret (self, actions
              ++ [Emit (LinkCharacteristicsRequested mac (extract_link_characteristics msg)
                          (metrics d) pending)]
              ++ heartbeat_reset self).

Definition on_app_link_response (mac : Mac) (status : StatusCode) (text : rstring)
    (m : option LinkMetrics) (self : ModemSessionFsm) : result :=
  let self := set_pending_link_requests (pending_link_requests self ∖ {[mac]}) self in
  d ← expect (destinations self !! mac);
  let m' := match m with Some m => merge_update m (metrics d) | None => metrics d end in
  mret (put_destination mac
          (mkDestination (announced d) (pending_metrics d) m' (addrs d) (advertised_addrs d)) self,
        [SendMessage (build_link_characteristics_reply mac status text m')]).

Definition on_app_session_addresses (changes : AddressChanges) (self : ModemSessionFsm) : result :=
  '(acts, tx', local') ← apply_local_address_update changes (tx self) (local_addresses self);
  mret (set_local_addresses local' (set_tx tx' self), acts).

Definition on_heartbeat_missed (self : ModemSessionFsm) : result :=
  mret (set_state Terminating (set_termination_reason StatusCode.TIMED_OUT self),
        [CancelTimer TIMER_HEARTBEAT; SendMessage (build_session_termination StatusCode.TIMED_OUT);
         start_termination_timer self]).

Definition on_app_session_update (m : LinkMetrics) (self : ModemSessionFsm) : result :=
  match open_session RSessionUpdate (tx self) with
  | (Ok _, tx') =>
      let message := build_session_update m in
      let self := set_tx tx' self in
      let self := set_session_metrics (merge_link_metrics message (session_metrics self)).2 self in
      let self :=
        set_destinations
          ((fun d => mkDestination (announced d) (pending_metrics d)
                       (merge_link_metrics message (metrics d)).2 (addrs d) (advertised_addrs d))
           <$> destinations self) self in
      mret (self, [SendMessage message])
  | _ => Panic
  end.

Definition on_shutdown (reason : StatusCode) (self : ModemSessionFsm) : result :=
  mret (set_state Terminating (set_termination_reason reason self),
        [CancelTimer TIMER_HEARTBEAT; CancelTimer TIMER_HEARTBEAT_MISSED;
         SendMessage (build_session_termination reason); start_termination_timer self]).

Definition on_closed (self : ModemSessionFsm) : result :=
  mret (set_state Terminated self,
        [CancelTimer TIMER_HEARTBEAT; CancelTimer TIMER_HEARTBEAT_MISSED;
         Emit (SessionDown StatusCode.TIMED_OUT)]).

Definition on_termination_response (self : ModemSessionFsm) : result :=
  mret (set_state Terminated self,
        [CancelTimer TIMER_TERMINATION; CloseTcp; Emit (SessionDown (termination_reason self))]).

Definition on_termination_timeout (self : ModemSessionFsm) : result :=
  mret (set_state Terminated self, [CloseTcp; Emit (SessionDown StatusCode.TIMED_OUT)]).

Definition on_terminating_closed (self : ModemSessionFsm) : result :=
  mret (set_state Terminated self,
        [CancelTimer TIMER_TERMINATION; Emit (SessionDown (termination_reason self))]).

(** The [RecvMessage] arms of [InSession]. *)
Definition in_session_message (msg : Message) (self : ModemSessionFsm) : result :=
  let mt := message_type msg in
  if mt =? MessageType.SESSION_TERMINATION then on_session_termination msg self
  else if mt =? MessageType.DESTINATION_UP_RESPONSE then on_destination_up_response msg self
  else if mt =? MessageType.DESTINATION_DOWN then on_destination_down msg self
  else if mt =? MessageType.DESTINATION_DOWN_RESPONSE then on_destination_down_response msg self
  else if mt =? MessageType.SESSION_UPDATE then on_session_update msg self
  else if mt =? MessageType.SESSION_UPDATE_RESPONSE then on_session_update_response self
  else if mt =? MessageType.DESTINATION_ANNOUNCE then on_destination_announce msg self
  else if mt =? MessageType.LINK_CHARACTERISTICS_REQUEST then
    on_link_characteristics_request msg self
  else if mt =? MessageType.HEARTBEAT then mret (self, heartbeat_reset self)
  else protocol_error (Status StatusCode.UNEXPECTED_MESSAGE []) self.

(** [match (self.state, event)]. *)
Definition dispatch (event : FsmEvent) (self : ModemSessionFsm) : result :=
  match state self, event with
  | Listening, TcpAccepted => on_tcp_accepted self
  | Listening, AppShutdown _ => mret (set_state Terminated self, [])
  | Listening, TcpClosed => mret (set_state Terminated self, [])
  | AwaitingSessionInit, RecvMessage msg =>
      if message_type msg =? MessageType.SESSION_INITIALIZATION
      then on_session_initialization msg self
      else on_init_other self
  | AwaitingSessionInit, TimerExpired _ TSessionInit => on_init_timeout self
  | AwaitingSessionInit, TcpClosed => on_init_closed self
  | AwaitingSessionInit, AppShutdown reason => on_init_shutdown reason self
  | InSession, RecvMessage msg => in_session_message msg self
  | InSession, AppAddDestination mac m a => on_app_add_destination mac m a self
  | InSession, AppUpdateMetrics mac m => on_app_update_metrics mac m self
  | InSession, AppUpdateAddresses mac changes => on_app_update_addresses mac changes self
  | InSession, AppDropDestination mac reason => on_app_drop_destination mac reason self
  | InSession, AppLinkCharacteristicsResponse mac status text m =>
      on_app_link_response mac status text m self
  | InSession, AppSessionAddresses changes => on_app_session_addresses changes self
  | InSession, RecvExtensionMessage => mret (self, heartbeat_reset self)
  | InSession, TimerExpired _ THeartbeat => mret (self, [SendMessage build_heartbeat])
  | InSession, TimerExpired _ THeartbeatMissed => on_heartbeat_missed self
  | InSession, AppSessionUpdate m => on_app_session_update m self
  | InSession, AppShutdown reason => on_shutdown reason self
  | InSession, TcpClosed => on_closed self
  | Terminating, RecvMessage msg =>
      if message_type msg =? MessageType.SESSION_TERMINATION_RESPONSE
      then on_termination_response self
      else mret (self, [])
  | Terminating, TimerExpired _ TTermination => on_termination_timeout self
  | Terminating, TcpClosed => on_terminating_closed self
  | _, _ => mret (self, [])
  end.

(** The checks of a received message, while one can be received. *)
Definition guard_message (msg : Message) (self : ModemSessionFsm) (k : result) : result :=
  match state self with
  | AwaitingSessionInit | InSession =>
      match (if negb (message_type msg =? MessageType.SESSION_TERMINATION)
             then fatal_status msg else None) with
      | Some item => protocol_error item self
      | None =>
          match check_message self msg with
          | Ok _ => k
          | Err code => protocol_error (Status code []) self
          | Panic => Panic
          end
      end
  | _ => k
  end.

(** What [step] does once a command has passed its check. *)
Definition accepted (event : FsmEvent) (self : ModemSessionFsm) : result :=
  match event with
  | RecvMessage msg => guard_message msg self (dispatch event self)
  | ProtocolError code => protocol_error (Status code []) self
  | _ => dispatch event self
  end.

Definition step (event : FsmEvent) (self : ModemSessionFsm) : result :=
  match command event with
  | Some info =>
      match check_command self event with
      | Ok _ => accepted event self
      | Err reason => mret (self, [Emit (CommandRejected (mkRejection info reason))])
      | Panic => Panic
      end
  | None => accepted event self
  end.

End Step.

End Modem.
