(* ===== verification/Lifecycle.v ===== *)
(** * The life of a session, abstractly

    What the two session state machines promise to the runtime that drives them
    (trait [SessionFsm] of [dlep-daemon/src/session.rs]): a labelled transition
    system over five phases.  Labels are the lifecycle effects of a step, that is
    the timers it arms and cancels, [CloseTcp], and the SessionUp / SessionDown
    notifications.  The theorems about runs (armed timers, notifications, the end
    of a session) are proved here once, against the interface; the router and the
    modem discharge it. *)

From S2P Require Import Prelude Externs CoreTypes Addresses Events.

Inductive Phase : Type := Idle | Opening | Established | Closing | Done.

#[global] Instance Phase_eq_dec : EqDecision Phase.
Proof. solve_decision. Defined.

Inductive Effect : Type :=
  | Arm (id : TimerId)
  | Disarm (id : TimerId)
  | Close
  | Up
  | Down
  | Stray.

#[global] Instance Effect_eq_dec : EqDecision Effect.
Proof. solve_decision. Defined.

(** Whether a timer is started under the identifier of its kind, and only the
    heartbeat as periodic. *)
Definition timer_started_ok (id : TimerId) (kind : TimerKind) (periodic : bool) : bool :=
  match kind with
  | TSessionInit => (id =? TIMER_SESSION_INIT) && negb periodic
  | TTermination => (id =? TIMER_TERMINATION) && negb periodic
  | THeartbeat => (id =? TIMER_HEARTBEAT) && periodic
  | THeartbeatMissed => (id =? TIMER_HEARTBEAT_MISSED) && negb periodic
  | TDiscovery => false
  end.

(** The lifecycle effect of an action, if it has one.  [Stray], a timer started
    under the wrong identifier, is the effect of no lifecycle step. *)
Definition effect (a : FsmAction) : option Effect :=
  match a with
  | StartTimer id kind _ periodic =>
      Some (if timer_started_ok id kind periodic then Arm id else Stray)
  | ResetHeartbeat id _ =>
      Some (if timer_started_ok id THeartbeatMissed false then Arm id else Stray)
  | CancelTimer id => Some (Disarm id)
  | CloseTcp => Some Close
  | Emit (SessionUp _) => Some Up
  | Emit (SessionDown _) => Some Down
  | _ => None
  end.

Definition effects (acts : list FsmAction) : list Effect := omap effect acts.

Lemma effect_close a : effect a = Some Close -> a = CloseTcp.
Proof. destruct a as [| | | | | |[]]; cbn; try done; by case_match. Qed.

Lemma effect_down a : effect a = Some Down -> exists code, a = Emit (SessionDown code).
Proof. destruct a as [| | | | | |[]]; cbn; try done; try (by case_match). eauto. Qed.

(** The timer an event is the expiry of. *)
Definition tick (e : FsmEvent) : option TimerKind :=
  match e with TimerExpired _ k => Some k | _ => None end.

(** The expiries that end a phase. *)
Definition deadline (p : Phase) (t : option TimerKind) : bool :=
  match p, t with
  | Opening, Some TSessionInit | Established, Some THeartbeatMissed | Closing, Some TTermination =>
      true
  | _, _ => false
  end.

Lemma deadline_None p : deadline p None = false.
Proof. by destruct p. Qed.
#[export] Hint Resolve deadline_None : core.

Inductive life_step : option TimerKind -> Phase -> list Effect -> Phase -> Prop :=
  | life_quiet t p : deadline p t = false -> life_step t p [] p
  | life_alive : life_step None Established [Arm TIMER_HEARTBEAT_MISSED] Established
  | life_open : life_step None Idle [Arm TIMER_SESSION_INIT] Opening
  | life_abandon : life_step None Idle [] Done
  | life_establish :
      life_step None Opening
        [Disarm TIMER_SESSION_INIT; Arm TIMER_HEARTBEAT; Arm TIMER_HEARTBEAT_MISSED; Up] Established
  | life_refuse : life_step None Opening [Disarm TIMER_SESSION_INIT; Close; Down] Done
  | life_open_lost : life_step None Opening [Disarm TIMER_SESSION_INIT; Down] Done
  | life_open_lost_armed : life_step None Opening [Down] Done
  | life_open_expired : life_step (Some TSessionInit) Opening [Close; Down] Done
  | life_error p :
      p <> Closing -> p <> Done ->
      life_step None p
        [Disarm TIMER_SESSION_INIT; Disarm TIMER_HEARTBEAT; Disarm TIMER_HEARTBEAT_MISSED;
         Arm TIMER_TERMINATION] Closing
  | life_shutdown :
      life_step None Established
        [Disarm TIMER_HEARTBEAT; Disarm TIMER_HEARTBEAT_MISSED; Arm TIMER_TERMINATION] Closing
  | life_missed :
      life_step (Some THeartbeatMissed) Established
        [Disarm TIMER_HEARTBEAT; Arm TIMER_TERMINATION] Closing
  | life_peer_ends :
      life_step None Established
        [Disarm TIMER_HEARTBEAT; Disarm TIMER_HEARTBEAT_MISSED; Close; Down] Done
  | life_lost :
      life_step None Established
        [Disarm TIMER_HEARTBEAT; Disarm TIMER_HEARTBEAT_MISSED; Down] Done
  | life_ended : life_step None Closing [Disarm TIMER_TERMINATION; Close; Down] Done
  | life_end_expired : life_step (Some TTermination) Closing [Close; Down] Done
  | life_end_lost : life_step None Closing [Disarm TIMER_TERMINATION; Down] Done.

(** ** The interface *)

(** What the runtime calls, and what it may rely on. *)
Class SessionFsm (F : Type) : Type := {
  fsm_step : FsmEvent -> F -> panics (F * list FsmAction);
  fsm_in_session : F -> bool;
  fsm_mac_address_format : F -> MacAddressFormat;
  fsm_phase : F -> Phase;
  fsm_inv : F -> Prop;
  fsm_in_session_phase s : fsm_in_session s = true <-> fsm_phase s = Established;
  fsm_total e s : fsm_inv s ->
    exists s' acts, fsm_step e s = Ok (s', acts) /\ fsm_inv s'
      /\ life_step (tick e) (fsm_phase s) (effects acts) (fsm_phase s');
}.

(** ** Timers *)

Definition timer_kind (id : TimerId) : option TimerKind :=
  if id =? TIMER_SESSION_INIT then Some TSessionInit
  else if id =? TIMER_TERMINATION then Some TTermination
  else if id =? TIMER_HEARTBEAT then Some THeartbeat
  else if id =? TIMER_HEARTBEAT_MISSED then Some THeartbeatMissed
  else None.

(** The set of armed timers, as the effects change it. *)
Definition arm_effect (armed : gset TimerId) (e : Effect) : gset TimerId :=
  match e with
  | Arm id => {[id]} ∪ armed
  | Disarm id => armed ∖ {[id]}
  | _ => armed
  end.

(** An expiry uses a one-shot timer up; the heartbeat timer is periodic. *)
Definition consume (t : option TimerKind) (armed : gset TimerId) : gset TimerId :=
  match t with
  | Some TSessionInit => armed ∖ {[TIMER_SESSION_INIT]}
  | Some TTermination => armed ∖ {[TIMER_TERMINATION]}
  | Some THeartbeatMissed => armed ∖ {[TIMER_HEARTBEAT_MISSED]}
  | _ => armed
  end.

Definition run_effects (t : option TimerKind) (armed : gset TimerId) (effs : list Effect)
    : gset TimerId :=
  foldl arm_effect (consume t armed) effs.

(** The timers armed in each phase.  A session that lost its connection while
    opening may leave the initialization deadline armed; it is over then. *)
Definition timers_ok (p : Phase) (armed : gset TimerId) : Prop :=
  match p with
  | Idle => armed = ∅
  | Opening => armed = {[TIMER_SESSION_INIT]}
  | Established => armed = {[TIMER_HEARTBEAT; TIMER_HEARTBEAT_MISSED]}
  | Closing => armed = {[TIMER_TERMINATION]}
  | Done => armed ⊆ {[TIMER_SESSION_INIT]}
  end.

(** The runtime delivers the expiries of armed timers only. *)
Definition tick_ok (t : option TimerKind) (armed : gset TimerId) : Prop :=
  match t with
  | None => True
  | Some k => exists id, id ∈ armed /\ timer_kind id = Some k
  end.

(** Closed statements about small sets are decided by computation. *)
Ltac closed_set :=
  first [ by vm_compute | apply (bool_decide_unpack _); by vm_compute ].

Lemma quiet_timers t p armed :
  deadline p t = false -> timers_ok p armed -> tick_ok t armed -> timers_ok p (consume t armed).
Proof.
  intros Hd Ha Ht. destruct t as [[]|]; [done| | | |done|done].
  all: destruct Ht as (id & Hid & Hk).
  all: destruct p; try done; cbn in Ha; try subst armed; cbn; try set_solver.
  all: revert Hk; unfold timer_kind; repeat case_match; bprop; subst; try done; intros _; exfalso;
    revert Hid; apply (bool_decide_unpack _); by vm_compute.
Qed.

Lemma life_step_timers t p effs p' armed :
  life_step t p effs p' -> timers_ok p armed -> tick_ok t armed ->
  timers_ok p' (run_effects t armed effs).
Proof.
  intros H Ha Ht. destruct H as [t p Hq| | | | | | | | |p Hc Hd| | | | | | | ];
    [by apply quiet_timers|..]; cbn [timers_ok] in *; try (subst armed; closed_set).
  destruct p; cbn [timers_ok] in Ha; try done; subst armed; closed_set.
Qed.

(** ** Runs *)

(** The notifications among the effects. *)
Definition notification (e : Effect) : bool := match e with Up | Down => true | _ => false end.
Definition notifications (effs : list Effect) : list Effect := retain notification effs.

(** What the application has been told when a session is in a phase. *)
Definition told (p : Phase) (n : list Effect) : Prop :=
  match p with
  | Idle | Opening => n = []
  | Established => n = [Up]
  | Closing => n = [] \/ n = [Up]
  | Done => n = [] \/ n = [Down] \/ n = [Up; Down]
  end.

Lemma notifications_app a b : notifications (a ++ b) = notifications a ++ notifications b.
Proof. apply List.filter_app. Qed.

Lemma life_step_told t p effs p' n :
  life_step t p effs p' -> told p n -> told p' (n ++ notifications effs).
Proof.
  intros H. destruct H; cbn; intros Hn;
    repeat match goal with H : _ \/ _ |- _ => destruct H end; subst; cbn; auto;
    try (by rewrite app_nil_r).
  destruct p; cbn in *; try done; subst; auto.
Qed.

(** A session is closed at most once, and only to be over. *)
Definition closes (effs : list Effect) : bool :=
  existsb (fun e => match e with Close => true | _ => false end) effs.

Lemma life_step_no_stray t p effs p' : life_step t p effs p' -> Stray ∉ effs.
Proof. intros H. destruct H; apply (bool_decide_unpack _); by vm_compute. Qed.

Section Runs.
Context `{Hfsm : SessionFsm F}.

(** One turn of the runtime: an event that may occur, the step, its actions. *)
Inductive turn : F * gset TimerId -> FsmEvent -> list FsmAction -> F * gset TimerId -> Prop :=
  | turn_step e s armed s' acts :
      tick_ok (tick e) armed -> fsm_step e s = Ok (s', acts) ->
      turn (s, armed) e acts (s', run_effects (tick e) armed (effects acts)).

(** The reflexive-transitive closure, with all events and actions in order. *)
Inductive turns
    : F * gset TimerId -> list FsmEvent -> list FsmAction -> F * gset TimerId -> Prop :=
  | turns_nil c : turns c [] [] c
  | turns_snoc c c' c'' es e acts acts' :
      turns c es acts c' -> turn c' e acts' c'' -> turns c (es ++ [e]) (acts ++ acts') c''.

Lemma effects_app a b : effects (a ++ b) = effects a ++ effects b.
Proof. apply omap_app. Qed.

Lemma turn_ok c e acts c' :
  turn c e acts c' -> fsm_inv c.1 -> timers_ok (fsm_phase c.1) c.2 ->
  fsm_inv c'.1 /\ timers_ok (fsm_phase c'.1) c'.2
  /\ exists t, life_step t (fsm_phase c.1) (effects acts) (fsm_phase c'.1).
Proof.
  intros [e0 s armed s' a Htick Hstep] Hi Ha. cbn in *.
  destruct (fsm_total e0 s Hi) as (s1 & a1 & Hstep1 & Hi1 & Hl).
  rewrite Hstep in Hstep1. injection Hstep1 as <- <-.
  split; [done|]. split; [by eapply life_step_timers|eauto].
Qed.

(** Along every run from a fresh session: the invariant, the armed timers and the
    notifications given so far. *)
Lemma turns_ok s es acts c :
  fsm_inv s -> fsm_phase s = Idle -> turns (s, ∅) es acts c ->
  fsm_inv c.1 /\ timers_ok (fsm_phase c.1) c.2
  /\ told (fsm_phase c.1) (notifications (effects acts)).
Proof.
  intros Hi Hp Hr. remember (s, ∅) as c0 eqn:Hc0.
  induction Hr as [|c c' c'' es e acts acts' _ IH Ht]; subst.
  { cbn. rewrite Hp. done. }
  destruct (IH eq_refl) as (Hinv & Htim & Htold).
  destruct (turn_ok _ _ _ _ Ht Hinv Htim) as (Hinv' & Htim' & t & Hl).
  split; [done|]. split; [done|].
  rewrite effects_app, notifications_app. by eapply life_step_told.
Qed.

(** The deadline of a phase. *)
Definition deadline_event (p : Phase) : FsmEvent :=
  match p with
  | Opening => TimerExpired TIMER_SESSION_INIT TSessionInit
  | Established => TimerExpired TIMER_HEARTBEAT_MISSED THeartbeatMissed
  | _ => TimerExpired TIMER_TERMINATION TTermination
  end.

Lemma deadline_turn s armed :
  fsm_inv s -> timers_ok (fsm_phase s) armed -> fsm_phase s <> Idle -> fsm_phase s <> Done ->
  exists s' acts armed', turn (s, armed) (deadline_event (fsm_phase s)) acts (s', armed')
    /\ if decide (fsm_phase s = Established) then fsm_phase s' = Closing
       else fsm_phase s' = Done /\ effects acts = [Close; Down].
Proof.
  intros Hi Ha Hn Hd.
  destruct (fsm_total (deadline_event (fsm_phase s)) s Hi) as (s' & acts & Hs & _ & Hl).
  exists s', acts. eexists. split.
  - econstructor; [|exact Hs]. destruct (fsm_phase s); cbn in *; try done; subst armed.
    + by exists TIMER_SESSION_INIT.
    + exists TIMER_HEARTBEAT_MISSED. split; [set_solver|done].
    + by exists TIMER_TERMINATION.
  - revert Hn Hd Hl. generalize (fsm_phase s), (effects acts), (fsm_phase s').
    intros [] effs p' Hn Hd Hl; cbn in Hl; try done; inversion Hl; subst; done.
Qed.

(** With a silent peer the deadlines that are armed end the session. *)
Lemma silent_peer s armed :
  fsm_inv s -> timers_ok (fsm_phase s) armed ->
  fsm_phase s <> Idle -> fsm_phase s <> Done ->
  exists es acts s' armed', turns (s, armed) es acts (s', armed')
    /\ (length es <= 2)%nat /\ Forall (fun e => is_Some (tick e)) es
    /\ fsm_phase s' = Done /\ closes (effects acts) = true /\ Down ∈ effects acts.
Proof.
  intros Hi Ha Hn Hd.
  assert (Htick : forall p, is_Some (tick (deadline_event p))) by (intros []; eauto).
  destruct (deadline_turn s armed Hi Ha Hn Hd) as (s1 & acts1 & a1 & Ht1 & H1).
  destruct (decide (fsm_phase s = Established)) as [He|He].
  - destruct (turn_ok _ _ _ _ Ht1 Hi Ha) as (Hi1 & Ha1 & _). cbn in *.
    destruct (deadline_turn s1 a1 Hi1 Ha1) as (s2 & acts2 & a2 & Ht2 & H2); [congruence..|].
    rewrite H1 in H2. cbn in H2. destruct H2 as [Hd2 He2].
    exists (([] ++ [deadline_event (fsm_phase s)]) ++ [deadline_event (fsm_phase s1)]), (([] ++ acts1) ++ acts2), s2, a2. split.
    + eapply turns_snoc; [|exact Ht2]. eapply turns_snoc; [apply turns_nil|exact Ht1].
    + split; [cbn; lia|]. split; [repeat constructor; apply Htick|]. split; [done|].
      rewrite effects_app, He2. split; [|set_solver]. unfold closes. rewrite existsb_app.
      by rewrite orb_true_r.
  - destruct H1 as [Hd1 He1]. exists ([] ++ [deadline_event (fsm_phase s)]), ([] ++ acts1), s1, a1.
    split; [eapply turns_snoc; [apply turns_nil|exact Ht1]|].
    split; [cbn; lia|]. split; [repeat constructor; apply Htick|]. split; [done|].
    cbn [app]. rewrite He1. split; [done|set_solver].
Qed.

End Runs.
