(* ===== verification/RouterInv.v ===== *)
(** * The router keeps its invariant and its promise

    Panic freedom, the well-formedness invariant and the refinement of
    [Lifecycle.life_step] for [Router.step]; then the properties of the router
    that rest on them. *)

From S2P Require Import Prelude Externs CoreTypes Codec CodecItem CodecMessage Addresses Events.
From S2P Require Import SessionCommon Validation SessionFacts SessionRouter Lifecycle.
Import DataItem Router.

(** ** The invariant *)

(** Outstanding requests are of the router's own kinds, and those about a
    reported destination have one. *)
Definition tx_ok (t : TransactionTracker) (ds : gmap Mac DestinationState) : Prop :=
  (forall k, scopes t None = Some k -> k = RSessionUpdate)
  /\ forall mac k, scopes t (Some mac) = Some k ->
       k = RDestinationAnnounce \/ ((k = RDestinationDown \/ k = RLinkCharacteristics) /\ is_Some (ds !! mac)).

(** Destinations are up, hold well-formed sets, and share no address or subnet. *)
Definition dests_ok {crates : Crates} (ds : gmap Mac DestinationState) : Prop :=
  (forall mac d, ds !! mac = Some d -> up d = true /\ addrs_ok (addrs d))
  /\ forall m m' d d' e, m <> m' -> ds !! m = Some d -> ds !! m' = Some d' ->
       has (addrs d) e -> ~ has (addrs d') e.

Definition phase (self : RouterSessionFsm) : Phase :=
  match state self with
  | Router.Closed => Idle
  | SessionInitPending => Opening
  | InSession => Established
  | Terminating => Closing
  | Terminated => Done
  end.

Section RouterInv.
Context {crates : Crates}.

Record inv (self : RouterSessionFsm) : Prop := {
  inv_tx : tx_ok (tx self) (destinations self);
  inv_dests : dests_ok (destinations self);
  inv_peer : addrs_ok (peer_addresses self);
  inv_local : addrs_ok (local_addresses self);
  inv_heartbeat : state self = InSession -> heartbeat_ok (peer_heartbeat_interval self);
}.

Lemma router_inv_initial c : inv (with_config c).
Proof. split; cbn; try done; apply addrs_ok_default. Qed.

(** ** Tracker *)

Lemma router_tx_ok_open ds t mac k t' :
  tx_ok t ds -> open_destination mac k t = (Ok tt, t') ->
  k = RDestinationAnnounce \/ ((k = RDestinationDown \/ k = RLinkCharacteristics) /\ is_Some (ds !! mac)) ->
  tx_ok t' ds.
Proof.
  intros [Hs Hd] Ho Hk. unfold open_destination in Ho.
  destruct (per_destination t !! mac); [done|]. injection Ho as <-. split; [done|].
  intros m k'. cbn. destruct (decide (m = mac)) as [->|Hne].
  - rewrite lookup_insert_eq. cbn. by intros [= <-].
  - rewrite lookup_insert_ne by done. apply Hd.
Qed.

Lemma router_tx_ok_session ds t t' :
  tx_ok t ds -> per_destination t' = per_destination t ->
  (forall k, scopes t' None = Some k -> k = RSessionUpdate) -> tx_ok t' ds.
Proof. intros [_ Hd] Hp Hs. split; [done|]. intros mac k. cbn. rewrite Hp. apply Hd. Qed.

Lemma router_tx_ok_close ds t mac : tx_ok t ds -> tx_ok (close_destination mac t).2 ds.
Proof.
  intros [Hs Hd]. split; [done|]. intros m k. cbn. destruct (decide (m = mac)) as [->|Hne].
  - by rewrite lookup_delete_eq.
  - rewrite lookup_delete_ne by done. apply Hd.
Qed.

Lemma tx_ok_close_delete ds t mac :
  tx_ok t ds -> tx_ok (close_destination mac t).2 (delete mac ds).
Proof.
  intros [Hs Hd]. split; [done|]. intros m k. cbn. destruct (decide (m = mac)) as [->|Hne].
  - by rewrite lookup_delete_eq.
  - rewrite !lookup_delete_ne by done. apply Hd.
Qed.

Lemma tx_ok_insert ds t mac d : tx_ok t ds -> tx_ok t (<[mac := d]> ds).
Proof.
  intros [Hs Hd]. split; [done|]. intros m k Hk. destruct (Hd m k Hk) as [?|[? Hin]]; [by left|].
  right. split; [done|]. apply lookup_insert_is_Some'. by right.
Qed.

Lemma router_tx_ok_delete ds t mac :
  destination_busy t mac = false -> tx_ok t ds -> tx_ok t (delete mac ds).
Proof.
  intros Hb [Hs Hd]. split; [done|]. intros m k Hk. destruct (decide (m = mac)) as [->|Hne].
  - unfold destination_busy in Hb. apply is_some_false in Hb. cbn in Hk. by rewrite Hb in Hk.
  - rewrite lookup_delete_ne by done. by apply Hd.
Qed.

Lemma tx_ok_fmap ds t f : tx_ok t ds -> tx_ok t (f <$> ds).
Proof.
  intros [Hs Hd]. split; [done|]. intros m k Hk. rewrite lookup_fmap, fmap_is_Some. by apply Hd.
Qed.

(** ** Addresses of destinations *)

Lemma existsb_map_false {A} (f : Mac * A -> bool) (ds : gmap Mac A) :
  existsb f (map_to_list ds) = false <-> forall m d, ds !! m = Some d -> f (m, d) = false.
Proof.
  rewrite existsb_elem_false. split.
  - intros H m d Hm. apply H. by apply elem_of_map_to_list.
  - intros H [m d] Hm. apply H. by apply elem_of_map_to_list.
Qed.

Lemma keep_added_spec {A} `{EqDecision A} (family : DestinationAddrs -> list A) self mac rem a :
  keep_added family self mac rem a = true ->
  a ∉ family rem ->
  a ∉ family (peer_addresses self)
  /\ forall m d, m <> mac -> destinations self !! m = Some d -> a ∉ family (addrs d).
Proof.
  unfold keep_added, held_elsewhere. intros H Hr. rewrite orb_true_iff, contains_spec in H.
  destruct H as [H|H]; [done|]. apply andb_true_iff in H as [Hp Ho].
  rewrite negb_true_iff in Hp, Ho. apply contains_false in Hp.
  rewrite existsb_map_false in Ho. split; [done|]. intros m d Hm Hd. specialize (Ho m d Hd).
  cbn in Ho. rewrite bool_decide_false in Ho by done. by apply contains_false.
Qed.

Lemma destination_changes_canonical self mac msg :
  changes_canonical (destination_address_changes self mac msg)
  = destination_address_changes self mac msg.
Proof.
  unfold changes_canonical, destination_address_changes.
  f_equal; cbn [added removed]; apply canonical_has; intros e He; apply (from_message_entries msg).
  - left. revert He. destruct e; cbn; rewrite elem_of_retain; tauto.
  - right. exact He.
Qed.

(** What a destination holds after a report: what it held, or an address that
    nobody else in the session holds. *)
Lemma destination_changes_fresh self mac msg cur e :
  has (apply_lenient (destination_address_changes self mac msg) cur) e ->
  has cur e
  \/ (~ has (peer_addresses self) e
      /\ forall m d, m <> mac -> destinations self !! m = Some d -> ~ has (addrs d) e).
Proof.
  rewrite has_apply_lenient, destination_changes_canonical.
  intros [[H _]|[Ha Hr]]; [by left|right].
  revert Ha Hr. destruct e; cbn; rewrite elem_of_retain; intros [Hk _] Hr;
    destruct (keep_added_spec _ _ _ _ _ Hk Hr) as [Hp Ho]; split; auto.
Qed.

Lemma router_dests_ok_insert ds mac d :
  dests_ok ds -> up d = true -> addrs_ok (addrs d) ->
  (forall e, has (addrs d) e ->
     forall m d', m <> mac -> ds !! m = Some d' -> ~ has (addrs d') e) ->
  dests_ok (<[mac := d]> ds).
Proof.
  intros [H1 H2] Hu Ha Hf. split.
  - intros m d0 Hm. apply lookup_insert_Some in Hm as [[<- <-]|[_ Hm]]; [done|by eapply H1].
  - intros m m' d0 d0' e Hne Hm Hm'.
    apply lookup_insert_Some in Hm as [[<- <-]|[Hn Hm]];
      apply lookup_insert_Some in Hm' as [[<- <-]|[Hn' Hm']]; try done.
    + intros He. exact (Hf e He m' d0' (not_eq_sym Hn') Hm').
    + intros He He'. exact (Hf e He' m d0 (not_eq_sym Hn) Hm He).
    + exact (H2 m m' d0 d0' e Hne Hm Hm').
Qed.

Lemma router_dests_ok_delete ds mac : dests_ok ds -> dests_ok (delete mac ds).
Proof.
  intros [H1 H2]. split.
  - intros m d [_ Hm]%lookup_delete_Some. by eapply H1.
  - intros m m' d d' e Hne [_ Hm]%lookup_delete_Some [_ Hm']%lookup_delete_Some.
    exact (H2 m m' d d' e Hne Hm Hm').
Qed.

Lemma dests_ok_fmap ds f :
  (forall d, up (f d) = up d /\ addrs (f d) = addrs d) -> dests_ok ds -> dests_ok (f <$> ds).
Proof.
  intros Hf [H1 H2]. split.
  - intros m d. rewrite lookup_fmap. intros (d0 & Hm & ->)%fmap_Some. destruct (Hf d0) as [-> ->].
    by eapply H1.
  - intros m m' d d' e Hne. rewrite !lookup_fmap.
    intros (d0 & Hm & ->)%fmap_Some (d0' & Hm' & ->)%fmap_Some.
    destruct (Hf d0) as [_ ->], (Hf d0') as [_ ->].
    exact (H2 m m' d0 d0' e Hne Hm Hm').
Qed.

(** ** Steps *)

(** A step that succeeds, keeps the invariant and is a step of the lifecycle. *)
Definition sound (t : option TimerKind) (self : RouterSessionFsm) (r : result) : Prop :=
  exists s' acts, r = Ok (s', acts) /\ inv s'
    /\ life_step t (phase self) (effects acts) (phase s').

Lemma router_sound_quiet t self s' acts :
  inv s' -> state s' = state self -> effects acts = [] -> deadline (phase self) t = false ->
  sound t self (mret (s', acts)).
Proof.
  intros Hi Hs He Hd. exists s', acts. split; [done|]. split; [done|]. rewrite He.
  replace (phase s') with (phase self) by (unfold phase; by rewrite Hs). by constructor.
Qed.

Lemma router_sound_alive self s' s1 acts :
  inv s' -> state self = InSession -> state s' = InSession -> effects acts = [] ->
  peer_heartbeat_interval s1 = peer_heartbeat_interval s' ->
  sound None self (mret (s', acts ++ heartbeat_reset s1)).
Proof.
  intros Hi Hs Hs' He Hp. exists s'. eexists. split; [done|]. split; [done|].
  destruct (inv_heartbeat _ Hi Hs') as [d Hd]. unfold heartbeat_reset. rewrite Hp, Hd, effects_app, He.
  unfold phase. rewrite Hs, Hs'. constructor.
Qed.

Lemma router_inv_set_state st self : inv self -> st <> InSession -> inv (set_state st self).
Proof. intros [] Hst. by split. Qed.

Lemma router_inv_set_reason r self : inv self -> inv (set_termination_reason r self).
Proof. intros []. by split. Qed.

Lemma router_sound_error code text self : inv self -> sound None self (protocol_error (Status code text) self).
Proof.
  intros Hi. unfold protocol_error.
  assert (Hc : state self <> Terminating -> state self <> Terminated ->
    sound None self (mret (set_termination_reason code (set_state Terminating self),
      [CancelTimer TIMER_SESSION_INIT; CancelTimer TIMER_HEARTBEAT; CancelTimer TIMER_HEARTBEAT_MISSED;
       SendMessage (with_item (Message_new MessageType.SESSION_TERMINATION) (Status code text));
       start_termination_timer self]))).
  { intros H1 H2. eexists _, _. split; [done|]. split; [by apply router_inv_set_reason, router_inv_set_state|].
    cbn. apply life_error; unfold phase; by destruct (state self). }
  destruct (state self) eqn:Hs; try (by apply Hc); apply router_sound_quiet; try done;
    unfold phase; by rewrite Hs.
Qed.

(** ** What the checks establish *)

Lemma router_check_message_Ok self msg :
  check_message self msg = Ok tt ->
  let initializing := bool_decide (state self = SessionInitPending) in
  validate_message msg true initializing (advertised_extensions (config self)) = Ok tt
  /\ (initializing || (message_type msg =? MessageType.SESSION_UPDATE) = true ->
      exists a, apply_strict (from_message msg) (peer_addresses self) = (Ok tt, a))
  /\ (initializing = false ->
      validate_transaction msg (tx self)
        match extract_destination_mac msg with
        | Some mac => destination_is_up self mac
        | None => false
        end = Ok tt).
Proof.
  unfold check_message. cbv zeta. set (init := bool_decide (state self = SessionInitPending)).
  destruct (validate_message msg true init _) as [[]| |]; cbn; [|done|done].
  destruct (validate_mac_format msg _) as [[]| |]; cbn; [|done|done].
  intros H. split; [done|].
  destruct (init || (message_type msg =? MessageType.SESSION_UPDATE)) eqn:Ha.
  - destruct (apply_strict _ _) as [[[]| |] a]; cbn in H; [|done|done]. split; [eauto|].
    intros Hi. rewrite Hi in H. destruct (existsb _ _); [done|]. by destruct (_ && _).
  - cbn in H. split; [done|]. intros Hi. rewrite Hi in H.
    destruct (existsb _ _); [done|]. by destruct (_ && _).
Qed.

Lemma router_check_message_no_panic self msg : check_message self msg <> Panic.
Proof.
  unfold check_message. set (init := bool_decide _).
  pose proof (validate_message_no_panic msg true init (advertised_extensions (config self))).
  destruct (validate_message _ _ _ _) as [[]| |]; cbn; [|done|congruence].
  pose proof (validate_mac_format_no_panic msg (mac_address_format (config self))).
  destruct (validate_mac_format _ _) as [[]| |]; cbn; [|done|congruence].
  destruct (init || _).
  - destruct (apply_strict_spec (from_message msg) (peer_addresses self)) as [(-> & _)|[-> _]];
      [|done]. cbn. destruct init; [done|]. destruct (existsb _ _); [done|].
    destruct (_ && _); [done|]. apply validate_transaction_no_panic.
  - cbn. destruct init; [done|]. destruct (existsb _ _); [done|].
    destruct (_ && _); [done|]. apply validate_transaction_no_panic.
Qed.

Lemma destination_is_up_Some self mac :
  destination_is_up self mac = true -> is_Some (destinations self !! mac).
Proof. unfold destination_is_up. destruct (destinations self !! mac); [eauto|done]. Qed.

(** ** Received messages *)

Section Message.
Context (msg : Message) (self : RouterSessionFsm).
Hypothesis Hinv : inv self.
Hypothesis Hstate : state self = InSession.
Hypothesis Hcheck : check_message self msg = Ok tt.

Local Abbreviation known :=
  match extract_destination_mac msg with
  | Some mac => destination_is_up self mac
  | None => false
  end.

Lemma router_in_session_valid :
  validate_message msg true false (advertised_extensions (config self)) = Ok tt.
Proof. destruct (router_check_message_Ok _ _ Hcheck) as [H _]. by rewrite Hstate in H. Qed.

Lemma router_in_session_transaction : validate_transaction msg (tx self) known = Ok tt.
Proof. destruct (router_check_message_Ok _ _ Hcheck) as (_ & _ & H). apply H. by rewrite Hstate. Qed.

Lemma router_in_session_mac :
  DataItemType.MAC_ADDRESS ∈ required_items (message_type msg) ->
  exists mac, extract_destination_mac msg = Some mac.
Proof. apply (validated_mac _ _ _ _ router_in_session_valid). Qed.

Lemma sound_destination_up :
  message_type msg = MessageType.DESTINATION_UP -> sound None self (on_destination_up msg self).
Proof.
  intros Ht. destruct router_in_session_mac as [mac Hm]; [rewrite Ht; left|].
  unfold on_destination_up. rewrite Hm. cbn [expect mbind outcome_bind].
  apply router_sound_alive; try done. destruct Hinv.
  split; cbn; try done; [by apply tx_ok_insert|]. apply router_dests_ok_insert; try done.
  - apply apply_lenient_ok, addrs_ok_default.
  - cbn. intros e [He|[_ He]]%destination_changes_fresh; [by destruct e; cbn in He; set_solver|done].
Qed.

Lemma sound_destination_update :
  message_type msg = MessageType.DESTINATION_UPDATE ->
  sound None self (on_destination_update msg self).
Proof.
  intros Ht. destruct router_in_session_mac as [mac Hm]; [rewrite Ht; left|].
  pose proof router_in_session_transaction as Htr.
  pose proof (transaction_known _ _ _ _ Htr Hm (or_introl Ht)) as Hk. rewrite Hm in Hk.
  destruct (destination_is_up_Some _ _ Hk) as [d Hd].
  unfold on_destination_update. rewrite Hm. cbn [expect mbind outcome_bind]. rewrite Hd.
  cbn [expect mbind outcome_bind]. destruct (merge_link_metrics msg (metrics d)) as [found m'].
  rewrite app_assoc. apply router_sound_alive; try done.
  2:{ by destruct found, (negb _). }
  destruct Hinv as [Htx Hdests ? ? ?]. destruct (proj1 Hdests _ _ Hd) as [Hup Hok].
  split; cbn; try done; [by apply tx_ok_insert|]. apply router_dests_ok_insert; try done.
  - by apply apply_lenient_ok.
  - cbn. intros e [He|[_ He]]%destination_changes_fresh; [|done].
    intros m d' Hne Hd'. exact (proj2 Hdests mac m d d' e (not_eq_sym Hne) Hd Hd' He).
Qed.

Lemma router_sound_destination_down :
  message_type msg = MessageType.DESTINATION_DOWN -> sound None self (on_destination_down msg self).
Proof.
  intros Ht. destruct router_in_session_mac as [mac Hm]; [rewrite Ht; left|].
  pose proof (transaction_idle _ _ _ _ router_in_session_transaction Hm (or_intror Ht)) as Hb.
  unfold on_destination_down. rewrite Hm. cbn [expect mbind outcome_bind].
  apply router_sound_alive; try done. destruct Hinv.
  split; cbn; try done; [by apply router_tx_ok_delete|by apply router_dests_ok_delete].
Qed.

Lemma router_sound_destination_down_response :
  message_type msg = MessageType.DESTINATION_DOWN_RESPONSE ->
  sound None self (on_destination_down_response msg self).
Proof.
  intros Ht. destruct router_in_session_mac as [mac Hm]; [rewrite Ht; left|].
  destruct (validated_status _ _ _ _ router_in_session_valid) as [st Hst]; [rewrite Ht; right; left|].
  unfold on_destination_down_response. rewrite Hm, Hst. cbn [expect mbind outcome_bind].
  apply router_sound_alive; try done. destruct Hinv.
  split; cbn; try done; [by apply tx_ok_close_delete|by apply router_dests_ok_delete].
Qed.

Lemma router_sound_session_update :
  message_type msg = MessageType.SESSION_UPDATE -> sound None self (on_session_update msg self).
Proof.
  intros Ht. destruct (router_check_message_Ok _ _ Hcheck) as (_ & Ha & _).
  destruct Ha as [a Ha]; [by rewrite Ht, orb_true_r|].
  unfold on_session_update. rewrite Ha. cbn [session_metrics set_peer_addresses].
  destruct (merge_link_metrics msg (session_metrics self)) as [found m'].
  pose proof (apply_strict_ok _ _ _ Ha (inv_peer _ Hinv)) as Hok.
  rewrite !app_assoc. apply router_sound_alive; try done; [| |by destruct found, (negb _)].
  - destruct Hinv, found; split; cbn; try done; [by apply tx_ok_fmap|]. by apply dests_ok_fmap.
  - by destruct found.
Qed.

Lemma router_sound_session_update_response : sound None self (on_session_update_response self).
Proof.
  apply (router_sound_alive _ _ _ []); try done. destruct Hinv.
  split; cbn; try done. by eapply router_tx_ok_session.
Qed.

Lemma sound_announce_response :
  message_type msg = MessageType.DESTINATION_ANNOUNCE_RESPONSE ->
  sound None self (on_announce_response msg self).
Proof.
  intros Ht. destruct router_in_session_mac as [mac Hm]; [rewrite Ht; left|].
  unfold on_announce_response. rewrite Hm. cbn [expect mbind outcome_bind].
  destruct (bool_decide _).
  - apply router_sound_alive; try done. destruct Hinv.
    split; cbn; try done; [by apply tx_ok_insert, router_tx_ok_close|].
    apply router_dests_ok_insert; try done.
    + apply apply_lenient_ok, addrs_ok_default.
    + cbn. intros e [He|[_ He]]%destination_changes_fresh; [by destruct e; cbn in He; set_solver|done].
  - apply (router_sound_alive _ _ _ []); try done. destruct Hinv.
    split; cbn; try done. by apply router_tx_ok_close.
Qed.

Lemma status_text_Some st : extract_status msg = Some st -> exists x, extract_status_text msg = Some x.
Proof.
  intros (i & Hi & Hs)%find_map_Some. destruct i; try done.
  apply (find_map_is_Some _ _ _ Hi). eauto.
Qed.

Lemma sound_link_characteristics_response :
  message_type msg = MessageType.LINK_CHARACTERISTICS_RESPONSE ->
  sound None self (on_link_characteristics_response msg self).
Proof.
  intros Ht. destruct router_in_session_mac as [mac Hm]; [rewrite Ht; left|].
  destruct (validated_status _ _ _ _ router_in_session_valid) as [st Hst]; [rewrite Ht; right; left|].
  apply status_text_Some in Hst as [[st' text] Hst].
  pose proof (transaction_response _ _ _ _ RLinkCharacteristics router_in_session_transaction Hm
    ltac:(by rewrite Ht)) as Hk.
  destruct Hinv as [Htx Hdests ? ? ?].
  destruct (proj2 Htx _ _ Hk) as [?|[_ [d Hd]]]; [done|].
  unfold on_link_characteristics_response. rewrite Hm. cbn [expect mbind outcome_bind]. rewrite Hd.
  cbn [expect mbind outcome_bind]. rewrite Hst. cbn [expect mbind outcome_bind].
  apply router_sound_alive; try done. destruct (proj1 Hdests _ _ Hd) as [Hup Hok].
  split; cbn; try done; [by apply router_tx_ok_close, tx_ok_insert|]. apply router_dests_ok_insert; try done.
  intros e He m d' Hne Hd'. exact (proj2 Hdests mac m d d' e (not_eq_sym Hne) Hd Hd' He).
Qed.

Lemma router_sound_in_session_message : sound None self (in_session_message msg self).
Proof.
  unfold in_session_message.
  destruct (Z.eqb_spec (message_type msg) MessageType.SESSION_TERMINATION).
  { eexists _, _. split; [done|]. split; [by apply router_inv_set_state|].
    unfold phase at 1. rewrite Hstate. constructor. }
  destruct (Z.eqb_spec (message_type msg) MessageType.DESTINATION_UP);
    [by apply sound_destination_up|].
  destruct (Z.eqb_spec (message_type msg) MessageType.DESTINATION_UPDATE);
    [by apply sound_destination_update|].
  destruct (Z.eqb_spec (message_type msg) MessageType.DESTINATION_DOWN);
    [by apply router_sound_destination_down|].
  destruct (Z.eqb_spec (message_type msg) MessageType.DESTINATION_DOWN_RESPONSE);
    [by apply router_sound_destination_down_response|].
  destruct (Z.eqb_spec (message_type msg) MessageType.SESSION_UPDATE);
    [by apply router_sound_session_update|].
  destruct (Z.eqb_spec (message_type msg) MessageType.SESSION_UPDATE_RESPONSE);
    [apply router_sound_session_update_response|].
  destruct (Z.eqb_spec (message_type msg) MessageType.DESTINATION_ANNOUNCE_RESPONSE);
    [by apply sound_announce_response|].
  destruct (Z.eqb_spec (message_type msg) MessageType.LINK_CHARACTERISTICS_RESPONSE);
    [by apply sound_link_characteristics_response|].
  destruct (_ =? MessageType.HEARTBEAT); [by apply (router_sound_alive _ _ _ [])|by apply router_sound_error].
Qed.

End Message.

(** ** Initialization, commands, and the whole step *)

Lemma sound_init_response msg self :
  inv self -> state self = SessionInitPending -> check_message self msg = Ok tt ->
  message_type msg = MessageType.SESSION_INITIALIZATION_RESPONSE ->
  sound None self (on_init_response msg self).
Proof.
  intros Hi Hs Hc Ht. destruct (router_check_message_Ok _ _ Hc) as (Hv & Ha & _).
  rewrite Hs in Hv, Ha. destruct (Ha eq_refl) as [a Hap].
  unfold on_init_response. destruct (negb _); [by apply router_sound_error|].
  destruct (validated_heartbeat _ _ _ _ Hv) as [d Hd]; [rewrite Ht; do 2 right; left|].
  eexists _, _. split; [reflexivity|]. split.
  - destruct Hi. split; cbn; try done; [by eapply apply_strict_added|]. intros _. by exists d.
  - unfold heartbeat_reset. cbn [peer_heartbeat_interval set_state set_peer_extensions
      set_peer_heartbeat_interval]. rewrite Hd. unfold phase at 1. rewrite Hs.
    rewrite !effects_app. destruct (negb _); apply life_establish.
Qed.

Lemma router_sound_init_other self :
  inv self -> state self = SessionInitPending -> sound None self (on_init_other self).
Proof.
  intros Hi Hs. eexists _, _. split; [done|]. split; [by apply router_inv_set_state|].
  unfold phase at 1. rewrite Hs. apply life_refuse.
Qed.

Lemma sound_open_and_send self mac k m :
  inv self -> state self = InSession -> destination_busy (tx self) mac = false ->
  k = RDestinationAnnounce
  \/ ((k = RDestinationDown \/ k = RLinkCharacteristics) /\ is_Some (destinations self !! mac)) ->
  sound None self (open_and_send mac k m self).
Proof.
  intros Hi Hs Hb Hk. unfold open_and_send.
  destruct (open_destination mac k (tx self)) as [r t'] eqn:Ho.
  assert (r = Ok tt) as ->.
  { unfold destination_busy in Hb. apply is_some_false in Hb. unfold open_destination in Ho.
    rewrite Hb in Ho. by injection Ho as <- _. }
  apply router_sound_quiet; [|done|done|done]. destruct Hi. split; cbn; try done. by eapply router_tx_ok_open.
Qed.

Lemma router_check_command_cases self event :
  check_command self event <> Panic
  /\ (check_command self event = Ok tt ->
      state self = InSession
      /\ match event with
         | AppDropDestination mac _ | AppRequestLinkCharacteristics mac _ =>
             destination_busy (tx self) mac = false /\ destination_is_up self mac = true
         | AppAnnounceDestination mac =>
             destination_busy (tx self) mac = false /\ destination_is_up self mac = false
         | AppSessionAddresses _ => True
         | _ => False
         end).
Proof.
  unfold check_command. destruct (decide (state self = InSession)) as [Hs|Hs];
    [rewrite bool_decide_true by done|by rewrite bool_decide_false].
  destruct event; cbn; try done; try (destruct (negb (accepts _ _)); [done|]);
    try (destruct (destination_busy (tx self) mac); [done|]); cbn.
  - by destruct (destination_is_up self mac).
  - destruct (session_busy (tx self)); [done|]. cbn. split; [apply validate_local_no_panic|done].
  - by destruct (destination_is_up self mac).
  - destruct (destination_is_up self mac); [|done]. cbn.
    destruct (LinkCharacteristics_is_empty _); [done|].
    pose proof (Message_encode_no_panic (build_link_characteristics_request mac requested)).
    by destruct (Message_encode _).
Qed.

Lemma router_apply_local_ok changes t local acts t' local' ds :
  apply_local_address_update changes t local = Ok (acts, t', local') ->
  tx_ok t ds -> addrs_ok local -> tx_ok t' ds /\ addrs_ok local' /\ effects acts = [].
Proof.
  unfold apply_local_address_update. intros H Ht Hl.
  destruct (session_busy t) eqn:Hb; [by injection H as <- <- <-|].
  destruct (validate_local_address_update local changes); [| |done]; [|by injection H as <- <- <-].
  destruct (AddressChanges_is_empty _); [by injection H as <- <- <-|].
  rewrite session_busy_open in H by done. injection H as <- <- <-.
  split; [|split; [by apply apply_lenient_ok|done]].
  eapply router_tx_ok_session; [done|done|]. cbn. by intros k [= <-].
Qed.

Lemma router_sound_session_addresses self changes :
  inv self -> state self = InSession -> sound None self (on_app_session_addresses changes self).
Proof.
  intros Hi Hs. unfold on_app_session_addresses.
  pose proof (apply_local_no_panic changes (tx self) (local_addresses self)) as Hp.
  destruct (apply_local_address_update _ _ _) as [[[acts t'] local']|[]|] eqn:Ha; [|done]. cbn.
  destruct (router_apply_local_ok _ _ _ _ _ _ _ Ha (inv_tx _ Hi) (inv_local _ Hi)) as (Ht & Hl & He).
  apply router_sound_quiet; try done. destruct Hi. by split.
Qed.

(** Every arm that a command cannot reach and that needs no checked message. *)
Lemma router_sound_dispatch_event event self :
  inv self -> command event = None -> (forall msg, event <> RecvMessage msg) ->
  sound (tick event) self (dispatch event self).
Proof.
  intros Hi Hc Hm. unfold dispatch.
  assert (Hq : deadline (phase self) (tick event) = false -> sound (tick event) self (mret (self, [])))
    by (intros; by apply router_sound_quiet).
  assert (Hend : forall st acts, st <> InSession ->
    life_step (tick event) (phase self) (effects acts) (phase (set_state st self)) ->
    sound (tick event) self (mret (set_state st self, acts)))
    by (intros st acts H1 H2; eexists _, _; split; [done|]; split; [by apply router_inv_set_state|done]).
  assert (Hfin : forall r acts,
    life_step (tick event) (phase self) (effects acts) Closing ->
    sound (tick event) self (mret (set_state Terminating (set_termination_reason r self), acts)))
    by (intros r acts H; eexists _, _; split; [done|]; split;
        [apply router_inv_set_state; [by apply router_inv_set_reason|done]|done]).
  unfold phase in *. destruct (state self) eqn:Hs; destruct event; try done;
    try (by destruct (Hm msg)); try (by apply Hq);
    try match goal with k : TimerKind |- _ => destruct k; try (by apply Hq) end;
    try (apply Hend; [done|by constructor]); try (apply Hfin; by constructor).
  - by apply (router_sound_alive _ _ _ []).
  - by apply router_sound_quiet; [|rewrite Hs| |unfold phase; rewrite Hs].
Qed.

Lemma router_sound_dispatch_message msg self :
  inv self -> state self <> SessionInitPending -> state self <> InSession ->
  sound None self (dispatch (RecvMessage msg) self).
Proof.
  intros Hi H1 H2. unfold dispatch. destruct (state self) eqn:Hs; try done;
    try (apply router_sound_quiet; try done; unfold phase; by rewrite Hs).
  destruct (_ =? _); [|apply router_sound_quiet; try done; unfold phase; by rewrite Hs].
  eexists _, _. split; [done|]. split; [by apply router_inv_set_state|]. unfold phase at 1. rewrite Hs.
  constructor.
Qed.

Lemma router_sound_accepted_message msg self :
  inv self -> sound None self (accepted (RecvMessage msg) self).
Proof.
  intros Hi. cbn [accepted]. unfold guard_message.
  assert (Hg : forall k, (check_message self msg = Ok tt -> sound None self k) ->
    sound None self
      match (if negb (message_type msg =? MessageType.SESSION_TERMINATION)
             then fatal_status msg else None) with
      | Some item => protocol_error item self
      | None => match check_message self msg with
                | Ok _ => k
                | Err code => protocol_error (Status code []) self
                | Panic => Panic
                end
      end).
  { intros k Hk. destruct (if negb _ then _ else _) as [i|] eqn:Hf.
    - destruct (negb _); [|done]. apply fatal_status_status in Hf as (c & t & ->). by apply router_sound_error.
    - pose proof (router_check_message_no_panic self msg) as Hn.
      destruct (check_message self msg) as [[]|c|]; [by apply Hk|by apply router_sound_error|done]. }
  destruct (state self) eqn:Hs; try (apply router_sound_dispatch_message; by rewrite ?Hs); apply Hg;
    intros Hc; unfold dispatch; rewrite Hs.
  - destruct (Z.eqb_spec (message_type msg) MessageType.SESSION_INITIALIZATION_RESPONSE);
      [by apply sound_init_response|by apply router_sound_init_other].
  - by apply router_sound_in_session_message.
Qed.

(** Panic freedom, preservation of the invariant and refinement, together. *)
Lemma router_step_sound event self : inv self -> sound (tick event) self (step event self).
Proof.
  intros Hi. unfold step. destruct (command event) as [info|] eqn:Hc.
  - assert (Ht : tick event = None) by (by destruct event). rewrite Ht.
    destruct (router_check_command_cases self event) as [Hn Hok].
    destruct (check_command self event) as [[]|r|]; [|by apply router_sound_quiet|done].
    destruct (Hok eq_refl) as [Hs Hev]. unfold accepted, dispatch.
    destruct event; try done; rewrite Hs.
    + destruct Hev. apply sound_open_and_send; try done. right.
      split; [by left|by apply destination_is_up_Some].
    + by apply router_sound_session_addresses.
    + destruct Hev. apply sound_open_and_send; try done. by left.
    + destruct Hev. apply sound_open_and_send; try done. right.
      split; [by right|by apply destination_is_up_Some].
  - destruct event; try done; try (by apply router_sound_dispatch_event);
      [by apply router_sound_accepted_message|by apply router_sound_error].
Qed.

End RouterInv.
