(* ===== verification/ModemInv.v ===== *)
(** * The modem keeps its invariant and its promise

    Panic freedom, the well-formedness invariant and the refinement of
    [Lifecycle.life_step] for [Modem.step]; then the properties of the modem that
    rest on them. *)

From S2P Require Import Prelude Externs CoreTypes Codec CodecItem CodecMessage Addresses Events.
From S2P Require Import SessionCommon Validation SessionFacts SessionModem Lifecycle.
Import DataItem Modem.

(** ** The invariant *)

(** The modem's outstanding requests: a Destination Up for a destination not yet
    announced, or a Destination Down for an announced one. *)
Definition tx_ok (t : TransactionTracker) (ds : gmap Mac DestinationState) : Prop :=
  (forall k, scopes t None = Some k -> k = RSessionUpdate)
  /\ forall mac k, scopes t (Some mac) = Some k ->
       exists d, ds !! mac = Some d
         /\ ((k = RDestinationUp /\ announced d = false) \/ (k = RDestinationDown /\ announced d = true)).

(** What the router was told about an announced destination is what the modem
    knows of it: no update is held back. *)
Definition dest_ok {crates : Crates} (d : DestinationState) : Prop :=
  addrs_ok (addrs d) /\ addrs_ok (advertised_addrs d)
  /\ (announced d = true -> pending_metrics d = false /\ addrs_equiv (advertised_addrs d) (addrs d)).

Definition dests_ok {crates : Crates} (ds : gmap Mac DestinationState) : Prop :=
  forall mac d, ds !! mac = Some d -> dest_ok d.

(** A deferred Link Characteristics Request is about an announced destination
    and the only transaction there. *)
Definition pending_ok (p : gset Mac) (t : TransactionTracker) (ds : gmap Mac DestinationState)
    : Prop :=
  forall mac, mac ∈ p ->
    scopes t (Some mac) = None /\ exists d, ds !! mac = Some d /\ announced d = true.

Definition phase (self : ModemSessionFsm) : Phase :=
  match state self with
  | Listening => Idle
  | AwaitingSessionInit => Opening
  | InSession => Established
  | Terminating => Closing
  | Terminated => Done
  end.

Section ModemInv.
Context {crates : Crates}.

Record inv (self : ModemSessionFsm) : Prop := {
  inv_tx : tx_ok (tx self) (destinations self);
  inv_dests : dests_ok (destinations self);
  inv_pending : pending_ok (pending_link_requests self) (tx self) (destinations self);
  inv_peer : addrs_ok (peer_addresses self);
  inv_local : addrs_ok (local_addresses self);
  inv_heartbeat : state self = InSession -> heartbeat_ok (peer_heartbeat_interval self);
}.

Lemma modem_inv_initial c : inv (with_config c).
Proof. split; cbn; try done; apply addrs_ok_default. Qed.

(** ** Tracker and destinations *)

Lemma modem_tx_ok_session ds t t' :
  tx_ok t ds -> per_destination t' = per_destination t ->
  (forall k, scopes t' None = Some k -> k = RSessionUpdate) -> tx_ok t' ds.
Proof. intros [_ Hd] Hp Hs. split; [done|]. intros mac k. cbn. rewrite Hp. apply Hd. Qed.

Lemma pending_ok_session p t t' ds :
  pending_ok p t ds -> per_destination t' = per_destination t -> pending_ok p t' ds.
Proof. intros H Hp mac Hm. cbn. rewrite Hp. by apply H. Qed.

(** Replacing a destination by one with the same announcement. *)
Lemma tx_ok_update t ds mac d d' :
  ds !! mac = Some d -> announced d' = announced d -> tx_ok t ds -> tx_ok t (<[mac := d']> ds).
Proof.
  intros Hd Ha [Hs Ht]. split; [done|]. intros m k Hk. destruct (Ht m k Hk) as (d0 & Hd0 & Hc).
  destruct (decide (m = mac)) as [->|Hne].
  - rewrite lookup_insert_eq. exists d'. split; [done|]. rewrite Ha. by simplify_eq.
  - rewrite lookup_insert_ne by done. eauto.
Qed.

Lemma pending_ok_update p t ds mac d d' :
  ds !! mac = Some d -> (announced d = true -> announced d' = true) ->
  pending_ok p t ds -> pending_ok p t (<[mac := d']> ds).
Proof.
  intros Hd Ha H m Hm. destruct (H m Hm) as (Hs & d0 & Hd0 & Hc). split; [done|].
  destruct (decide (m = mac)) as [->|Hne].
  - rewrite lookup_insert_eq. exists d'. split; [done|]. apply Ha. by simplify_eq.
  - rewrite lookup_insert_ne by done. eauto.
Qed.

(** Replacing a destination whose scope is idle. *)
Lemma tx_ok_idle t ds mac d' :
  scopes t (Some mac) = None -> tx_ok t ds -> tx_ok t (<[mac := d']> ds).
Proof.
  intros Hi [Hs Ht]. split; [done|]. intros m k Hk. destruct (decide (m = mac)) as [->|Hne].
  - congruence.
  - rewrite lookup_insert_ne by done. by apply Ht.
Qed.

Lemma pending_ok_fresh p t ds mac d' :
  mac ∉ p -> pending_ok p t ds -> pending_ok p t (<[mac := d']> ds).
Proof.
  intros Hn H m Hm. destruct (H m Hm) as (Hs & d0 & Hd0 & Hc). split; [done|].
  rewrite lookup_insert_ne by set_solver. eauto.
Qed.

Lemma modem_tx_ok_delete t ds mac : scopes t (Some mac) = None -> tx_ok t ds -> tx_ok t (delete mac ds).
Proof.
  intros Hi [Hs Ht]. split; [done|]. intros m k Hk. destruct (decide (m = mac)) as [->|Hne].
  - congruence.
  - rewrite lookup_delete_ne by done. by apply Ht.
Qed.

Lemma pending_ok_delete p t ds mac : mac ∉ p -> pending_ok p t ds -> pending_ok p t (delete mac ds).
Proof.
  intros Hn H m Hm. destruct (H m Hm) as (Hs & d0 & Hd0 & Hc). split; [done|].
  rewrite lookup_delete_ne by set_solver. eauto.
Qed.

Lemma close_idle t mac : scopes (close_destination mac t).2 (Some mac) = None.
Proof. cbn. by rewrite lookup_delete_eq. Qed.

Lemma modem_tx_ok_close t ds mac : tx_ok t ds -> tx_ok (close_destination mac t).2 ds.
Proof.
  intros [Hs Ht]. split; [done|]. intros m k Hk. destruct (decide (m = mac)) as [->|Hne].
  - by rewrite close_idle in Hk.
  - cbn in Hk. rewrite lookup_delete_ne in Hk by done. by apply Ht.
Qed.

Lemma pending_ok_close p t ds mac : pending_ok p t ds -> pending_ok p (close_destination mac t).2 ds.
Proof.
  intros H m Hm. destruct (H m Hm) as [Hs Hd]. split; [|done].
  destruct (decide (m = mac)) as [->|Hne]; [apply close_idle|]. cbn. by rewrite lookup_delete_ne.
Qed.

(** Opening a request on a destination. *)
Lemma modem_tx_ok_open t ds mac k d :
  tx_ok t ds -> ds !! mac = Some d ->
  (k = RDestinationUp /\ announced d = false) \/ (k = RDestinationDown /\ announced d = true) ->
  tx_ok (mkTracker (session_pending t) (<[mac := mkPending k]> (per_destination t))) ds.
Proof.
  intros [Hs Ht] Hd Hk. split; [done|]. intros m k'. cbn. destruct (decide (m = mac)) as [->|Hne].
  - rewrite lookup_insert_eq. cbn. intros [= <-]. eauto.
  - rewrite lookup_insert_ne by done. apply Ht.
Qed.

Lemma pending_ok_open p t ds mac k :
  mac ∉ p -> pending_ok p t ds ->
  pending_ok p (mkTracker (session_pending t) (<[mac := mkPending k]> (per_destination t))) ds.
Proof.
  intros Hn H m Hm. destruct (H m Hm) as [Hs Hd]. split; [|done]. cbn.
  by rewrite lookup_insert_ne by set_solver.
Qed.

Lemma open_destination_idle mac k t :
  scopes t (Some mac) = None ->
  open_destination mac k t
  = (Ok tt, mkTracker (session_pending t) (<[mac := mkPending k]> (per_destination t))).
Proof. cbn. unfold open_destination. by destruct (per_destination t !! mac). Qed.

Lemma busy_idle t mac : destination_busy t mac = false <-> scopes t (Some mac) = None.
Proof. unfold destination_busy. cbn. by destruct (per_destination t !! mac). Qed.

Lemma modem_dests_ok_insert ds mac d : dests_ok ds -> dest_ok d -> dests_ok (<[mac := d]> ds).
Proof. intros H Hd m d0 [[<- <-]|[_ Hm]]%lookup_insert_Some; [done|by eapply H]. Qed.

Lemma modem_dests_ok_delete ds mac : dests_ok ds -> dests_ok (delete mac ds).
Proof. intros H m d [_ Hm]%lookup_delete_Some. by eapply H. Qed.

Lemma dest_ok_unannounced p m a b :
  addrs_ok a -> addrs_ok b -> dest_ok (mkDestination false p m a b).
Proof. done. Qed.

Lemma dest_ok_announced m a b :
  addrs_ok a -> addrs_ok b -> addrs_equiv b a -> dest_ok (mkDestination true false m a b).
Proof. done. Qed.

(** A pending request keeps the scope idle, an idle scope without one is free. *)
Lemma pending_not_busy p t ds mac k : pending_ok p t ds -> scopes t (Some mac) = Some k -> mac ∉ p.
Proof. intros H Hk Hm. destruct (H mac Hm) as [Hs _]. congruence. Qed.

(** ** Steps *)

(** A step that succeeds, keeps the invariant and is a step of the lifecycle. *)
Definition sound (t : option TimerKind) (self : ModemSessionFsm) (r : result) : Prop :=
  exists s' acts, r = Ok (s', acts) /\ inv s'
    /\ life_step t (phase self) (effects acts) (phase s').

Lemma modem_sound_quiet t self s' acts :
  inv s' -> state s' = state self -> effects acts = [] -> deadline (phase self) t = false ->
  sound t self (mret (s', acts)).
Proof.
  intros Hi Hs He Hd. exists s', acts. split; [done|]. split; [done|]. rewrite He.
  replace (phase s') with (phase self) by (unfold phase; by rewrite Hs). by constructor.
Qed.

Lemma modem_sound_alive self s' s1 acts :
  inv s' -> state self = InSession -> state s' = InSession -> effects acts = [] ->
  peer_heartbeat_interval s1 = peer_heartbeat_interval s' ->
  sound None self (mret (s', acts ++ heartbeat_reset s1)).
Proof.
  intros Hi Hs Hs' He Hp. exists s'. eexists. split; [done|]. split; [done|].
  destruct (inv_heartbeat _ Hi Hs') as [d Hd]. unfold heartbeat_reset. rewrite Hp, Hd, effects_app, He.
  unfold phase. rewrite Hs, Hs'. constructor.
Qed.

Lemma modem_inv_set_state st self : inv self -> st <> InSession -> inv (set_state st self).
Proof. intros [] Hst. by split. Qed.

Lemma modem_inv_set_reason r self : inv self -> inv (set_termination_reason r self).
Proof. intros []. by split. Qed.

Lemma modem_sound_error code text self : inv self -> sound None self (protocol_error (Status code text) self).
Proof.
  intros Hi. unfold protocol_error. destruct (state self) eqn:Hs.
  3:{ eexists _, _. split; [done|]. split; [by apply modem_inv_set_reason, modem_inv_set_state|].
      unfold phase at 1. rewrite Hs. by apply life_error. }
  - eexists _, _. split; [done|]. split; [by apply modem_inv_set_reason, modem_inv_set_state|].
    unfold phase at 1. rewrite Hs. by apply life_error.
  - eexists _, _. split; [done|]. split; [by apply modem_inv_set_state|].
    unfold phase at 1. rewrite Hs. apply life_refuse.
  - by apply modem_sound_quiet.
  - by apply modem_sound_quiet.
Qed.

(** ** What the checks establish *)

Lemma modem_check_message_Ok self msg :
  check_message self msg = Ok tt ->
  let initializing := bool_decide (state self = AwaitingSessionInit) in
  validate_message msg false initializing (advertised_extensions (config self)) = Ok tt
  /\ (initializing || (message_type msg =? MessageType.SESSION_UPDATE) = true ->
      exists a, apply_strict (from_message msg) (peer_addresses self) = (Ok tt, a))
  /\ (initializing = false ->
      validate_transaction msg (tx self)
        match extract_destination_mac msg with
        | Some mac => match destinations self !! mac with Some d => announced d | None => false end
        | None => false
        end = Ok tt
      /\ (forall mac, extract_destination_mac msg = Some mac ->
          message_type msg = MessageType.DESTINATION_DOWN
          \/ message_type msg = MessageType.LINK_CHARACTERISTICS_REQUEST ->
          mac ∉ pending_link_requests self)).
Proof.
  unfold check_message. cbv zeta. set (init := bool_decide (state self = AwaitingSessionInit)).
  destruct (validate_message msg false init _) as [[]| |]; cbn; [|done|done].
  destruct (validate_mac_format msg _) as [[]| |]; cbn; [|done|done].
  intros H. split; [done|].
  set (addr := if init || (message_type msg =? MessageType.SESSION_UPDATE)
               then (apply_strict (from_message msg) (peer_addresses self)).1 else Ok tt) in H.
  assert (Haddr : addr = Ok tt) by (by destruct addr as [[]| |]). rewrite Haddr in H. cbn in H.
  split.
  { intros Ha. unfold addr in Haddr. rewrite Ha in Haddr.
    destruct (apply_strict _ _) as [r a]. cbn in Haddr. subst r. eauto. }
  intros Hi. rewrite Hi in H. destruct (extract_destination_mac msg) as [mac|]; [|done].
  destruct (decide (mac ∈ pending_link_requests self)) as [Hp|Hp].
  - rewrite bool_decide_true in H by done. cbn in H.
    destruct (one_of _ _) eqn:Ho; [done|]. split; [done|]. intros ? [= <-] [Ht|Ht];
      rewrite Ht in Ho; by vm_compute in Ho.
  - rewrite bool_decide_false in H by done. split; [done|]. by intros ? [= <-] _.
Qed.

Lemma modem_check_message_no_panic self msg : check_message self msg <> Panic.
Proof.
  unfold check_message. set (init := bool_decide _).
  pose proof (validate_message_no_panic msg false init (advertised_extensions (config self))).
  destruct (validate_message _ _ _ _) as [[]| |]; cbn; [|done|congruence].
  pose proof (validate_mac_format_no_panic msg (mac_address_format (config self))).
  destruct (validate_mac_format _ _) as [[]| |]; cbn; [|done|congruence].
  destruct (init || _).
  - destruct (apply_strict_spec (from_message msg) (peer_addresses self)) as [(-> & _)|[-> _]];
      [|done]. cbn. destruct init; [done|].
    destruct (_ && _); [done|]. apply validate_transaction_no_panic.
  - cbn. destruct init; [done|]. destruct (_ && _); [done|]. apply validate_transaction_no_panic.
Qed.

(** The scope check of a command about a destination. *)
Lemma check_scope_mac self event info mac :
  destination info = Some mac -> check_scope self event info = Ok tt ->
  match event with
  | AppLinkCharacteristicsResponse _ _ _ _ => mac ∈ pending_link_requests self
  | AppDropDestination _ _ => mac ∉ pending_link_requests self /\ scopes (tx self) (Some mac) = None
  | AppUpdateMetrics _ _ | AppUpdateAddresses _ _ =>
      forall k, scopes (tx self) (Some mac) = Some k -> k = RDestinationUp
  | _ => scopes (tx self) (Some mac) = None
  end.
Proof.
  unfold check_scope. intros -> H. destruct (negb (accepts _ _)); [done|].
  cbn [scopes]. destruct (per_destination (tx self) !! mac) as [[k]|]; cbn in *.
  - destruct event; cbn in H; try done; try (by destruct (negb _); cbn in H);
      try (by destruct (bool_decide _); cbn in H);
      destruct (decide (k = RDestinationUp)) as [->|Hne]; try (by intros ? [= <-]);
      by rewrite bool_decide_false in H.
  - destruct event; cbn in H; try done.
    + case_bool_decide; [done|]. done.
    + case_bool_decide; [done|]. done.
Qed.

Lemma check_link_response_no_panic self mac status text m :
  is_Some (destinations self !! mac) -> check_link_response self mac status text m <> Panic.
Proof.
  intros [d Hd]. unfold check_link_response. destruct (StatusCode.terminates_session _); [done|].
  rewrite Hd. cbn [expect mbind outcome_bind].
  assert (Hk : forall e, (_ ← map_err (fun _ => InvalidInput)
      (Message_encode (build_link_characteristics_reply mac status text e)); @Ok CommandError _ tt)
    <> Panic).
  { intros e. pose proof (Message_encode_no_panic (build_link_characteristics_reply mac status text e)).
    by destruct (Message_encode _). }
  destruct m; [destruct (negb _); [done|]|]; apply Hk.
Qed.

Lemma check_add_no_panic self mac m a : check_add self mac m a <> Panic.
Proof.
  unfold check_add. destruct (is_some _); [done|]. destruct (negb _); [done|].
  pose proof (validate_no_panic (mkChanges a DestinationAddrs_default)).
  destruct (validate _); cbn [map_err mbind outcome_bind]; [|done|congruence].
  match goal with |- context [Message_encode ?x] => pose proof (Message_encode_no_panic x) end.
  by destruct (Message_encode _).
Qed.

Lemma check_update_addresses_no_panic self mac c : check_update_addresses self mac c <> Panic.
Proof.
  unfold check_update_addresses. destruct (destinations self !! mac); [|done].
  pose proof (validate_no_panic c).
  destruct (validate _); cbn [map_err mbind outcome_bind]; [|done|congruence].
  match goal with |- context [Message_encode ?x] => pose proof (Message_encode_no_panic x) end.
  by destruct (Message_encode _).
Qed.

Lemma check_scope_no_panic self event info : check_scope self event info <> Panic.
Proof.
  unfold check_scope. destruct (destination info) as [mac|]; [|by destruct (session_busy _)].
  destruct (negb _); [done|].
  destruct (match event with AppLinkCharacteristicsResponse _ _ _ _ => _ | _ => _ end) as [[]| |] eqn:E;
    cbn [mbind outcome_bind]; [|done|].
  - clear E. destruct (per_destination _ !! mac); [|done]. cbv zeta. by destruct (negb _).
  - destruct event; try done; by destruct (bool_decide _).
Qed.

Lemma modem_check_command_cases self event info :
  inv self -> command event = Some info ->
  check_command self event <> Panic
  /\ (check_command self event = Ok tt ->
      state self = InSession
      /\ match event with
         | AppAddDestination mac _ a =>
             scopes (tx self) (Some mac) = None /\ destinations self !! mac = None
             /\ validate (mkChanges a DestinationAddrs_default) = Ok tt
         | AppDropDestination mac _ =>
             mac ∉ pending_link_requests self /\ scopes (tx self) (Some mac) = None
             /\ is_Some (destinations self !! mac)
         | AppUpdateMetrics mac _ | AppUpdateAddresses mac _ =>
             (forall k, scopes (tx self) (Some mac) = Some k -> k = RDestinationUp)
             /\ is_Some (destinations self !! mac)
         | AppSessionUpdate _ => session_busy (tx self) = false
         | AppLinkCharacteristicsResponse mac _ _ _ => mac ∈ pending_link_requests self
         | AppSessionAddresses _ => True
         | _ => False
         end).
Proof.
  intros Hi Hc. unfold check_command. destruct (decide (state self = InSession)) as [Hs|Hs];
    [rewrite bool_decide_true by done|by rewrite bool_decide_false].
  rewrite Hc. cbn [negb expect mbind outcome_bind].
  pose proof (check_scope_no_panic self event info) as Hn.
  destruct event; try done; cbn [mbind outcome_bind];
    destruct (check_scope self _ info) as [[]|e|] eqn:Hsc; cbn [mbind outcome_bind]; try done;
    injection Hc as <-; 
    try (pose proof Hsc as Hm; apply (check_scope_mac _ _ _ mac) in Hm; [|done]; cbn in Hm).
  - split; [apply check_add_no_panic|]. unfold check_add.
    destruct (destinations self !! mac) eqn:Hd; cbn [is_some is_none negb]; [done|].
    destruct (negb _); [done|]. by destruct (validate _) as [[]| |].
  - destruct (destinations self !! mac) eqn:Hd; [|done]. cbn. destruct Hm. eauto 10.
  - destruct (destinations self !! mac) eqn:Hd; [|done]. cbn. destruct (negb _); [done|]. eauto 10.
  - split; [apply check_update_addresses_no_panic|]. unfold check_update_addresses.
    destruct (destinations self !! mac) eqn:Hd; [|done]. eauto 10.
  - split; [apply validate_local_no_panic|done].
  - unfold check_scope in Hsc. cbn in Hsc. destruct (session_busy (tx self)); [done|].
    destruct (negb _); done.
  - destruct (inv_pending _ Hi mac Hm) as (_ & d & Hd & _).
    split; [apply check_link_response_no_panic; eauto|done].
Qed.

(** ** Destinations *)

(** The invariant after a change of one destination, its scope and the rest kept. *)
Lemma inv_put self mac d d' :
  inv self ->
  destinations self !! mac = Some d -> announced d' = announced d -> dest_ok d' ->
  inv (put_destination mac d' self).
Proof.
  intros Hinv Hd Ha Hok. destruct Hinv. split; cbn; try done.
  - by eapply tx_ok_update.
  - by apply modem_dests_ok_insert.
  - eapply pending_ok_update; [done| |done]. congruence.
Qed.

Lemma addrs_equiv_between a b :
  AddressChanges_is_empty (between a b) = true -> addrs_equiv a b.
Proof.
  assert (Hnil : forall d, DestinationAddrs_is_empty d = true -> forall e, ~ has d e).
  { intros [w x y z] H e. unfold DestinationAddrs_is_empty in H. cbn in H.
    destruct w, x, y, z; try done. destruct e; cbn; set_solver. }
  unfold AddressChanges_is_empty. rewrite andb_true_iff. intros [Ha Hr] e. cbn in *.
  pose proof (Hnil _ Ha e) as H1. pose proof (Hnil _ Hr e) as H2. rewrite has_difference in H1, H2.
  destruct (decide (has a e)), (decide (has b e)); tauto.
Qed.

Lemma release_updates_ok mac d :
  dest_ok d ->
  announced (release_updates mac d).1 = true /\ dest_ok (release_updates mac d).1
  /\ effects (release_updates mac d).2 = [].
Proof.
  intros (Ha & Had & _). unfold release_updates.
  assert (Hsent : dest_ok (mkDestination true false (metrics d) (addrs d) (addrs d)))
    by by apply dest_ok_announced.
  destruct (pending_metrics d) eqn:Hp; cbn [orb]; [done|].
  destruct (AddressChanges_is_empty _) eqn:He; cbn [negb]; [|done].
  split; [done|]. split; [|done]. by apply dest_ok_announced; [| |apply addrs_equiv_between].
Qed.

(** ** Received messages *)

Section Message.
Context (msg : Message) (self : ModemSessionFsm).
Hypothesis Hinv : inv self.
Hypothesis Hstate : state self = InSession.
Hypothesis Hcheck : check_message self msg = Ok tt.

Lemma modem_in_session_valid :
  validate_message msg false false (advertised_extensions (config self)) = Ok tt.
Proof. destruct (modem_check_message_Ok _ _ Hcheck) as [H _]. by rewrite Hstate in H. Qed.

Lemma modem_in_session_mac :
  DataItemType.MAC_ADDRESS ∈ required_items (message_type msg) ->
  exists mac, extract_destination_mac msg = Some mac.
Proof. apply (validated_mac _ _ _ _ modem_in_session_valid). Qed.

Lemma modem_in_session_transaction :
  validate_transaction msg (tx self)
    match extract_destination_mac msg with
    | Some mac => match destinations self !! mac with Some d => announced d | None => false end
    | None => false
    end = Ok tt.
Proof. destruct (modem_check_message_Ok _ _ Hcheck) as (_ & _ & H). apply H. by rewrite Hstate. Qed.

Lemma in_session_not_pending mac :
  extract_destination_mac msg = Some mac ->
  message_type msg = MessageType.DESTINATION_DOWN
  \/ message_type msg = MessageType.LINK_CHARACTERISTICS_REQUEST ->
  mac ∉ pending_link_requests self.
Proof.
  destruct (modem_check_message_Ok _ _ Hcheck) as (_ & _ & H). apply H. by rewrite Hstate.
Qed.

(** The transaction check of the requests a router makes about a destination. *)
Lemma in_session_announced mac :
  extract_destination_mac msg = Some mac ->
  message_type msg = MessageType.DESTINATION_DOWN
  \/ message_type msg = MessageType.LINK_CHARACTERISTICS_REQUEST ->
  scopes (tx self) (Some mac) = None
  /\ exists d, destinations self !! mac = Some d /\ announced d = true.
Proof.
  intros Hm Ht. pose proof modem_in_session_transaction as H. rewrite Hm in H. rewrite <-busy_idle.
  unfold validate_transaction in H. rewrite Hm in H.
  destruct Ht as [Ht|Ht]; rewrite Ht in H; cbn in H;
    (destruct (destination_busy (tx self) mac); [done|]);
    (destruct (destinations self !! mac) as [d|]; [|done]); destruct (announced d) eqn:Ha; try done; eauto.
Qed.

Lemma in_session_not_announced mac :
  extract_destination_mac msg = Some mac ->
  message_type msg = MessageType.DESTINATION_ANNOUNCE ->
  scopes (tx self) (Some mac) = None
  /\ forall d, destinations self !! mac = Some d -> announced d = false.
Proof.
  intros Hm Ht. pose proof modem_in_session_transaction as H. rewrite Hm in H. rewrite <-busy_idle.
  unfold validate_transaction in H. rewrite Hm, Ht in H. cbn in H.
  destruct (destination_busy (tx self) mac); [done|].
  destruct (destinations self !! mac) as [d|]; [|done]. destruct (announced d) eqn:Ha; [done|].
  split; [done|]. by intros ? [= <-].
Qed.

Lemma sound_destination_up_response :
  message_type msg = MessageType.DESTINATION_UP_RESPONSE ->
  sound None self (on_destination_up_response msg self).
Proof.
  intros Ht. destruct modem_in_session_mac as [mac Hm]; [rewrite Ht; left|].
  pose proof (transaction_response _ _ _ _ RDestinationUp modem_in_session_transaction Hm
    ltac:(by rewrite Ht)) as Hk.
  destruct Hinv as [Htx Hdests Hpend ? ? ?].
  destruct (proj2 Htx _ _ Hk) as (d & Hd & Hann). destruct Hann as [[_ Hann]|[? _]]; [|done].
  pose proof (pending_not_busy _ _ _ _ _ Hpend Hk) as Hnp.
  unfold on_destination_up_response. rewrite Hm. cbn [destinations set_tx]. rewrite Hd.
  assert (Hput : forall d', dest_ok d' ->
    inv (put_destination mac d' (set_tx (close_destination mac (tx self)).2 self))).
  { intros d' Hok. split; cbn; try done.
    - apply (tx_ok_idle (close_destination mac (tx self)).2);
        [apply close_idle|by apply modem_tx_ok_close].
    - by apply modem_dests_ok_insert.
    - by apply pending_ok_fresh, pending_ok_close. }
  destruct (_ =? _).
  - destruct (release_updates_ok mac d (Hdests _ _ Hd)) as (_ & Hok & He).
    destruct (release_updates mac d) as [d' acts]. by apply modem_sound_alive; [apply Hput|..].
  - apply (modem_sound_alive _ _ _ []); try done. apply Hput. destruct (Hdests _ _ Hd) as (? & ? & _).
    by apply dest_ok_unannounced.
Qed.

Lemma modem_sound_destination_down :
  message_type msg = MessageType.DESTINATION_DOWN -> sound None self (on_destination_down msg self).
Proof.
  intros Ht. destruct modem_in_session_mac as [mac Hm]; [rewrite Ht; left|].
  destruct (in_session_announced mac Hm (or_introl Ht)) as (Hidle & d & Hd & _).
  pose proof (in_session_not_pending mac Hm (or_introl Ht)) as Hnp.
  unfold on_destination_down. rewrite Hm. cbn [expect mbind outcome_bind]. rewrite Hd.
  cbn [expect mbind outcome_bind]. apply modem_sound_alive; try done.
  destruct Hinv as [? Hdests ? ? ? ?]. destruct (Hdests _ _ Hd) as (? & ? & _).
  split; cbn; try done; [by apply tx_ok_idle| |by apply pending_ok_fresh].
  by apply modem_dests_ok_insert, dest_ok_unannounced.
Qed.

Lemma modem_sound_destination_down_response :
  message_type msg = MessageType.DESTINATION_DOWN_RESPONSE ->
  sound None self (on_destination_down_response msg self).
Proof.
  intros Ht. destruct modem_in_session_mac as [mac Hm]; [rewrite Ht; left|].
  pose proof (transaction_response _ _ _ _ RDestinationDown modem_in_session_transaction Hm
    ltac:(by rewrite Ht)) as Hk.
  pose proof (pending_not_busy _ _ _ _ _ (inv_pending _ Hinv) Hk) as Hnp.
  unfold on_destination_down_response. rewrite Hm.
  apply (modem_sound_alive _ _ _ []); try done. destruct Hinv. split; cbn; try done.
  - apply (modem_tx_ok_delete (close_destination mac (tx self)).2);
      [apply close_idle|by apply modem_tx_ok_close].
  - by apply modem_dests_ok_delete.
  - by apply pending_ok_delete, pending_ok_close.
Qed.

Lemma modem_sound_session_update :
  message_type msg = MessageType.SESSION_UPDATE -> sound None self (on_session_update msg self).
Proof.
  intros Ht. destruct (modem_check_message_Ok _ _ Hcheck) as (_ & Ha & _).
  destruct Ha as [a Ha]; [by rewrite Ht, orb_true_r|].
  unfold on_session_update. rewrite Ha.
  pose proof (apply_strict_ok _ _ _ Ha (inv_peer _ Hinv)) as Hok.
  rewrite app_assoc. apply modem_sound_alive; try done; [|by destruct (negb _)].
  destruct Hinv. by split.
Qed.

Lemma modem_sound_session_update_response : sound None self (on_session_update_response self).
Proof.
  apply (modem_sound_alive _ _ _ []); try done. destruct Hinv.
  split; cbn; try done. by eapply modem_tx_ok_session.
Qed.

Lemma sound_destination_announce :
  message_type msg = MessageType.DESTINATION_ANNOUNCE ->
  sound None self (on_destination_announce msg self).
Proof.
  intros Ht. destruct modem_in_session_mac as [mac Hm]; [rewrite Ht; left|].
  destruct (in_session_not_announced mac Hm Ht) as [Hidle Hann].
  unfold on_destination_announce. rewrite Hm. cbn [expect mbind outcome_bind].
  destruct (destinations self !! mac) as [d|] eqn:Hd; [|by apply modem_sound_alive].
  apply modem_sound_alive; try done. destruct Hinv as [? Hdests Hpend ? ? ?].
  destruct (Hdests _ _ Hd) as (Ha & _ & _).
  split; cbn; try done; [by apply tx_ok_idle| |].
  - by apply modem_dests_ok_insert, dest_ok_announced.
  - eapply pending_ok_update; [done| |done]. done.
Qed.

Lemma sound_link_characteristics_request :
  message_type msg = MessageType.LINK_CHARACTERISTICS_REQUEST ->
  sound None self (on_link_characteristics_request msg self).
Proof.
  intros Ht. destruct modem_in_session_mac as [mac Hm]; [rewrite Ht; left|].
  destruct (in_session_announced mac Hm (or_intror Ht)) as (Hidle & d & Hd & Hann).
  unfold on_link_characteristics_request. rewrite Hm. cbn [expect mbind outcome_bind]. rewrite Hd.
  cbn [expect mbind outcome_bind].
  destruct (defer_link_characteristics _).
  - apply (modem_sound_alive _ _ _ ([] ++ [_])); try done. destruct Hinv as [? ? Hpend ? ? ?].
    split; cbn; try done. intros m [->%elem_of_singleton|Hin]%elem_of_union; [eauto|by apply Hpend].
  - rewrite app_assoc. by apply modem_sound_alive.
Qed.

Lemma modem_sound_in_session_message : sound None self (in_session_message msg self).
Proof.
  unfold in_session_message.
  destruct (Z.eqb_spec (message_type msg) MessageType.SESSION_TERMINATION).
  { eexists _, _. split; [done|]. split; [by apply modem_inv_set_state|].
    unfold phase at 1. rewrite Hstate. constructor. }
  destruct (Z.eqb_spec (message_type msg) MessageType.DESTINATION_UP_RESPONSE);
    [by apply sound_destination_up_response|].
  destruct (Z.eqb_spec (message_type msg) MessageType.DESTINATION_DOWN);
    [by apply modem_sound_destination_down|].
  destruct (Z.eqb_spec (message_type msg) MessageType.DESTINATION_DOWN_RESPONSE);
    [by apply modem_sound_destination_down_response|].
  destruct (Z.eqb_spec (message_type msg) MessageType.SESSION_UPDATE);
    [by apply modem_sound_session_update|].
  destruct (Z.eqb_spec (message_type msg) MessageType.SESSION_UPDATE_RESPONSE);
    [apply modem_sound_session_update_response|].
  destruct (Z.eqb_spec (message_type msg) MessageType.DESTINATION_ANNOUNCE);
    [by apply sound_destination_announce|].
  destruct (Z.eqb_spec (message_type msg) MessageType.LINK_CHARACTERISTICS_REQUEST);
    [by apply sound_link_characteristics_request|].
  destruct (_ =? MessageType.HEARTBEAT); [by apply (modem_sound_alive _ _ _ [])|by apply modem_sound_error].
Qed.

End Message.

(** ** Initialization, commands, and the whole step *)

Lemma sound_session_initialization msg self :
  inv self -> state self = AwaitingSessionInit -> check_message self msg = Ok tt ->
  message_type msg = MessageType.SESSION_INITIALIZATION ->
  sound None self (on_session_initialization msg self).
Proof.
  intros Hi Hs Hc Ht. destruct (modem_check_message_Ok _ _ Hc) as (Hv & Ha & _).
  rewrite Hs in Hv, Ha. destruct (Ha eq_refl) as [a Hap].
  destruct (validated_heartbeat _ _ _ _ Hv) as [d Hd]; [rewrite Ht; right; left|].
  eexists _, _. split; [reflexivity|]. split.
  - destruct Hi. split; cbn; try done; [by eapply apply_strict_added|]. intros _. by exists d.
  - unfold heartbeat_reset. cbn [peer_heartbeat_interval set_state set_peer_extensions
      set_peer_heartbeat_interval]. rewrite Hd. unfold phase at 1. rewrite Hs.
    rewrite !effects_app. destruct (negb _); apply life_establish.
Qed.

Lemma modem_sound_init_other self :
  inv self -> state self = AwaitingSessionInit -> sound None self (on_init_other self).
Proof.
  intros Hi Hs. eexists _, _. split; [done|]. split; [by apply modem_inv_set_state|].
  unfold phase at 1. rewrite Hs. apply life_refuse.
Qed.

Lemma sound_add_destination self mac m a :
  inv self -> state self = InSession -> scopes (tx self) (Some mac) = None ->
  destinations self !! mac = None -> validate (mkChanges a DestinationAddrs_default) = Ok tt ->
  sound None self (on_app_add_destination mac m a self).
Proof.
  intros Hi Hs Hidle Hd Hv. unfold on_app_add_destination.
  rewrite open_destination_idle by done. apply modem_sound_quiet; [|done|done|done].
  assert (Hok : addrs_ok (addrs_canonical (addrs_canonical a))).
  { destruct (validate_spec (mkChanges a DestinationAddrs_default)) as [[_ Hu]|[? _]]; [|congruence].
    replace (addrs_canonical (addrs_canonical a)) with (addrs_canonical a)
      by (symmetry; apply canonical_has, addrs_canonical_has).
    split; [apply Hu|]. apply canonical_has, addrs_canonical_has. }
  assert (Hnp : mac ∉ pending_link_requests self).
  { intros Hin. destruct (inv_pending _ Hi mac Hin) as (_ & d & Hd' & _). congruence. }
  destruct Hi. split; cbn; try done.
  - eapply modem_tx_ok_open; [by apply tx_ok_idle|apply lookup_insert_eq|by left].
  - by apply modem_dests_ok_insert, dest_ok_unannounced.
  - by apply pending_ok_open, pending_ok_fresh.
Qed.

(** A destination announced to the router has no update waiting. *)
Lemma announced_idle self mac d :
  inv self -> destinations self !! mac = Some d ->
  (forall k, scopes (tx self) (Some mac) = Some k -> k = RDestinationUp) ->
  announced d = true -> destination_busy (tx self) mac = false.
Proof.
  intros Hi Hd Hk Ha. apply busy_idle. destruct (scopes (tx self) (Some mac)) as [k|] eqn:Hs; [|done].
  destruct (proj2 (inv_tx _ Hi) _ _ Hs) as (d' & Hd' & Hc). simplify_eq.
  rewrite (Hk k eq_refl) in Hc. destruct Hc as [[_ ?]|[? _]]; congruence.
Qed.

Lemma sound_update_metrics self mac m :
  inv self -> state self = InSession -> is_Some (destinations self !! mac) ->
  (forall k, scopes (tx self) (Some mac) = Some k -> k = RDestinationUp) ->
  sound None self (on_app_update_metrics mac m self).
Proof.
  intros Hi Hs [d Hd] Hk. unfold on_app_update_metrics. rewrite Hd. cbn [expect mbind outcome_bind].
  destruct (inv_dests _ Hi _ _ Hd) as (Ha & Hb & Hc). pose proof (announced_idle _ _ _ Hi Hd Hk) as Hidle.
  destruct (announced d) eqn:Han; cbn [negb orb].
  - rewrite Hidle by done. destruct (Hc eq_refl) as [-> He]. apply modem_sound_quiet; try done.
    eapply inv_put; [done|done|by rewrite Han|by apply dest_ok_announced].
  - apply modem_sound_quiet; try done. eapply inv_put; [done|done|by rewrite Han|by apply dest_ok_unannounced].
Qed.

Lemma sound_update_addresses self mac c :
  inv self -> state self = InSession -> is_Some (destinations self !! mac) ->
  (forall k, scopes (tx self) (Some mac) = Some k -> k = RDestinationUp) ->
  sound None self (on_app_update_addresses mac c self).
Proof.
  intros Hi Hs [d Hd] Hk. unfold on_app_update_addresses. rewrite Hd. cbn [expect mbind outcome_bind].
  destruct (inv_dests _ Hi _ _ Hd) as (Ha & Hb & Hc). pose proof (announced_idle _ _ _ Hi Hd Hk) as Hidle.
  pose proof (apply_lenient_ok c _ Ha) as Ha'.
  cbn [announced pending_metrics metrics addrs advertised_addrs].
  destruct (announced d) eqn:Han; cbn [negb orb].
  - rewrite Hidle by done. destruct (Hc eq_refl) as [-> _].
    destruct (AddressChanges_is_empty _) eqn:He; (apply modem_sound_quiet; try done);
      (eapply inv_put; [done|done|by rewrite Han|]); apply dest_ok_announced; try done.
    by apply addrs_equiv_between.
  - apply modem_sound_quiet; try done. eapply inv_put; [done|done|by rewrite Han|by apply dest_ok_unannounced].
Qed.

Lemma sound_drop_destination self mac r :
  inv self -> state self = InSession -> mac ∉ pending_link_requests self ->
  scopes (tx self) (Some mac) = None -> is_Some (destinations self !! mac) ->
  sound None self (on_app_drop_destination mac r self).
Proof.
  intros Hi Hs Hnp Hidle [d Hd]. unfold on_app_drop_destination. rewrite Hd.
  cbn [expect mbind outcome_bind]. rewrite (proj2 (busy_idle _ _) Hidle).
  destruct (announced d) eqn:Ha; cbn [negb andb].
  - rewrite open_destination_idle by done. apply modem_sound_quiet; try done. destruct Hi.
    split; cbn; try done; [|by apply pending_ok_open]. eapply modem_tx_ok_open; [done|done|by right].
  - apply modem_sound_quiet; try done. destruct Hi.
    split; cbn; try done; [by apply modem_tx_ok_delete|by apply modem_dests_ok_delete|by apply pending_ok_delete].
Qed.

Lemma sound_link_response self mac status text m :
  inv self -> state self = InSession -> mac ∈ pending_link_requests self ->
  sound None self (on_app_link_response mac status text m self).
Proof.
  intros Hi Hs Hin. destruct (inv_pending _ Hi mac Hin) as (Hidle & d & Hd & Ha).
  unfold on_app_link_response. cbn [destinations set_pending_link_requests]. rewrite Hd.
  cbn [expect mbind outcome_bind]. apply modem_sound_quiet; try done.
  destruct Hi as [? Hdests Hpend ? ? ?]. destruct (Hdests _ _ Hd) as (Ha' & Hb & Hc).
  destruct (Hc Ha) as [Hp He]. rewrite Ha, Hp.
  split; cbn; try done; [by apply tx_ok_idle|by apply modem_dests_ok_insert, dest_ok_announced|].
  eapply pending_ok_update; [done|done|]. intros x Hx. apply Hpend. set_solver.
Qed.

Lemma sound_session_metrics self m :
  inv self -> state self = InSession -> session_busy (tx self) = false ->
  sound None self (on_app_session_update m self).
Proof.
  intros Hi Hs Hb. unfold on_app_session_update. rewrite session_busy_open by done.
  apply modem_sound_quiet; try done. destruct Hi as [[Ht1 Ht2] Hdests Hpend ? ? ?]. split; cbn; try done.
  - split; [by intros k [= <-]|]. intros mac k Hk. destruct (Ht2 mac k Hk) as (d & Hd & Hc).
    rewrite lookup_fmap, Hd. eexists. split; [done|exact Hc].
  - intros mac d. rewrite lookup_fmap. intros (d0 & Hd0 & ->)%fmap_Some.
    destruct (Hdests _ _ Hd0) as (Ha & Hb' & Hc). split; [done|]. by split.
  - intros mac Hm. destruct (Hpend mac Hm) as (Hi & d & Hd & Ha). split; [done|].
    rewrite lookup_fmap, Hd. by eexists.
Qed.

Lemma modem_apply_local_ok changes t local acts t' local' :
  apply_local_address_update changes t local = Ok (acts, t', local') ->
  addrs_ok local ->
  per_destination t' = per_destination t
  /\ (scopes t' None = scopes t None \/ scopes t' None = Some RSessionUpdate)
  /\ addrs_ok local' /\ effects acts = [].
Proof.
  unfold apply_local_address_update. intros H Hl.
  destruct (session_busy t) eqn:Hb; [injection H as <- <- <-; auto|].
  destruct (validate_local_address_update local changes); [| |done]; [|injection H as <- <- <-; auto].
  destruct (AddressChanges_is_empty _); [injection H as <- <- <-; auto|].
  rewrite session_busy_open in H by done. injection H as <- <- <-.
  split; [done|]. split; [by right|]. split; [by apply apply_lenient_ok|done].
Qed.

Lemma modem_sound_session_addresses self changes :
  inv self -> state self = InSession -> sound None self (on_app_session_addresses changes self).
Proof.
  intros Hi Hs. unfold on_app_session_addresses.
  pose proof (apply_local_no_panic changes (tx self) (local_addresses self)) as Hp.
  destruct (apply_local_address_update _ _ _) as [[[acts t'] local']|[]|] eqn:Ha; [|done].
  cbn [mbind outcome_bind].
  destruct (modem_apply_local_ok _ _ _ _ _ _ Ha (inv_local _ Hi)) as (Hpd & Hse & Hl & He).
  apply modem_sound_quiet; try done. destruct Hi as [Htx ? ? ? ? ?]. split; cbn; try done.
  - eapply modem_tx_ok_session; [done|done|]. destruct Hse as [-> | ->]; [apply Htx|by intros k [= <-]].
  - by eapply pending_ok_session.
Qed.

(** Every arm that a command cannot reach and that needs no checked message. *)
Lemma modem_sound_dispatch_event event self :
  inv self -> command event = None -> (forall msg, event <> RecvMessage msg) ->
  sound (tick event) self (dispatch event self).
Proof.
  intros Hi Hc Hm. unfold dispatch.
  assert (Hq : deadline (phase self) (tick event) = false -> sound (tick event) self (mret (self, [])))
    by (intros; by apply modem_sound_quiet).
  assert (Hend : forall st acts, st <> InSession ->
    life_step (tick event) (phase self) (effects acts) (phase (set_state st self)) ->
    sound (tick event) self (mret (set_state st self, acts)))
    by (intros st acts H1 H2; eexists _, _; split; [done|]; split; [by apply modem_inv_set_state|done]).
  assert (Hfin : forall r acts,
    life_step (tick event) (phase self) (effects acts) Closing ->
    sound (tick event) self (mret (set_state Terminating (set_termination_reason r self), acts)))
    by (intros r acts H; eexists _, _; split; [done|]; split;
        [apply modem_inv_set_state; [by apply modem_inv_set_reason|done]|done]).
  unfold phase in *. destruct (state self) eqn:Hs; destruct event; try done;
    try (by destruct (Hm msg)); try (by apply Hq);
    try match goal with k : TimerKind |- _ => destruct k; try (by apply Hq) end;
    try (apply Hend; [done|by constructor]); try (apply Hfin; by constructor).
  - by apply (modem_sound_alive _ _ _ []).
  - by apply modem_sound_quiet; [|rewrite Hs| |unfold phase; rewrite Hs].
Qed.

Lemma modem_sound_dispatch_message msg self :
  inv self -> state self <> AwaitingSessionInit -> state self <> InSession ->
  sound None self (dispatch (RecvMessage msg) self).
Proof.
  intros Hi H1 H2. unfold dispatch. destruct (state self) eqn:Hs; try done;
    try (by apply modem_sound_quiet).
  destruct (_ =? _); [|by apply modem_sound_quiet].
  eexists _, _. split; [done|]. split; [by apply modem_inv_set_state|]. unfold phase at 1. rewrite Hs.
  constructor.
Qed.

Lemma modem_sound_accepted_message msg self :
  inv self -> sound None self (accepted (RecvMessage msg) self).
Proof.
  intros Hi. cbn [accepted]. unfold guard_message.
  assert (Hg : forall k, (check_message self msg = Ok tt -> sound None self k) ->
    sound None self
      match (if negb (message_type msg =? MessageType.SESSION_TERMINATION)
             then fatal_status msg else None) with
      | Some item => protocol_error item self
      | None => match check_message self msg with
                | Ok _ => k
                | Err code => protocol_error (Status code []) self
                | Panic => Panic
                end
      end).
  { intros k Hk. destruct (if negb _ then _ else _) as [i|] eqn:Hf.
    - destruct (negb _); [|done]. apply fatal_status_status in Hf as (c & t & ->). by apply modem_sound_error.
    - pose proof (modem_check_message_no_panic self msg) as Hn.
      destruct (check_message self msg) as [[]|c|]; [by apply Hk|by apply modem_sound_error|done]. }
  destruct (state self) eqn:Hs; try (apply modem_sound_dispatch_message; by rewrite ?Hs); apply Hg;
    intros Hc; unfold dispatch; rewrite Hs.
  - destruct (Z.eqb_spec (message_type msg) MessageType.SESSION_INITIALIZATION);
      [by apply sound_session_initialization|by apply modem_sound_init_other].
  - by apply modem_sound_in_session_message.
Qed.

(** Panic freedom, preservation of the invariant and refinement, together. *)
Lemma modem_step_sound event self : inv self -> sound (tick event) self (step event self).
Proof.
  intros Hi. unfold step. destruct (command event) as [info|] eqn:Hc.
  - assert (Ht : tick event = None) by (by destruct event). rewrite Ht.
    destruct (modem_check_command_cases self event info Hi Hc) as [Hn Hok].
    destruct (check_command self event) as [[]|r|]; [|by apply modem_sound_quiet|done].
    destruct (Hok eq_refl) as [Hs Hev]. unfold accepted, dispatch.
    destruct event; try done; rewrite Hs.
    + destruct Hev as (? & ? & ?). by apply sound_add_destination.
    + destruct Hev as (? & ? & ?). by apply sound_drop_destination.
    + destruct Hev. by apply sound_update_metrics.
    + destruct Hev. by apply sound_update_addresses.
    + by apply modem_sound_session_addresses.
    + by apply sound_session_metrics.
    + by apply sound_link_response.
  - destruct event; try done; try (by apply modem_sound_dispatch_event);
      [by apply modem_sound_accepted_message|by apply modem_sound_error].
Qed.

End ModemInv.
