(* ===== verification/Samples.v ===== *)
(** * Sample sessions

    Runs as a function, and concrete router and modem sessions reached by it: the
    inputs at which the theorems about sessions are instantiated. *)

From S2P Require Import Prelude Externs CoreTypes Codec CodecItem CodecMessage Addresses Events.
From S2P Require Import SessionCommon Validation SessionFacts SessionRouter SessionModem Lifecycle.
From S2P Require Import RouterInv ModemInv.
Import DataItem.

(** The run of a list of events none of which is an expiry. *)
Fixpoint exec {F} (step : FsmEvent -> F -> panics (F * list FsmAction)) (s : F) (es : list FsmEvent)
    : option (F * list FsmAction) :=
  match es with
  | [] => Some (s, [])
  | e :: es' =>
      match tick e, step e s with
      | None, Ok (s1, acts) =>
          match exec step s1 es' with
          | Some (s2, acts') => Some (s2, acts ++ acts')
          | None => None
          end
      | _, _ => None
      end
  end.

Section Exec.
Context `{Hfsm : SessionFsm F}.

Lemma turns_app c es acts c' es' acts' c'' :
  turns c es acts c' -> turns c' es' acts' c'' -> turns c (es ++ es') (acts ++ acts') c''.
Proof.
  intros H H'. induction H' as [|c0 c1 c2 es' e a a' _ IH Ht]; [by rewrite !app_nil_r|].
  rewrite !app_assoc. eapply turns_snoc; [by apply IH|exact Ht].
Qed.

Lemma turns_single c e acts c' : turn c e acts c' -> turns c [e] acts c'.
Proof. intros H. exact (turns_snoc _ _ _ [] e [] acts (turns_nil c) H). Qed.

Lemma exec_turns s armed es s' acts :
  exec fsm_step s es = Some (s', acts) -> exists armed', turns (s, armed) es acts (s', armed').
Proof.
  revert s armed acts. induction es as [|e es IH]; intros s armed acts; cbn [exec].
  { intros [= <- <-]. exists armed. constructor. }
  destruct (tick e) eqn:Ht; [done|]. destruct (fsm_step e s) as [[s1 a1]| |] eqn:He; [|done|done].
  destruct (exec fsm_step s1 es) as [[s2 a2]|] eqn:Hx; [|done]. intros [= <- <-].
  destruct (IH s1 (run_effects (tick e) armed (effects a1)) a2 Hx) as [armed' Hr].
  exists armed'. change (e :: es) with ([e] ++ es). eapply turns_app; [|exact Hr].
  apply turns_single. constructor; [by rewrite Ht|done].
Qed.

End Exec.

#[local] Existing Instance reference_crates.

Definition router_config : SessionConfig := SessionConfig_default.
Definition modem_config : SessionConfig :=
  mkConfig FormatEui48 (str "dlep-modem") sample_metrics 5000 (from_millis 5000) None [7] false.

Lemma router_config_ok : is_config router_config.
Proof. by split_and!; try constructor. Qed.
Lemma modem_config_ok : is_config modem_config.
Proof. split_and!; try done. apply Forall_singleton. done. Qed.

(** A router in session, and the same with a destination up. *)
Definition router_events : list FsmEvent :=
  [TcpConnected; RecvMessage (Modem.build_session_initialization_response modem_config)].
Definition up_event : FsmEvent :=
  RecvMessage (build_destination_up sample_mac sample_metrics (mkAddrs [167772161] [] [] [])).
Definition router_after (es : list FsmEvent) : Router.RouterSessionFsm :=
  match exec Router.step (Router.with_config router_config) es with
  | Some (s, _) => s
  | None => Router.with_config router_config
  end.
Definition router_acts (es : list FsmEvent) : list FsmAction :=
  match exec Router.step (Router.with_config router_config) es with Some (_, a) => a | None => [] end.
Definition sample_router : Router.RouterSessionFsm := router_after router_events.

(** A second destination, that claims the first one's address and another. *)
Definition second_mac : Mac := Eui48 [1; 2; 3; 4; 5; 7].
Definition second_event : FsmEvent :=
  RecvMessage (build_destination_up second_mac sample_metrics
                 (mkAddrs [167772161; 167772162] [] [] [])).

(** A modem in session, and the same with a destination its router confirmed. *)
Definition modem_events : list FsmEvent :=
  [TcpAccepted; RecvMessage (Router.build_session_initialization router_config)].
Definition add_events : list FsmEvent :=
  modem_events ++ [AppAddDestination sample_mac sample_metrics (mkAddrs [167772161] [] [] []);
                   RecvMessage (build_destination_up_response sample_mac StatusCode.SUCCESS)].
Definition modem_after (es : list FsmEvent) : Modem.ModemSessionFsm :=
  match exec Modem.step (Modem.with_config modem_config) es with
  | Some (s, _) => s
  | None => Modem.with_config modem_config
  end.
Definition modem_acts (es : list FsmEvent) : list FsmAction :=
  match exec Modem.step (Modem.with_config modem_config) es with Some (_, a) => a | None => [] end.
Definition sample_modem : Modem.ModemSessionFsm := modem_after modem_events.

Example sample_router_in_session : Router.state sample_router = Router.InSession.
Proof. vm_compute. reflexivity. Qed.
Example sample_modem_in_session : Modem.state sample_modem = Modem.InSession.
Proof. vm_compute. reflexivity. Qed.
Example sample_destination_up :
  Router.destination_is_up (router_after (router_events ++ [up_event])) sample_mac = true.
Proof. vm_compute. reflexivity. Qed.
Example sample_destination_announced :
  match Modem.destinations (modem_after add_events) !! sample_mac with
  | Some d => Modem.announced d
  | None => false
  end = true.
Proof. vm_compute. reflexivity. Qed.

Lemma router_exec es :
  is_some (exec Router.step (Router.with_config router_config) es) = true ->
  exec Router.step (Router.with_config router_config) es = Some (router_after es, router_acts es).
Proof. unfold router_after, router_acts. by destruct (exec _ _ es) as [[]|]. Qed.

Lemma modem_exec es :
  is_some (exec Modem.step (Modem.with_config modem_config) es) = true ->
  exec Modem.step (Modem.with_config modem_config) es = Some (modem_after es, modem_acts es).
Proof. unfold modem_after, modem_acts. by destruct (exec _ _ es) as [[]|]. Qed.
