(* ===== verification/Sessions.v ===== *)
(** * Sessions, both roles

    The router and the modem as instances of the runtime's interface
    ([trait SessionFsm] of [dlep-daemon/src/session.rs]), and what follows for
    every run of either: armed timers, notifications, the end of a session; then
    the properties of single steps. *)

From S2P Require Import Prelude Externs CoreTypes Codec CodecItem CodecMessage Addresses Events.
From S2P Require Import SessionCommon Validation SessionFacts SessionRouter SessionModem Lifecycle.
From S2P Require Import RouterInv ModemInv Samples.
Import DataItem.

(** [in_session] of the trait. *)
Definition router_in_session (self : Router.RouterSessionFsm) : bool :=
  bool_decide (Router.state self = Router.InSession).
Definition modem_in_session (self : Modem.ModemSessionFsm) : bool :=
  bool_decide (Modem.state self = Modem.InSession).

(** [mac_address_format] of the trait. *)
Definition router_mac_address_format (self : Router.RouterSessionFsm) : MacAddressFormat :=
  mac_address_format (Router.config self).
Definition modem_mac_address_format (self : Modem.ModemSessionFsm) : MacAddressFormat :=
  mac_address_format (Modem.config self).

Lemma router_in_session_phase self :
  router_in_session self = true <-> RouterInv.phase self = Established.
Proof.
  unfold router_in_session, RouterInv.phase. rewrite bool_decide_eq_true.
  by destruct (Router.state self).
Qed.

Lemma modem_in_session_phase self :
  modem_in_session self = true <-> ModemInv.phase self = Established.
Proof.
  unfold modem_in_session, ModemInv.phase. rewrite bool_decide_eq_true.
  by destruct (Modem.state self).
Qed.

#[global] Instance router_session {crates : Crates} : SessionFsm Router.RouterSessionFsm := {|
  fsm_step := Router.step;
  fsm_in_session := router_in_session;
  fsm_mac_address_format := router_mac_address_format;
  fsm_in_session_phase := router_in_session_phase;
  fsm_phase := RouterInv.phase;
  fsm_inv := RouterInv.inv;
  fsm_total := router_step_sound;
|}.

#[global] Instance modem_session {crates : Crates} : SessionFsm Modem.ModemSessionFsm := {|
  fsm_step := Modem.step;
  fsm_in_session := modem_in_session;
  fsm_mac_address_format := modem_mac_address_format;
  fsm_in_session_phase := modem_in_session_phase;
  fsm_phase := ModemInv.phase;
  fsm_inv := ModemInv.inv;
  fsm_total := modem_step_sound;
|}.

Section Runs.
Context {crates : Crates}.

(** A run of a fresh router or modem session under the runtime. *)
Definition router_run (c : SessionConfig) es acts self armed : Prop :=
  turns (Router.with_config c, ∅) es acts (self, armed).
Definition modem_run (c : SessionConfig) es acts self armed : Prop :=
  turns (Modem.with_config c, ∅) es acts (self, armed).

Lemma router_run_ok c es acts self armed :
  router_run c es acts self armed ->
  RouterInv.inv self /\ timers_ok (RouterInv.phase self) armed
  /\ told (RouterInv.phase self) (notifications (effects acts)).
Proof.
  intros H. exact (turns_ok (Hfsm := router_session) (Router.with_config c) es acts (self, armed)
    (router_inv_initial c) eq_refl H).
Qed.

Lemma modem_run_ok c es acts self armed :
  modem_run c es acts self armed ->
  ModemInv.inv self /\ timers_ok (ModemInv.phase self) armed
  /\ told (ModemInv.phase self) (notifications (effects acts)).
Proof.
  intros H. exact (turns_ok (Hfsm := modem_session) (Modem.with_config c) es acts (self, armed)
    (modem_inv_initial c) eq_refl H).
Qed.

(** C1: The router refines the session lifecycle.  From a well-formed session no
    event makes [RouterSessionFsm::step] panic; it yields a well-formed session
    and its timers, [CloseTcp], SessionUp and SessionDown are those of a step of
    the abstract lifecycle. *)
Theorem router_refines_lifecycle event self :
  RouterInv.inv self ->
  exists s' acts, Router.step event self = Ok (s', acts) /\ RouterInv.inv s'
    /\ life_step (tick event) (RouterInv.phase self) (effects acts) (RouterInv.phase s').
Proof. apply router_step_sound. Qed.

(** C2: The modem refines the session lifecycle, likewise: every indexing of a map
    and every [expect] of [ModemSessionFsm::step] succeeds. *)
Theorem modem_refines_lifecycle event self :
  ModemInv.inv self ->
  exists s' acts, Modem.step event self = Ok (s', acts) /\ ModemInv.inv s'
    /\ life_step (tick event) (ModemInv.phase self) (effects acts) (ModemInv.phase s').
Proof. apply modem_step_sound. Qed.

(** C4: Timers and notifications.  At every point of every run of a session exactly the
    timers of its phase are armed: the initialization deadline while opening, the
    heartbeat and the missed-heartbeat deadline in session, the termination deadline
    while closing.  The application is told SessionUp at most once and only by an
    established session, SessionDown at most once and only when the session is over, and
    never SessionUp after SessionDown. *)
Theorem session_conduct c es acts armed :
  (forall self, router_run c es acts self armed ->
     timers_ok (RouterInv.phase self) armed /\ told (RouterInv.phase self) (notifications (effects acts)))
  /\ (forall self, modem_run c es acts self armed ->
     timers_ok (ModemInv.phase self) armed /\ told (ModemInv.phase self) (notifications (effects acts))).
Proof.
  split; intros self H.
  - by apply (router_run_ok c es acts self armed) in H as (? & ? & ?).
  - by apply (modem_run_ok c es acts self armed) in H as (? & ? & ?).
Qed.

(** C3: A session ends.  From any point of any run at which the session has begun
    and is not over, the deadlines that are armed, delivered with nothing heard
    from the peer, end it: the connection is closed and SessionDown reported. *)
Theorem session_ends c es acts armed :
  (forall self, router_run c es acts self armed ->
     RouterInv.phase self <> Idle -> RouterInv.phase self <> Done ->
     exists es' acts' self' armed', turns (self, armed) es' acts' (self', armed')
       /\ (length es' <= 2)%nat /\ Forall (fun e => is_Some (tick e)) es'
       /\ Router.state self' = Router.Terminated /\ CloseTcp ∈ acts'
       /\ exists code, Emit (SessionDown code) ∈ acts')
  /\ (forall self, modem_run c es acts self armed ->
     ModemInv.phase self <> Idle -> ModemInv.phase self <> Done ->
     exists es' acts' self' armed', turns (self, armed) es' acts' (self', armed')
       /\ (length es' <= 2)%nat /\ Forall (fun e => is_Some (tick e)) es'
       /\ Modem.state self' = Modem.Terminated /\ CloseTcp ∈ acts'
       /\ exists code, Emit (SessionDown code) ∈ acts').
Proof.
  assert (Hclose : forall l, closes (effects l) = true -> CloseTcp ∈ l).
  { intros l (e & He & Hc)%existsb_elem. destruct e; try done.
    apply list_elem_of_omap in He as (a & Ha & Hae). by apply effect_close in Hae as ->. }
  assert (Hdown : forall l, Down ∈ effects l -> exists code, Emit (SessionDown code) ∈ l).
  { intros l (a & Ha & Hae)%list_elem_of_omap. apply effect_down in Hae as [code ->]. eauto. }
  split; intros self H Hn Hd.
  - destruct (router_run_ok _ _ _ _ _ H) as (Hi & Ha & _).
    destruct (silent_peer (Hfsm := router_session) self armed Hi Ha Hn Hd) as (es' & l & s' & a' & Ht & Hlen & Hf & Hp & Hc & Hw).
    exists es', l, s', a'. do 3 (split; [done|]). split; [|auto].
    change (RouterInv.phase s' = Done) in Hp. unfold RouterInv.phase in Hp. by destruct (Router.state s').
  - destruct (modem_run_ok _ _ _ _ _ H) as (Hi & Ha & _).
    destruct (silent_peer (Hfsm := modem_session) self armed Hi Ha Hn Hd) as (es' & l & s' & a' & Ht & Hlen & Hf & Hp & Hc & Hw).
    exists es', l, s', a'. do 3 (split; [done|]). split; [|auto].
    change (ModemInv.phase s' = Done) in Hp. unfold ModemInv.phase in Hp. by destruct (Modem.state s').
Qed.

(** C14: Destinations share no address.  In every run of a router, no address or
    subnet is held by two destinations of the session. *)
Theorem router_addresses_disjoint c es acts self armed m m' d d' e :
  router_run c es acts self armed -> m <> m' ->
  Router.destinations self !! m = Some d -> Router.destinations self !! m' = Some d' ->
  has (Router.addrs d) e -> ~ has (Router.addrs d') e.
Proof.
  intros H. destruct (router_run_ok _ _ _ _ _ H) as (Hi & _).
  apply (proj2 (RouterInv.inv_dests _ Hi)).
Qed.

(** Reports are complete.  In every run of a modem, an announced destination
    has no metric update held back, and what was advertised of its addresses is
    exactly what the modem knows. *)
Theorem modem_reports_complete c es acts self armed mac d :
  modem_run c es acts self armed -> Modem.destinations self !! mac = Some d ->
  Modem.announced d = true ->
  Modem.pending_metrics d = false /\ addrs_equiv (Modem.advertised_addrs d) (Modem.addrs d).
Proof.
  intros H Hd Ha. destruct (modem_run_ok _ _ _ _ _ H) as (Hi & _).
  by apply (ModemInv.inv_dests _ Hi mac d Hd).
Qed.

End Runs.

(** ** Witnesses *)

#[local] Existing Instance reference_crates.

Lemma router_sample_run es :
  is_some (exec Router.step (Router.with_config router_config) es) = true ->
  exists armed, router_run router_config es (router_acts es) (router_after es) armed.
Proof. intros H. apply (exec_turns (Hfsm := router_session)), router_exec, H. Qed.

Lemma modem_sample_run es :
  is_some (exec Modem.step (Modem.with_config modem_config) es) = true ->
  exists armed, modem_run modem_config es (modem_acts es) (modem_after es) armed.
Proof. intros H. apply (exec_turns (Hfsm := modem_session)), modem_exec, H. Qed.

Lemma router_refines_lifecycle_witness :
  exists s' acts, Router.step TcpConnected (Router.with_config router_config) = Ok (s', acts)
    /\ RouterInv.inv s' /\ life_step None Idle (effects acts) (RouterInv.phase s').
Proof.
  exact (router_refines_lifecycle TcpConnected (Router.with_config router_config)
           (router_inv_initial router_config)).
Defined.

Lemma modem_refines_lifecycle_witness :
  exists s' acts, Modem.step TcpAccepted (Modem.with_config modem_config) = Ok (s', acts)
    /\ ModemInv.inv s' /\ life_step None Idle (effects acts) (ModemInv.phase s').
Proof.
  exact (modem_refines_lifecycle TcpAccepted (Modem.with_config modem_config)
           (modem_inv_initial modem_config)).
Defined.

Lemma session_conduct_witness :
  exists armed, router_run router_config router_events (router_acts router_events) sample_router armed
    /\ timers_ok Established armed /\ notifications (effects (modem_acts modem_events)) = [Up].
Proof.
  destruct (router_sample_run router_events) as [armed Hr]; [by vm_compute|].
  destruct (modem_sample_run modem_events) as [armed' Hm]; [by vm_compute|]. exists armed. split; [exact Hr|].
  split.
  - exact (proj1 (proj1 (session_conduct router_config router_events (router_acts router_events) armed) _ Hr)).
  - exact (proj2 (proj2 (session_conduct modem_config modem_events (modem_acts modem_events) armed') _ Hm)).
Defined.

Lemma session_ends_witness :
  exists armed es' acts' self' armed', turns (sample_router, armed) es' acts' (self', armed')
    /\ (length es' <= 2)%nat /\ Router.state self' = Router.Terminated /\ CloseTcp ∈ acts'.
Proof.
  destruct (router_sample_run router_events) as [armed Hr]; [by vm_compute|]. exists armed.
  destruct (proj1 (session_ends router_config router_events (router_acts router_events) armed) _ Hr)
    as (es' & acts' & self' & armed' & H1 & H2 & _ & H3 & H4 & _); [by vm_compute|by vm_compute|].
  exists es', acts', self', armed'. exact (conj H1 (conj H2 (conj H3 H4))).
Defined.

Lemma router_addresses_disjoint_witness :
  exists d d', let self := router_after (router_events ++ [up_event; second_event]) in
    Router.destinations self !! sample_mac = Some d /\ Router.destinations self !! second_mac = Some d'
    /\ ~ has (Router.addrs d') (EntryV4 167772161).
Proof.
  set (es := router_events ++ [up_event; second_event]).
  destruct (router_sample_run es) as [armed Hr]; [by vm_compute|].
  destruct (Router.destinations (router_after es) !! sample_mac) as [d|] eqn:Hd;
    [|exfalso; by vm_compute in Hd].
  destruct (Router.destinations (router_after es) !! second_mac) as [d'|] eqn:Hd';
    [|exfalso; by vm_compute in Hd'].
  exists d, d'. cbv zeta. split; [exact Hd|]. split; [exact Hd'|].
  apply (router_addresses_disjoint router_config es (router_acts es) (router_after es) armed
    sample_mac second_mac d d' (EntryV4 167772161) Hr); [by vm_compute|exact Hd|exact Hd'|].
  assert (Hin : match Router.destinations (router_after es) !! sample_mac with
                | Some d => bool_decide (has (Router.addrs d) (EntryV4 167772161))
                | None => false
                end = true) by by vm_compute.
  rewrite Hd in Hin. by apply bool_decide_eq_true in Hin.
Defined.

Lemma modem_reports_complete_witness :
  exists d, Modem.destinations (modem_after add_events) !! sample_mac = Some d
    /\ Modem.pending_metrics d = false /\ addrs_equiv (Modem.advertised_addrs d) (Modem.addrs d).
Proof.
  destruct (modem_sample_run add_events) as [armed Hr]; [by vm_compute|].
  destruct (Modem.destinations (modem_after add_events) !! sample_mac) as [d|] eqn:Hd;
    [|exfalso; by vm_compute in Hd].
  exists d. split; [reflexivity|].
  apply (modem_reports_complete modem_config add_events (modem_acts add_events)
    (modem_after add_events) armed sample_mac d Hr Hd).
  assert (Ha : match Modem.destinations (modem_after add_events) !! sample_mac with
               | Some d => Modem.announced d
               | None => false
               end = true) by by vm_compute.
  by rewrite Hd in Ha.
Defined.
