(* ===== verification/SessionSteps.v ===== *)
(** * Single steps of both session state machines

    What one step sends, rejects and opens: rejected commands change nothing,
    requests are serialised per scope, a closing session is silent, and every
    received message is answered as the protocol demands. *)

From S2P Require Import Prelude Externs CoreTypes Codec CodecItem CodecMessage Addresses Events.
From S2P Require Import SessionCommon Validation SessionFacts SessionRouter SessionModem Lifecycle.
From S2P Require Import RouterInv ModemInv Samples.
Import DataItem.

(** The messages sent and the commands rejected, in order. *)
Definition sent (acts : list FsmAction) : list Message :=
  omap (fun a => match a with SendMessage m => Some m | _ => None end) acts.
Definition rejections (acts : list FsmAction) : list CommandRejection :=
  omap (fun a => match a with Emit (CommandRejected r) => Some r | _ => None end) acts.

(** The request a message makes, and in which scope. *)
Definition request_kind (mt : MessageType) : option RequestKind :=
  if mt =? MessageType.SESSION_UPDATE then Some RSessionUpdate
  else if mt =? MessageType.DESTINATION_UP then Some RDestinationUp
  else if mt =? MessageType.DESTINATION_ANNOUNCE then Some RDestinationAnnounce
  else if mt =? MessageType.DESTINATION_DOWN then Some RDestinationDown
  else if mt =? MessageType.LINK_CHARACTERISTICS_REQUEST then Some RLinkCharacteristics
  else None.

Definition request_scope (m : Message) : scope :=
  if message_type m =? MessageType.SESSION_UPDATE then None else extract_destination_mac m.

(** Every request among [ms] found its scope idle in [t] and occupies it in [t']. *)
Definition serialised (t t' : TransactionTracker) (ms : list Message) : Prop :=
  forall m k, m ∈ ms -> request_kind (message_type m) = Some k ->
    scopes t (request_scope m) = None /\ scopes t' (request_scope m) = Some k.

Lemma sent_app a b : sent (a ++ b) = sent a ++ sent b.
Proof. apply omap_app. Qed.
Lemma rejections_app a b : rejections (a ++ b) = rejections a ++ rejections b.
Proof. apply omap_app. Qed.

Lemma elem_of_sent m acts : SendMessage m ∈ acts <-> m ∈ sent acts.
Proof.
  unfold sent. rewrite list_elem_of_omap. split.
  - intros H. by exists (SendMessage m).
  - intros (a & Ha & Hm). destruct a; try done. by injection Hm as ->.
Qed.

Lemma elem_of_rejections r acts : Emit (CommandRejected r) ∈ acts <-> r ∈ rejections acts.
Proof.
  unfold rejections. rewrite list_elem_of_omap. split.
  - intros H. by exists (Emit (CommandRejected r)).
  - intros (a & Ha & Hm). destruct a as [| | | | | |[]]; try done. by injection Hm as ->.
Qed.

(** The heartbeat reset sends and rejects nothing. *)
Lemma reset_cases id i :
  opt_list (heartbeat_reset_action id i) = []
  \/ exists d, opt_list (heartbeat_reset_action id i) = [ResetHeartbeat id d].
Proof.
  unfold heartbeat_reset_action. destruct i as [d|]; [|by left]. cbn.
  destruct (_ <? _); [by left|]. destruct (duration_checked_mul d 2); [right; eauto|by left].
Qed.

(** Messages that make no request. *)
Lemma plain_sends l :
  all (fun m => is_none (request_kind (message_type m))) (sent l) = true ->
  forall m, m ∈ sent l -> request_kind (message_type m) = None.
Proof.
  intros Hall m Hm. rewrite forallb_elem in Hall. specialize (Hall m Hm).
  by destruct (request_kind _).
Qed.

Section Local.
Context {crates : Crates}.

(** Session address updates, once the session scope was found idle and the
    changes valid. *)
Lemma apply_local_accepted changes t local acts t' local' :
  session_busy t = false -> validate_local_address_update local changes = Ok tt ->
  apply_local_address_update changes t local = Ok (acts, t', local') ->
  rejections acts = [] /\ serialised t t' (sent acts).
Proof.
  unfold apply_local_address_update. intros Hb Hv. rewrite Hb, Hv.
  destruct (AddressChanges_is_empty _).
  { intros [= <- <- <-]. split; [done|]. intros m k Hm. by apply not_elem_of_nil in Hm. }
  rewrite session_busy_open by done. intros [= <- <- <-]. split; [done|].
  intros m k Hm. cbn [sent omap list_omap] in Hm. apply list_elem_of_singleton in Hm as ->.
  rewrite append_to_items. cbn. intros [= <-].
  unfold session_busy in Hb. apply is_some_false in Hb. by rewrite Hb.
Qed.

End Local.

(** ** The router *)

Definition termination (status : DataItem) : Message :=
  mkMessage MessageType.SESSION_TERMINATION [status].

(** What a router is to answer to a message it accepts, item for item. *)
Definition router_reply (msg : Message) : list Message :=
  let mt := message_type msg in
  let mac := opt_list (extract_destination_mac msg) in
  let success := Status StatusCode.SUCCESS [] in
  if mt =? MessageType.SESSION_TERMINATION then [mkMessage MessageType.SESSION_TERMINATION_RESPONSE []]
  else if mt =? MessageType.DESTINATION_UP then
    (fun mac => mkMessage MessageType.DESTINATION_UP_RESPONSE [MacAddress mac; success]) <$> mac
  else if mt =? MessageType.DESTINATION_DOWN then
    (fun mac => mkMessage MessageType.DESTINATION_DOWN_RESPONSE [MacAddress mac; success]) <$> mac
  else if mt =? MessageType.SESSION_UPDATE then [mkMessage MessageType.SESSION_UPDATE_RESPONSE [success]]
  else if one_of mt [MessageType.DESTINATION_UPDATE; MessageType.DESTINATION_DOWN_RESPONSE;
                     MessageType.SESSION_UPDATE_RESPONSE; MessageType.DESTINATION_ANNOUNCE_RESPONSE;
                     MessageType.LINK_CHARACTERISTICS_RESPONSE; MessageType.HEARTBEAT] then []
  else [termination (Status StatusCode.UNEXPECTED_MESSAGE [])].

(** Case analysis over what a handler returned; [quiet] closes the sends. *)
Ltac split_result H :=
  repeat match type of H with
    | context [expect ?o] => destruct o; cbn [expect mbind outcome_bind] in H; [|done]
    end;
  try (injection H as <- <-).

Ltac no_reset :=
  repeat match goal with
    | |- context [Router.heartbeat_reset ?x] => unfold Router.heartbeat_reset
    | |- context [Modem.heartbeat_reset ?x] => unfold Modem.heartbeat_reset
    | |- context [opt_list (heartbeat_reset_action ?id ?i)] =>
        destruct (reset_cases id i) as [->|[? ->]]
    end.

Section Router.
Context {crates : Crates}.

Lemma router_error_sends status self s' acts :
  Router.protocol_error status self = Ok (s', acts) ->
  rejections acts = [] /\ per_destination (Router.tx s') = per_destination (Router.tx self)
  /\ sent acts = match Router.state self with
                 | Router.Terminating | Router.Terminated => []
                 | _ => [termination status]
                 end.
Proof.
  unfold Router.protocol_error. destruct status; try done.
  destruct (Router.state self); intros [= <- <-]; done.
Qed.

Lemma router_in_session_sends msg self s' acts :
  Router.state self = Router.InSession ->
  Router.in_session_message msg self = Ok (s', acts) ->
  rejections acts = [] /\ sent acts = router_reply msg.
Proof.
  intros Hs. unfold Router.in_session_message, router_reply. cbv zeta.
  destruct (Z.eqb_spec (message_type msg) MessageType.SESSION_TERMINATION) as [Ht|];
    [by intros [= <- <-]|].
  destruct (Z.eqb_spec (message_type msg) MessageType.DESTINATION_UP) as [Ht|].
  { rewrite ?Ht. intros H. unfold Router.on_destination_up in H. split_result H. no_reset; done. }
  destruct (Z.eqb_spec (message_type msg) MessageType.DESTINATION_UPDATE) as [Ht|].
  { rewrite ?Ht. intros H. unfold Router.on_destination_update in H. split_result H.
    destruct (merge_link_metrics _ _) as [[] ?]; split_result H; no_reset; by destruct (negb _). }
  destruct (Z.eqb_spec (message_type msg) MessageType.DESTINATION_DOWN) as [Ht|].
  { rewrite ?Ht. intros H. unfold Router.on_destination_down in H. split_result H. no_reset; done. }
  destruct (Z.eqb_spec (message_type msg) MessageType.DESTINATION_DOWN_RESPONSE) as [Ht|].
  { rewrite ?Ht. intros H. unfold Router.on_destination_down_response in H. split_result H. no_reset; done. }
  destruct (Z.eqb_spec (message_type msg) MessageType.SESSION_UPDATE) as [Ht|].
  { rewrite ?Ht. intros H. unfold Router.on_session_update in H. destruct (apply_strict _ _) as [[] ?]; [|done|done].
    destruct (merge_link_metrics _ _) as [[] ?]; split_result H; no_reset; by destruct (negb _). }
  destruct (Z.eqb_spec (message_type msg) MessageType.SESSION_UPDATE_RESPONSE) as [Ht|].
  { rewrite ?Ht. intros H. unfold Router.on_session_update_response in H. split_result H. no_reset; done. }
  destruct (Z.eqb_spec (message_type msg) MessageType.DESTINATION_ANNOUNCE_RESPONSE) as [Ht|].
  { rewrite ?Ht. intros H. unfold Router.on_announce_response in H. split_result H.
    destruct (bool_decide _); split_result H; no_reset; done. }
  destruct (Z.eqb_spec (message_type msg) MessageType.LINK_CHARACTERISTICS_RESPONSE) as [Ht|].
  { rewrite ?Ht. intros H. unfold Router.on_link_characteristics_response in H. split_result H.
    destruct p. split_result H. no_reset; done. }
  destruct (Z.eqb_spec (message_type msg) MessageType.HEARTBEAT) as [Ht|].
  { rewrite ?Ht. intros H. split_result H. no_reset; done. }
  intros H. apply router_error_sends in H as (? & _ & ->). rewrite Hs. split; [done|].
  replace (one_of _ _) with false; [done|]. symmetry. apply contains_false. set_solver.
Qed.

(** Sends of a command that passed its check. *)
Lemma router_command_sends event self s' acts info :
  command event = Some info -> Router.check_command self event = Ok tt ->
  Router.accepted event self = Ok (s', acts) ->
  rejections acts = [] /\ serialised (Router.tx self) (Router.tx s') (sent acts).
Proof.
  intros Hc Hk. unfold Router.check_command in Hk.
  destruct (decide (Router.state self = Router.InSession)) as [Hs|Hs];
    [rewrite bool_decide_true in Hk by done|by rewrite bool_decide_false in Hk].
  assert (Hopen : forall mac k m, destination_busy (Router.tx self) mac = false ->
    request_kind (message_type m) = Some k -> request_scope m = Some mac ->
    Router.open_and_send mac k m self = Ok (s', acts) ->
    rejections acts = [] /\ serialised (Router.tx self) (Router.tx s') (sent acts)).
  { intros mac k m Hb Hm Hsc. unfold Router.open_and_send, open_destination.
    unfold destination_busy in Hb. apply is_some_false in Hb. rewrite Hb. intros [= <- <-].
    split; [done|]. intros m' k' Hin Hk'. cbn in Hin. apply list_elem_of_singleton in Hin as ->.
    rewrite Hsc, Hm in *. injection Hk' as <-. cbn. by rewrite Hb, lookup_insert_eq. }
  destruct event; try done; cbn in Hk; unfold Router.accepted, Router.dispatch; rewrite Hs;
    try (destruct (negb (accepts _ _)); [done|]);
    try (destruct (destination_busy (Router.tx self) mac) eqn:Hb; [done|]).
  - by apply Hopen.
  - destruct (session_busy (Router.tx self)) eqn:Hb; [done|]. cbn in Hk.
    unfold Router.on_app_session_addresses.
    destruct (apply_local_address_update _ _ _) as [[[a t'] l']|[]|] eqn:Ha; [|done].
    intros [= <- <-]. by eapply apply_local_accepted.
  - by apply Hopen.
  - destruct requested as [[] [] []]; by apply Hopen.
Qed.

(** Sends of an event that is no command. *)
Lemma router_event_sends event self s' acts :
  command event = None -> Router.accepted event self = Ok (s', acts) ->
  rejections acts = []
  /\ forall m, m ∈ sent acts -> request_kind (message_type m) = None.
Proof.
  intros Hc H.
  assert (Herr : forall st self, Router.protocol_error st self = Ok (s', acts) ->
    rejections acts = [] /\ forall m, m ∈ sent acts -> request_kind (message_type m) = None).
  { intros st self0 (? & _ & He)%router_error_sends. split; [done|]. rewrite He. intros m Hm.
    destruct (Router.state self0); try (by apply not_elem_of_nil in Hm);
      by apply list_elem_of_singleton in Hm as ->. }
  unfold Router.accepted in H. destruct event; try done; unfold Router.dispatch in H.
  all: try (destruct (Router.state self); try match goal with k : TimerKind |- _ => destruct k end;
    split_result H; no_reset; (split; [done|]); by apply plain_sends).
  2:{ by eapply Herr. }
  2:{ unfold Router.on_tcp_connected, Router.build_session_initialization, push_extensions_supported in H.
      destruct (Router.state self); split_result H; (split; [done|]); apply plain_sends;
        try done; by destruct (is_empty_list _). }
  unfold Router.guard_message in H.
  destruct (Router.state self) eqn:Hs; try (split_result H; split; [done|]; by apply plain_sends).
  - destruct (if negb _ then _ else _); [by eapply Herr|].
    destruct (Router.check_message self msg); [|by eapply Herr|done].
    destruct (_ =? _); [|split_result H; split; [done|]; by apply plain_sends].
    unfold Router.on_init_response in H. destruct (negb _); [by eapply Herr|].
    injection H as <- <-. no_reset; destruct (negb _); (split; [done|]); by apply plain_sends.
  - destruct (if negb _ then _ else _); [by eapply Herr|].
    destruct (Router.check_message self msg); [|by eapply Herr|done].
    apply router_in_session_sends in H as [Hr He]; [|done]. split; [done|]. apply plain_sends. rewrite He.
    unfold router_reply. repeat destruct (_ =? _); destruct (extract_destination_mac msg);
      try done; by destruct (one_of _ _).
  - destruct (_ =? _); split_result H; (split; [done|]); by apply plain_sends.
Qed.

(** A rejection comes from [check_command] and nothing else. *)
Lemma router_rejected event self s' acts r :
  Router.step event self = Ok (s', acts) -> Emit (CommandRejected r) ∈ acts ->
  Router.check_command self event = Err (reason r)
  /\ s' = self /\ acts = [Emit (CommandRejected r)] /\ command event = Some (command_info r).
Proof.
  unfold Router.step. intros H Hin%elem_of_rejections. destruct (command event) as [info|] eqn:Hc.
  - destruct (Router.check_command self event) as [[]|e|] eqn:Hk; [| |done].
    + apply (router_command_sends _ _ _ _ _ Hc Hk) in H as [Hr _]. rewrite Hr in Hin. set_solver.
    + injection H as <- <-. cbn in Hin. apply list_elem_of_singleton in Hin as ->. done.
  - apply (router_event_sends _ _ _ _ Hc) in H as [Hr _]. rewrite Hr in Hin. set_solver.
Qed.

Lemma router_serialised event self s' acts :
  Router.step event self = Ok (s', acts) ->
  serialised (Router.tx self) (Router.tx s') (sent acts).
Proof.
  unfold Router.step. intros H. destruct (command event) as [info|] eqn:Hc.
  - destruct (Router.check_command self event) as [[]|e|] eqn:Hk; [| |done].
    + by apply (router_command_sends _ _ _ _ _ Hc Hk) in H as [_ Hr].
    + injection H as <- <-. intros m k Hm. by apply not_elem_of_nil in Hm.
  - apply (router_event_sends _ _ _ _ Hc) in H as [_ Hr]. intros m k Hm Hk.
    rewrite (Hr m Hm) in Hk. done.
Qed.

(** C9: The router answers every message.  In session, a message with a fatal
    status is answered by a Session Termination that echoes it, an invalid one by
    a Session Termination with the code of the violation, and a valid one by the
    response its type requires, and nothing else is sent. *)
Theorem router_answers msg self s' acts :
  Router.state self = Router.InSession ->
  Router.step (RecvMessage msg) self = Ok (s', acts) ->
  sent acts
  = match (if negb (message_type msg =? MessageType.SESSION_TERMINATION)
           then fatal_status msg else None) with
    | Some item => [termination item]
    | None =>
        match Router.check_message self msg with
        | Err code => [termination (Status code [])]
        | _ => router_reply msg
        end
    end.
Proof.
  intros Hs. unfold Router.step. cbn [command Router.accepted]. unfold Router.guard_message.
  rewrite Hs. destruct (if negb _ then _ else _).
  { intros (_ & _ & ->)%router_error_sends. by rewrite Hs. }
  destruct (Router.check_message self msg); [| |done].
  - unfold Router.dispatch. rewrite Hs. by intros [_ ->]%router_in_session_sends.
  - intros (_ & _ & ->)%router_error_sends. by rewrite Hs.
Qed.

End Router.

(** ** The modem *)

(** Address items for what is in one set and not in another. *)
Definition only_in {crates : Crates} (add : bool) (a b : DestinationAddrs) : list DataItem :=
  (Ipv4Address add <$> filter (fun x => x ∉ v4 b) (v4 a))
  ++ (Ipv6Address add <$> filter (fun x => x ∉ v6 b) (v6 a))
  ++ ((fun n => Ipv4AttachedSubnet add (v4_trunc n)) <$> filter (fun x => x ∉ v4_subnets b) (v4_subnets a))
  ++ ((fun n => Ipv6AttachedSubnet add (v6_trunc n)) <$> filter (fun x => x ∉ v6_subnets b) (v6_subnets a)).

(** The update held back while a Destination Up was outstanding, if there is anything to
    tell: the metrics if they changed, the addresses advertised and gone, and those not
    advertised yet. *)
Definition held_back {crates : Crates} (mac : Mac) (d : Modem.DestinationState) : list Message :=
  let changes := only_in false (Modem.advertised_addrs d) (Modem.addrs d)
                 ++ only_in true (Modem.addrs d) (Modem.advertised_addrs d) in
  match Modem.pending_metrics d, changes with
  | false, [] => []
  | pending, _ =>
      [mkMessage MessageType.DESTINATION_UPDATE
         (MacAddress mac :: (if pending then metric_items (Modem.metrics d) else []) ++ changes)]
  end.

(** What a modem is to answer to a message it accepts, item for item. *)
Definition modem_reply {crates : Crates} (self : Modem.ModemSessionFsm) (msg : Message) : list Message :=
  let mt := message_type msg in
  let mac := extract_destination_mac msg in
  let known := mac ≫= fun mac => Modem.destinations self !! mac in
  let success := Status StatusCode.SUCCESS [] in
  let denied := Status StatusCode.REQUEST_DENIED [] in
  if mt =? MessageType.SESSION_TERMINATION then [mkMessage MessageType.SESSION_TERMINATION_RESPONSE []]
  else if mt =? MessageType.SESSION_UPDATE then [mkMessage MessageType.SESSION_UPDATE_RESPONSE [success]]
  else if mt =? MessageType.DESTINATION_UP_RESPONSE then
    match mac, known with
    | Some mac, Some d =>
        if bool_decide (extract_status msg = None \/ extract_status msg = Some StatusCode.SUCCESS)
        then held_back mac d else []
    | _, _ => []
    end
  else
    match mac with
    | Some mac =>
        if mt =? MessageType.DESTINATION_DOWN then
          [mkMessage MessageType.DESTINATION_DOWN_RESPONSE [MacAddress mac; success]]
        else if mt =? MessageType.DESTINATION_ANNOUNCE then
          [mkMessage MessageType.DESTINATION_ANNOUNCE_RESPONSE
             (MacAddress mac ::
              match known with
              | Some d => addrs_items (Modem.addrs d) ++ metric_items (Modem.metrics d) ++ [success]
              | None => [denied]
              end)]
        else if mt =? MessageType.LINK_CHARACTERISTICS_REQUEST then
          match known, defer_link_characteristics (Modem.config self) with
          | Some d, false =>
              [mkMessage MessageType.LINK_CHARACTERISTICS_RESPONSE
                 (MacAddress mac :: denied :: metric_items (Modem.metrics d))]
          | _, _ => []
          end
        else if one_of mt [MessageType.DESTINATION_DOWN_RESPONSE; MessageType.SESSION_UPDATE_RESPONSE;
                           MessageType.HEARTBEAT] then []
        else [mkMessage MessageType.SESSION_TERMINATION [Status StatusCode.UNEXPECTED_MESSAGE []]]
    | None =>
        if one_of mt [MessageType.SESSION_UPDATE_RESPONSE; MessageType.HEARTBEAT;
                      MessageType.DESTINATION_DOWN_RESPONSE] then []
        else [mkMessage MessageType.SESSION_TERMINATION [Status StatusCode.UNEXPECTED_MESSAGE []]]
    end.

(** The same with the builders of the code. *)
Definition built_update {crates : Crates} (mac : Mac) (d : Modem.DestinationState) : list Message :=
  let changes := between (Modem.advertised_addrs d) (Modem.addrs d) in
  if Modem.pending_metrics d then
    [append_to changes (build_destination_update mac (Modem.metrics d))]
  else if AddressChanges_is_empty changes then []
  else [append_to changes (with_item (Message_new MessageType.DESTINATION_UPDATE) (MacAddress mac))].

Definition built_reply {crates : Crates} (self : Modem.ModemSessionFsm) (msg : Message)
    : list Message :=
  let mt := message_type msg in
  match extract_destination_mac msg with
  | None =>
      if mt =? MessageType.SESSION_TERMINATION then [build_session_termination_response]
      else if mt =? MessageType.SESSION_UPDATE then [build_session_update_response StatusCode.SUCCESS]
      else if one_of mt [MessageType.SESSION_UPDATE_RESPONSE; MessageType.HEARTBEAT;
                         MessageType.DESTINATION_UP_RESPONSE; MessageType.DESTINATION_DOWN_RESPONSE]
      then []
      else [termination (Status StatusCode.UNEXPECTED_MESSAGE [])]
  | Some mac =>
      let d := Modem.destinations self !! mac in
      if mt =? MessageType.SESSION_TERMINATION then [build_session_termination_response]
      else if mt =? MessageType.SESSION_UPDATE then [build_session_update_response StatusCode.SUCCESS]
      else if mt =? MessageType.DESTINATION_UP_RESPONSE then
        if default StatusCode.SUCCESS (extract_status msg) =? StatusCode.SUCCESS
        then match d with Some d => built_update mac d | None => [] end
        else []
      else if mt =? MessageType.DESTINATION_DOWN then
        [build_destination_down_response mac StatusCode.SUCCESS]
      else if mt =? MessageType.DESTINATION_ANNOUNCE then
        [match d with
         | Some d => Modem.announce_success mac d
         | None => build_destination_announce_response mac StatusCode.REQUEST_DENIED
         end]
      else if mt =? MessageType.LINK_CHARACTERISTICS_REQUEST then
        match d with
        | Some d =>
            if defer_link_characteristics (Modem.config self) then []
            else [build_link_characteristics_response mac StatusCode.REQUEST_DENIED (Modem.metrics d)]
        | None => []
        end
      else if one_of mt [MessageType.DESTINATION_DOWN_RESPONSE; MessageType.SESSION_UPDATE_RESPONSE;
                         MessageType.HEARTBEAT] then []
      else [termination (Status StatusCode.UNEXPECTED_MESSAGE [])]
  end.

Section Modem.
Context {crates : Crates}.

Lemma filter_retain {A} `{EqDecision A} (l k : list A) :
  retain (fun v => negb (contains k v)) l = filter (fun x => x ∉ k) l.
Proof.
  induction l as [|x l IH]; [done|]. rewrite filter_cons. unfold retain, contains in *. cbn. rewrite IH.
  case_bool_decide; case_decide; done.
Qed.

Lemma only_in_spec add a b : set_items add (difference a b) = only_in add a b.
Proof. unfold set_items, difference, only_in. cbn. by rewrite !filter_retain. Qed.

Lemma set_items_empty add a : DestinationAddrs_is_empty a = bool_decide (set_items add a = []).
Proof. case_bool_decide as H; destruct a as [[|] [|] [|] [|]]; try done; by destruct H. Qed.

Lemma built_update_spec mac d : built_update mac d = held_back mac d.
Proof.
  unfold built_update, held_back. cbv zeta.
  assert (Hc : changes_items (between (Modem.advertised_addrs d) (Modem.addrs d))
    = only_in false (Modem.advertised_addrs d) (Modem.addrs d)
      ++ only_in true (Modem.addrs d) (Modem.advertised_addrs d)).
  { unfold changes_items, between. cbn [added removed]. by rewrite !only_in_spec. }
  rewrite !append_to_items, Hc. unfold build_destination_update. rewrite push_metric_items_items. cbn -[metric_items].
  destruct (Modem.pending_metrics d); [done|].
  assert (He : AddressChanges_is_empty (between (Modem.advertised_addrs d) (Modem.addrs d))
    = bool_decide (only_in false (Modem.advertised_addrs d) (Modem.addrs d)
      ++ only_in true (Modem.addrs d) (Modem.advertised_addrs d) = [])).
  { unfold AddressChanges_is_empty, between. cbn [added removed].
    rewrite (set_items_empty true), (set_items_empty false), !only_in_spec.
    destruct (only_in true _ _), (only_in false _ _); done. }
  rewrite He. by destruct (_ ++ _).
Qed.

Lemma built_reply_spec self msg : built_reply self msg = modem_reply self msg.
Proof.
  unfold built_reply, modem_reply, Modem.announce_success. cbv zeta.
  destruct (Z.eqb_spec (message_type msg) MessageType.SESSION_TERMINATION) as [_|Hn];
    [by destruct (extract_destination_mac msg)|clear Hn].
  destruct (Z.eqb_spec (message_type msg) MessageType.SESSION_UPDATE) as [_|Hn];
    [by destruct (extract_destination_mac msg)|clear Hn].
  destruct (extract_destination_mac msg) as [mac|]; cbn [mbind option_bind].
  - destruct (Z.eqb_spec (message_type msg) MessageType.DESTINATION_UP_RESPONSE) as [_|Hn]; [|clear Hn].
    { destruct (Modem.destinations self !! mac) as [d|]; [rewrite built_update_spec|by destruct (_ =? _)].
      destruct (extract_status msg) as [c|]; cbn [default from_option id]; [|done].
      destruct (Z.eqb_spec c StatusCode.SUCCESS) as [->|]; [done|].
      rewrite bool_decide_false; [done|]. naive_solver. }
    destruct (_ =? MessageType.DESTINATION_DOWN); [done|].
    destruct (_ =? MessageType.DESTINATION_ANNOUNCE).
    { destruct (Modem.destinations self !! mac) as [d|]; [|done]. rewrite build_destination_up_items.
      unfold push_item. cbn [message_type msg_items]. by rewrite <-app_comm_cons, <-app_assoc. }
    destruct (_ =? MessageType.LINK_CHARACTERISTICS_REQUEST); [|done].
    destruct (Modem.destinations self !! mac) as [d|]; [|done].
    destruct (defer_link_characteristics _); [done|].
    unfold build_link_characteristics_response. by rewrite push_metric_items_items.
  - destruct (Z.eqb_spec (message_type msg) MessageType.DESTINATION_UP_RESPONSE) as [Hn|Hn]; [by rewrite Hn|].
    unfold one_of. replace (contains _ (message_type msg)) with
      (contains [MessageType.SESSION_UPDATE_RESPONSE; MessageType.HEARTBEAT;
                 MessageType.DESTINATION_DOWN_RESPONSE] (message_type msg)); [done|].
    unfold contains. apply bool_decide_ext. set_solver.
Qed.

Lemma modem_error_sends status self s' acts :
  Modem.protocol_error status self = Ok (s', acts) ->
  rejections acts = []
  /\ sent acts = match Modem.state self with
                 | Modem.Terminating | Modem.Terminated | Modem.AwaitingSessionInit => []
                 | _ => [termination status]
                 end.
Proof.
  unfold Modem.protocol_error. destruct status; try done.
  destruct (Modem.state self); intros [= <- <-]; done.
Qed.

Lemma release_updates_sends mac d :
  rejections (Modem.release_updates mac d).2 = []
  /\ sent (Modem.release_updates mac d).2 = built_update mac d.
Proof.
  unfold Modem.release_updates, built_update. cbv zeta.
  destruct (Modem.pending_metrics d); cbn [orb]; [done|].
  by destruct (AddressChanges_is_empty _).
Qed.

Lemma modem_update_type mac m :
  message_type (build_destination_update mac m) = MessageType.DESTINATION_UPDATE.
Proof. unfold build_destination_update. by rewrite push_metric_items_items. Qed.

(** No answer is itself a request. *)
Lemma modem_reply_plain self msg :
  all (fun m => is_none (request_kind (message_type m))) (built_reply self msg) = true.
Proof.
  unfold built_reply, built_update, Modem.announce_success. cbv zeta.
  repeat (case_match; try done); cbn [all forallb message_type push_item is_none andb];
    rewrite ?append_to_items; cbn [message_type]; rewrite ?modem_update_type;
    unfold build_link_characteristics_response; rewrite ?push_metric_items_items; done.
Qed.

Lemma modem_in_session_sends msg self s' acts :
  Modem.state self = Modem.InSession ->
  Modem.in_session_message msg self = Ok (s', acts) ->
  rejections acts = [] /\ sent acts = built_reply self msg.
Proof.
  intros Hs. unfold Modem.in_session_message, built_reply. cbv zeta.
  destruct (Z.eqb_spec (message_type msg) MessageType.SESSION_TERMINATION) as [Ht|].
  { rewrite ?Ht. intros [= <- <-]. by destruct (extract_destination_mac msg). }
  destruct (Z.eqb_spec (message_type msg) MessageType.DESTINATION_UP_RESPONSE) as [Ht|].
  { rewrite Ht. unfold Modem.on_destination_up_response. cbv zeta.
    destruct (extract_destination_mac msg) as [mac|]; cbn [Modem.set_tx Modem.destinations].
    - destruct (Modem.destinations self !! mac) as [d|].
      + destruct (_ =? StatusCode.SUCCESS).
        * pose proof (release_updates_sends mac d) as [Hr He].
          destruct (Modem.release_updates mac d) as [d' a]. intros [= <- <-].
          cbn [snd] in Hr, He. rewrite rejections_app, sent_app, Hr, He. cbn [app]. no_reset; cbn; by rewrite ?app_nil_r.
        * intros [= <- <-]. no_reset; done.
      + intros [= <- <-]. no_reset; by destruct (_ =? StatusCode.SUCCESS).
    - intros [= <- <-]. no_reset; done. }
  destruct (Z.eqb_spec (message_type msg) MessageType.DESTINATION_DOWN) as [Ht|].
  { rewrite ?Ht. intros H. unfold Modem.on_destination_down in H. split_result H. no_reset; done. }
  destruct (Z.eqb_spec (message_type msg) MessageType.DESTINATION_DOWN_RESPONSE) as [Ht|].
  { rewrite ?Ht. intros H. unfold Modem.on_destination_down_response in H. split_result H.
    destruct (extract_destination_mac msg); no_reset; done. }
  destruct (Z.eqb_spec (message_type msg) MessageType.SESSION_UPDATE) as [Ht|].
  { rewrite ?Ht. intros H. unfold Modem.on_session_update in H.
    destruct (apply_strict _ _) as [[] ?]; [|done|done]. split_result H.
    destruct (extract_destination_mac msg); no_reset; by destruct (negb _). }
  destruct (Z.eqb_spec (message_type msg) MessageType.SESSION_UPDATE_RESPONSE) as [Ht|].
  { rewrite ?Ht. intros H. unfold Modem.on_session_update_response in H. split_result H.
    destruct (extract_destination_mac msg); no_reset; done. }
  destruct (Z.eqb_spec (message_type msg) MessageType.DESTINATION_ANNOUNCE) as [Ht|].
  { rewrite ?Ht. intros H. unfold Modem.on_destination_announce in H. split_result H.
    destruct (Modem.destinations self !! _); split_result H; no_reset; done. }
  destruct (Z.eqb_spec (message_type msg) MessageType.LINK_CHARACTERISTICS_REQUEST) as [Ht|].
  { rewrite ?Ht. intros H. unfold Modem.on_link_characteristics_request in H. split_result H.
    destruct (defer_link_characteristics _); split_result H; no_reset; done. }
  destruct (Z.eqb_spec (message_type msg) MessageType.HEARTBEAT) as [Ht|].
  { rewrite ?Ht. intros H. split_result H. destruct (extract_destination_mac msg); no_reset; done. }
  intros H. apply modem_error_sends in H as (? & ->). rewrite Hs. split; [done|].
  destruct (extract_destination_mac msg);
    (replace (one_of _ _) with false; [done|]; symmetry; apply contains_false; set_solver).
Qed.

Lemma serialised_plain t t' l :
  all (fun m => is_none (request_kind (message_type m))) l = true -> serialised t t' l.
Proof.
  intros Hall m k Hm Hk. rewrite forallb_elem in Hall. specialize (Hall m Hm). by rewrite Hk in Hall.
Qed.

Lemma serialised_open mac k m t t' :
  request_kind (message_type m) = Some k -> request_scope m = Some mac ->
  open_destination mac k t = (Ok tt, t') -> serialised t t' [m].
Proof.
  unfold open_destination. intros Hm Hsc. destruct (per_destination t !! mac) eqn:Hb; [done|].
  intros [= <-] m' k' Hin Hk'. apply list_elem_of_singleton in Hin as ->.
  rewrite Hsc, Hm in *. injection Hk' as <-. cbn. by rewrite Hb, lookup_insert_eq.
Qed.

(** Sends of a command that passed its check. *)
Lemma modem_command_sends event self s' acts info :
  command event = Some info -> Modem.check_command self event = Ok tt ->
  Modem.accepted event self = Ok (s', acts) ->
  rejections acts = [] /\ serialised (Modem.tx self) (Modem.tx s') (sent acts).
Proof.
  intros Hc Hk. unfold Modem.check_command in Hk.
  destruct (decide (Modem.state self = Modem.InSession)) as [Hs|Hs];
    [rewrite bool_decide_true in Hk by done|by rewrite bool_decide_false in Hk].
  rewrite Hc in Hk. cbn [negb expect mbind outcome_bind] in Hk.
  destruct event; try done; cbn [mbind outcome_bind] in Hk;
    unfold Modem.accepted, Modem.dispatch; rewrite Hs; cbn in Hc; injection Hc as <-;
    destruct (Modem.check_scope _ _ _) as [[]|?|] eqn:Hsc; try done; cbn [mbind outcome_bind] in Hk.
  - unfold Modem.on_app_add_destination.
    destruct (open_destination _ _ _) as [[[]| |] t'] eqn:Ho; [|done|done]. intros [= <- <-].
    split; [done|]. eapply serialised_open; [| |exact Ho]; by rewrite build_destination_up_items.
  - unfold Modem.on_app_drop_destination.
    destruct (Modem.destinations self !! mac); [|done]. cbn [expect mbind outcome_bind].
    destruct (_ && _); [intros [= <- <-]; split; [done|]; by apply serialised_plain|].
    destruct (open_destination _ _ _) as [[[]| |] t'] eqn:Ho; [|done|done]. intros [= <- <-].
    split; [done|]. by eapply serialised_open.
  - unfold Modem.on_app_update_metrics.
    destruct (Modem.destinations self !! mac); [|done]. cbn [expect mbind outcome_bind].
    destruct (_ || _); intros [= <- <-]; (split; [done|]); apply serialised_plain; [done|].
    cbn. by rewrite modem_update_type.
  - unfold Modem.on_app_update_addresses.
    destruct (Modem.destinations self !! mac); [|done]. cbn [expect mbind outcome_bind]. cbv zeta.
    destruct (_ || _); [|destruct (AddressChanges_is_empty _)]; intros [= <- <-];
      (split; [done|]); apply serialised_plain; [done..|].
    cbn [sent omap list_omap]. by rewrite append_to_items.
  - unfold Modem.on_app_session_addresses.
    assert (Hb : session_busy (Modem.tx self) = false).
    { unfold Modem.check_scope in Hsc. cbn [destination] in Hsc. by destruct (session_busy _). }
    destruct (apply_local_address_update _ _ _) as [[[a t'] l']|[]|] eqn:Ha; [|done].
    intros [= <- <-]. by eapply apply_local_accepted.
  - unfold Modem.on_app_session_update, open_session.
    destruct (session_pending (Modem.tx self)) eqn:Hb; [done|]. intros [= <- <-]. split; [done|].
    intros m k Hm. cbn [sent omap list_omap] in Hm. apply list_elem_of_singleton in Hm as ->.
    unfold build_session_update. rewrite push_metric_items_items. intros [= <-]. cbn. by rewrite Hb.
  - unfold Modem.on_app_link_response. cbn [Modem.set_pending_link_requests Modem.destinations].
    destruct (Modem.destinations self !! mac); [|done]. cbn [expect mbind outcome_bind]. cbv zeta.
    intros [= <- <-]. split; [done|]. apply serialised_plain. cbn [sent omap list_omap].
    unfold Modem.build_link_characteristics_reply, build_link_characteristics_response.
    by rewrite push_metric_items_items.
Qed.

(** Sends of an event that is no command. *)
Lemma modem_event_sends event self s' acts :
  command event = None -> Modem.accepted event self = Ok (s', acts) ->
  rejections acts = []
  /\ forall m, m ∈ sent acts -> request_kind (message_type m) = None.
Proof.
  intros Hc H.
  assert (Herr : forall st self, Modem.protocol_error st self = Ok (s', acts) ->
    rejections acts = [] /\ forall m, m ∈ sent acts -> request_kind (message_type m) = None).
  { intros st self0 (? & He)%modem_error_sends. split; [done|]. rewrite He. intros m Hm.
    destruct (Modem.state self0); try (by apply not_elem_of_nil in Hm);
      by apply list_elem_of_singleton in Hm as ->. }
  unfold Modem.accepted in H. destruct event; try done; unfold Modem.dispatch in H.
  all: try (destruct (Modem.state self); try match goal with k : TimerKind |- _ => destruct k end;
    split_result H; no_reset; (split; [done|]); by apply plain_sends).
  2:{ by eapply Herr. }
  unfold Modem.guard_message in H.
  destruct (Modem.state self) eqn:Hs; try (split_result H; split; [done|]; by apply plain_sends).
  - destruct (if negb _ then _ else _); [by eapply Herr|].
    destruct (Modem.check_message self msg); [|by eapply Herr|done].
    destruct (_ =? _); [|split_result H; split; [done|]; by apply plain_sends].
    unfold Modem.on_session_initialization, Modem.build_session_initialization_response in H.
    injection H as <- <-. rewrite push_metric_items_items. unfold push_extensions_supported.
    no_reset; destruct (negb _), (is_empty_list _); (split; [done|]); by apply plain_sends.
  - destruct (if negb _ then _ else _); [by eapply Herr|].
    destruct (Modem.check_message self msg); [|by eapply Herr|done].
    apply modem_in_session_sends in H as [Hr He]; [|done]. split; [done|]. apply plain_sends. rewrite He.
    apply modem_reply_plain.
  - destruct (_ =? _); split_result H; (split; [done|]); by apply plain_sends.
Qed.

(** A rejection comes from [check_command] and nothing else. *)
Lemma modem_rejected event self s' acts r :
  Modem.step event self = Ok (s', acts) -> Emit (CommandRejected r) ∈ acts ->
  Modem.check_command self event = Err (reason r)
  /\ s' = self /\ acts = [Emit (CommandRejected r)] /\ command event = Some (command_info r).
Proof.
  unfold Modem.step. intros H Hin%elem_of_rejections. destruct (command event) as [info|] eqn:Hc.
  - destruct (Modem.check_command self event) as [[]|e|] eqn:Hk; [| |done].
    + apply (modem_command_sends _ _ _ _ _ Hc Hk) in H as [Hr _]. rewrite Hr in Hin. set_solver.
    + injection H as <- <-. cbn in Hin. apply list_elem_of_singleton in Hin as ->. done.
  - apply (modem_event_sends _ _ _ _ Hc) in H as [Hr _]. rewrite Hr in Hin. set_solver.
Qed.

(** C12: Rejected commands are atomic.  When a step of a router or a modem reports a rejected
    command, the rejection names that command, it is the only action, and the session is
    exactly as before. *)
Theorem rejection_atomic event acts r :
  Emit (CommandRejected r) ∈ acts ->
  (forall self s', Router.step event self = Ok (s', acts) ->
     s' = self /\ acts = [Emit (CommandRejected r)] /\ command event = Some (command_info r))
  /\ (forall self s', Modem.step event self = Ok (s', acts) ->
     s' = self /\ acts = [Emit (CommandRejected r)] /\ command event = Some (command_info r)).
Proof.
  intros Hin. split; intros self s' H.
  - by apply (router_rejected event self s' acts r).
  - by apply (modem_rejected event self s' acts r).
Qed.

Lemma modem_serialised event self s' acts :
  Modem.step event self = Ok (s', acts) ->
  serialised (Modem.tx self) (Modem.tx s') (sent acts).
Proof.
  unfold Modem.step. intros H. destruct (command event) as [info|] eqn:Hc.
  - destruct (Modem.check_command self event) as [[]|e|] eqn:Hk; [| |done].
    + by apply (modem_command_sends _ _ _ _ _ Hc Hk) in H as [_ Hr].
    + injection H as <- <-. intros m k Hm. by apply not_elem_of_nil in Hm.
  - apply (modem_event_sends _ _ _ _ Hc) in H as [_ Hr]. intros m k Hm Hk.
    rewrite (Hr m Hm) in Hk. done.
Qed.

(** C11: Requests are serialised.  Every request a step of a router or a modem sends found its
    scope (the session, or the destination it names) without an outstanding request, and
    is the outstanding request of that scope afterwards. *)
Theorem session_serialises event acts :
  (forall self s', Router.step event self = Ok (s', acts) ->
     serialised (Router.tx self) (Router.tx s') (sent acts))
  /\ (forall self s', Modem.step event self = Ok (s', acts) ->
       serialised (Modem.tx self) (Modem.tx s') (sent acts)).
Proof. split; intros self s'; [apply router_serialised|apply modem_serialised]. Qed.

(** C10: The modem answers every message.  In session, as for the router; in
    particular a successful Destination Up Response releases exactly the update
    that was held back, an Announce is answered with the destination's state or
    denied, and a Link Characteristics Request is denied or left to the
    application. *)
Theorem modem_answers msg self s' acts :
  Modem.state self = Modem.InSession ->
  Modem.step (RecvMessage msg) self = Ok (s', acts) ->
  sent acts
  = match (if negb (message_type msg =? MessageType.SESSION_TERMINATION)
           then fatal_status msg else None) with
    | Some item => [termination item]
    | None =>
        match Modem.check_message self msg with
        | Err code => [termination (Status code [])]
        | _ => modem_reply self msg
        end
    end.
Proof.
  intros Hs. unfold Modem.step. cbn [command Modem.accepted]. unfold Modem.guard_message.
  rewrite Hs. destruct (if negb _ then _ else _).
  { intros (_ & ->)%modem_error_sends. by rewrite Hs. }
  destruct (Modem.check_message self msg); [| |done].
  - unfold Modem.dispatch. rewrite Hs. intros [_ ->]%modem_in_session_sends; [|done]. apply built_reply_spec.
  - intros (_ & ->)%modem_error_sends. by rewrite Hs.
Qed.

(** Nothing is sent before the router speaks.  A modem that awaits the
    session's first message sends nothing, whatever happens, but the response to
    a Session Initialization that is valid and has no fatal status; with that
    response the session is established. *)
Theorem modem_waits event self s' acts :
  Modem.state self = Modem.AwaitingSessionInit ->
  Modem.step event self = Ok (s', acts) ->
  sent acts = []
  \/ exists msg, event = RecvMessage msg
       /\ message_type msg = MessageType.SESSION_INITIALIZATION
       /\ fatal_status msg = None /\ Modem.check_message self msg = Ok tt
       /\ sent acts = [Modem.build_session_initialization_response (Modem.config self)]
       /\ Modem.state s' = Modem.InSession.
Proof.
  intros Hs. unfold Modem.step. destruct (command event) as [info|].
  { unfold Modem.check_command. rewrite bool_decide_false by (rewrite Hs; done).
    intros [= <- <-]. by left. }
  unfold Modem.accepted, Modem.dispatch, Modem.guard_message. rewrite Hs.
  assert (Herr : forall st, Modem.protocol_error st self = Ok (s', acts) -> sent acts = []).
  { intros st [_ ->]%modem_error_sends. by rewrite Hs. }
  destruct event; try (intros [= <- <-]; by left).
  - destruct (Z.eqb_spec (message_type msg) MessageType.SESSION_INITIALIZATION) as [Ht|Ht].
    + rewrite Ht. rewrite (eq_refl : negb (MessageType.SESSION_INITIALIZATION =? MessageType.SESSION_TERMINATION) = true).
      destruct (fatal_status msg) eqn:Hf; [intros H; left; by eapply Herr|].
      destruct (Modem.check_message self msg) as [[]| |] eqn:Hk; [|intros H; left; by eapply Herr|done].
      intros [= <- <-]. right. exists msg. do 4 (split; [done|]). split; [|done].
      no_reset; by destruct (negb _).
    + destruct (if negb _ then _ else _); [intros H; left; by eapply Herr|].
      destruct (Modem.check_message self msg); [|intros H; left; by eapply Herr|done].
      intros [= <- <-]. by left.
  - intros H. left. by eapply Herr.
  - match goal with k : TimerKind |- _ => destruct k end; intros [= <- <-]; by left.
Qed.

(** A closing session is silent.  Once a session of either role terminates or
    has terminated, no event makes it send another message. *)
Theorem closing_is_silent event :
  (forall self s' acts, Router.state self = Router.Terminating \/ Router.state self = Router.Terminated ->
     Router.step event self = Ok (s', acts) -> sent acts = [])
  /\ (forall self s' acts, Modem.state self = Modem.Terminating \/ Modem.state self = Modem.Terminated ->
     Modem.step event self = Ok (s', acts) -> sent acts = []).
Proof.
  split; intros self s' acts Hs.
  - unfold Router.step, Router.check_command, Router.accepted, Router.dispatch, Router.guard_message,
      Router.protocol_error.
    destruct Hs as [Hs|Hs]; rewrite Hs; cbn [negb bool_decide decide decide_rel];
      destruct event; cbn [command]; intros H; try (by injection H as <- <-);
      try (destruct (_ =? _); by injection H as <- <-);
      match goal with k : TimerKind |- _ => destruct k end; by injection H as <- <-.
  - unfold Modem.step, Modem.check_command, Modem.accepted, Modem.dispatch, Modem.guard_message,
      Modem.protocol_error.
    destruct Hs as [Hs|Hs]; rewrite Hs; cbn [negb bool_decide decide decide_rel];
      destruct event; cbn [command]; intros H; try (by injection H as <- <-);
      try (destruct (_ =? _); by injection H as <- <-);
      match goal with k : TimerKind |- _ => destruct k end; by injection H as <- <-.
Qed.

End Modem.

(** ** Witnesses *)

#[local] Existing Instance reference_crates.

(** A step that was evaluated. *)
Ltac evaluated H :=
  match goal with |- context [?step ?e ?s = Ok (_, _)] =>
    destruct (step e s) as [[s' acts]| |] eqn:H; [|exfalso; by vm_compute in H..] end.

Definition drop_unknown : FsmEvent := AppDropDestination sample_mac StatusCode.SUCCESS.

Lemma rejection_atomic_witness :
  exists s' acts, Modem.step drop_unknown sample_modem = Ok (s', acts) /\ s' = sample_modem.
Proof.
  evaluated E. exists s', acts. split; [reflexivity|].
  assert (Ha : (fun r => match r with Ok (_, a) => a | _ => [] end) (Modem.step drop_unknown sample_modem)
    = [Emit (CommandRejected (mkRejection (mkCommandInfo KDropDestination (Some sample_mac))
         UnknownDestination))]) by (vm_compute; reflexivity).
  rewrite E in Ha.
  apply (rejection_atomic drop_unknown acts
    (mkRejection (mkCommandInfo KDropDestination (Some sample_mac)) UnknownDestination)); [|exact E].
  rewrite Ha. left.
Defined.

Definition add_event : FsmEvent :=
  AppAddDestination sample_mac sample_metrics (mkAddrs [167772161] [] [] []).

Lemma session_serialises_witness :
  (exists s' acts, Router.step (AppAnnounceDestination sample_mac) sample_router = Ok (s', acts)
     /\ serialised (Router.tx sample_router) (Router.tx s') (sent acts))
  /\ exists s' acts, Modem.step add_event sample_modem = Ok (s', acts)
     /\ serialised (Modem.tx sample_modem) (Modem.tx s') (sent acts).
Proof.
  split; evaluated E; exists s', acts; (split; [reflexivity|]).
  - exact (proj1 (session_serialises _ acts) sample_router s' E).
  - exact (proj2 (session_serialises _ acts) sample_modem s' E).
Defined.

Lemma router_answers_witness :
  exists s' acts, Router.step up_event sample_router = Ok (s', acts)
    /\ sent acts = [build_destination_up_response sample_mac StatusCode.SUCCESS].
Proof.
  evaluated E. exists s', acts. split; [reflexivity|].
  rewrite (router_answers _ sample_router s' acts sample_router_in_session E).
  vm_compute. reflexivity.
Defined.

Lemma modem_answers_witness :
  exists s' acts,
    Modem.step (RecvMessage (build_destination_announce sample_mac)) sample_modem = Ok (s', acts)
    /\ sent acts = [build_destination_announce_response sample_mac StatusCode.REQUEST_DENIED].
Proof.
  evaluated E. exists s', acts. split; [reflexivity|].
  rewrite (modem_answers _ sample_modem s' acts sample_modem_in_session E).
  vm_compute. reflexivity.
Defined.

Lemma modem_waits_witness :
  exists s' acts, Modem.step (RecvMessage build_heartbeat) (modem_after [TcpAccepted]) = Ok (s', acts)
    /\ sent acts = [].
Proof.
  evaluated E. exists s', acts. split; [reflexivity|].
  destruct (modem_waits (RecvMessage build_heartbeat) (modem_after [TcpAccepted]) s' acts)
    as [H|(msg & Hm & Ht & _)]; [vm_compute; reflexivity|exact E|exact H|].
  exfalso. injection Hm as <-. by vm_compute in Ht.
Defined.

Lemma closing_is_silent_witness :
  let closing := router_after (router_events ++ [AppShutdown StatusCode.SHUTTING_DOWN]) in
  exists s' acts, Router.step up_event closing = Ok (s', acts) /\ sent acts = [].
Proof.
  intros closing. evaluated E. exists s', acts. split; [reflexivity|].
  apply (proj1 (closing_is_silent up_event) closing s' acts); [left; vm_compute; reflexivity|exact E].
Defined.
