(* ===== verification/SessionWire.v ===== *)
(** * What the session state machines put on the wire

    The runtime ends a session when a message cannot be encoded
    ([write_message] of [dlep-daemon/src/session.rs]), so what a step sends has
    to have a wire form.  Everything a router sends has one.  A modem checks its
    destination reports as a Destination Up, but sends changes as a Destination
    Update, which can be twice as long. *)

From S2P Require Import Prelude Externs CoreTypes Codec CodecItem CodecMessage Addresses Events.
From S2P Require Import SessionCommon Validation SessionFacts SessionRouter SessionModem Lifecycle.
From S2P Require Import RouterInv ModemInv Samples Sessions SessionSteps.
Import DataItem.

(** Status codes of protocol violations. *)
Definition violation (code : StatusCode) : Prop :=
  code ∈ [StatusCode.UNKNOWN_MESSAGE; StatusCode.UNEXPECTED_MESSAGE; StatusCode.INVALID_DATA;
          StatusCode.INVALID_DESTINATION].

Lemma violation_u8 code : violation code -> is_u8 code.
Proof.
  unfold violation. rewrite !elem_of_cons, elem_of_nil.
  intros [->|[->|[->|[->|[]]]]]; by unfold is_u8, u8_max.
Qed.

(** An outcome whose errors are violations. *)
Definition violates {A} (r : outcome StatusCode A) : Prop := forall code, r = Err code -> violation code.

Lemma violates_Ok {A} (a : A) : violates (Ok a).
Proof. intros code [=]. Qed.
Lemma violates_Err {A} code : violation code -> violates (Err code : outcome StatusCode A).
Proof. intros H code' [= <-]. exact H. Qed.
Lemma violates_bind {A B} (r : outcome StatusCode A) (k : A -> outcome StatusCode B) :
  violates r -> (forall a, violates (k a)) -> violates (r ≫= k).
Proof. intros Hr Hk. destruct r; cbn; [apply Hk|intros code [= <-]; by apply Hr|intros code [=]]. Qed.
Lemma violates_if {A} (b : bool) (r s : outcome StatusCode A) :
  violates r -> violates s -> violates (if b then r else s).
Proof. by destruct b. Qed.
Lemma violates_map_err {E A} code (r : outcome E A) :
  violation code -> violates (map_err (fun _ => code) r).
Proof. intros H. destruct r; cbn; [apply violates_Ok|by apply violates_Err|intros code' [=]]. Qed.

Create HintDb violates.
#[export] Hint Resolve violates_Ok violates_Err violates_bind violates_if violates_map_err : violates.
#[export] Hint Extern 1 (violation _) => by vm_compute; set_solver : violates.

Section Violations.
Context {crates : Crates}.

Lemma violates_validate c : violates (validate c).
Proof. unfold validate. auto 10 with violates. Qed.

Lemma violates_apply_strict c cur : violates (apply_strict c cur).1.
Proof.
  unfold apply_strict. pose proof (violates_validate c) as Hv.
  destruct (validate c) eqn:E; [|intros code [= <-]; by apply Hv|intros code [=]].
  destruct (_ || _); cbn; auto with violates.
Qed.

Lemma violates_item msg r i exts s item : violates (validate_item msg r i exts s item).
Proof.
  unfold validate_item. destruct s. destruct (DataItem_encode item []).
  auto 12 with violates.
Qed.

Lemma violates_items msg r i exts items s : violates (validate_items msg r i exts s items).
Proof.
  revert s. induction items as [|item items IH]; intros s; cbn; [auto with violates|].
  apply violates_bind; [apply violates_item|done].
Qed.

Lemma violates_message msg r i exts : violates (validate_message msg r i exts).
Proof.
  unfold validate_message. do 2 (apply violates_if; [auto with violates|]).
  apply violates_bind; [apply violates_items|]. intros []. auto 8 with violates.
Qed.

Lemma violates_transaction msg t known : violates (validate_transaction msg t known).
Proof.
  unfold validate_transaction. do 2 (apply violates_if; [auto with violates|]).
  destruct (extract_destination_mac msg); [|auto with violates].
  destruct (response_kind _); auto 10 with violates.
Qed.

Lemma violates_format msg f : violates (validate_mac_format msg f).
Proof. unfold validate_mac_format. auto with violates. Qed.

Lemma router_check_violates self msg : violates (Router.check_message self msg).
Proof.
  unfold Router.check_message.
  repeat first [ apply violates_message | apply violates_format | apply violates_apply_strict
    | apply violates_transaction | apply violates_bind; [|intros ?] | apply violates_if ];
    auto with violates.
Qed.

End Violations.

(** ** Messages that have a wire form *)

(** Constants in range. *)
Ltac code_range := by unfold is_u16, u16_max, is_u8, u8_max.

Section Fits.
Context {crates : Crates}.

Definition fits (m : Message) : Prop := is_ok (Message_encode m) = true.

Lemma fits_encodable m :
  is_message m -> message_encodable (msg_items m) = true -> fits m.
Proof.
  intros Hm He. pose proof (Message_encode_spec m Hm) as H. rewrite He in H. unfold fits. by rewrite H.
Qed.

Lemma encodable_fits m :
  is_message m -> fits m -> message_encodable (msg_items m) = true.
Proof.
  intros Hm He. unfold fits in He. pose proof (Message_encode_spec m Hm) as H.
  destruct (message_encodable _); [done|]. destruct H as [e H]. by rewrite H in He.
Qed.

Lemma len_wire_cons i l : len (wire_items (i :: l)) = 4 + len (value_bytes i) + len (wire_items l).
Proof.
  unfold wire_items, len. rewrite bind_cons, length_app. unfold wire_item at 1.
  rewrite length_wire_raw. cbn [to_raw raw_value]. lia.
Qed.

(** The body length of a list of items that is written out. *)
Ltac body_length :=
  unfold message_encodable, with_item, Message_new; cbn [msg_items app];
  rewrite ?len_wire_cons, !andb_true_iff; unfold len, u16_max in *;
  cbn -[Z.leb Z.add Z.of_nat]; unfold len, u16_max in *; rewrite ?andb_true_r, ?Z.leb_le;
  split_and?; done || lia.

Lemma length_mac mac : is_mac mac -> (length (mac_as_bytes mac) <= 8)%nat.
Proof. destruct mac; intros [_ H]; cbn; lia. Qed.

(** An empty message, one with a status, with a MAC, with both. *)
Lemma fits_empty t : is_u16 t -> fits (Message_new t).
Proof. intros Ht. apply fits_encodable; [|done]. split; [done|by constructor]. Qed.

Lemma fits_status t code text :
  is_u16 t -> is_item (Status code text) -> 5 + len text <= u16_max ->
  fits (with_item (Message_new t) (Status code text)).
Proof.
  intros Ht Hi Hl. apply fits_encodable; [split; [done|by apply Forall_singleton]|].
  body_length.
Qed.

Lemma fits_mac t mac : is_u16 t -> is_mac mac -> fits (with_item (Message_new t) (MacAddress mac)).
Proof.
  intros Ht Hm. pose proof (length_mac mac Hm). apply fits_encodable; [split; [done|by apply Forall_singleton]|].
  body_length.
Qed.

Lemma fits_mac_status t mac code :
  is_u16 t -> is_mac mac -> is_u8 code ->
  fits (with_item (with_item (Message_new t) (MacAddress mac)) (status_item code)).
Proof.
  intros Ht Hm Hc. pose proof (length_mac mac Hm).
  apply fits_encodable; [split; [done|]|].
  { constructor; [done|]. by apply Forall_singleton. }
  body_length.
Qed.

Lemma len_wire_elem i l : i ∈ l -> 4 + len (value_bytes i) <= len (wire_items l).
Proof.
  induction l as [|j l IH]; [by intros ?%elem_of_nil|]. rewrite len_wire_cons, elem_of_cons.
  intros [->|H].
  - pose proof (len_nonneg (wire_items l)). lia.
  - specialize (IH H). pose proof (len_nonneg (value_bytes j)). lia.
Qed.

(** The status a received message carried can be sent back. *)
Lemma fits_echo msg item :
  is_message msg -> fits msg -> fatal_status msg = Some item -> fits (termination item).
Proof.
  intros Hm Hf H. destruct (fatal_status_status _ _ H) as (code & text & ->).
  apply find_map_Some in H as (i & Hi & H). destruct i; try done.
  destruct (StatusCode.terminates_session _); [|done]. injection H as -> ->.
  pose proof (encodable_fits _ Hm Hf) as He. destruct Hm as [_ Hm].
  rewrite Forall_forall in Hm.
  apply fits_status; [by unfold is_u16, u16_max|by apply Hm|].
  unfold message_encodable in He. bprop.
  pose proof (len_wire_elem _ _ Hi) as Hle. cbn [value_bytes] in Hle. rewrite len_cons in Hle. lia.
Qed.

Lemma fits_checked m : is_ok (Message_encode m) = true -> fits m.
Proof. done. Qed.

#[local] Opaque fits.

(** Answers of a router. *)
Lemma router_reply_fits msg : is_message msg -> Forall fits (router_reply msg).
Proof.
  intros [_ Hm]. assert (Hmac : forall mac, extract_destination_mac msg = Some mac -> is_mac mac).
  { intros mac (i & Hi & H)%find_map_Some. rewrite Forall_forall in Hm. specialize (Hm i Hi).
    destruct i; try done. by injection H as ->. }
  unfold router_reply. destruct (extract_destination_mac msg) as [mac|];
    [specialize (Hmac mac eq_refl)|clear Hmac]; cbn [opt_list fmap list_fmap];
    repeat destruct (_ =? _); try destruct (one_of _ _);
    first [ apply Forall_nil; exact I | apply Forall_singleton ];
    first [ apply fits_empty | apply fits_mac_status | apply fits_status ]; code_range.
Qed.

End Fits.

(** ** The initialization messages *)

(** The items of both initialization messages that describe the sender. *)
Definition peer_items (c : SessionConfig) : list DataItem :=
  [HeartbeatInterval (local_heartbeat_interval c); PeerType (mkPeerFlags false) (peer_description c)]
  ++ (if is_empty_list (advertised_extensions c) then []
      else [ExtensionsSupported (advertised_extensions c)]).

(** Their octets: the header of an item is four. *)
Definition peer_octets (c : SessionConfig) : Z :=
  8 + (5 + len (peer_description c))
  + match advertised_extensions c with [] => 0 | ids => 4 + 2 * len ids end.
Definition metric_octets (m : LinkMetrics) : Z :=
  60 + (if resources m then 5 else 0) + (if rlq_rx m then 5 else 0) + (if rlq_tx m then 5 else 0)
  + (if mtu m then 6 else 0).

(** Metrics the wire can express: a latency in microseconds of eight octets, and
    percentages. *)
Definition metrics_expressible (m : LinkMetrics) : Prop :=
  as_micros (latency m) < 2 ^ 64
  /\ (forall v, resources m = Some v -> v <= 100) /\ (forall v, rlq_rx m = Some v -> v <= 100)
  /\ (forall v, rlq_tx m = Some v -> v <= 100).

Section Initialization.
Context {crates : Crates}.

Lemma init_items c :
  Router.build_session_initialization c
  = mkMessage MessageType.SESSION_INITIALIZATION (peer_items c).
Proof.
  unfold Router.build_session_initialization, push_extensions_supported, peer_items.
  by destruct (is_empty_list _).
Qed.

Lemma response_items c :
  Modem.build_session_initialization_response c
  = mkMessage MessageType.SESSION_INITIALIZATION_RESPONSE
      (Status StatusCode.SUCCESS [] :: peer_items c ++ metric_items (initial_metrics c)).
Proof.
  unfold Modem.build_session_initialization_response. rewrite push_metric_items_items.
  unfold push_extensions_supported, peer_items. by destruct (is_empty_list _).
Qed.

Lemma peer_items_ok c : is_config c -> Forall is_item (peer_items c).
Proof.
  intros (Hd & _ & Hh & _ & _ & Hx). unfold peer_items. apply Forall_app. split.
  - constructor; [|by apply Forall_singleton]. cbn. unfold local_heartbeat_interval.
    revert Hh. unfold is_u32, is_duration, u32_max, Duration_MAX, u64_max, from_millis, MIN_HEARTBEAT_INTERVAL_MS.
    lia.
  - destruct (is_empty_list _); [constructor|by apply Forall_singleton].
Qed.

Lemma len_wire_app l k : len (wire_items (l ++ k)) = len (wire_items l) + len (wire_items k).
Proof. unfold wire_items, len. rewrite bind_app, length_app. lia. Qed.

Lemma len_peer_items c : len (wire_items (peer_items c)) = peer_octets c.
Proof.
  unfold peer_items, peer_octets. rewrite len_wire_app, !len_wire_cons. cbn [value_bytes].
  destruct (advertised_extensions c) as [|x ids]; cbn [is_empty_list]; rewrite ?len_wire_cons; cbn [value_bytes].
  - unfold len. cbn [length]. rewrite length_to_be_bytes. cbn. lia.
  - unfold len. rewrite length_ids, length_to_be_bytes. cbn [length wire_items mbind list_bind]. lia.
Qed.

Lemma heartbeat_encodable c : is_config c -> encodable (HeartbeatInterval (local_heartbeat_interval c)) = true.
Proof.
  intros (_ & _ & Hh & _). unfold local_heartbeat_interval. cbn [encodable]. rewrite millis_of_millis.
  revert Hh. unfold is_u32, u32_max, MIN_HEARTBEAT_INTERVAL_MS. rewrite andb_true_iff, !Z.leb_le. lia.
Qed.

Lemma peer_items_encodable c : is_config c -> peer_octets c <= u16_max -> all encodable (peer_items c) = true.
Proof.
  intros Hc Hl. unfold peer_items. rewrite forallb_app. cbn [forallb]. rewrite heartbeat_encodable by done.
  unfold peer_octets in Hl. pose proof (len_nonneg (peer_description c)).
  destruct (advertised_extensions c) as [|x ids] eqn:E; cbn [is_empty_list forallb encodable andb];
    rewrite ?andb_true_r; rewrite ?andb_true_iff, ?Z.leb_le; [lia|].
  pose proof (len_nonneg (x :: ids)). split; lia.
Qed.

Lemma len_metric_items m : len (wire_items (metric_items m)) = metric_octets m.
Proof.
  destruct m as [v1 v2 v3 v4 v5 o6 o7 o8 o9]. unfold metric_octets. cbn [resources rlq_rx rlq_tx mtu].
  destruct o6, o7, o8, o9; reflexivity.
Qed.

Lemma metric_items_encodable m : all encodable (metric_items m) = true <-> metrics_expressible m.
Proof.
  destruct m as [v1 v2 v3 v4 v5 o6 o7 o8 o9]. unfold metrics_expressible, metric_items.
  cbn [max_data_rate_rx_bps max_data_rate_tx_bps current_data_rate_rx_bps current_data_rate_tx_bps
       latency resources rlq_rx rlq_tx mtu].
  rewrite !forallb_app. destruct o6, o7, o8, o9; cbn [opt_list fmap list_fmap forallb encodable];
    rewrite !andb_true_iff, ?Z.leb_le; unfold u64_max; split; intros H; split_and!; try done;
    try (intros ? [= <-]); try lia; try naive_solver lia.
Qed.

(** Exactly when the two messages can be sent. *)
Lemma init_fits c :
  is_config c -> fits (Router.build_session_initialization c) <-> peer_octets c <= 65535.
Proof.
  intros Hc. rewrite init_items.
  assert (Hm : is_message (mkMessage MessageType.SESSION_INITIALIZATION (peer_items c)))
    by (split; [code_range|by apply peer_items_ok]).
  split.
  - intros Hf%encodable_fits; [|done]. unfold message_encodable in Hf. cbn [msg_items] in Hf.
    rewrite len_peer_items in Hf. bprop. unfold u16_max in *. lia.
  - intros Hl. apply fits_encodable; [done|]. unfold message_encodable. cbn [msg_items].
    rewrite len_peer_items, peer_items_encodable by (done || (unfold u16_max; lia)).
    apply Z.leb_le. unfold u16_max. lia.
Qed.

Lemma response_fits c :
  is_config c ->
  fits (Modem.build_session_initialization_response c)
  <-> metrics_expressible (initial_metrics c) /\ 5 + peer_octets c + metric_octets (initial_metrics c) <= 65535.
Proof.
  intros Hc. rewrite response_items, <-metric_items_encodable.
  assert (Hm : is_message (mkMessage MessageType.SESSION_INITIALIZATION_RESPONSE
    (Status StatusCode.SUCCESS [] :: peer_items c ++ metric_items (initial_metrics c)))).
  { split; [code_range|]. constructor; [by split; [code_range|]|]. apply Forall_app.
    split; [by apply peer_items_ok|]. apply metric_items_ok, Hc. }
  assert (He : message_encodable (Status StatusCode.SUCCESS [] :: peer_items c ++ metric_items (initial_metrics c)) = true
    <-> all encodable (peer_items c) = true /\ all encodable (metric_items (initial_metrics c)) = true
        /\ 5 + peer_octets c + metric_octets (initial_metrics c) <= 65535).
  { unfold message_encodable. rewrite len_wire_cons, len_wire_app, len_peer_items, len_metric_items.
    cbn [forallb encodable value_bytes]. rewrite forallb_app, !andb_true_iff, !Z.leb_le.
    unfold u16_max, len. cbn. intuition lia. }
  split.
  - intros Hf%encodable_fits; [|done]. apply He in Hf. tauto.
  - intros [Hq Hl]. apply fits_encodable; [done|]. apply He. split_and!; [|done|done].
    apply peer_items_encodable; [done|]. unfold u16_max.
    assert (0 <= metric_octets (initial_metrics c)); [|lia].
    rewrite <-len_metric_items. apply len_nonneg.
Qed.
End Initialization.


(** ** The router *)

Section RouterWire.
Context {crates : Crates}.

(** What the runtime and the application may hand to a router: messages that were
    read from the wire, codes of one octet, MAC addresses. *)
Definition router_input (e : FsmEvent) : Prop :=
  match e with
  | RecvMessage msg => is_message msg /\ fits msg
  | ProtocolError code | AppShutdown code => is_u8 code
  | AppDropDestination mac _ | AppAnnounceDestination mac => is_mac mac
  | _ => True
  end.

Lemma router_error_fits status self s' acts :
  Router.protocol_error status self = Ok (s', acts) -> fits (termination status) ->
  Router.config s' = Router.config self /\ Forall fits (sent acts).
Proof.
  intros H Hf. pose proof (router_error_sends _ _ _ _ H) as (_ & _ & ->).
  unfold Router.protocol_error in H. destruct status; try done.
  destruct (Router.state self); injection H as <- <-; cbn; auto.
Qed.

Lemma router_in_session_config msg self s' acts :
  Router.in_session_message msg self = Ok (s', acts) -> Router.config s' = Router.config self.
Proof.
  unfold Router.in_session_message, Router.on_session_termination, Router.on_destination_up,
    Router.on_destination_update, Router.on_destination_down, Router.on_destination_down_response,
    Router.on_session_update, Router.on_session_update_response, Router.on_announce_response,
    Router.on_link_characteristics_response, Router.protocol_error.
  intros H. repeat destruct (_ =? _); split_result H; try done.
  - destruct (merge_link_metrics _ _). by injection H as <- <-.
  - destruct (apply_strict _ _) as [[] ?]; [|done|done].
    destruct (merge_link_metrics _ _) as [[] ?]; by injection H as <- <-.
  - destruct (bool_decide _); by injection H as <- <-.
  - destruct p. by injection H as <- <-.
  - destruct (Router.state self); by injection H as <- <-.
Qed.

(** Commands: what their check encodes is what is sent. *)
Lemma router_command_fits event self s' acts info :
  router_input event -> command event = Some info -> Router.check_command self event = Ok tt ->
  Router.accepted event self = Ok (s', acts) ->
  Router.config s' = Router.config self /\ Forall fits (sent acts).
Proof.
  intros Hin Hc Hk. unfold Router.check_command in Hk.
  destruct (decide (Router.state self = Router.InSession)) as [Hs|Hs];
    [rewrite bool_decide_true in Hk by done|by rewrite bool_decide_false in Hk].
  assert (Hopen : forall mac k m, fits m -> Router.open_and_send mac k m self = Ok (s', acts) ->
    Router.config s' = Router.config self /\ Forall fits (sent acts)).
  { intros mac k m Hm. unfold Router.open_and_send. destruct (open_destination _ _ _) as [[] ?]; try done.
    intros [= <- <-]. split; [done|]. cbn. by apply Forall_singleton. }
  destruct event; try done; cbn [negb] in Hk; cbn in Hc; unfold Router.accepted, Router.dispatch;
    rewrite Hs; cbn [command expect mbind outcome_bind] in Hk.
  - apply Hopen. apply fits_mac; [code_range|done].
  - unfold Router.on_app_session_addresses, apply_local_address_update.
    cbn [destination] in Hk. destruct (session_busy (Router.tx self)); [done|].
    cbn [mbind outcome_bind] in Hk. rewrite Hk.
    destruct (AddressChanges_is_empty _); [intros [= <- <-]; by repeat constructor|].
    destruct (open_session _ _) as [[] ?]; [|done|done]. intros [= <- <-]. split; [done|].
    cbn. apply Forall_singleton. unfold validate_local_address_update in Hk.
    destruct (map_err _ (validate changes)); [|done|done]. cbn [mbind outcome_bind] in Hk.
    apply fits_checked. by destruct (Message_encode _).
  - apply Hopen. apply fits_mac; [code_range|done].
  - cbn [destination] in Hk. destruct (negb (accepts _ _)); [done|].
    destruct (destination_busy _ _); [done|].
    cbn [mbind outcome_bind] in Hk. destruct (negb (Router.destination_is_up _ _)); [done|].
    destruct (LinkCharacteristics_is_empty _); [done|]. apply Hopen.
    apply fits_checked. by destruct (Message_encode _).
Qed.

Lemma fits_code code : is_u8 code -> fits (termination (Status code [])).
Proof. intros Hcode. apply fits_status; [code_range|by split|by unfold len, u16_max]. Qed.

Lemma router_message_fits msg self s' acts k :
  is_message msg -> fits msg ->
  (Router.check_message self msg = Ok tt -> k = Ok (s', acts) ->
   Router.config s' = Router.config self /\ Forall fits (sent acts)) ->
  (Router.state self <> Router.SessionInitPending -> Router.state self <> Router.InSession ->
   k = Ok (s', acts) -> Router.config s' = Router.config self /\ Forall fits (sent acts)) ->
  Router.guard_message msg self k = Ok (s', acts) ->
  Router.config s' = Router.config self /\ Forall fits (sent acts).
Proof.
  intros Hm Hf Hk Hk'.
  assert (Hg : match (if negb (message_type msg =? MessageType.SESSION_TERMINATION)
                      then fatal_status msg else None) with
               | Some item => Router.protocol_error item self
               | None =>
                   match Router.check_message self msg with
                   | Ok _ => k
                   | Err code => Router.protocol_error (Status code []) self
                   | Panic => Panic
                   end
               end = Ok (s', acts) ->
               Router.config s' = Router.config self /\ Forall fits (sent acts)).
  { destruct (if negb _ then _ else _) as [item|] eqn:Hfs.
    - destruct (negb _); [|done]. intros H. eapply router_error_fits; [exact H|]. by eapply fits_echo.
    - pose proof (router_check_violates self msg) as Hv.
      destruct (Router.check_message self msg) as [[]|code|]; [by apply Hk| |done].
      intros H. eapply router_error_fits; [exact H|]. by apply fits_code, violation_u8, Hv. }
  unfold Router.guard_message. destruct (Router.state self); auto.
Qed.

Lemma router_step_fits event self s' acts :
  router_input event ->
  (event = TcpConnected -> fits (Router.build_session_initialization (Router.config self))) ->
  Router.step event self = Ok (s', acts) ->
  Router.config s' = Router.config self /\ Forall fits (sent acts).
Proof.
  intros Hin Hinit. unfold Router.step. destruct (command event) eqn:Hc.
  { destruct (Router.check_command self event) as [[]| |] eqn:Hk; [by eapply router_command_fits| |done].
    intros [= <- <-]. by repeat constructor. }
  unfold Router.accepted. destruct event; try done; try specialize (Hinit eq_refl).
  - destruct Hin as [Hm Hf]. apply router_message_fits; [done..| |]; unfold Router.dispatch.
    + intros Hk. destruct (Router.state self) eqn:Hs; try (intros [= <- <-]; by repeat constructor).
      * destruct (_ =? _); [|intros [= <- <-]; by repeat constructor].
        unfold Router.on_init_response. destruct (negb _).
        -- intros H. eapply router_error_fits; [exact H|].
           apply fits_status; [code_range|by split|by unfold len, u16_max].
        -- intros [= <- <-]. split; [done|]. no_reset; destruct (negb _); constructor.
      * intros H. split; [by eapply router_in_session_config|].
        apply router_in_session_sends in H as [_ ->]; [|done]. by apply router_reply_fits.
      * destruct (_ =? _); intros [= <- <-]; by repeat constructor.
    + destruct (Router.state self); try done; intros _ _; try (intros [= <- <-]; by repeat constructor).
      destruct (_ =? _); intros [= <- <-]; by repeat constructor.
  - unfold Router.dispatch. destruct (Router.state self); intros [= <- <-]; (split; [done|]);
      no_reset; constructor.
  - intros H. eapply router_error_fits; [exact H|]. by apply fits_code.
  - unfold Router.dispatch. destruct (Router.state self); intros [= <- <-]; by repeat constructor.
  - unfold Router.dispatch. destruct (Router.state self); intros [= <- <-]; (split; [done|]);
      by repeat constructor.
  - unfold Router.dispatch. destruct (Router.state self); intros [= <- <-]; by repeat constructor.
  - unfold Router.dispatch. destruct (Router.state self); intros [= <- <-]; by repeat constructor.
  - unfold Router.dispatch. destruct (Router.state self);
      match goal with k : TimerKind |- _ => destruct k end; intros [= <- <-]; (split; [done|]);
      first [ apply Forall_nil; exact I | apply Forall_singleton ];
      [apply (fits_empty MessageType.HEARTBEAT)|apply (fits_code StatusCode.TIMED_OUT)]; code_range.
  - unfold Router.dispatch. destruct (Router.state self); intros [= <- <-]; by repeat constructor.
  - unfold Router.dispatch. destruct (Router.state self); intros [= <- <-]; (split; [done|]);
      first [ apply Forall_nil; exact I | apply Forall_singleton ]. by apply fits_code.
Qed.

(** The first message of a router. *)
Lemma router_connect_sends self s' acts :
  Router.step TcpConnected self = Ok (s', acts) ->
  Router.config s' = Router.config self
  /\ Forall (eq (Router.build_session_initialization (Router.config self))) (sent acts).
Proof.
  unfold Router.step. cbn [command Router.accepted]. unfold Router.dispatch.
  destruct (Router.state self); intros [= <- <-]; by repeat constructor.
Qed.

(** C13: Everything a router sends can be put on the wire.  In every run of a router on
    inputs in range (messages read from the wire, one-octet codes, MAC addresses) every
    message it sends can be encoded, so that no send makes the runtime give the session
    up, with one exception: the Session Initialization, which can be encoded exactly
    when the configured description and extensions, with the heartbeat interval, take at
    most 65535 octets.  The configuration is not checked for it. *)
Theorem router_sends_encode c es acts self armed :
  router_run c es acts self armed -> is_config c -> Forall router_input es ->
  (forall m, SendMessage m ∈ acts ->
     (exists bs, Message_encode m = Ok bs)
     \/ m = Router.build_session_initialization c /\ 65535 < peer_octets c)
  /\ ((exists bs, Message_encode (Router.build_session_initialization c) = Ok bs) <-> peer_octets c <= 65535).
Proof.
  intros Hr Hc Hes. split.
  2: { rewrite <-(init_fits c Hc). unfold fits. destruct (Message_encode _); cbn; split; try done; [eauto|..];
         by intros [? ?]. }
  enough (Router.config self = c
    /\ Forall (fun m => fits m \/ m = Router.build_session_initialization c) (sent acts)) as [_ Hf].
  { intros m Hm%elem_of_sent. rewrite Forall_forall in Hf.
    assert (Hfm : fits m \/ 65535 < peer_octets c /\ m = Router.build_session_initialization c).
    { destruct (Hf m Hm) as [?| ->]; [by left|]. pose proof (init_fits c Hc).
      destruct (Z.le_gt_cases (peer_octets c) 65535); [left; tauto|right; auto]. }
    destruct Hfm as [Hfm|[Hl ->]]; [|by right].
    left. unfold fits in Hfm. destruct (Message_encode m); [eauto|done|done]. }
  unfold router_run in Hr. remember (Router.with_config c, ∅) as c0 eqn:Hc0.
  remember (self, armed) as c1 eqn:Hc1. revert self armed Hc1.
  induction Hr as [|c0 c1 c2 es e acts acts' _ IH Ht]; intros self armed Hc1; subst.
  { injection Hc1 as <- <-. split; [done|constructor]. }
  apply Forall_app in Hes as [Hes He]. rewrite Forall_singleton in He.
  inversion Ht as [e0 s armed0 s' a Htick Hstep]; subst.
  destruct (IH eq_refl Hes _ _ eq_refl) as [Hcfg Hf].
  assert (Hd : e = TcpConnected \/ e <> TcpConnected) by (destruct e; auto). destruct Hd as [->|Hne].
  - apply router_connect_sends in Hstep as [Hcfg' Hf']. rewrite Hcfg in Hcfg', Hf'. split; [done|].
    rewrite sent_app. apply Forall_app. split; [done|]. eapply Forall_impl; [exact Hf'|]. by right.
  - apply router_step_fits in Hstep as [Hcfg' Hf']; [|done|done]. rewrite Hcfg in Hcfg'. split; [done|].
    rewrite sent_app. apply Forall_app. split; [done|]. eapply Forall_impl; [exact Hf'|]. by left.
Qed.

End RouterWire.

(** ** The modem *)

Section ModemWire.
Context {crates : Crates}.

(** A destination's IPv6 addresses, exchanged for others. *)
Definition only_v6 (l : list Ipv6Addr) : DestinationAddrs := mkAddrs [] l [] [].

Lemma retain_none {A} (p : A -> bool) l : (forall x, x ∈ l -> p x = false) -> retain p l = [].
Proof.
  induction l as [|a l IH]; intros H; cbn; [done|]. rewrite H by left. apply IH.
  intros x Hx. apply H. by right.
Qed.

Lemma apply_push_fresh {A} `{EqDecision A} (rem add acc : list A) :
  NoDup (acc ++ add) -> (forall x, x ∈ add -> x ∉ rem) -> foldl (apply_push rem) acc add = acc ++ add.
Proof.
  revert acc. induction add as [|a add IH]; intros acc Hn Hr; cbn; [by rewrite app_nil_r|].
  assert (Ha : a ∉ acc).
  { apply NoDup_app in Hn as (_ & Hn & _). intros Hin. apply (Hn a Hin). by left. }
  unfold apply_push at 2. rewrite (proj2 (contains_false rem a)) by (apply Hr; by left).
  rewrite (proj2 (contains_false acc a)) by done. cbn.
  rewrite IH; [by rewrite <-app_assoc|by rewrite <-app_assoc|]. intros x Hx. apply Hr. by right.
Qed.

Lemma exchange_v6 (A B : list Ipv6Addr) :
  NoDup B -> (forall x, x ∈ B -> x ∉ A) ->
  apply_lenient (mkChanges (only_v6 B) (only_v6 A)) (only_v6 A) = only_v6 B.
Proof.
  intros HB Hd. unfold apply_lenient, only_v6, apply_family. cbn. f_equal.
  rewrite (retain_none _ A).
  - by apply (apply_push_fresh A B []).
  - intros x Hx. rewrite orb_false_iff, negb_false_iff, contains_spec, contains_false.
    split; [done|]. intros HxB. by apply (Hd x).
Qed.

Lemma exchange_between (A B : list Ipv6Addr) :
  (forall x, x ∈ B -> x ∉ A) -> between (only_v6 A) (only_v6 B) = mkChanges (only_v6 B) (only_v6 A).
Proof.
  intros Hd. unfold between, difference, only_v6. cbn.
  rewrite !retain_all; [done| |]; intros x Hx; rewrite negb_true_iff, contains_false; auto.
  intros HB. by apply (Hd x).
Qed.

Lemma len_wire_v6 add (l : list Ipv6Addr) rest :
  len (wire_items ((Ipv6Address add <$> l) ++ rest)) = 21 * len l + len (wire_items rest).
Proof.
  induction l as [|a l IH]; [done|]. cbn [fmap list_fmap app]. rewrite len_wire_cons, IH.
  cbn [value_bytes]. unfold len. cbn [length]. rewrite length_to_be_bytes. lia.
Qed.

Lemma encodable_v6 add (l : list Ipv6Addr) : all encodable (Ipv6Address add <$> l) = true.
Proof. by induction l. Qed.

(** The new set, as the Destination Up that [check_command] encodes. *)
Lemma exchange_checked mac B :
  is_mac mac -> Forall (fun a => 0 <= a < 2 ^ 128) B -> len B <= 3000 ->
  fits (build_destination_up mac LinkMetrics_default (only_v6 B)).
Proof.
  intros Hmac HrB HlB. pose proof (length_mac mac Hmac) as Hml.
  rewrite build_destination_up_items. apply fits_encodable.
  - split; [code_range|]. cbn [msg_items]. constructor; [done|]. apply Forall_app.
    split; [|by repeat constructor]. apply addrs_items_ok. by split_and!; cbn.
  - unfold message_encodable, addrs_items, only_v6. cbn [v4 v6 v4_subnets v6_subnets fmap list_fmap].
    rewrite !app_nil_l, !app_nil_r. cbn [msg_items]. rewrite len_wire_cons, len_wire_v6.
    apply andb_true_intro. split.
    { change (all encodable ((Ipv6Address true <$> B) ++ metric_items LinkMetrics_default) = true).
      by rewrite forallb_app, encodable_v6. }
    apply Z.leb_le. cbn [value_bytes].
    change (len (wire_items (metric_items LinkMetrics_default))) with 60.
    unfold len in *. unfold u16_max. lia.
Qed.

(** The Destination Update that is sent. *)
Lemma exchange_overflows mac A B :
  is_mac mac -> Forall (fun a => 0 <= a < 2 ^ 128) A -> Forall (fun a => 0 <= a < 2 ^ 128) B ->
  3121 <= len A + len B ->
  exists e, Message_encode (append_to (mkChanges (only_v6 B) (only_v6 A))
    (with_item (Message_new MessageType.DESTINATION_UPDATE) (MacAddress mac))) = Err e.
Proof.
  intros Hmac HrA HrB Hl. rewrite append_to_items.
  match goal with |- exists e, Message_encode ?m = _ => pose proof (Message_encode_spec m) as Hspec end.
  revert Hspec.
  unfold message_encodable, changes_items, set_items, only_v6, with_item, Message_new.
  cbn [removed added v4 v6 v4_subnets v6_subnets fmap list_fmap msg_items message_type app].
  rewrite !app_nil_r, len_wire_cons, len_wire_v6, <-(app_nil_r (Ipv6Address true <$> B)), len_wire_v6.
  rewrite (proj2 (Z.leb_gt _ _)), andb_false_r.
  - intros H. apply H. split; [code_range|]. constructor; [done|]. apply Forall_app.
    rewrite app_nil_r, !Forall_fmap. done.
  - cbn. unfold len in *. unfold u16_max. lia.
Qed.

(** C39: An address update that is accepted but cannot be sent.  A modem accepts an
    exchange of a destination's IPv6 addresses when the new set fits a Destination
    Up, but what it sends lists the removed and the added addresses: from 3121 of
    them on, the message it hands to the runtime cannot be encoded. *)
Theorem modem_update_overflows self mac d A B :
  Modem.state self = Modem.InSession ->
  Modem.destinations self !! mac = Some d -> Modem.announced d = true ->
  Modem.metrics d = LinkMetrics_default ->
  Modem.addrs d = only_v6 A -> Modem.advertised_addrs d = only_v6 A ->
  destination_busy (Modem.tx self) mac = false ->
  is_mac mac -> accepts (mac_address_format (Modem.config self)) mac = true ->
  Forall (fun a => 0 <= a < 2 ^ 128) A -> Forall (fun a => 0 <= a < 2 ^ 128) B ->
  NoDup A -> NoDup B -> (forall x, x ∈ B -> x ∉ A) ->
  len B <= 3000 -> 3121 <= len A + len B ->
  exists s' m e,
    Modem.step (AppUpdateAddresses mac (mkChanges (only_v6 B) (only_v6 A))) self
    = Ok (s', [SendMessage m])
    /\ Message_encode m = Err e.
Proof.
  intros Hs Hd Hann Hmet Haddr Hadv Hidle Hmac Hfmt HrA HrB HA HB Hdis HlB Hl.
  destruct (exchange_overflows mac A B Hmac HrA HrB Hl) as [e He].
  pose proof (exchange_v6 A B HB Hdis) as Hx. set (changes := mkChanges (only_v6 B) (only_v6 A)) in *.
  assert (Hv : validate changes = Ok tt).
  { unfold validate, changes, only_v6. cbn -[valid_change].
    by rewrite (proj2 (valid_change_spec B A) (conj HB (conj HA Hdis))). }
  assert (Hk : Modem.check_command self (AppUpdateAddresses mac changes) = Ok tt).
  { unfold Modem.check_command. rewrite bool_decide_true by done. cbn [negb command expect mbind outcome_bind].
    unfold Modem.check_scope. cbn [destination]. rewrite Hfmt.
    unfold destination_busy in Hidle. apply is_some_false in Hidle. rewrite Hidle.
    cbn [negb mbind outcome_bind]. unfold Modem.check_update_addresses.
    rewrite Hd, Haddr, Hmet, Hx, Hv. cbn [map_err mbind outcome_bind].
    pose proof (exchange_checked mac B Hmac HrB HlB) as Hup. unfold fits in Hup.
    by destruct (Message_encode (build_destination_up _ _ _)). }
  eexists _, _, e. split; [|exact He].
  unfold Modem.step. cbn [command]. rewrite Hk. unfold Modem.accepted, Modem.dispatch. rewrite Hs.
  unfold Modem.on_app_update_addresses. rewrite Hd. cbn [expect mbind outcome_bind]. cbv zeta.
  cbn [Modem.announced Modem.advertised_addrs Modem.addrs]. rewrite Hann, Hidle, Haddr, Hadv, Hx.
  rewrite exchange_between by done. fold changes.
  replace (AddressChanges_is_empty changes) with false; [done|].
  destruct A, B; done.
Qed.

End ModemWire.

(** ** Witnesses *)

#[local] Existing Instance reference_crates.

Lemma router_sends_encode_witness :
  let m := Router.build_session_initialization router_config in
  SendMessage m ∈ router_acts router_events /\ exists bs, Message_encode m = Ok bs.
Proof.
  intros m. split.
  { destruct (router_acts router_events) as [|a l] eqn:E; [exfalso; by vm_compute in E|].
    assert (Ha : head (router_acts router_events) = Some (SendMessage m)) by (vm_compute; reflexivity).
    rewrite E in Ha. injection Ha as ->. left. }
  destruct (router_sample_run router_events) as [armed Hr]; [by vm_compute|].
  apply (router_sends_encode router_config router_events (router_acts router_events) sample_router armed Hr).
  - exact router_config_ok.
  - unfold router_events. repeat (apply Forall_cons; split); [done| |constructor].
    split; [|apply fits_checked; vm_compute; reflexivity]. split; [code_range|].
    repeat (apply Forall_cons; split; [first [by vm_compute | by repeat split | by apply Forall_singleton]|]).
    constructor.
  - vm_compute. discriminate.
Defined.

(** A destination with 1600 IPv6 addresses that are exchanged for 1600 others. *)
Definition big_modem : Modem.ModemSessionFsm :=
  Modem.set_state Modem.InSession
    (Modem.set_destinations
       {[sample_mac := Modem.mkDestination true false LinkMetrics_default
           (only_v6 (seqZ 0 1600)) (only_v6 (seqZ 0 1600))]}
       (Modem.with_config modem_config)).

Lemma seqZ_addresses a n :
  0 <= a -> a + n < 2 ^ 128 -> Forall (fun x => 0 <= x < 2 ^ 128) (seqZ a n).
Proof. intros. apply Forall_forall. intros x Hx. apply elem_of_seqZ in Hx. lia. Qed.

Lemma len_seqZ a n : 0 <= n -> len (seqZ a n) = n.
Proof. intros. unfold len. rewrite length_seqZ. lia. Qed.

Lemma modem_update_overflows_witness :
  exists s' m e,
    Modem.step (AppUpdateAddresses sample_mac
      (mkChanges (only_v6 (seqZ 5000 1600)) (only_v6 (seqZ 0 1600)))) big_modem
    = Ok (s', [SendMessage m])
    /\ Message_encode m = Err e.
Proof.
  eapply (modem_update_overflows big_modem sample_mac _ (seqZ 0 1600) (seqZ 5000 1600));
    [reflexivity|apply lookup_singleton_eq|reflexivity..|apply sample_mac_ok|reflexivity| | | | | | |].
  - apply seqZ_addresses; lia.
  - apply seqZ_addresses; lia.
  - apply NoDup_seqZ.
  - apply NoDup_seqZ.
  - intros x Hx Hy. apply elem_of_seqZ in Hx, Hy. lia.
  - rewrite len_seqZ; lia.
  - rewrite !len_seqZ; lia.
Defined.
