(* ===== verification/Handshake.v ===== *)
(** * Two sessions and the wire between them

    A router and a modem connected by a reliable byte stream: what one sends is
    encoded, decoded and stepped by the other.  The handshake establishes both
    ends with matching parameters, and a destination the modem adds is reported
    to the router's application and confirmed. *)

From S2P Require Import Prelude Externs CoreTypes Codec CodecItem CodecMessage Addresses Events.
From S2P Require Import SessionCommon Validation SessionFacts SessionRouter SessionModem Lifecycle.
From S2P Require Import RouterInv ModemInv Samples SessionSteps SessionWire.
Import DataItem.

Section Deliver.
Context {crates : Crates}.

(** [m] is put on the wire and read back as [m']. *)
Definition deliver (m m' : Message) : Prop :=
  exists bs, Message_encode m = Ok bs /\ Message_decode bs = Ok m'.

Lemma deliver_canonical m m' :
  is_message m -> Forall faithful_item (msg_items m) -> fits m -> canonical_message m = m' ->
  deliver m m'.
Proof.
  intros Hm Hf He <-. unfold fits in He. destruct (Message_encode m) as [bs| |] eqn:E; try done.
  exists bs. split; [done|]. rewrite <-(app_nil_r bs). by apply Message_decode_encoded.
Qed.

Lemma encodable_canonical i : encodable (canonical_item i) = encodable i.
Proof. destruct i; cbn; try done; by rewrite ?millis_of_millis, ?micros_of_micros. Qed.

Lemma all_encodable_canonical items :
  all encodable (canonical_item <$> items) = all encodable items.
Proof. induction items as [|i l IH]; cbn; [done|]. by rewrite encodable_canonical, IH. Qed.

Lemma fits_all_encodable m : is_message m -> fits m -> all encodable (msg_items m) = true.
Proof. intros Hm Hf. apply encodable_fits in Hf; [|done]. unfold message_encodable in Hf. by bprop. Qed.

Lemma is_metrics_wire m : is_metrics m -> is_metrics (wire_metrics m).
Proof.
  intros (?&?&?&?&Hl&?&?&?&?). unfold is_metrics, wire_metrics. cbn. split_and!; try done.
  revert Hl. unfold is_duration, wire_latency, from_micros, as_micros.
  intros Hl. pose proof (Z.mul_div_le (latency m) (10 ^ 3)).
  pose proof (Z.div_pos (latency m) (10 ^ 3)). lia.
Qed.

(** Items that may stand in a message and are no addresses. *)
Definition plain_item (mt : MessageType) (router : bool) (i : DataItem) : bool :=
  negb (unknown_item i) && allowed_item mt router (type_id i) && negb (address_type (type_id i)).

Lemma plain_message_ok msg router initializing exts :
  is_message msg -> 1 <= message_type msg <= 16 ->
  expected_message (message_type msg) router initializing = true ->
  all encodable (msg_items msg) = true ->
  all (plain_item (message_type msg) router) (msg_items msg) = true ->
  NoDup (type_id <$> msg_items msg) ->
  required_items (message_type msg) ⊆ type_id <$> msg_items msg ->
  message_type msg <> MessageType.LINK_CHARACTERISTICS_REQUEST ->
  validate_message msg router initializing exts = Ok tt.
Proof.
  intros Hm Ht Hx He Hp Hn Hr Hl.
  rewrite forallb_elem in He, Hp.
  assert (Hall : plain_types (msg_items msg) = type_id <$> msg_items msg).
  { unfold plain_types. rewrite retain_all; [done|]. intros i Hi. specialize (Hp i Hi).
    unfold plain_item in Hp. bprop. rewrite andb_true_iff, !negb_true_iff. done. }
  assert (Hnone : address_items (msg_items msg) = []).
  { apply retain_none. intros i Hi. specialize (Hp i Hi). unfold plain_item in Hp. bprop.
    rewrite andb_false_iff. by right. }
  apply grammar_accepted; [done..|]. unfold grammar. rewrite Hall, Hnone. split_and!; try done.
  - apply Forall_forall. intros i Hi. specialize (Hp i Hi). specialize (He i Hi).
    unfold plain_item in Hp. unfold item_ok. bprop.
    repeat match goal with H : _ = _ |- _ => rewrite H end. done.
  - constructor.
Qed.

End Deliver.

(** ** The handshake *)

Section Handshake.
Context {crates : Crates}.

Lemma peer_items_canonical c : canonical_item <$> peer_items c = peer_items c.
Proof.
  unfold peer_items, local_heartbeat_interval. cbn. rewrite millis_of_millis.
  by destruct (is_empty_list _).
Qed.

(** What the receiver reads from either message. *)
Definition peer_seen (c : SessionConfig) (msg : Message) : Prop :=
  extract_heartbeat_interval msg = Some (local_heartbeat_interval c)
  /\ match extract_extensions_supported msg with Some ids => ids | None => [] end
     = advertised_extensions c
  /\ from_message msg = AddressChanges_default
  /\ fatal_status msg = None.

Lemma init_seen c : peer_seen c (mkMessage MessageType.SESSION_INITIALIZATION (peer_items c)).
Proof. unfold peer_items. split_and!; by destruct (advertised_extensions c). Qed.

Lemma response_seen c m :
  let msg := mkMessage MessageType.SESSION_INITIALIZATION_RESPONSE
               (Status StatusCode.SUCCESS [] :: peer_items c ++ metric_items m) in
  peer_seen c msg /\ extract_status msg = Some StatusCode.SUCCESS
  /\ forall base, (merge_link_metrics msg base).2 = overlay base m.
Proof.
  intros msg. unfold msg, peer_items. split; [split_and!|split]; try intros [];
    destruct (advertised_extensions c), m as [v1 v2 v3 v4 v5 [] [] [] []]; reflexivity.
Qed.

Lemma init_valid c exts :
  is_config c -> fits (Router.build_session_initialization c) ->
  deliver (Router.build_session_initialization c)
    (mkMessage MessageType.SESSION_INITIALIZATION (peer_items c))
  /\ validate_message (mkMessage MessageType.SESSION_INITIALIZATION (peer_items c)) false true exts
     = Ok tt.
Proof.
  intros Hc Hf. rewrite init_items in *.
  assert (Hm : is_message (mkMessage MessageType.SESSION_INITIALIZATION (peer_items c)))
    by (split; [code_range|by apply peer_items_ok]).
  split.
  - apply deliver_canonical; [done| |done|].
    + unfold peer_items. by destruct (is_empty_list _); repeat constructor.
    + unfold canonical_message. cbn [msg_items message_type]. by rewrite peer_items_canonical.
  - apply fits_all_encodable in Hf; [|done].
    apply plain_message_ok; try done; unfold peer_items; cbn [message_type msg_items];
      destruct (is_empty_list _); try done; try (apply (bool_decide_unpack _); by vm_compute);
      by vm_compute.
Qed.

Lemma response_valid c exts :
  is_config c -> fits (Modem.build_session_initialization_response c) ->
  let msg := mkMessage MessageType.SESSION_INITIALIZATION_RESPONSE
               (Status StatusCode.SUCCESS [] :: peer_items c
                ++ metric_items (wire_metrics (initial_metrics c))) in
  deliver (Modem.build_session_initialization_response c) msg
  /\ validate_message msg true true exts = Ok tt.
Proof.
  intros Hc Hf msg. rewrite response_items in *.
  assert (Hmet : is_metrics (initial_metrics c)) by apply Hc.
  assert (Hcan : canonical_item <$> (Status StatusCode.SUCCESS [] :: peer_items c
     ++ metric_items (initial_metrics c)) = msg_items msg).
  { cbn [fmap list_fmap canonical_item]. rewrite fmap_app, peer_items_canonical, metric_items_canonical. done. }
  assert (Hst : is_item (Status StatusCode.SUCCESS [])) by (split; [code_range|done]).
  assert (His : Forall is_item (Status StatusCode.SUCCESS [] :: peer_items c
     ++ metric_items (initial_metrics c))).
  { constructor; [done|]. apply Forall_app. auto using peer_items_ok, metric_items_ok. }
  split.
  - apply deliver_canonical; [| |done|unfold canonical_message; cbn [message_type msg_items]; by rewrite Hcan].
    + by split; [code_range|].
    + constructor; [done|]. apply Forall_app. split; [|apply metric_items_other].
      unfold peer_items. by destruct (is_empty_list _); repeat constructor.
  - apply fits_all_encodable in Hf; [|by split; [code_range|]].
    cbn [msg_items] in Hf. rewrite <-all_encodable_canonical, Hcan in Hf.
    apply plain_message_ok; try done.
    + split; [code_range|]. constructor; [done|]. apply Forall_app.
      auto using peer_items_ok, metric_items_ok, is_metrics_wire.
    + unfold msg, peer_items. destruct (is_empty_list _), (initial_metrics c) as [v1 v2 v3 v4 v5 [] [] [] []]; reflexivity.
    + unfold msg, peer_items. destruct (is_empty_list _), (initial_metrics c) as [v1 v2 v3 v4 v5 [] [] [] []]; apply (bool_decide_unpack _); by vm_compute.
    + unfold msg, peer_items. destruct (is_empty_list _), (initial_metrics c) as [v1 v2 v3 v4 v5 [] [] [] []]; apply (bool_decide_unpack _); by vm_compute.
Qed.

(** The modem on a Session Initialization, the router on the response. *)
Lemma modem_initialized cr cm :
  is_config cr -> fits (Router.build_session_initialization cr) ->
  let self := Modem.set_state Modem.AwaitingSessionInit (Modem.with_config cm) in
  let msg := mkMessage MessageType.SESSION_INITIALIZATION (peer_items cr) in
  exists s' acts, Modem.step (RecvMessage msg) self = Ok (s', acts)
    /\ Modem.state s' = Modem.InSession
    /\ Modem.peer_heartbeat_interval s' = Some (local_heartbeat_interval cr)
    /\ Modem.peer_extensions s' = advertised_extensions cr
    /\ sent acts = [Modem.build_session_initialization_response cm]
    /\ Emit (SessionUp (advertised_extensions cr)) ∈ acts.
Proof.
  intros Hc Hf self msg. destruct (init_seen cr) as (Hh & Hx & Ha & Hfs). fold msg in Hh, Hx, Ha, Hfs.
  destruct (init_valid cr (advertised_extensions cm) Hc Hf) as [_ Hv]. fold msg in Hv.
  unfold Modem.step. cbn [command Modem.accepted]. unfold Modem.guard_message.
  cbn [self Modem.set_state Modem.state]. cbn [msg message_type]. fold msg.
  change (negb (MessageType.SESSION_INITIALIZATION =? MessageType.SESSION_TERMINATION)) with true.
  cbv iota. rewrite Hfs.
  assert (Hk : Modem.check_message self msg = Ok tt).
  { unfold Modem.check_message. rewrite bool_decide_true by done. cbn [self Modem.config Modem.set_state Modem.with_config].
    rewrite Hv. cbn [mbind outcome_bind]. rewrite Ha. unfold validate_mac_format.
    unfold msg, peer_items. by destruct (is_empty_list _). }
  rewrite Hk. unfold Modem.dispatch. cbn [self Modem.state Modem.set_state msg message_type]. fold msg.
  change (MessageType.SESSION_INITIALIZATION =? MessageType.SESSION_INITIALIZATION) with true. cbv iota.
  unfold Modem.on_session_initialization. rewrite Ha, Hh, Hx. eexists _, _. split; [done|].
  split_and!; try done.
  - rewrite !sent_app. no_reset; done.
  - apply elem_of_app. right. apply elem_of_app. right. by left.
Qed.

Lemma router_initialized cr cm :
  is_config cm -> fits (Modem.build_session_initialization_response cm) ->
  let self := Router.set_state Router.SessionInitPending (Router.with_config cr) in
  let m := wire_metrics (initial_metrics cm) in
  let msg := mkMessage MessageType.SESSION_INITIALIZATION_RESPONSE
               (Status StatusCode.SUCCESS [] :: peer_items cm ++ metric_items m) in
  exists s' acts, Router.step (RecvMessage msg) self = Ok (s', acts)
    /\ Router.state s' = Router.InSession
    /\ Router.peer_heartbeat_interval s' = Some (local_heartbeat_interval cm)
    /\ Router.peer_extensions s' = advertised_extensions cm
    /\ Router.session_metrics s' = m
    /\ Router.session_metric_types s' = list_to_set (type_id <$> metric_items m)
    /\ sent acts = []
    /\ Emit (SessionUp (advertised_extensions cm)) ∈ acts
    /\ Emit (SessionMetricsUpdate m) ∈ acts.
Proof.
  intros Hc Hf self m msg. destruct (response_seen cm m) as ((Hh & Hx & Ha & Hfs) & Hst & Hm).
  fold msg in Hh, Hx, Ha, Hfs, Hst, Hm.
  destruct (response_valid cm (advertised_extensions cr) Hc Hf) as [_ Hv]. fold m in Hv. fold msg in Hv.
  unfold Router.step. cbn [command Router.accepted]. unfold Router.guard_message.
  cbn [self Router.set_state Router.state]. cbn [msg message_type]. fold msg.
  change (negb (MessageType.SESSION_INITIALIZATION_RESPONSE =? MessageType.SESSION_TERMINATION)) with true.
  cbv iota. rewrite Hfs.
  assert (Hk : Router.check_message self msg = Ok tt).
  { unfold Router.check_message. rewrite bool_decide_true by done.
    cbn [self Router.config Router.set_state Router.with_config].
    rewrite Hv. cbn [mbind outcome_bind]. rewrite Ha. unfold validate_mac_format.
    unfold msg, peer_items, m.
    by destruct (is_empty_list _), (initial_metrics cm) as [v1 v2 v3 v4 v5 [] [] [] []]. }
  rewrite Hk. unfold Router.dispatch. cbn [self Router.state Router.set_state msg message_type]. fold msg.
  change (MessageType.SESSION_INITIALIZATION_RESPONSE =? MessageType.SESSION_INITIALIZATION_RESPONSE)
    with true. cbv iota.
  unfold Router.on_init_response. rewrite Ha, Hh, Hx, Hst, Hm. eexists _, _. split; [done|].
  split_and!; try done.
  - cbn. unfold m. by destruct (initial_metrics cm) as [v1 v2 v3 v4 v5 [] [] [] []].
  - unfold msg, peer_items, m.
    destruct (is_empty_list _), (initial_metrics cm) as [v1 v2 v3 v4 v5 [] [] [] []]; reflexivity.
  - rewrite !sent_app. no_reset; done.
  - apply elem_of_app. right. apply elem_of_app. right. by left.
  - apply elem_of_app. right. apply elem_of_app. right. apply elem_of_app. left. right.
    assert (Ho : overlay LinkMetrics_default m = m).
    { unfold m. by destruct (initial_metrics cm) as [v1 v2 v3 v4 v5 [] [] [] []]. }
    cbn. rewrite Ho. by left.
Qed.

(** C7: The handshake.  A router that connects and a modem that accepts exchange
    exactly one Session Initialization and one response over the wire; both end
    in session, each tells its application so, and each knows the other's
    heartbeat interval and extensions.  The router also knows the modem's metrics,
    with the latency in whole microseconds; the modem learns none.  The two messages
    have to fit: description, extensions and, in the response, metrics within 65535
    octets, and metrics the wire can express. *)
Theorem handshake cr cm :
  is_config cr -> is_config cm -> peer_octets cr <= 65535 ->
  metrics_expressible (initial_metrics cm) ->
  5 + peer_octets cm + metric_octets (initial_metrics cm) <= 65535 ->
  exists r1 ra1 m1 ma1 init init' m2 ma2 resp resp' r2 ra2,
    Router.step TcpConnected (Router.with_config cr) = Ok (r1, ra1)
    /\ Modem.step TcpAccepted (Modem.with_config cm) = Ok (m1, ma1)
    /\ sent ra1 = [init] /\ sent ma1 = [] /\ deliver init init'
    /\ Modem.step (RecvMessage init') m1 = Ok (m2, ma2)
    /\ sent ma2 = [resp] /\ deliver resp resp'
    /\ Router.step (RecvMessage resp') r1 = Ok (r2, ra2) /\ sent ra2 = []
    /\ Router.state r2 = Router.InSession /\ Modem.state m2 = Modem.InSession
    /\ Router.peer_heartbeat_interval r2 = Some (local_heartbeat_interval cm)
    /\ Modem.peer_heartbeat_interval m2 = Some (local_heartbeat_interval cr)
    /\ Router.peer_extensions r2 = advertised_extensions cm
    /\ Modem.peer_extensions m2 = advertised_extensions cr
    /\ Emit (SessionUp (advertised_extensions cm)) ∈ ra2
    /\ Emit (SessionUp (advertised_extensions cr)) ∈ ma2
    /\ Router.session_metrics r2 = wire_metrics (initial_metrics cm)
    /\ Emit (SessionMetricsUpdate (wire_metrics (initial_metrics cm))) ∈ ra2.
Proof.
  intros Hr Hm Hfr%init_fits Hq Hl; [|done].
  pose proof (proj2 (response_fits cm Hm) (conj Hq Hl)) as Hfm.
  destruct (modem_initialized cr cm Hr Hfr) as (m2 & ma2 & Hs2 & Hst2 & Hh2 & Hx2 & Hsent2 & Hup2).
  destruct (router_initialized cr cm Hm Hfm)
    as (r2 & ra2 & Hs3 & Hst3 & Hh3 & Hx3 & Hmet & _ & Hsent3 & Hup3 & Hemit).
  eexists _, _, _, _, _, _, m2, ma2, _, _, r2, ra2.
  split; [reflexivity|]. split; [reflexivity|]. split; [reflexivity|]. split; [reflexivity|].
  split; [exact (proj1 (init_valid cr [] Hr Hfr))|]. split; [exact Hs2|]. split; [exact Hsent2|].
  split; [exact (proj1 (response_valid cm [] Hm Hfm))|]. split; [exact Hs3|]. split_and!; done.
Qed.

End Handshake.

(** ** Witness *)

#[local] Existing Instance reference_crates.

Lemma handshake_witness :
  exists r m, Router.state r = Router.InSession /\ Modem.state m = Modem.InSession
    /\ Router.peer_heartbeat_interval r = Some (from_millis 5000)
    /\ Modem.peer_heartbeat_interval m = Some (from_millis 60000).
Proof.
  destruct (handshake router_config modem_config router_config_ok modem_config_ok)
    as (r1 & ra1 & m1 & ma1 & i & i' & m2 & ma2 & p & p' & r2 & ra2 & _ & _ & _ & _ & _ & _ & _ & _ & _ & _
        & H1 & H2 & H3 & H4 & _).
  - vm_compute. discriminate.
  - split; [vm_compute; reflexivity|]. split_and!; intros v E; vm_compute in E; try discriminate E; injection E as <-; lia.
  - vm_compute. discriminate.
  - exists r2, m2. exact (conj H1 (conj H2 (conj H3 H4))).
Defined.
