(* ===== verification/Exchange.v ===== *)
(** * A destination, from the modem's radio to the router's application

    Two sessions in the same state of mind: a destination the modem's application
    adds travels as a Destination Up, is reported by the router and confirmed, and
    both ends agree on it afterwards. *)

From S2P Require Import Prelude Externs CoreTypes Codec CodecItem CodecMessage Addresses Events.
From S2P Require Import SessionCommon Validation SessionFacts SessionRouter SessionModem Lifecycle.
From S2P Require Import RouterInv ModemInv Samples SessionSteps SessionWire Handshake.
Import DataItem.

Section Wire.
Context {crates : Crates}.

(** Items with the same wire form are the same value. *)
Lemma wire_item_inj i j :
  is_item i -> is_item j -> encodable i = true -> encodable j = true ->
  faithful_item i -> faithful_item j -> wire_item i = wire_item j ->
  canonical_item i = canonical_item j.
Proof.
  intros Hi Hj Hei Hej Hfi Hfj H.
  pose proof (RawDataItem_decode_wire (to_raw i) [] (to_raw_is_raw i Hi Hei)) as Hri.
  pose proof (RawDataItem_decode_wire (to_raw j) [] (to_raw_is_raw j Hj Hej)) as Hrj.
  unfold wire_item in H. rewrite H, Hrj in Hri.
  assert (Hraw : to_raw j = to_raw i) by congruence.
  pose proof (decode_to_raw i Hi Hei Hfi) as Hdi. pose proof (decode_to_raw j Hj Hej Hfj) as Hdj.
  rewrite <-Hraw, Hdj in Hdi. by injection Hdi.
Qed.

Lemma address_item_plain i : address_item i = true -> encodable i = true /\ faithful_item i.
Proof. by destruct i. Qed.

Lemma NoDup_wire_addresses items :
  Forall is_item items -> all address_item items = true -> canonical_item <$> items = items ->
  NoDup items -> NoDup (wire_item <$> items).
Proof.
  intros Hi Ha Hc Hn. rewrite Forall_forall in Hi. rewrite forallb_elem in Ha.
  rewrite fmap_fixed in Hc. apply NoDup_fmap_2_strong; [|done].
  intros x y Hx Hy H. rewrite <-(Hc x Hx), <-(Hc y Hy).
  destruct (address_item_plain x (Ha x Hx)), (address_item_plain y (Ha y Hy)).
  apply wire_item_inj; auto.
Qed.

(** The items of an address set. *)
Lemma NoDup_addrs_items a : addrs_nodup a -> NoDup (addrs_items a).
Proof.
  intros (H1 & H2 & H3 & H4). unfold addrs_items.
  repeat (apply NoDup_app; split_and!; [apply NoDup_fmap_2; [|done]; by intros ?? [=]|..]);
    try (apply NoDup_fmap_2; [|done]; by intros ?? [=]);
    intros x (y & -> & _)%list_elem_of_fmap; rewrite ?elem_of_app, !list_elem_of_fmap; naive_solver.
Qed.

Lemma addrs_items_addresses a : all address_item (addrs_items a) = true.
Proof.
  rewrite forallb_elem. intros i. unfold addrs_items. rewrite !elem_of_app, !list_elem_of_fmap.
  naive_solver.
Qed.

Lemma addrs_items_canonical a :
  addrs_canonical a = a -> canonical_item <$> addrs_items a = addrs_items a.
Proof.
  intros Ha. apply fmap_fixed. intros i. pose proof (proj1 (canonical_has a) Ha) as Hc.
  unfold addrs_items. rewrite !elem_of_app, !list_elem_of_fmap.
  intros [(x & -> & Hx)|[(x & -> & Hx)|[(x & -> & Hx)|(x & -> & Hx)]]]; cbn; try done; f_equal.
  - by apply (Hc (EntryV4Subnet x)).
  - by apply (Hc (EntryV6Subnet x)).
Qed.

(** Splitting the parts of the grammar over a list. *)
Lemma plain_types_app l k : plain_types (l ++ k) = plain_types l ++ plain_types k.
Proof. unfold plain_types, retain. by rewrite List.filter_app, fmap_app. Qed.

Lemma address_items_app l k : address_items (l ++ k) = address_items l ++ address_items k.
Proof. unfold address_items, retain. apply List.filter_app. Qed.

Lemma addrs_items_grammar a :
  plain_types (addrs_items a) = [] /\ address_items (addrs_items a) = addrs_items a.
Proof.
  pose proof (addrs_items_addresses a) as Ha. rewrite forallb_elem in Ha. split.
  - unfold plain_types. rewrite retain_none; [done|]. intros i Hi. specialize (Ha i Hi). by destruct i.
  - apply retain_all. intros i Hi. specialize (Ha i Hi). by destruct i.
Qed.

(** The message as the router reads it. *)
Definition up_message (mac : Mac) (m : LinkMetrics) (a : DestinationAddrs) : Message :=
  mkMessage MessageType.DESTINATION_UP (MacAddress mac :: addrs_items a ++ metric_items m).

Lemma up_message_ok mac m a :
  is_mac mac -> is_metrics m -> is_addrs a -> is_message (up_message mac m a).
Proof.
  intros Hmac Hm Ha. split; [code_range|]. constructor; [done|].
  apply Forall_app. auto using addrs_items_ok, metric_items_ok.
Qed.

Lemma up_message_valid mac m a exts :
  is_mac mac -> is_metrics m -> is_addrs a -> addrs_nodup a -> addrs_canonical a = a ->
  all encodable (metric_items m) = true ->
  validate_message (up_message mac m a) true false exts = Ok tt.
Proof.
  intros Hmac Hm Ha Hn Hc He. destruct (addrs_items_grammar a) as [Hp Hi].
  apply grammar_accepted; [by apply up_message_ok|done..|].
  unfold grammar, up_message. cbn [msg_items message_type].
  rewrite plain_types_cons, address_items_cons. cbn [unknown_item type_id negb andb].
  change (address_type DataItemType.MAC_ADDRESS) with false. cbn [negb andb].
  rewrite plain_types_app, address_items_app, Hp, Hi. cbn [app].
  assert (Hnone : address_items (metric_items m) = []) by by destruct m as [v1 v2 v3 v4 v5 [] [] [] []].
  rewrite Hnone, app_nil_r. split_and!.
  - constructor; [done|]. apply Forall_app. split; apply Forall_forall; intros i Hin.
    + pose proof (addrs_items_addresses a) as Had. rewrite forallb_elem in Had. specialize (Had i Hin).
      by destruct i.
    + rewrite forallb_elem in He. specialize (He i Hin). unfold item_ok. cbn [message_type].
      rewrite He. revert Hin.
      destruct m as [v1 v2 v3 v4 v5 o6 o7 o8 o9]. unfold metric_items. rewrite !elem_of_app.
      cbn. rewrite !list_elem_of_fmap. set_solver.
  - destruct m as [v1 v2 v3 v4 v5 [] [] [] []]; apply (bool_decide_unpack _); by vm_compute.
  - apply NoDup_wire_addresses; auto using addrs_items_ok, addrs_items_addresses, addrs_items_canonical,
      NoDup_addrs_items.
  - intros t Ht. apply list_elem_of_singleton in Ht as ->. by left.
  - done.
Qed.

End Wire.

(** ** The router's side *)

Section RouterSide.
Context {crates : Crates}.

(** An address nobody else in the router's session holds. *)
Definition unclaimed (r : Router.RouterSessionFsm) (mac : Mac) (e : Entry) : Prop :=
  ~ has (Router.peer_addresses r) e
  /\ forall mac' d', mac' <> mac -> Router.destinations r !! mac' = Some d' -> ~ has (Router.addrs d') e.

Lemma keep_added_iff {A} `{EqDecision A} (family : DestinationAddrs -> list A) r mac a :
  family DestinationAddrs_default = [] ->
  Router.keep_added family r mac DestinationAddrs_default a = true
  <-> a ∉ family (Router.peer_addresses r)
      /\ forall mac' d', mac' <> mac -> Router.destinations r !! mac' = Some d' ->
           a ∉ family (Router.addrs d').
Proof.
  intros Hnil. unfold Router.keep_added, Router.held_elsewhere. rewrite Hnil.
  change (contains [] a) with false. cbn [orb].
  rewrite andb_true_iff, !negb_true_iff, contains_false, existsb_map_false.
  split; intros [Hp Ho]; (split; [done|]); intros m d.
  - intros Hm Hd. specialize (Ho m d Hd). cbn in Ho. rewrite bool_decide_false in Ho by done.
    by apply contains_false.
  - intros Hd. cbn. case_bool_decide as Hm; [done|]. cbn. apply contains_false. by eapply Ho.
Qed.

Lemma from_up_message mac m a :
  addrs_canonical a = a -> from_message (up_message mac m a) = mkChanges a DestinationAddrs_default.
Proof.
  intros Ha. rewrite <-Ha at 2. rewrite <-(from_message_destination_up mac m a).
  by rewrite build_destination_up_items.
Qed.

Lemma reported_addresses r mac m a e :
  addrs_canonical a = a ->
  has (Router.addrs (Router.reported_destination r mac (up_message mac m a))) e
  <-> has a e /\ unclaimed r mac e.
Proof.
  intros Ha. unfold Router.reported_destination. cbn [Router.addrs].
  rewrite has_apply_lenient, destination_changes_canonical.
  unfold Router.destination_address_changes. rewrite from_up_message by done. cbn [added removed].
  assert (Hn : ~ has DestinationAddrs_default e) by (destruct e; cbn; set_solver).
  unfold unclaimed.
  destruct e; cbn [has v4 v6 v4_subnets v6_subnets] in *; rewrite elem_of_retain, keep_added_iff by done;
    tauto.
Qed.

Lemma reported_metrics r mac m a :
  Router.metrics (Router.reported_destination r mac (up_message mac m a))
  = overlay (Router.session_metrics r) m.
Proof.
  unfold Router.reported_destination. cbn [Router.metrics].
  rewrite (merge_link_metrics_built _ (MacAddress mac :: addrs_items a) m); [done|done|].
  constructor; [done|apply addrs_items_other].
Qed.

Lemma metric_items_metrics m : all metric_item (metric_items m) = true.
Proof. by destruct m as [v1 v2 v3 v4 v5 [] [] [] []]. Qed.

(** The remaining checks of the router on the message. *)
Lemma up_message_format f mac m a :
  accepts f mac = true -> validate_mac_format (up_message mac m a) f = Ok tt.
Proof.
  intros Hf. unfold validate_mac_format. replace (existsb _ _) with false; [done|]. symmetry.
  apply existsb_elem_false. intros i. cbn. rewrite elem_of_cons, elem_of_app.
  pose proof (addrs_items_addresses a) as Had. pose proof (metric_items_metrics m) as Hme.
  rewrite forallb_elem in Had, Hme.
  intros [->|[Hi|Hi]]; [by rewrite Hf|specialize (Had i Hi); by destruct i|specialize (Hme i Hi); by destruct i].
Qed.

Lemma up_message_types (T : gset DataItemType) mac m a :
  Forall (fun i => type_id i ∈ T) (metric_items m) ->
  any (fun t => metric_type t && negb (bool_decide (t ∈ T)))
    (type_id <$> msg_items (up_message mac m a)) = false.
Proof.
  intros Ht. rewrite Forall_forall in Ht. apply existsb_elem_false. intros t.
  rewrite list_elem_of_fmap. intros (i & -> & Hi). cbn in Hi. rewrite elem_of_cons, elem_of_app in Hi.
  pose proof (addrs_items_addresses a) as Had. rewrite forallb_elem in Had.
  destruct Hi as [->|[Hi|Hi]]; [done|specialize (Had i Hi); by destruct i|].
  rewrite bool_decide_true by auto. apply andb_false_r.
Qed.

Lemma router_takes_up r mac m a :
  Router.state r = Router.InSession ->
  is_mac mac -> is_metrics m -> is_addrs a -> addrs_nodup a -> addrs_canonical a = a ->
  all encodable (metric_items m) = true ->
  accepts (mac_address_format (Router.config r)) mac = true ->
  Router.destinations r !! mac = None -> destination_busy (Router.tx r) mac = false ->
  Forall (fun i => type_id i ∈ Router.session_metric_types r) (metric_items m) ->
  exists r' acts, Router.step (RecvMessage (up_message mac m a)) r = Ok (r', acts)
    /\ sent acts = [build_destination_up_response mac StatusCode.SUCCESS]
    /\ let d := Router.reported_destination r mac (up_message mac m a) in
       Router.destinations r' !! mac = Some d
       /\ Emit (DestinationUp mac (Router.metrics d) (Router.addrs d)) ∈ acts.
Proof.
  intros Hs Hmac Hm Ha Hn Hc He Hfmt Hnew Hidle Htypes.
  assert (Hfs : fatal_status (up_message mac m a) = None).
  { apply find_map_None. intros i. cbn. rewrite elem_of_cons, elem_of_app.
    pose proof (addrs_items_addresses a) as Had. rewrite forallb_elem in Had.
    intros [->|[Hi|Hi]]; [done|specialize (Had i Hi); by destruct i|].
    pose proof (metric_items_metrics m) as Hme. rewrite forallb_elem in Hme. specialize (Hme i Hi).
    by destruct i. }
  assert (Hk : Router.check_message r (up_message mac m a) = Ok tt).
  { unfold Router.check_message. rewrite bool_decide_false by (by rewrite Hs).
    rewrite up_message_valid by done. rewrite up_message_format by done. cbn [mbind outcome_bind orb].
    change (message_type (up_message mac m a)) with MessageType.DESTINATION_UP.
    change (MessageType.DESTINATION_UP =? MessageType.SESSION_UPDATE) with false.
    change (MessageType.DESTINATION_UP =? MessageType.LINK_CHARACTERISTICS_RESPONSE) with false.
    cbn [mbind outcome_bind andb]. rewrite up_message_types by done.
    cbn [extract_destination_mac up_message msg_items find_map].
    unfold Router.destination_is_up. rewrite Hnew.
    unfold validate_transaction. cbn [message_type up_message extract_destination_mac msg_items find_map].
    cbn. by rewrite Hidle. }
  unfold Router.step. cbn [command Router.accepted]. unfold Router.guard_message. rewrite Hs.
  change (negb (message_type (up_message mac m a) =? MessageType.SESSION_TERMINATION)) with true.
  cbv iota. rewrite Hfs, Hk. unfold Router.dispatch. rewrite Hs.
  eexists _, _. split; [reflexivity|]. split; [no_reset; done|]. cbv zeta. split.
  - cbn. by rewrite lookup_insert_eq.
  - right. by left.
Qed.

End RouterSide.

(** ** The modem's side *)

Section ModemSide.
Context {crates : Crates}.

Lemma value_bytes_canonical i : value_bytes (canonical_item i) = value_bytes i.
Proof.
  destruct i; cbn; rewrite ?millis_of_millis, ?micros_of_micros, ?v4_network_trunc, ?v6_network_trunc;
    rewrite ?v4_trunc_spec, ?v6_trunc_spec; done.
Qed.

Lemma wire_items_canonical items : wire_items (canonical_item <$> items) = wire_items items.
Proof.
  unfold wire_items. induction items as [|i l IH]; cbn; [done|]. rewrite IH. f_equal.
  unfold wire_item, to_raw. rewrite value_bytes_canonical. by destruct i.
Qed.

Lemma addrs_items_of_canonical a :
  addrs_items (addrs_canonical a) = canonical_item <$> addrs_items a.
Proof.
  unfold addrs_items, addrs_canonical. cbn [v4 v6 v4_subnets v6_subnets].
  by rewrite !fmap_app, <-!list_fmap_compose.
Qed.

Lemma encodable_addresses mac a k :
  message_encodable (MacAddress mac :: addrs_items (addrs_canonical a) ++ k)
  = message_encodable (MacAddress mac :: addrs_items a ++ k).
Proof.
  rewrite addrs_items_of_canonical. unfold message_encodable, wire_items. f_equal.
  - change (all encodable ((canonical_item <$> addrs_items a) ++ k) = all encodable (addrs_items a ++ k)).
    by rewrite !forallb_app, all_encodable_canonical.
  - rewrite !bind_cons, !bind_app. fold (wire_items (canonical_item <$> addrs_items a)).
    by rewrite wire_items_canonical.
Qed.

Lemma merge_update_overlay m base : Modem.merge_update m base = overlay base m.
Proof.
  unfold Modem.merge_update, build_session_update. rewrite push_metric_items_items.
  by rewrite (merge_link_metrics_built _ [] m).
Qed.

Lemma is_metrics_overlay base m : is_metrics base -> is_metrics m -> is_metrics (overlay base m).
Proof.
  intros (?&?&?&?&?&?&?&?&?) (?&?&?&?&?&?&?&?&?). unfold overlay, is_metrics. cbn.
  split_and!; try done; unfold or_else; by case_match.
Qed.

(** What the modem sends for an accepted command, and what arrives. *)
Lemma up_delivered mac eff a :
  is_mac mac -> is_metrics eff -> is_addrs a -> fits (build_destination_up mac eff a) ->
  deliver (build_destination_up mac eff (addrs_canonical a))
    (up_message mac (wire_metrics eff) (addrs_canonical a))
  /\ all encodable (metric_items (wire_metrics eff)) = true.
Proof.
  intros Hmac He Ha Hf. rewrite build_destination_up_items in *.
  apply encodable_fits in Hf; [|by apply (up_message_ok mac eff a)].
  pose proof Hf as Hall. unfold message_encodable in Hall. cbn [msg_items] in Hall. bprop.
  assert (Hac : is_addrs (addrs_canonical a)) by by apply is_addrs_canonical.
  assert (Hca : addrs_canonical (addrs_canonical a) = addrs_canonical a)
    by (apply canonical_has, addrs_canonical_has).
  match goal with H : all encodable (_ :: ?l) = true |- _ =>
    change (all encodable l = true) in H; rewrite forallb_app in H end. bprop.
  split.
  - apply deliver_canonical.
    + by apply (up_message_ok mac eff (addrs_canonical a)).
    + constructor; [done|]. apply Forall_app. split; [apply addrs_items_other|apply metric_items_other].
    + apply fits_encodable; [by apply (up_message_ok mac eff (addrs_canonical a))|].
      cbn [msg_items]. by rewrite encodable_addresses.
    + unfold canonical_message, up_message. cbn [msg_items message_type fmap list_fmap canonical_item].
      by rewrite fmap_app, metric_items_canonical, addrs_items_canonical.
  - by rewrite <-metric_items_canonical, all_encodable_canonical.
Qed.

(** What an accepted command guarantees. *)
Lemma add_accepted s mac m a :
  Modem.check_command s (AppAddDestination mac m a) = Ok tt ->
  Modem.state s = Modem.InSession /\ accepts (mac_address_format (Modem.config s)) mac = true
  /\ per_destination (Modem.tx s) !! mac = None /\ addrs_nodup (addrs_canonical a)
  /\ fits (build_destination_up mac (Modem.merge_update m (Modem.session_metrics s)) a).
Proof.
  unfold Modem.check_command. case_bool_decide as Hs; [|done]. cbn [negb command expect mbind outcome_bind].
  unfold Modem.check_scope. cbn [destination]. destruct (accepts _ _) eqn:Hf; [|done].
  cbn [negb mbind outcome_bind]. destruct (per_destination _ !! mac); [done|]. cbn [mbind outcome_bind].
  unfold Modem.check_add. destruct (is_some _); [done|]. destruct (negb _); [done|].
  destruct (validate_spec (mkChanges a DestinationAddrs_default)) as [[-> Hu]|[-> _]]; [|done].
  cbn [map_err mbind outcome_bind]. intros H. split_and!; try done; [apply Hu..|].
  apply fits_checked. by destruct (Message_encode _).
Qed.

Lemma between_same a : between a a = AddressChanges_default.
Proof.
  unfold between, difference. rewrite !retain_none; [done|..]; intros x Hx;
    by rewrite negb_false_iff, contains_spec.
Qed.

(** The confirmation of a destination about which nothing was held back. *)
Lemma modem_takes_response s mac d :
  Modem.state s = Modem.InSession -> is_mac mac ->
  accepts (mac_address_format (Modem.config s)) mac = true ->
  per_destination (Modem.tx s) !! mac = Some (mkPending RDestinationUp) ->
  Modem.destinations s !! mac = Some d -> Modem.pending_metrics d = false ->
  Modem.advertised_addrs d = Modem.addrs d ->
  exists s' acts,
    Modem.step (RecvMessage (build_destination_up_response mac StatusCode.SUCCESS)) s = Ok (s', acts)
    /\ sent acts = [] /\ destination_busy (Modem.tx s') mac = false
    /\ Modem.destinations s' !! mac
       = Some (Modem.mkDestination true false (Modem.metrics d) (Modem.addrs d) (Modem.addrs d)).
Proof.
  intros Hs Hmac Hf Htx Hd Hp Had. set (msg := build_destination_up_response mac StatusCode.SUCCESS).
  assert (Hk : Modem.check_message s msg = Ok tt).
  { unfold Modem.check_message. rewrite bool_decide_false by (by rewrite Hs).
    rewrite plain_message_ok; try done.
    - cbn [mbind outcome_bind]. unfold validate_mac_format. cbn [msg_items msg existsb].
      cbn -[extract_destination_mac]. rewrite Hf. cbn -[extract_destination_mac].
      cbn [extract_destination_mac find_map msg_items msg]. cbn. rewrite andb_false_r.
      unfold validate_transaction. cbn. by rewrite Htx.
    - split; [code_range|]. constructor; [done|]. apply Forall_singleton. split; [code_range|done].
    - apply (bool_decide_unpack _). by vm_compute. }
  unfold Modem.step. cbn [command Modem.accepted]. unfold Modem.guard_message. rewrite Hs.
  change (if negb (message_type msg =? MessageType.SESSION_TERMINATION) then fatal_status msg else None)
    with (None : option DataItem).
  rewrite Hk. unfold Modem.dispatch. rewrite Hs.
  change (Modem.in_session_message msg s) with (Modem.on_destination_up_response msg s).
  unfold Modem.on_destination_up_response.
  change (extract_destination_mac msg) with (Some mac). change (extract_status msg) with (Some StatusCode.SUCCESS).
  cbn [Modem.set_tx Modem.destinations]. rewrite Hd. cbn [default from_option id].
  change (StatusCode.SUCCESS =? StatusCode.SUCCESS) with true. cbv iota.
  unfold Modem.release_updates. rewrite Hp, Had, between_same. cbn.
  eexists _, _. split; [reflexivity|]. split; [no_reset; done|]. split.
  - unfold destination_busy. cbn. by rewrite lookup_delete_eq.
  - cbn. by rewrite lookup_insert_eq.
Qed.

End ModemSide.

(** ** Both sides *)

Section Both.
Context {crates : Crates}.


End Both.

(** ** Witness *)

#[local] Existing Instance reference_crates.

