(* ===== verification/Discovery.v ===== *)
(** * Peer discovery

    [dlep-fsm/src/{discovery_common,discovery_modem,discovery_router}.rs]: the
    Peer Discovery and Peer Offer signals, the endpoints an offer names in order
    of preference, and the two discovery state machines. *)

From Stdlib Require Import Sorting.Sorted.
From S2P Require Import Prelude Externs CoreTypes Codec CodecItem CodecMessage Addresses Events.
From S2P Require Import SessionCommon Validation SessionWire.
Import DataItem.

(** ** Signals *)

Definition build_peer_discovery (peer_description : rstring) : Signal :=
  sig_with_item (Signal_new SignalType.PEER_DISCOVERY)
    (PeerType (mkPeerFlags false) peer_description).

Definition build_peer_offer (peer_description : rstring) (tcp_endpoint : SocketAddr) (use_tls : bool)
    : Signal :=
  let flags := mkConnectionPointFlags use_tls in
  let sig := sig_with_item (Signal_new SignalType.PEER_OFFER)
               (PeerType (mkPeerFlags false) peer_description) in
  match tcp_endpoint with
  | SocketV4 addr port => sig_with_item sig (Ipv4ConnectionPoint flags addr (Some port))
  | SocketV6 addr port _ _ => sig_with_item sig (Ipv6ConnectionPoint flags addr (Some port))
  end.

Definition extract_peer_description (sig : Signal) : option rstring :=
  find_map (fun item => match item with PeerType _ description => Some description | _ => None end)
    (sig_items sig).

(** ** Endpoints of an offer *)

(** [is_unspecified] and [is_multicast] of [IpAddr]. *)
Definition is_unspecified (a : SocketAddr) : bool :=
  match a with SocketV4 ip _ | SocketV6 ip _ _ _ => ip =? 0 end.
Definition is_multicast (a : SocketAddr) : bool :=
  match a with
  | SocketV4 ip _ => Z.shiftr ip 28 =? 14
  | SocketV6 ip _ _ _ => Z.shiftr ip 120 =? 255
  end.

(** The closure of [filter_map]. *)
Definition offered_endpoint (from : SocketAddr) (item : DataItem) : option OfferEndpoint :=
  match item with
  | Ipv4ConnectionPoint flags addr port =>
      Some (mkEndpoint (SocketV4 addr (default DEFAULT_PORT port)) (use_tls flags))
  | Ipv6ConnectionPoint flags addr port =>
      let scope :=
        match from with
        | SocketV6 _ _ _ scope => if is_unicast_link_local addr then scope else 0
        | SocketV4 _ _ => 0
        end in
      Some (mkEndpoint (SocketV6 addr (default DEFAULT_PORT port) 0 scope) (use_tls flags))
  | _ => None
  end.

(** The closure of [retain]. *)
Definition usable (e : OfferEndpoint) : bool :=
  negb (is_unspecified (ep_addr e)) && negb (is_multicast (ep_addr e))
  && negb (socket_port (ep_addr e) =? 0).

(** The key of [sort_by_key], and the order of such pairs. *)
Definition preference (e : OfferEndpoint) : bool * bool :=
  (negb (ep_use_tls e), negb (is_ipv6 (ep_addr e))).
Definition key_le (a b : bool * bool) : bool :=
  if eqb a.1 b.1 then implb a.2 b.2 else implb a.1 b.1.

(** [sort_by_key] of a slice: a stable sort. *)
Fixpoint insert_by_key (e : OfferEndpoint) (l : list OfferEndpoint) : list OfferEndpoint :=
  match l with
  | [] => [e]
  | x :: l' => if key_le (preference e) (preference x) then e :: l else x :: insert_by_key e l'
  end.
Definition sort_by_key (l : list OfferEndpoint) : list OfferEndpoint := foldr insert_by_key [] l.

(** [Vec::dedup]: runs of equal elements become one. *)
Fixpoint dedup (l : list OfferEndpoint) : list OfferEndpoint :=
  match l with
  | [] => []
  | x :: l' =>
      match dedup l' with
      | [] => [x]
      | y :: k => if decide (x = y) then y :: k else x :: y :: k
      end
  end.

Definition offer_endpoints (sig : Signal) (from : SocketAddr) : list OfferEndpoint :=
  let endpoints := omap (offered_endpoint from) (sig_items sig) in
  let endpoints :=
    if is_empty_list endpoints then [mkEndpoint (set_port from DEFAULT_PORT) false] else endpoints in
  dedup (sort_by_key (retain usable endpoints)).

Definition extract_offer_endpoint (sig : Signal) : option OfferEndpoint :=
  find_map (fun item =>
    match item with
    | Ipv4ConnectionPoint flags addr port =>
        Some (mkEndpoint (SocketV4 addr (default DEFAULT_PORT port)) (use_tls flags))
    | Ipv6ConnectionPoint flags addr port =>
        Some (mkEndpoint (SocketV6 addr (default DEFAULT_PORT port) 0 0) (use_tls flags))
    | _ => None
    end) (sig_items sig).

(** ** Validity *)

Section Signals.
Context {crates : Crates}.

(** The loop of [valid_signal]: has a Peer Type been seen, and which items. *)
Fixpoint valid_items (offer peer_type : bool) (seen : gset bytes) (items : list DataItem) : bool :=
  match items with
  | [] => true
  | item :: items' =>
      match (match item with
             | PeerType _ _ => if negb peer_type then Some true else None
             | Ipv4ConnectionPoint _ _ _ | Ipv6ConnectionPoint _ _ _ =>
                 if offer then Some peer_type else None
             | _ => None
             end) with
      | None => false
      | Some peer_type' =>
          let '(r, bytes) := DataItem_encode item [] in
          if negb (is_ok r) || bool_decide (bytes ∈ seen) then false
          else valid_items offer peer_type' ({[bytes]} ∪ seen) items'
      end
  end.

Definition valid_signal (signal : Signal) : bool :=
  valid_items (signal_type signal =? SignalType.PEER_OFFER) false ∅ (sig_items signal).

End Signals.

(** ** The modem *)

Module ModemDiscovery.

Inductive ModemDiscoveryState : Type := Listening | OfferBurst.

Record ModemDiscoveryFsm : Type := mkModemDiscovery {
  state : ModemDiscoveryState;
  tcp_endpoint : SocketAddr;
  peer_description : rstring;
  use_tls : bool;
}.

Definition new (tcp_endpoint : SocketAddr) (peer_description : rstring) (use_tls : bool)
    : ModemDiscoveryFsm :=
  mkModemDiscovery Listening tcp_endpoint peer_description use_tls.

Definition set_state (s : ModemDiscoveryState) (f : ModemDiscoveryFsm) : ModemDiscoveryFsm :=
  mkModemDiscovery s (tcp_endpoint f) (peer_description f) (use_tls f).

Definition step {crates : Crates} (event : FsmEvent) (self : ModemDiscoveryFsm)
    : ModemDiscoveryFsm * list FsmAction :=
  match event with
  | RecvSignal signal from =>
      if signal_type signal =? SignalType.PEER_DISCOVERY then
        if negb (valid_signal signal) then (self, [])
        else
          (set_state OfferBurst self,
           [SendSignal (build_peer_offer (peer_description self) (tcp_endpoint self) (use_tls self))
              (Unicast from)])
      else (self, [])
  | AppShutdown _ => (set_state Listening self, [])
  | _ => (self, [])
  end.

End ModemDiscovery.

(** ** The router *)

Module RouterDiscovery.

Definition TIMER_DISCOVERY : TimerId := 10.

Inductive RouterDiscoveryState : Type := Idle | Probing | OfferReceived.

Record RouterDiscoveryConfig : Type := mkDiscoveryConfig {
  peer_description : rstring;
  discovery_interval : Duration;
}.

Record RouterDiscoveryFsm : Type := mkRouterDiscovery {
  state : RouterDiscoveryState;
  config : RouterDiscoveryConfig;
}.

Definition with_config (c : RouterDiscoveryConfig) : RouterDiscoveryFsm := mkRouterDiscovery Idle c.

Definition probe (self : RouterDiscoveryFsm) : FsmAction :=
  SendSignal (build_peer_discovery (peer_description (config self))) DiscoveryGroup.

Definition on_offer {crates : Crates} (signal : Signal) (from : SocketAddr) : list FsmAction :=
  if negb (valid_signal signal) then []
  else
    let endpoints := offer_endpoints signal from in
    if is_empty_list endpoints then []
    else [Emit (PeerDiscovered endpoints (extract_peer_description signal))].

Definition step {crates : Crates} (event : FsmEvent) (self : RouterDiscoveryFsm)
    : RouterDiscoveryFsm * list FsmAction :=
  match state self, event with
  | Idle, AppStartDiscovery =>
      (mkRouterDiscovery Probing (config self),
       [probe self; StartTimer TIMER_DISCOVERY TDiscovery (discovery_interval (config self)) true])
  | Probing, TimerExpired _ TDiscovery => (self, [probe self])
  | Probing, RecvSignal signal from =>
      if signal_type signal =? SignalType.PEER_OFFER then (self, on_offer signal from) else (self, [])
  | s, AppShutdown _ =>
      (mkRouterDiscovery Idle (config self),
       match s with Probing => [CancelTimer TIMER_DISCOVERY] | _ => [] end)
  | _, _ => (self, [])
  end.

End RouterDiscovery.

(** ** Facts *)

Lemma elem_of_insert_by_key e x l : x ∈ insert_by_key e l <-> x = e \/ x ∈ l.
Proof.
  induction l as [|y l IH]; cbn; [set_solver|]. destruct (key_le _ _); set_solver.
Qed.

Lemma elem_of_sort_by_key x l : x ∈ sort_by_key l <-> x ∈ l.
Proof.
  induction l as [|e l IH]; cbn; [done|]. rewrite elem_of_insert_by_key, IH. set_solver.
Qed.

Lemma elem_of_dedup x l : x ∈ dedup l <-> x ∈ l.
Proof.
  induction l as [|y l IH]; cbn; [done|]. destruct (dedup l) as [|z k] eqn:E; [set_solver|].
  destruct (decide (y = z)) as [->|]; set_solver.
Qed.

(** Preferred endpoints come first. *)
Definition preferred (a b : OfferEndpoint) : Prop := key_le (preference a) (preference b) = true.

Lemma preferred_total a b : preferred a b \/ preferred b a.
Proof. unfold preferred, key_le. destruct (preference a) as [[] []], (preference b) as [[] []]; auto. Qed.

#[global] Instance preferred_preorder : PreOrder preferred.
Proof.
  split.
  - intros a. unfold preferred, key_le. by destruct (preference a) as [[] []].
  - intros a b c. unfold preferred, key_le.
    by destruct (preference a) as [[] []], (preference b) as [[] []], (preference c) as [[] []].
Qed.

Lemma sorted_insert_by_key e l :
  StronglySorted preferred l -> StronglySorted preferred (insert_by_key e l).
Proof.
  induction 1 as [|x l Hs IH Hx]; cbn; [repeat constructor|].
  destruct (key_le (preference e) (preference x)) eqn:He.
  - constructor; [by constructor|]. constructor; [done|].
    eapply Forall_impl; [exact Hx|]. intros y Hy. by transitivity x.
  - constructor; [done|]. rewrite Forall_forall in *. intros y [->|Hy]%elem_of_insert_by_key; [|auto].
    destruct (preferred_total e x) as [H|H]; [|done]. unfold preferred in H. congruence.
Qed.

Lemma sorted_sort_by_key l : StronglySorted preferred (sort_by_key l).
Proof. induction l; cbn; [constructor|by apply sorted_insert_by_key]. Qed.

Lemma sorted_dedup l : StronglySorted preferred l -> StronglySorted preferred (dedup l).
Proof.
  induction 1 as [|x l Hs IH Hx]; cbn; [constructor|].
  assert (Hall : Forall (preferred x) (dedup l)).
  { rewrite Forall_forall in Hx |- *. intros y Hy. apply Hx. by apply elem_of_dedup. }
  destruct (dedup l) as [|y k]; [repeat constructor|]. destruct (decide (x = y)); [done|].
  by constructor.
Qed.

Section Facts.
Context {crates : Crates}.

(** What a well-formed signal may contain. *)
Definition signal_item (offer : bool) (i : DataItem) : bool :=
  match i with
  | PeerType _ _ => true
  | Ipv4ConnectionPoint _ _ _ | Ipv6ConnectionPoint _ _ _ => offer
  | _ => false
  end.
Definition is_peer_type (i : DataItem) : bool := match i with PeerType _ _ => true | _ => false end.

Lemma valid_items_spec (offer p : bool) (seen : gset bytes) items :
  Forall is_item items ->
  valid_items offer p seen items = true
  <-> Forall (fun i => signal_item offer i = true /\ encodable i = true) items
      /\ (length (retain is_peer_type items) + (if p then 1 else 0) <= 1)%nat
      /\ NoDup (wire_item <$> items) /\ forall w, w ∈ wire_item <$> items -> w ∉ seen.
Proof.
  revert p seen. induction items as [|i items IH]; intros p seen Hi.
  { cbn. split; [|done]. intros _. split_and!; [constructor|by destruct p; cbn; lia|constructor|set_solver]. }
  apply Forall_cons in Hi as [Hi His]. cbn [valid_items]. rewrite DataItem_encode_spec by done.
  cbn [app]. rewrite Forall_cons, fmap_cons.
  destruct (signal_item offer i) eqn:Hsi.
  2:{ split; [|by intros ([[[=] _] _] & _)]. destruct i, offer; try done. }
  destruct (encodable i) eqn:He.
  2:{ split; [|by intros ([[_ [=]] _] & _)]. destruct i, offer, p; done. }
  assert (Hnext : forall p' : bool,
    (length (retain is_peer_type (i :: items)) + (if p then 1 else 0)
     = length (retain is_peer_type items) + (if p' then 1 else 0))%nat ->
    (if bool_decide (wire_item i ∈ seen) then false
     else valid_items offer p' ({[wire_item i]} ∪ seen) items) = true
    <-> ((true = true /\ true = true)
         /\ Forall (fun i => signal_item offer i = true /\ encodable i = true) items)
      /\ (length (retain is_peer_type (i :: items)) + (if p then 1 else 0) <= 1)%nat
      /\ NoDup (wire_item i :: (wire_item <$> items))
      /\ forall w, w ∈ wire_item i :: (wire_item <$> items) -> w ∉ seen).
  { intros p' ->. case_bool_decide as Hin.
    - split; [done|]. intros (_ & _ & _ & H). exfalso. apply (H (wire_item i)); [by left|done].
    - rewrite IH by done. pose proof (fresh_cons (wire_item i) (wire_item <$> items) seen Hin). tauto. }
  destruct i; try done; cbn in Hsi; try subst offer.
  - apply (Hnext p). done.
  - apply (Hnext p). done.
  - destruct p; cbn [negb].
    + split; [done|]. cbn. intros (_ & H & _). lia.
    + apply (Hnext true). change (retain is_peer_type (PeerType flags description :: items))
        with (PeerType flags description :: retain is_peer_type items). cbn [length]. lia.
Qed.

(** Endpoints of an offer.  The endpoints read from an offer are exactly its
    usable connection points (the port defaulting to 854, a link-local address
    reached through the interface the offer came from), or, when it names none,
    the sender at port 854; TLS endpoints come before plain ones and IPv6 before
    IPv4. *)
Theorem offer_endpoints_exact sig from :
  StronglySorted preferred (offer_endpoints sig from)
  /\ forall e, e ∈ offer_endpoints sig from
     <-> usable e = true
         /\ ((exists i, i ∈ sig_items sig /\ offered_endpoint from i = Some e)
             \/ ((forall i, i ∈ sig_items sig -> offered_endpoint from i = None)
                 /\ e = mkEndpoint (set_port from DEFAULT_PORT) false)).
Proof.
  unfold offer_endpoints. split; [apply sorted_dedup, sorted_sort_by_key|]. intros e.
  rewrite elem_of_dedup, elem_of_sort_by_key, elem_of_retain.
  destruct (omap (offered_endpoint from) (sig_items sig)) as [|x l] eqn:E; cbn [is_empty_list].
  - assert (Hnone : forall i, i ∈ sig_items sig -> offered_endpoint from i = None).
    { intros i Hi. destruct (offered_endpoint from i) as [x|] eqn:Hx; [|done].
      assert (Hin : x ∈ omap (offered_endpoint from) (sig_items sig)) by (apply list_elem_of_omap; eauto).
      rewrite E in Hin. by apply not_elem_of_nil in Hin. }
    rewrite list_elem_of_singleton. split; intros [Hu H]; (split; [done|]); [by right|].
    destruct H as [(i & Hi & He)|[_ ->]]; [|done]. rewrite (Hnone i Hi) in He. done.
  - rewrite <-E, list_elem_of_omap. split; intros [Hu H]; (split; [done|]); [by left|].
    destruct H as [H|[Hnone _]]; [done|].
    assert (Hx : x ∈ omap (offered_endpoint from) (sig_items sig)) by (rewrite E; by left).
    apply list_elem_of_omap in Hx as (i & Hi & Hx). rewrite (Hnone i Hi) in Hx. done.
Qed.

(** Valid signals.  A discovery signal is accepted exactly when it has at most
    one Peer Type and otherwise, in an offer only, connection points, every item
    has a wire form and no item occurs twice. *)
Theorem valid_signal_grammar sig :
  is_signal sig ->
  valid_signal sig = true
  <-> Forall (fun i => signal_item (signal_type sig =? SignalType.PEER_OFFER) i = true
                       /\ encodable i = true) (sig_items sig)
      /\ (length (retain is_peer_type (sig_items sig)) <= 1)%nat
      /\ NoDup (wire_item <$> sig_items sig).
Proof.
  intros [_ Hi]. unfold valid_signal. rewrite valid_items_spec by done. rewrite Nat.add_0_r.
  split; [tauto|]. intros (H1 & H2 & H3). split_and!; try done.
Qed.

End Facts.

(** ** Router and modem *)

Section Discovery.
Context {crates : Crates}.

Definition sig_fits (s : Signal) : Prop := is_ok (Signal_encode s) = true.

(** A signal sent in a datagram and read from it. *)
Definition sig_deliver (s s' : Signal) : Prop :=
  exists bs, Signal_encode s = Ok bs /\ Signal_decode bs = Ok s'.

Lemma sig_delivered s :
  is_signal s -> Forall faithful_item (sig_items s) -> sig_fits s ->
  sig_deliver s (canonical_signal s) /\ all encodable (sig_items s) = true.
Proof.
  intros Hs Hf He. unfold sig_fits in He. pose proof (Signal_encode_spec s Hs) as Hspec.
  destruct (message_encodable (sig_items s)) eqn:Hen.
  - unfold message_encodable in Hen. bprop. split; [|done]. eexists. split; [exact Hspec|].
    by apply (Signal_decode_encoded s).
  - destruct Hspec as [e Hspec]. by rewrite Hspec in He.
Qed.

(** What the Rust type guarantees of a socket address. *)
Definition is_socket (a : SocketAddr) : Prop :=
  match a with
  | SocketV4 ip port => 0 <= ip < 2 ^ 32 /\ is_u16 port
  | SocketV6 ip port _ _ => 0 <= ip < 2 ^ 128 /\ is_u16 port
  end.

(** A modem's endpoint as a router sees it that got the offer from [from]: the
    same address and port, a link-local one on the interface of [from]. *)
Definition as_seen (from ep : SocketAddr) : SocketAddr :=
  match ep with
  | SocketV4 ip port => SocketV4 ip port
  | SocketV6 ip port _ _ =>
      SocketV6 ip port 0
        match from with
        | SocketV6 _ _ _ scope => if is_unicast_link_local ip then scope else 0
        | SocketV4 _ _ => 0
        end
  end.

Lemma probe_valid desc :
  utf8_valid desc = true -> sig_fits (build_peer_discovery desc) ->
  sig_deliver (build_peer_discovery desc) (build_peer_discovery desc)
  /\ valid_signal (build_peer_discovery desc) = true.
Proof.
  intros Hu Hf. set (s := build_peer_discovery desc) in *.
  assert (Hs : is_signal s) by (split; [code_range|by apply Forall_singleton]).
  destruct (sig_delivered s Hs) as [Hd He]; [by repeat constructor|done|]. split; [exact Hd|].
  unfold valid_signal. apply valid_items_spec; [apply Hs|]. rewrite forallb_elem in He.
  split_and!.
  - apply Forall_singleton. split; [done|]. apply He. by left.
  - cbn. lia.
  - apply NoDup_singleton.
  - set_solver.
Qed.

Lemma offer_valid desc ep tls :
  utf8_valid desc = true -> is_socket ep -> sig_fits (build_peer_offer desc ep tls) ->
  sig_deliver (build_peer_offer desc ep tls) (build_peer_offer desc ep tls)
  /\ valid_signal (build_peer_offer desc ep tls) = true.
Proof.
  intros Hu Hep Hf. set (s := build_peer_offer desc ep tls) in *.
  assert (Hs : is_signal s).
  { destruct ep; (split; [code_range|]); (constructor; [done|by apply Forall_singleton]). }
  destruct (sig_delivered s Hs) as [Hd He]; [by destruct ep; repeat constructor|done|].
  split; [destruct ep; exact Hd|].
  unfold valid_signal. apply valid_items_spec; [apply Hs|]. rewrite forallb_elem in He.
  split_and!.
  - apply Forall_forall. intros i Hi. split; [|auto]. destruct ep; set_solver.
  - destruct ep; cbn; lia.
  - destruct ep; (apply NoDup_cons; split; [|apply NoDup_singleton]);
      rewrite list_elem_of_singleton; intros H; by injection H.
  - set_solver.
Qed.

(** Discovery finds the modem.  A router that starts probing sends a Peer
    Discovery to the group; a modem that receives it answers with one offer,
    unicast to the router, and the router then reports exactly the modem's
    endpoint, with its TLS requirement and its description, and goes on probing. *)
Theorem discovery_finds_modem c ep desc tls router_addr modem_addr :
  utf8_valid (RouterDiscovery.peer_description c) = true -> utf8_valid desc = true ->
  is_socket ep -> usable (mkEndpoint ep tls) = true ->
  sig_fits (build_peer_discovery (RouterDiscovery.peer_description c)) ->
  sig_fits (build_peer_offer desc ep tls) ->
  exists r1 acts probe probe' m1 offer offer',
    RouterDiscovery.step AppStartDiscovery (RouterDiscovery.with_config c) = (r1, acts)
    /\ SendSignal probe DiscoveryGroup ∈ acts /\ sig_deliver probe probe'
    /\ ModemDiscovery.step (RecvSignal probe' router_addr) (ModemDiscovery.new ep desc tls)
       = (m1, [SendSignal offer (Unicast router_addr)])
    /\ sig_deliver offer offer'
    /\ RouterDiscovery.step (RecvSignal offer' modem_addr) r1
       = (r1, [Emit (PeerDiscovered [mkEndpoint (as_seen modem_addr ep) tls] (Some desc))]).
Proof.
  intros Hu Hud Hep Hus Hfp Hfo.
  destruct (probe_valid _ Hu Hfp) as [Hdp Hvp]. destruct (offer_valid _ _ _ Hud Hep Hfo) as [Hdo Hvo].
  eexists _, _, _, _, _, _, _. split; [reflexivity|]. split; [by left|]. split; [exact Hdp|].
  split; [|split; [exact Hdo|]].
  - cbn [ModemDiscovery.step].
    change (signal_type (build_peer_discovery (RouterDiscovery.peer_description c)) =? SignalType.PEER_DISCOVERY)
      with true. cbv iota. rewrite Hvp. reflexivity.
  - unfold RouterDiscovery.step. cbn [RouterDiscovery.state].
    replace (signal_type (build_peer_offer desc ep tls) =? SignalType.PEER_OFFER) with true by by destruct ep.
    unfold RouterDiscovery.on_offer. rewrite Hvo. cbn [negb].
    assert (Hoff : offer_endpoints (build_peer_offer desc ep tls) modem_addr
      = [mkEndpoint (as_seen modem_addr ep) tls]).
    { assert (Hu' : usable (mkEndpoint (as_seen modem_addr ep) tls) = true) by by destruct ep.
      unfold offer_endpoints. destruct ep; cbn -[usable] in *; by rewrite Hu'. }
    rewrite Hoff. by destruct ep.
Qed.

(** A run of the router's discovery: the timer it keeps, as the actions change it. *)
Definition discovery_timer (armed : bool) (a : FsmAction) : bool :=
  match a with
  | StartTimer _ TDiscovery _ _ => true
  | CancelTimer id => if id =? RouterDiscovery.TIMER_DISCOVERY then false else armed
  | _ => armed
  end.

Inductive discovery_run (c : RouterDiscovery.RouterDiscoveryConfig)
    : list FsmAction -> RouterDiscovery.RouterDiscoveryFsm -> bool -> Prop :=
  | discovery_start : discovery_run c [] (RouterDiscovery.with_config c) false
  | discovery_next acts s armed event s' acts' :
      discovery_run c acts s armed -> RouterDiscovery.step event s = (s', acts') ->
      discovery_run c (acts ++ acts') s' (foldl discovery_timer armed acts').

(** A step that reports nothing. *)
Ltac nothing_reported :=
  cbn; split_and!; [tauto || (split; discriminate)|done|done|..];
  intros ?? Hin; rewrite ?elem_of_cons, ?elem_of_nil in Hin; unfold RouterDiscovery.probe in Hin;
  cbn in Hin; naive_solver.

Lemma router_discovery_step c st armed event s' acts' :
  (armed = true <-> st = RouterDiscovery.Probing) -> st <> RouterDiscovery.OfferReceived ->
  RouterDiscovery.step event (RouterDiscovery.mkRouterDiscovery st c) = (s', acts') ->
  (foldl discovery_timer armed acts' = true <-> RouterDiscovery.state s' = RouterDiscovery.Probing)
  /\ RouterDiscovery.state s' <> RouterDiscovery.OfferReceived /\ RouterDiscovery.config s' = c
  /\ (forall sig t, SendSignal sig t ∈ acts' ->
        sig = build_peer_discovery (RouterDiscovery.peer_description c) /\ t = DiscoveryGroup)
  /\ (forall es d, Emit (PeerDiscovered es d) ∈ acts' ->
        es <> [] /\ Forall (fun e => usable e = true) es).
Proof.
  intros Ht Hn H. unfold RouterDiscovery.step in H. cbn [RouterDiscovery.state RouterDiscovery.config] in H.
  destruct st; [| |done]; destruct event;
    try (injection H as <- <-; nothing_reported).
  - destruct (_ =? _); [|injection H as <- <-; nothing_reported].
    injection H as <- <-. unfold RouterDiscovery.on_offer.
    destruct (negb (valid_signal _)); [nothing_reported|].
    destruct (offer_endpoints signal from) as [|e es] eqn:Hes; cbn [is_empty_list];
      [nothing_reported|].
    split_and!; [cbn; tauto|done|done|set_solver|].
    intros es' d Hin. apply list_elem_of_singleton in Hin as [= -> ->]. rewrite <-Hes.
    split; [by rewrite Hes|]. apply Forall_forall. intros x. unfold offer_endpoints.
    rewrite elem_of_dedup, elem_of_sort_by_key, elem_of_retain. tauto.
  - match goal with k : TimerKind |- _ => destruct k end;
      (injection H as <- <-; nothing_reported).
Qed.

(** The router's probing.  In every run of the router's discovery the resend
    timer is armed exactly while it is probing, the only signal it ever sends is
    its Peer Discovery, to the group, and what it reports are usable endpoints. *)
Theorem router_discovery_run c acts s armed :
  discovery_run c acts s armed ->
  (armed = true <-> RouterDiscovery.state s = RouterDiscovery.Probing)
  /\ RouterDiscovery.state s <> RouterDiscovery.OfferReceived /\ RouterDiscovery.config s = c
  /\ (forall sig t, SendSignal sig t ∈ acts ->
        sig = build_peer_discovery (RouterDiscovery.peer_description c) /\ t = DiscoveryGroup)
  /\ (forall es d, Emit (PeerDiscovered es d) ∈ acts -> es <> [] /\ Forall (fun e => usable e = true) es).
Proof.
  induction 1 as [|acts s armed event s' acts' _ (Ht & Hn & Hc & Hsend & Hemit) Hstep].
  { split_and!; try done; set_solver. }
  destruct s as [st c']. cbn in Hc, Ht, Hn. subst c'.
  destruct (router_discovery_step c st armed event s' acts' Ht Hn Hstep) as (H1 & H2 & H3 & H4 & H5).
  split_and!; try done; try (by apply H1).
  - intros sig t [H|H]%elem_of_app; auto.
  - intros es d [H|H]%elem_of_app; eauto.
Qed.

End Discovery.

(** ** Witnesses *)

#[local] Existing Instance reference_crates.

Definition sample_endpoint : SocketAddr := SocketV4 3232235777 854.
Definition sample_offer : Signal := build_peer_offer (str "modem") sample_endpoint true.

Lemma sample_offer_ok : is_signal sample_offer.
Proof. split; [code_range|]. repeat (apply Forall_cons; split; [first [by vm_compute | by split_and!]|]). constructor. Qed.

Lemma valid_signal_grammar_witness :
  valid_signal sample_offer = true /\ NoDup (wire_item <$> sig_items sample_offer).
Proof.
  assert (Hv : valid_signal sample_offer = true) by (vm_compute; reflexivity).
  split; [exact Hv|]. apply (valid_signal_grammar sample_offer sample_offer_ok), Hv.
Defined.

Definition discovery_config : RouterDiscovery.RouterDiscoveryConfig :=
  RouterDiscovery.mkDiscoveryConfig (str "dlep-router") (from_millis 5000).

Lemma discovery_finds_modem_witness :
  exists r1 offer',
    RouterDiscovery.step (RecvSignal offer' (SocketV4 3232235777 854)) r1
    = (r1, [Emit (PeerDiscovered [mkEndpoint sample_endpoint true] (Some (str "modem")))]).
Proof.
  destruct (discovery_finds_modem discovery_config sample_endpoint (str "modem") true
    (SocketV4 3232235778 854) (SocketV4 3232235777 854))
    as (r1 & acts & p & p' & m1 & o & o' & _ & _ & _ & _ & _ & H);
    [vm_compute; reflexivity|vm_compute; reflexivity|by split_and!|vm_compute; reflexivity
    |vm_compute; reflexivity|vm_compute; reflexivity|].
  exists r1, o'. exact H.
Defined.

Lemma router_discovery_run_witness :
  exists acts s armed, discovery_run discovery_config acts s armed /\ armed = true
    /\ RouterDiscovery.state s = RouterDiscovery.Probing.
Proof.
  eexists _, _, _.
  assert (Hr : discovery_run discovery_config
    ([] ++ [RouterDiscovery.probe (RouterDiscovery.with_config discovery_config);
            StartTimer RouterDiscovery.TIMER_DISCOVERY TDiscovery (from_millis 5000) true])
    (RouterDiscovery.mkRouterDiscovery RouterDiscovery.Probing discovery_config) true).
  { exact (discovery_next discovery_config [] _ false AppStartDiscovery _ _
      (discovery_start discovery_config) eq_refl). }
  split; [exact Hr|]. split; [|reflexivity].
  apply (proj1 (router_discovery_run discovery_config _ _ _ Hr)). reflexivity.
Defined.
