(* ===== verification/DaemonTypes.v ===== *)
(** * Types of the daemon

    [dlep-daemon/src/{events,runtime,link_control}.rs] and the data of
    [dlep-ext/src/lib.rs]: public events, commands to a session and their
    outcomes, link-control requests, the extension hooks.  What is outside the
    repository's code (the socket a session writes to, the code of extensions)
    acts on an opaque [World]; see [Host]. *)

From S2P Require Import Prelude Externs CoreTypes Addresses Events.

Abbreviation SessionId := Z.

(** The outside of a session task: the transport it writes to and the state
    behind the extension objects.  A write ends with the octets written
    ([true]), or with an error, a timeout or the cancellation of the task. *)
Class Host : Type := {
  World : Type;
  Payload : Type;
  write_all : bytes -> World -> bool * World;
}.

(** ** Public events ([events.rs]) *)

Abbreviation DestinationId := MacAddress.

Record PeerInfo : Type := mkPeer {
  peer_addr : SocketAddr;
  is_tls : bool;
  peer_description : option rstring;
}.

Inductive DestinationEvent : Type :=
  | DestUp (id : DestinationId) (metrics : LinkMetrics) (v4_addrs : list Ipv4Addr)
      (v6_addrs : list Ipv6Addr) (v4_subnets : list IpNet) (v6_subnets : list IpNet)
  | DestUpdate (id : DestinationId) (metrics : LinkMetrics)
  | DestLinkCharacteristicsResponse (id : DestinationId) (status : StatusCode) (text : rstring)
      (metrics : LinkMetrics)
  | DestLinkCharacteristicsRequested (id : DestinationId) (requested : LinkCharacteristics)
  | DestAddressesChanged (id : DestinationId) (changes : AddressChanges)
      (addresses : DestinationAddrs)
  | DestAnnounced (id : DestinationId) (requested_addresses : AddressChanges)
  | DestDown (id : DestinationId) (reason : StatusCode).

Inductive DaemonEvent {host : Host} : Type :=
  | EvCommandRejected (session_id : SessionId) (peer : PeerInfo) (rejection : CommandRejection)
  | EvPeerDiscovered (endpoints : list OfferEndpoint) (peer_description : option rstring)
  | EvSessionUp (session_id : SessionId) (peer : PeerInfo)
      (negotiated_extensions : list ExtensionId)
  | EvSessionDown (session_id : SessionId) (peer : PeerInfo) (reason : StatusCode)
  | EvDestination (session_id : SessionId) (peer : PeerInfo) (event : DestinationEvent)
  | EvMetrics (session_id : SessionId) (peer : PeerInfo) (session_wide : LinkMetrics)
  | EvSessionAddresses (session_id : SessionId) (peer : PeerInfo) (changes : AddressChanges)
      (addresses : DestinationAddrs)
  | EvExtension (payload : Payload).

(** ** Commands to a session ([runtime.rs]) *)

Inductive SessionCommand : Type :=
  | Shutdown (reason : StatusCode)
  | AddDestination (mac : MacAddress) (metrics : LinkMetrics) (addrs : DestinationAddrs)
  | UpdateDestination (mac : MacAddress) (metrics : LinkMetrics)
  | UpdateDestinationAddresses (mac : MacAddress) (changes : AddressChanges)
  | UpdateSessionAddresses (session_id : SessionId) (changes : AddressChanges)
  | DropDestination (mac : MacAddress) (reason : StatusCode)
  | DropDestinationForSession (session_id : SessionId) (mac : MacAddress)
  | SessionUpdate (metrics : LinkMetrics)
  | AnnounceDestination (mac : MacAddress)
  | RequestLinkCharacteristics (session_id : SessionId) (mac : MacAddress)
      (requested : LinkCharacteristics).

(** The answer to a request: of the session it was for, or [None] when it
    targets another session. *)
Abbreviation CommandReceipt := (option (SessionId * outcome CommandRejection unit)).

Record SessionRequest : Type := mkRequest {
  req_target : option SessionId;
  req_command : SessionCommand;
  req_receipt : bool;
}.

Definition command_target (self : SessionCommand) : option SessionId :=
  match self with
  | DropDestinationForSession session_id _
  | UpdateSessionAddresses session_id _
  | RequestLinkCharacteristics session_id _ _ => Some session_id
  | _ => None
  end.

(** [From<SessionCommand> for SessionRequest]. *)
Definition request_of (command : SessionCommand) : SessionRequest :=
  mkRequest (command_target command) command false.

Record CommandReport : Type := mkReport {
  accepted : list SessionId;
  rejected : list (SessionId * CommandRejection);
  undelivered : Z;
  unknown : Z;
}.

Inductive DaemonError : Type :=
  | SessionLimitReached
  | PeerHistoryFull
  | NoMatchingSession
  | CommandNotAccepted (report : CommandReport)
  | ShuttingDown
  | ConfigError (text : rstring)
  | IoError
  | CodecFailure (e : CodecError).

Definition EVENT_CHANNEL_CAPACITY : Z := 256.
Definition COMMAND_CHANNEL_CAPACITY : Z := 64.

(** What becomes of a request put to one session: its channel is closed, the
    session ends without a receipt, or a receipt comes back. *)
Inductive Delivery : Type :=
  | ChannelClosed
  | ReceiptLost
  | Receipt (r : CommandReceipt).

Definition report_delivery (report : CommandReport) (d : Delivery) : CommandReport :=
  match d with
  | ChannelClosed =>
      mkReport (accepted report) (rejected report) (undelivered report + 1) (unknown report)
  | ReceiptLost =>
      mkReport (accepted report) (rejected report) (undelivered report) (unknown report + 1)
  | Receipt None => report
  | Receipt (Some (id, Err r)) =>
      mkReport (accepted report) (rejected report ++ [(id, r)]) (undelivered report) (unknown report)
  | Receipt (Some (id, _)) =>
      mkReport (accepted report ++ [id]) (rejected report) (undelivered report) (unknown report)
  end.

(** [dispatch_command]: to every session, then the receipts in order.  A session
    is given by what it makes of a request. *)
Definition dispatch_command (senders : list (SessionRequest -> Delivery))
    (command : SessionCommand) (target : option SessionId) : outcome DaemonError unit :=
  if is_some target && is_some (command_target command)
     && bool_decide (target <> command_target command)
  then Err (ConfigError (str "conflicting command session IDs"))
  else
    let target := match target with Some t => Some t | None => command_target command end in
    let report := foldl report_delivery (mkReport [] [] 0 0)
                    ((fun sender => sender (mkRequest target command true)) <$> senders) in
    let report :=
      if is_some target
         && (negb (bool_decide (accepted report = [])) || (0 <? len (rejected report)))
      then mkReport (accepted report) (rejected report) 0 0
      else report in
    if (0 <? len (rejected report)) || negb (undelivered report =? 0) || negb (unknown report =? 0)
    then Err (CommandNotAccepted report)
    else if bool_decide (accepted report = []) then Err NoMatchingSession
    else Ok tt.

(** ** Link control ([link_control.rs]) *)

Record LinkRequest : Type := mkLinkRequest {
  lr_session_id : SessionId;
  lr_peer : PeerInfo;
  lr_id : DestinationId;
  lr_requested : LinkCharacteristics;
  lr_current : LinkMetrics;
}.

Record LinkResponse : Type := mkLinkResponse {
  resp_status : StatusCode;
  resp_text : rstring;
  resp_metrics : option LinkMetrics;
}.

Definition LinkResponse_granted (metrics : LinkMetrics) : LinkResponse :=
  mkLinkResponse StatusCode.SUCCESS [] (Some metrics).
Definition LinkResponse_denied : LinkResponse := mkLinkResponse StatusCode.REQUEST_DENIED [] None.
Definition with_text (self : LinkResponse) (text : rstring) : LinkResponse :=
  mkLinkResponse (resp_status self) text (resp_metrics self).

Definition into_event (self : LinkResponse) (mac : MacAddress) : FsmEvent :=
  AppLinkCharacteristicsResponse mac (resp_status self) (resp_text self) (resp_metrics self).

Definition fallback_denial (event : FsmEvent) : option FsmEvent :=
  match event with
  | AppLinkCharacteristicsResponse mac _ _ _ => Some (into_event LinkResponse_denied mac)
  | _ => None
  end.

(** A spawned call: of the backend, or the ready denial used without one. *)
Inductive LinkTask : Type :=
  | BackendCall (request : LinkRequest)
  | ReadyDenial.

(** Backend calls in flight, by task id. *)
Record LinkJobs : Type := mkJobs {
  has_backend : bool;
  job_tasks : gmap Z LinkTask;
  job_macs : gmap Z MacAddress;
  job_next_id : Z;
}.

Definition LinkJobs_new (backend : bool) : LinkJobs := mkJobs backend ∅ ∅ 0.

Definition start_job (request : LinkRequest) (self : LinkJobs) : LinkJobs :=
  let id := job_next_id self in
  let task := if has_backend self then BackendCall request else ReadyDenial in
  mkJobs (has_backend self) (<[id := task]> (job_tasks self))
    (<[id := lr_id request]> (job_macs self)) (id + 1).

Definition jobs_is_empty (self : LinkJobs) : bool := bool_decide (job_tasks self = ∅).

(** What a finished task left: a response, or the panic of the backend. *)
Abbreviation Joined := (option LinkResponse).

(** [LinkJobs::next], once task [id] has finished. *)
Definition next_job (id : Z) (joined : Joined) (self : LinkJobs)
    : panics (FsmEvent * LinkJobs) :=
  let response := match joined with Some r => r | None => LinkResponse_denied end in
  mac ← expect (job_macs self !! id);
  mret (into_event response mac,
        mkJobs (has_backend self) (delete id (job_tasks self)) (delete id (job_macs self))
          (job_next_id self)).

(** ** Extensions ([dlep-ext/src/lib.rs]) *)

Inductive Role : Type := RoleRouter | RoleModem.
Definition is_router (self : Role) : bool :=
  match self with RoleRouter => true | RoleModem => false end.
Definition is_modem (self : Role) : bool :=
  match self with RoleRouter => false | RoleModem => true end.

Inductive ExtHandled : Type := Handled | Passthrough.

(** What a hook asks of its [ExtensionCtx]. *)
Inductive CtxCall {host : Host} : Type :=
  | CtxSend (msg : Message)
  | CtxEmit (ev : Payload).

Record DestinationStateSnapshot : Type := mkSnapshot {
  snap_up : bool;
  snap_last_status : StatusCode;
  snap_metrics : option LinkMetrics;
}.

(** The trait object of an extension: third-party code, hence a record of
    arbitrary functions.  A hook sees the session id and the side through its
    context, makes calls on it and may change the world behind it. *)
Record DlepExtension {host : Host} : Type := mkExtension {
  advertised_ids : list ExtensionId;
  on_negotiated : list ExtensionId -> bool;
  on_unknown_data_item :
    SessionId -> bool -> MessageType -> RawDataItem -> World -> ExtHandled * list CtxCall * World;
  on_unknown_message :
    SessionId -> bool -> MessageType -> list DataItem.DataItem -> World
    -> ExtHandled * list CtxCall * World;
  on_session_state : SessionId -> bool -> bool -> World -> list CtxCall * World;
  on_destination_state :
    SessionId -> bool -> MacAddress -> DestinationStateSnapshot -> World -> list CtxCall * World;
}.

(** The default [on_negotiated]. *)
Definition default_on_negotiated (advertised remote_ids : list ExtensionId) : bool :=
  negb (bool_decide (advertised = [])) && all (contains remote_ids) advertised.

Abbreviation ExtensionRegistry := (list DlepExtension).

Definition register {host : Host} (self : ExtensionRegistry) (ext : DlepExtension)
    : ExtensionRegistry := self ++ [ext].

(** [Vec::sort] and [Vec::dedup] on identifiers. *)
Fixpoint insert_sorted (x : Z) (l : list Z) : list Z :=
  match l with
  | [] => [x]
  | y :: l' => if x <=? y then x :: l else y :: insert_sorted x l'
  end.
Definition sort_ids (l : list Z) : list Z := foldr insert_sorted [] l.
Fixpoint dedup_ids (l : list Z) : list Z :=
  match l with
  | [] => []
  | x :: l' =>
      match dedup_ids l' with
      | [] => [x]
      | y :: k => if x =? y then y :: k else x :: y :: k
      end
  end.

Definition advertised {host : Host} (self : ExtensionRegistry) : list ExtensionId :=
  dedup_ids (sort_ids (concat (advertised_ids <$> self))).

Definition negotiate {host : Host} (self : ExtensionRegistry) (remote : list ExtensionId)
    : list DlepExtension :=
  retain (fun e =>
    negb (bool_decide (advertised_ids e = []))
    && all (contains remote) (advertised_ids e)
    && on_negotiated e remote) self.
