(* ===== verification/Timers.v ===== *)
(** * The runtime's timers

    [TimerSet] of [dlep-daemon/src/session.rs]: the timers of a session task, each
    a sleeper task that puts [(id, kind, generation)] in the expiry channel.  A
    cancelled or superseded sleeper may already have done so; [generation] tells
    its expiry from a current one. *)

From S2P Require Import Prelude Externs CoreTypes Addresses Events Lifecycle.

(** A [JoinHandle]: the position of the task among those spawned. *)
Abbreviation JoinHandle := nat.

Record TimerEntry : Type := mkEntry {
  te_handle : JoinHandle;
  te_periodic : bool;
  te_generation : Z;
}.

Record TimerSet : Type := mkTimers {
  handles : gmap TimerId TimerEntry;
  last_generations : gmap TimerId Z;
}.

Definition TimerSet_default : TimerSet := mkTimers ∅ ∅.

Definition next_generation_for (id : TimerId) (self : TimerSet) : Z * TimerSet :=
  let generation := (default 0 (last_generations self !! id) + 1) `mod` 2 ^ 64 in
  (generation, mkTimers (handles self) (<[id := generation]> (last_generations self))).

(** [arm], [cancel] and [drop] with the handles they abort. *)
Definition arm (id : TimerId) (handle : JoinHandle) (periodic : bool) (generation : Z)
    (self : TimerSet) : list JoinHandle * TimerSet :=
  (opt_list (te_handle <$> handles self !! id),
   mkTimers (<[id := mkEntry handle periodic generation]> (handles self)) (last_generations self)).

Definition cancel (id : TimerId) (self : TimerSet) : list JoinHandle * TimerSet :=
  (opt_list (te_handle <$> handles self !! id),
   mkTimers (delete id (handles self)) (last_generations self)).

Definition is_current_generation (self : TimerSet) (id : TimerId) (generation : Z) : bool :=
  match handles self !! id with
  | Some e => te_generation e =? generation
  | None => false
  end.

Definition forget (id : TimerId) (self : TimerSet) : TimerSet :=
  match handles self !! id with
  | Some entry =>
      if te_periodic entry then self
      else mkTimers (delete id (handles self)) (last_generations self)
  | None => self
  end.

Definition drop_timers (self : TimerSet) : list JoinHandle * TimerSet :=
  ((fun p => te_handle p.2) <$> map_to_list (handles self), mkTimers ∅ (last_generations self)).

(** ** Sleepers *)

(** A spawned sleeper: what it will send, whether its loop goes on after that,
    and how far it got.  Aborting a task does not stop a send under way. *)
Record Sleeper : Type := mkSleeper {
  sl_id : TimerId;
  sl_kind : TimerKind;
  sl_generation : Z;
  sl_periodic : bool;
  sl_duration : Duration;
  sl_finished : bool;
  sl_aborted : bool;
}.

Definition abort_sleeper (s : Sleeper) : Sleeper :=
  mkSleeper (sl_id s) (sl_kind s) (sl_generation s) (sl_periodic s) (sl_duration s)
    (sl_finished s) true.
Definition finish_sleeper (s : Sleeper) : Sleeper :=
  mkSleeper (sl_id s) (sl_kind s) (sl_generation s) (sl_periodic s) (sl_duration s)
    (negb (sl_periodic s)) (sl_aborted s).

Definition abort_all (hs : list JoinHandle) (sleepers : list Sleeper) : list Sleeper :=
  foldl (fun l h => alter abort_sleeper h l) sleepers hs.

Abbreviation Expiry := (TimerId * TimerKind * Z)%type.

Definition expiry_of (s : Sleeper) : Expiry := (sl_id s, sl_kind s, sl_generation s).

(** [StartTimer] and [ResetHeartbeat] of [process_actions]: a fresh generation, a
    spawned sleeper, and the entry for it. *)
Definition start_sleeper (id : TimerId) (kind : TimerKind) (duration : Duration) (periodic : bool)
    (timers : TimerSet) (sleepers : list Sleeper) : TimerSet * list Sleeper :=
  let '(generation, timers) := next_generation_for id timers in
  let handle := length sleepers in
  let '(aborted, timers) := arm id handle periodic generation timers in
  (timers, abort_all aborted
             (sleepers ++ [mkSleeper id kind generation periodic duration false false])).

Definition cancel_sleeper (id : TimerId) (timers : TimerSet) (sleepers : list Sleeper)
    : TimerSet * list Sleeper :=
  let '(aborted, timers) := cancel id timers in
  (timers, abort_all aborted sleepers).

(** ** The invariant *)

(** A sleeper is started under the identifier of its kind. *)
Definition sleeper_kinded (s : Sleeper) : Prop :=
  timer_started_ok (sl_id s) (sl_kind s) (sl_periodic s) = true.

(** Every sleeper has a generation no later than the last one of its id, no two of
    an id share one, an entry refers to the sleeper started last for its id, and a
    sleeper that no entry refers to has finished or was aborted. *)
Record timers_inv (timers : TimerSet) (sleepers : list Sleeper) : Prop := {
  ti_generations : forall h s, sleepers !! h = Some s ->
    1 <= sl_generation s <= default 0 (last_generations timers !! sl_id s);
  ti_unique : forall h h' s s', sleepers !! h = Some s -> sleepers !! h' = Some s' ->
    sl_id s = sl_id s' -> sl_generation s = sl_generation s' -> h = h';
  ti_entries : forall id e, handles timers !! id = Some e ->
    exists s, sleepers !! te_handle e = Some s /\ sl_id s = id
      /\ sl_generation s = te_generation e /\ sl_periodic s = te_periodic e;
  ti_accounted : forall h s, sleepers !! h = Some s ->
    sl_finished s = false -> sl_aborted s = false ->
    exists e, handles timers !! sl_id s = Some e /\ te_handle e = h;
  ti_count : forall id, 0 <= default 0 (last_generations timers !! id) <= len sleepers;
  ti_kinded : forall h s, sleepers !! h = Some s -> sleeper_kinded s;
}.

(** An expiry in the channel was sent by a sleeper, that finished if it was a
    single shot. *)
Definition expiry_sent (sleepers : list Sleeper) (x : Expiry) : Prop :=
  exists h s, sleepers !! h = Some s /\ expiry_of s = x
    /\ (sl_periodic s = false -> sl_finished s = true).

(** ** Lemmas *)

Lemma length_abort_all hs l : length (abort_all hs l) = length l.
Proof.
  unfold abort_all. revert l. induction hs as [|h hs IH]; intros l; cbn; [done|].
  by rewrite IH, length_alter.
Qed.

Lemma len_abort_all hs l : len (abort_all hs l) = len l.
Proof. unfold len. by rewrite length_abort_all. Qed.

(** Aborting changes the abort marks of the sleepers aborted, nothing else. *)
Lemma lookup_abort_all hs l h :
  abort_all hs l !! h
  = (fun s => if bool_decide (h ∈ hs) then abort_sleeper s else s) <$> l !! h.
Proof.
  unfold abort_all. revert l. induction hs as [|k hs IH]; intros l; cbn [foldl].
  { destruct (l !! h) as [s|]; cbn; [|done]. by rewrite bool_decide_eq_false_2 by set_solver. }
  rewrite IH. destruct (decide (h = k)) as [->|Hne].
  - rewrite list_lookup_alter_eq. destruct (l !! k) as [s|]; cbn; [|done].
    rewrite (bool_decide_eq_true_2 (k ∈ k :: hs)) by left. by case_bool_decide.
  - rewrite list_lookup_alter_ne by done. destruct (l !! h) as [s|]; cbn; [|done].
    f_equal. by rewrite (bool_decide_ext (h ∈ k :: hs) (h ∈ hs)) by set_solver.
Qed.

Lemma abort_all_Some hs l h s :
  abort_all hs l !! h = Some s ->
  exists s0, l !! h = Some s0 /\ expiry_of s = expiry_of s0 /\ sl_periodic s = sl_periodic s0
    /\ sl_finished s = sl_finished s0
    /\ sl_aborted s = sl_aborted s0 || bool_decide (h ∈ hs).
Proof.
  rewrite lookup_abort_all. destruct (l !! h) as [s0|]; cbn; [|done]. intros [= <-]. exists s0.
  case_bool_decide; cbn; rewrite ?orb_true_r, ?orb_false_r; done.
Qed.

Lemma abort_all_lookup hs l h s0 :
  l !! h = Some s0 ->
  exists s, abort_all hs l !! h = Some s /\ expiry_of s = expiry_of s0
    /\ sl_periodic s = sl_periodic s0 /\ sl_finished s = sl_finished s0.
Proof.
  intros H. rewrite lookup_abort_all, H. cbn. eexists. split; [done|]. by case_bool_decide.
Qed.

Lemma expiry_of_eq s s0 :
  expiry_of s = expiry_of s0 ->
  sl_id s = sl_id s0 /\ sl_kind s = sl_kind s0 /\ sl_generation s = sl_generation s0.
Proof. unfold expiry_of. intros [= -> -> ->]. done. Qed.

Lemma expiry_sent_abort hs l x : expiry_sent l x -> expiry_sent (abort_all hs l) x.
Proof.
  intros (h & s & Hl & Hx & Hp). destruct (abort_all_lookup hs l h s Hl) as (s' & H1 & H2 & H3 & H4).
  exists h, s'. rewrite H2, H3, H4. done.
Qed.

Lemma expiry_sent_app l k x : expiry_sent l x -> expiry_sent (l ++ k) x.
Proof. intros (h & s & Hl & H). exists h, s. split; [by apply lookup_app_l_Some|done]. Qed.

Lemma timers_inv_default : timers_inv TimerSet_default [].
Proof. split; cbn; try done; intros; rewrite ?lookup_empty in *; done. Qed.

(** Aborting the sleeper an entry referred to, when the entry is dropped. *)
Lemma timers_inv_cancel timers sleepers id :
  timers_inv timers sleepers ->
  let '(timers', sleepers') := cancel_sleeper id timers sleepers in
  timers_inv timers' sleepers' /\ dom (handles timers') = dom (handles timers) ∖ {[id]}
  /\ len sleepers' = len sleepers
  /\ (forall x, expiry_sent sleepers x -> expiry_sent sleepers' x).
Proof.
  intros Hi. unfold cancel_sleeper, cancel. cbn [handles last_generations].
  split_and!; [|apply dom_delete_L|apply len_abort_all|intros x; apply expiry_sent_abort].
  split; cbn [handles last_generations].
  - intros h s (s0 & H0 & (-> & _ & ->)%expiry_of_eq & _)%abort_all_Some.
    by apply (ti_generations _ _ Hi h).
  - intros h h' s s' (s0 & H0 & (-> & _ & ->)%expiry_of_eq & _)%abort_all_Some
      (s1 & H1 & (-> & _ & ->)%expiry_of_eq & _)%abort_all_Some. by apply (ti_unique _ _ Hi).
  - intros k e [Hk He]%lookup_delete_Some. destruct (ti_entries _ _ Hi k e He) as (s & Hs & <- & <- & <-).
    destruct (abort_all_lookup (opt_list (te_handle <$> handles timers !! id)) _ _ _ Hs)
      as (s' & H' & (H1 & _ & H3)%expiry_of_eq & H4 & _).
    exists s'. split_and!; congruence.
  - intros h s (s0 & H0 & (-> & _ & _)%expiry_of_eq & _ & Hf & Ha)%abort_all_Some Hnf Hna.
    rewrite Ha, orb_false_iff in Hna. destruct Hna as [Hna Hin]. rewrite Hf in Hnf.
    destruct (ti_accounted _ _ Hi h s0 H0 Hnf Hna) as (e & He & <-). exists e. split; [|done].
    apply lookup_delete_Some. split; [|done]. intros ->. rewrite He in Hin. cbn in Hin.
    rewrite bool_decide_eq_true_2 in Hin; [done|left].
  - intros k. rewrite len_abort_all. apply (ti_count _ _ Hi).
  - intros h s (s0 & H0 & (Hid & Hk & _)%expiry_of_eq & Hp & _)%abort_all_Some.
    unfold sleeper_kinded. rewrite Hid, Hk, Hp. by apply (ti_kinded _ _ Hi h).
Qed.

(** A fresh sleeper, with the generation after the last one of its id. *)
Lemma timers_inv_spawn timers sleepers id kind duration periodic :
  timers_inv timers sleepers -> handles timers !! id = None ->
  timer_started_ok id kind periodic = true -> len sleepers < u64_max ->
  let g := default 0 (last_generations timers !! id) + 1 in
  timers_inv
    (mkTimers (<[id := mkEntry (length sleepers) periodic g]> (handles timers))
       (<[id := g]> (last_generations timers)))
    (sleepers ++ [mkSleeper id kind g periodic duration false false]).
Proof.
  intros Hi Hnone Hk Hlen g.
  assert (Hg : forall k, default 0 (last_generations timers !! k)
    <= default 0 (<[id := g]> (last_generations timers) !! k)).
  { intros k. rewrite lookup_insert. case_decide as E; [subst k; cbn; lia|done]. }
  pose proof (ti_count _ _ Hi id) as Hc.
  split; cbn [handles last_generations].
  - intros h s [Hs|[_ Hs]]%lookup_app_Some.
    + pose proof (ti_generations _ _ Hi h s Hs). pose proof (Hg (sl_id s)). lia.
    + apply list_lookup_singleton_Some in Hs as [_ <-]. cbn. rewrite lookup_insert_eq. cbn. lia.
  - intros h h' s s' [Hs|[Hh Hs]]%lookup_app_Some [Hs'|[Hh' Hs']]%lookup_app_Some Hid Hgen.
    + by apply (ti_unique _ _ Hi h h' s s').
    + apply list_lookup_singleton_Some in Hs' as [_ <-]. cbn in Hid, Hgen.
      pose proof (ti_generations _ _ Hi h s Hs) as Hb. rewrite Hid, Hgen in Hb. lia.
    + apply list_lookup_singleton_Some in Hs as [_ <-]. cbn in Hid, Hgen.
      pose proof (ti_generations _ _ Hi h' s' Hs') as Hb. rewrite <-Hid, <-Hgen in Hb. lia.
    + apply list_lookup_singleton_Some in Hs as [H1 _], Hs' as [H2 _]. lia.
  - intros k e [[<- <-]|[Hne He]]%lookup_insert_Some.
    + eexists. split; [by rewrite lookup_app_r, Nat.sub_diag by done|done].
    + destruct (ti_entries _ _ Hi k e He) as (s & Hs & H). exists s.
      split; [by apply lookup_app_l_Some|done].
  - intros h s [Hs|[Hh Hs]]%lookup_app_Some Hf Ha.
    + destruct (ti_accounted _ _ Hi h s Hs Hf Ha) as (e & He & Heh). exists e. split; [|done].
      apply lookup_insert_Some. right. split; [|done]. congruence.
    + apply list_lookup_singleton_Some in Hs as [H0 <-]. cbn. eexists.
      split; [apply lookup_insert_eq|]. cbn. lia.
  - intros k. rewrite len_app. change (len [_]) with 1. rewrite lookup_insert.
    pose proof (ti_count _ _ Hi k). case_decide; [subst k; cbn; lia|lia].
  - intros h s [Hs|[_ Hs]]%lookup_app_Some; [by apply (ti_kinded _ _ Hi h)|].
    by apply list_lookup_singleton_Some in Hs as [_ <-].
Qed.

(** Starting a timer is cancelling it and spawning a sleeper. *)
Lemma start_sleeper_eq timers sleepers id kind duration periodic :
  timers_inv timers sleepers -> len sleepers < u64_max ->
  let '(timers', sleepers') := cancel_sleeper id timers sleepers in
  let g := default 0 (last_generations timers' !! id) + 1 in
  start_sleeper id kind duration periodic timers sleepers
  = (mkTimers (<[id := mkEntry (length sleepers') periodic g]> (handles timers'))
       (<[id := g]> (last_generations timers')),
     sleepers' ++ [mkSleeper id kind g periodic duration false false]).
Proof.
  intros Hi Hlen. unfold start_sleeper, cancel_sleeper, cancel, arm, next_generation_for.
  cbn [handles last_generations]. pose proof (ti_count _ _ Hi id) as Hc.
  rewrite Z.mod_small by (unfold u64_max in *; lia).
  rewrite length_abort_all, insert_delete_eq. f_equal.
  destruct (handles timers !! id) as [e|] eqn:He; cbn; [|done].
  destruct (ti_entries _ _ Hi id e He) as (s & Hs & _).
  apply alter_app_l. by apply lookup_lt_Some in Hs.
Qed.

Lemma timers_inv_start timers sleepers id kind duration periodic :
  timers_inv timers sleepers -> timer_started_ok id kind periodic = true ->
  len sleepers < u64_max ->
  let '(timers', sleepers') := start_sleeper id kind duration periodic timers sleepers in
  timers_inv timers' sleepers' /\ dom (handles timers') = {[id]} ∪ dom (handles timers)
  /\ len sleepers' = len sleepers + 1
  /\ (forall x, expiry_sent sleepers x -> expiry_sent sleepers' x).
Proof.
  intros Hi Hk Hlen. pose proof (start_sleeper_eq timers sleepers id kind duration periodic Hi Hlen) as E.
  pose proof (timers_inv_cancel timers sleepers id Hi) as Hc.
  destruct (cancel_sleeper id timers sleepers) as [timers' sleepers'] eqn:Ec.
  destruct Hc as (Hi' & Hdom & Hlen' & Hsent). rewrite E. split_and!.
  - apply timers_inv_spawn; [done| |done|lia].
    assert (Hn : id ∉ dom (handles timers')) by (rewrite Hdom; set_solver).
    by apply not_elem_of_dom in Hn.
  - cbn [handles]. rewrite dom_insert_L, Hdom. apply set_eq. intros k.
    rewrite !elem_of_union, elem_of_difference, elem_of_singleton. destruct (decide (k = id)); tauto.
  - rewrite len_app, Hlen'. done.
  - intros x Hx. by apply expiry_sent_app, Hsent.
Qed.

(** A sleeper that wakes up. *)
Lemma timers_inv_fire timers sleepers h s :
  timers_inv timers sleepers -> sleepers !! h = Some s -> sl_finished s = false ->
  timers_inv timers (<[h := finish_sleeper s]> sleepers)
  /\ len (<[h := finish_sleeper s]> sleepers) = len sleepers
  /\ (forall x, expiry_sent sleepers x \/ x = expiry_of s -> expiry_sent (<[h := finish_sleeper s]> sleepers) x).
Proof.
  intros Hi Hs Hnf.
  assert (Hlen : len (<[h := finish_sleeper s]> sleepers) = len sleepers)
    by (unfold len; by rewrite length_insert).
  assert (Hl : forall k s1, <[h := finish_sleeper s]> sleepers !! k = Some s1 ->
    exists s0, sleepers !! k = Some s0 /\ expiry_of s1 = expiry_of s0
      /\ sl_periodic s1 = sl_periodic s0 /\ sl_aborted s1 = sl_aborted s0
      /\ (sl_finished s1 = false -> sl_finished s0 = false)).
  { intros k s1 [(<- & <- & _)|[_ Hk]]%list_lookup_insert_Some; [by exists s|by exists s1]. }
  assert (Hr : forall k s0, sleepers !! k = Some s0 ->
    exists s1, <[h := finish_sleeper s]> sleepers !! k = Some s1 /\ expiry_of s1 = expiry_of s0
      /\ sl_periodic s1 = sl_periodic s0
      /\ (sl_periodic s0 = false -> sl_finished s0 = true \/ k = h -> sl_finished s1 = true)).
  { intros k s0 Hk. destruct (decide (k = h)) as [->|Hne].
    - exists (finish_sleeper s). replace s0 with s by congruence.
      rewrite list_lookup_insert_eq by (by eapply lookup_lt_Some). cbn.
      split_and!; try done. by intros ->.
    - exists s0. rewrite list_lookup_insert_ne by done. split_and!; try done. intros _ [H|H]; done. }
  split_and!; [split|done|].
  - intros k s1 (s0 & H0 & (-> & _ & ->)%expiry_of_eq & _)%Hl. by apply (ti_generations _ _ Hi k).
  - intros k k' s1 s2 (s0 & H0 & (-> & _ & ->)%expiry_of_eq & _)%Hl
      (s3 & H3 & (-> & _ & ->)%expiry_of_eq & _)%Hl. by apply (ti_unique _ _ Hi).
  - intros id e He. destruct (ti_entries _ _ Hi id e He) as (s0 & H0 & <- & <- & <-).
    destruct (Hr _ _ H0) as (s1 & H1 & (H2 & _ & H3)%expiry_of_eq & H4 & _). by exists s1.
  - intros k s1 (s0 & H0 & (-> & _ & _)%expiry_of_eq & _ & Ha & Hf)%Hl Hnf1 Hna.
    apply (ti_accounted _ _ Hi k s0 H0); [auto|congruence].
  - intros k. rewrite Hlen. apply (ti_count _ _ Hi).
  - intros k s1 (s0 & H0 & (Hid & Hk & _)%expiry_of_eq & Hp & _)%Hl.
    unfold sleeper_kinded. rewrite Hid, Hk, Hp. by apply (ti_kinded _ _ Hi k).
  - intros x [(k & s0 & H0 & <- & Hf)| -> ].
    + destruct (Hr _ _ H0) as (s1 & H1 & H2 & H3 & H4). exists k, s1. rewrite H3. split_and!; [done..|]. auto 10.
    + destruct (Hr _ _ Hs) as (s1 & H1 & H2 & H3 & H4). exists h, s1. rewrite H3. split_and!; [done..|]. auto 10.
Qed.

(** An expiry of the current generation: the timer is armed, of that kind, and its
    single-shot sleeper has finished, so that [forget] loses no running task. *)
Lemma current_expiry timers sleepers id kind generation :
  timers_inv timers sleepers -> expiry_sent sleepers (id, kind, generation) ->
  is_current_generation timers id generation = true ->
  exists e, handles timers !! id = Some e /\ timer_started_ok id kind (te_periodic e) = true
    /\ timers_inv (forget id timers) sleepers.
Proof.
  intros Hi (h & s & Hs & [= <- <- <-] & Hfin). unfold is_current_generation, forget.
  destruct (handles timers !! sl_id s) as [e|] eqn:He; [|done]. intros Hg%Z.eqb_eq.
  destruct (ti_entries _ _ Hi _ e He) as (s1 & Hs1 & Hid & Hgen & Hper).
  assert (te_handle e = h) as Eh by (apply (ti_unique _ _ Hi _ _ s1 s); congruence).
  assert (s1 = s) as -> by congruence.
  exists e. split; [done|]. rewrite <-Hper in *. split; [apply (ti_kinded _ _ Hi h s Hs)|].
  destruct (sl_periodic s) eqn:Ep; [done|]. specialize (Hfin eq_refl).
  split; cbn [handles last_generations]; try apply Hi.
  - intros k e' [Hne He']%lookup_delete_Some. by apply (ti_entries _ _ Hi).
  - intros k s' Hs' Hf Ha. destruct (ti_accounted _ _ Hi k s' Hs' Hf Ha) as (e' & He' & <-).
    exists e'. split; [|done]. apply lookup_delete_Some. split; [|done]. intros Heq.
    rewrite <-Heq, He in He'. injection He' as <-. congruence.
Qed.

(** Dropping the set leaves no sleeper running. *)
Lemma drop_timers_aborts timers sleepers h s :
  timers_inv timers sleepers -> abort_all (drop_timers timers).1 sleepers !! h = Some s ->
  sl_finished s = true \/ sl_aborted s = true.
Proof.
  intros Hi (s0 & H0 & _ & _ & -> & ->)%abort_all_Some.
  destruct (sl_finished s0) eqn:Ef; [by left|]. right.
  destruct (sl_aborted s0) eqn:Ea; [done|]. cbn.
  destruct (ti_accounted _ _ Hi h s0 H0 Ef Ea) as (e & He & <-).
  apply bool_decide_eq_true. cbn. apply list_elem_of_fmap. exists (sl_id s0, e).
  split; [done|by apply elem_of_map_to_list].
Qed.
