(* ===== verification/Runtime.v ===== *)
(** * The session task

    [run_session_tracked] of [dlep-daemon/src/session.rs]: one task per session
    that feeds the state machine with frames, commands, link-control answers and
    timer expiries, and carries its actions out.  Each branch of the [select!] is
    a function; which branch runs, and what the peer, the application and the
    sleepers do meanwhile, is the step relation [task_step]. *)

From S2P Require Import Prelude Externs CoreTypes Codec CodecMessage Addresses Events.
From S2P Require Import SessionCommon Validation Lifecycle DaemonTypes Timers.
Import DataItem.

Section Runtime.
Context {crates : Crates} {host : Host}.

(** What the task does to the outside, in order. *)
Inductive Output : Type :=
  | OWrote (msg : Message)
  | OEvent (ev : DaemonEvent)
  | OEstablished
  | OShutdownWriter
  | OReceipt (r : CommandReceipt).

(** What is fixed when the task starts. *)
Record SessionEnv : Type := mkEnv {
  env_session_id : SessionId;
  env_is_router : bool;
  env_extensions : ExtensionRegistry;
  env_connection : bool;
  env_mac_format : MacAddressFormat;
}.

(** What [process_actions] changes: timers, the [SessionLifecycle] and the queue of
    extension messages; [sleepers], [out] and [world] are the outside. *)
Record Shared : Type := mkShared {
  timers : TimerSet;
  sleepers : list Sleeper;
  active_exts : list DlepExtension;
  down_emitted : bool;
  lifecycle_peer : PeerInfo;
  link_jobs : LinkJobs;
  pending_sends : list Message;
  out : list Output;
  world : World;
}.

Definition set_timers (t : TimerSet) (l : list Sleeper) (s : Shared) : Shared :=
  mkShared t l (active_exts s) (down_emitted s) (lifecycle_peer s) (link_jobs s)
    (pending_sends s) (out s) (world s).
Definition set_active_exts (l : list DlepExtension) (s : Shared) : Shared :=
  mkShared (timers s) (sleepers s) l (down_emitted s) (lifecycle_peer s) (link_jobs s)
    (pending_sends s) (out s) (world s).
Definition set_down_emitted (s : Shared) : Shared :=
  mkShared (timers s) (sleepers s) (active_exts s) true (lifecycle_peer s) (link_jobs s)
    (pending_sends s) (out s) (world s).
Definition set_lifecycle_peer (p : PeerInfo) (s : Shared) : Shared :=
  mkShared (timers s) (sleepers s) (active_exts s) (down_emitted s) p (link_jobs s)
    (pending_sends s) (out s) (world s).
Definition set_link_jobs (j : LinkJobs) (s : Shared) : Shared :=
  mkShared (timers s) (sleepers s) (active_exts s) (down_emitted s) (lifecycle_peer s) j
    (pending_sends s) (out s) (world s).
Definition set_pending_sends (l : list Message) (s : Shared) : Shared :=
  mkShared (timers s) (sleepers s) (active_exts s) (down_emitted s) (lifecycle_peer s)
    (link_jobs s) l (out s) (world s).
Definition set_world (w : World) (s : Shared) : Shared :=
  mkShared (timers s) (sleepers s) (active_exts s) (down_emitted s) (lifecycle_peer s)
    (link_jobs s) (pending_sends s) (out s) w.
Definition push_out (o : Output) (s : Shared) : Shared :=
  mkShared (timers s) (sleepers s) (active_exts s) (down_emitted s) (lifecycle_peer s)
    (link_jobs s) (pending_sends s) (out s ++ [o]) (world s).

(** ** Hooks *)

(** [SessionCtx]: messages are queued, events broadcast at once. *)
Definition run_ctx (calls : list CtxCall) (s : Shared) : Shared :=
  foldl (fun s c =>
    match c with
    | CtxSend msg => set_pending_sends (pending_sends s ++ [msg]) s
    | CtxEmit ev => push_out (OEvent (EvExtension ev)) s
    end) s calls.

Fixpoint dispatch_unknown_message (env : SessionEnv) (exts : list DlepExtension) (mt : MessageType)
    (items : list DataItem) (s : Shared) : bool * Shared :=
  match exts with
  | [] => (false, s)
  | ext :: exts' =>
      let '(handled, calls, w) :=
        on_unknown_message ext (env_session_id env) (env_is_router env) mt items (world s) in
      let s := run_ctx calls (set_world w s) in
      match handled with
      | Handled => (true, s)
      | Passthrough => dispatch_unknown_message env exts' mt items s
      end
  end.

(** [active_exts.iter().any(..)] on one unknown item. *)
Fixpoint claim_item (env : SessionEnv) (exts : list DlepExtension) (mt : MessageType)
    (raw : RawDataItem) (s : Shared) : bool * Shared :=
  match exts with
  | [] => (false, s)
  | ext :: exts' =>
      let '(handled, calls, w) :=
        on_unknown_data_item ext (env_session_id env) (env_is_router env) mt raw (world s) in
      let s := run_ctx calls (set_world w s) in
      match handled with
      | Handled => (true, s)
      | Passthrough => claim_item env exts' mt raw s
      end
  end.

Fixpoint filter_unknown_items (env : SessionEnv) (exts : list DlepExtension) (mt : MessageType)
    (items : list DataItem) (s : Shared) : list DataItem * Shared :=
  match items with
  | [] => ([], s)
  | item :: items' =>
      let '(claimed, s) :=
        match item with
        | Unknown raw => claim_item env exts mt raw s
        | _ => (false, s)
        end in
      let '(rest, s) := filter_unknown_items env exts mt items' s in
      (if claimed then rest else item :: rest, s)
  end.

Definition dispatch_session_state (env : SessionEnv) (up : bool) (s : Shared) : Shared :=
  foldl (fun s ext =>
    let '(calls, w) :=
      on_session_state ext (env_session_id env) (env_is_router env) up (world s) in
    run_ctx calls (set_world w s)) s (active_exts s).

Definition dispatch_destination_state (env : SessionEnv) (mac : Mac) (up : bool)
    (metrics : option LinkMetrics) (last_status : StatusCode) (s : Shared) : Shared :=
  foldl (fun s ext =>
    let '(calls, w) :=
      on_destination_state ext (env_session_id env) (env_is_router env) mac
        (mkSnapshot up last_status metrics) (world s) in
    run_ctx calls (set_world w s)) s (active_exts s).

(** ** Sending *)

Definition write_message (msg : Message) : stm Shared DaemonError unit :=
  bs <~ st_lift (map_err CodecFailure (Message_encode msg));;
  fun s =>
    match write_all bs (world s) with
    | (true, w) => (Ok tt, push_out (OWrote msg) (set_world w s))
    | (false, w) => (Err IoError, set_world w s)
    end.

Fixpoint flush_messages (env : SessionEnv) (msgs : list Message) : stm Shared DaemonError unit :=
  match msgs with
  | [] => st_ret tt
  | msg :: msgs' =>
      st_lift (map_err
        (fun _ => ConfigError (str "extension message MAC does not match session address format"))
        (validate_mac_format msg (env_mac_format env)));;;
      write_message msg;;;
      flush_messages env msgs'
  end%stm.

(** The queue is drained: an error discards what is left of it. *)
Definition flush_pending_sends (env : SessionEnv) : stm Shared DaemonError unit :=
  fun s => flush_messages env (pending_sends s) (set_pending_sends [] s).

(** ** Public events *)

Definition negotiated_from_active (exts : list DlepExtension) (peer_extensions : list ExtensionId)
    : list ExtensionId :=
  dedup_ids (sort_ids
    (retain (contains peer_extensions) (concat (advertised_ids <$> exts)))).

Definition translate_emitted (emitted : EmittedEvent) (peer : PeerInfo) (session_id : SessionId)
    (exts : list DlepExtension) : option DaemonEvent :=
  match emitted with
  | SessionUp peer_extensions =>
      Some (EvSessionUp session_id peer (negotiated_from_active exts peer_extensions))
  | SessionDown reason => Some (EvSessionDown session_id peer reason)
  | PeerDiscovered _ _ => None
  | DestinationUp mac metrics addrs =>
      Some (EvDestination session_id peer
        (DestUp mac metrics (v4 addrs) (v6 addrs) (v4_subnets addrs) (v6_subnets addrs)))
  | CommandRejected rejection => Some (EvCommandRejected session_id peer rejection)
  | DestinationUpdate mac metrics => Some (EvDestination session_id peer (DestUpdate mac metrics))
  | DestinationDown mac reason => Some (EvDestination session_id peer (DestDown mac reason))
  | LinkCharacteristicsResponse mac status text metrics =>
      Some (EvDestination session_id peer (DestLinkCharacteristicsResponse mac status text metrics))
  | SessionAddressesUpdate changes addresses =>
      Some (EvSessionAddresses session_id peer changes addresses)
  | DestinationAddressesUpdate mac changes addresses =>
      Some (EvDestination session_id peer (DestAddressesChanged mac changes addresses))
  | DestinationAnnounced mac requested_addresses =>
      Some (EvDestination session_id peer (DestAnnounced mac requested_addresses))
  | LinkCharacteristicsRequested mac requested _ _ =>
      Some (EvDestination session_id peer (DestLinkCharacteristicsRequested mac requested))
  | SessionMetricsUpdate metrics => Some (EvMetrics session_id peer metrics)
  end.

(** ** Actions *)

(** Before the broadcast of an emitted event: the mark that SessionDown was
    reported, and the extensions of the session. *)
Definition before_emit (env : SessionEnv) (emitted : EmittedEvent) (s : Shared) : Shared :=
  match emitted with
  | SessionDown _ => set_down_emitted s
  | SessionUp peer_extensions =>
      let s := set_active_exts (negotiate (env_extensions env) peer_extensions) s in
      if env_connection env then push_out OEstablished s else s
  | _ => s
  end.

Definition broadcast (env : SessionEnv) (peer : PeerInfo) (emitted : EmittedEvent) (s : Shared)
    : Shared :=
  match translate_emitted emitted peer (env_session_id env) (active_exts s) with
  | Some ev => push_out (OEvent ev) s
  | None => s
  end.

(** After it: the hooks of the extensions, and the link-control backend. *)
Definition after_emit (env : SessionEnv) (peer : PeerInfo) (emitted : EmittedEvent) (s : Shared)
    : Shared :=
  match emitted with
  | SessionUp _ => dispatch_session_state env true s
  | SessionDown _ => set_active_exts [] (dispatch_session_state env false s)
  | DestinationUp mac metrics _ =>
      dispatch_destination_state env mac true (Some metrics) StatusCode.SUCCESS s
  | LinkCharacteristicsRequested mac requested metrics true =>
      set_link_jobs
        (start_job (mkLinkRequest (env_session_id env) peer mac requested metrics) (link_jobs s)) s
  | DestinationDown mac reason => dispatch_destination_state env mac false None reason s
  | _ => s
  end.

(** One action; the result tells whether the connection is to be closed. *)
Definition process_action (env : SessionEnv) (peer : PeerInfo) (action : FsmAction)
    : stm Shared DaemonError bool :=
  match action with
  | SendMessage msg => write_message msg;;; st_ret false
  | SendSignal _ _ => st_ret false
  | StartTimer id kind duration periodic =>
      fun s =>
        let '(t, l) := start_sleeper id kind duration periodic (timers s) (sleepers s) in
        (Ok false, set_timers t l s)
  | CancelTimer id =>
      fun s => let '(t, l) := cancel_sleeper id (timers s) (sleepers s) in
               (Ok false, set_timers t l s)
  | ResetHeartbeat timer_id missed_deadline =>
      fun s =>
        let '(t, l) :=
          start_sleeper timer_id THeartbeatMissed missed_deadline false (timers s) (sleepers s) in
        (Ok false, set_timers t l s)
  | CloseTcp => st_ret true
  | Emit emitted =>
      st_modify (before_emit env emitted);;;
      st_modify (broadcast env peer emitted);;;
      st_modify (after_emit env peer emitted);;;
      flush_pending_sends env;;;
      st_ret false
  end%stm.

Fixpoint process_loop (env : SessionEnv) (peer : PeerInfo) (actions : list FsmAction)
    (close : bool) : stm Shared DaemonError bool :=
  match actions with
  | [] => st_ret close
  | action :: actions' =>
      c <~ process_action env peer action;;
      process_loop env peer actions' (close || c)
  end%stm.

Definition process_actions (env : SessionEnv) (peer : PeerInfo) (actions : list FsmAction)
    : stm Shared DaemonError bool :=
  (close <~ process_loop env peer actions false;;
   st_modify (fun s => if close then push_out OShutdownWriter s else s);;;
   st_ret close)%stm.

(** [Drop] of the lifecycle and of the timers, on every exit of the task. *)
Definition drop_lifecycle (env : SessionEnv) (s : Shared) : Shared :=
  if down_emitted s then s
  else
    set_pending_sends (pending_sends s)
      (dispatch_session_state env false
        (set_pending_sends []
          (push_out (OEvent (EvSessionDown (env_session_id env) (lifecycle_peer s)
                               StatusCode.TIMED_OUT)) s))).

Definition drop_session (env : SessionEnv) (s : Shared) : Shared :=
  let '(aborted, t) := drop_timers (timers s) in
  drop_lifecycle env (set_timers t (abort_all aborted (sleepers s)) s).

(** ** Reading frames *)

(** One completed read of the transport; no octets mean the end of the stream. *)
Inductive Read : Type :=
  | ReadBytes (chunk : bytes)
  | ReadError.

Inductive FrameRead : Type :=
  | FrameMessage (msg : Message)
  | FrameEof.

(** [read_frame] over the reads that complete while it is polled: it finishes, or
    is dropped by the [select!] with what it read kept in the buffer. *)
Fixpoint read_frame (reads : list Read) (buf : bytes)
    : option (outcome DaemonError FrameRead) * bytes :=
  match MessageCodec_decode buf with
  | (Ok (Some msg), buf) => (Some (Ok (FrameMessage msg)), buf)
  | (Err e, buf) => (Some (Err (CodecFailure e)), buf)
  | (Panic, buf) => (Some Panic, buf)
  | (Ok None, buf) =>
      match reads with
      | [] => (None, buf)
      | ReadBytes chunk :: reads' =>
          if bool_decide (chunk = []) then (Some (Ok FrameEof), buf)
          else read_frame reads' (buf ++ chunk)
      | ReadError :: _ => (Some (Err IoError), buf)
      end
  end.

(** ** The task *)

Section Task.
Context `{Hfsm : SessionFsm F}.

Record Task : Type := mkTask {
  t_fsm : F;
  t_shared : Shared;
  t_peer : PeerInfo;
  t_read_buf : bytes;
  t_commands_open : bool;
  t_expiries : list Expiry;
}.

Definition set_shared (s : Shared) (t : Task) : Task :=
  mkTask (t_fsm t) s (t_peer t) (t_read_buf t) (t_commands_open t) (t_expiries t).
Definition set_fsm (f : F) (t : Task) : Task :=
  mkTask f (t_shared t) (t_peer t) (t_read_buf t) (t_commands_open t) (t_expiries t).
Definition set_peer (p : PeerInfo) (t : Task) : Task :=
  mkTask (t_fsm t) (set_lifecycle_peer p (t_shared t)) p (t_read_buf t) (t_commands_open t)
    (t_expiries t).
Definition set_read_buf (b : bytes) (t : Task) : Task :=
  mkTask (t_fsm t) (t_shared t) (t_peer t) b (t_commands_open t) (t_expiries t).
Definition close_commands (t : Task) : Task :=
  mkTask (t_fsm t) (t_shared t) (t_peer t) (t_read_buf t) false (t_expiries t).
Definition set_expiries (l : list Expiry) (t : Task) : Task :=
  mkTask (t_fsm t) (t_shared t) (t_peer t) (t_read_buf t) (t_commands_open t) l.

(** A computation on the shared part, and one that reads the task. *)
Definition with_shared {A} (m : stm Shared DaemonError A) : stm Task DaemonError A :=
  fun t => let '(r, s) := m (t_shared t) in (r, set_shared s t).
Definition st_get : stm Task DaemonError Task := fun t => (Ok t, t).

(** [fsm.step(event)]. *)
Definition step_fsm (event : FsmEvent) : stm Task DaemonError (list FsmAction) :=
  fun t =>
    match fsm_step event (t_fsm t) with
    | Ok (f, actions) => (Ok actions, set_fsm f t)
    | Err e => match e with end
    | Panic => (Panic, t)
    end.

Definition process (env : SessionEnv) (actions : list FsmAction) : stm Task DaemonError bool :=
  fun t => with_shared (process_actions env (t_peer t) actions) t.

Definition feed (env : SessionEnv) (event : FsmEvent) : stm Task DaemonError bool :=
  (actions <~ step_fsm event;; process env actions)%stm.

(** Message types the extensions never see. *)
Definition is_known_message_type (mt : MessageType) : bool :=
  one_of mt [MessageType.SESSION_INITIALIZATION; MessageType.SESSION_INITIALIZATION_RESPONSE;
             MessageType.SESSION_UPDATE; MessageType.SESSION_UPDATE_RESPONSE;
             MessageType.SESSION_TERMINATION; MessageType.SESSION_TERMINATION_RESPONSE;
             MessageType.DESTINATION_UP; MessageType.DESTINATION_UP_RESPONSE;
             MessageType.DESTINATION_ANNOUNCE; MessageType.DESTINATION_ANNOUNCE_RESPONSE;
             MessageType.DESTINATION_DOWN; MessageType.DESTINATION_DOWN_RESPONSE;
             MessageType.DESTINATION_UPDATE; MessageType.HEARTBEAT].

Definition peer_description_of (msg : Message) : option rstring :=
  find_map (fun i => match i with PeerType _ description => Some description | _ => None end)
    (msg_items msg).

(** The peer's description, from either initialization message. *)
Definition note_peer (msg : Message) (t : Task) : Task :=
  if one_of (message_type msg) [MessageType.SESSION_INITIALIZATION;
                            MessageType.SESSION_INITIALIZATION_RESPONSE]
  then set_peer (mkPeer (peer_addr (t_peer t)) (is_tls (t_peer t)) (peer_description_of msg)) t
  else t.

(** What the extensions make of a message: whether one handled it, and otherwise
    the items left for the state machine. *)
Definition offer_to_extensions (env : SessionEnv) (msg : Message)
    : stm Task DaemonError FsmEvent :=
  fun t =>
    let s := t_shared t in
    let in_session := fsm_in_session (t_fsm t) in
    let '(handled, s) :=
      if in_session && negb (is_known_message_type (message_type msg))
      then dispatch_unknown_message env (active_exts s) (message_type msg) (msg_items msg) s
      else (false, s) in
    let '(items, s) :=
      if negb handled && in_session
      then filter_unknown_items env (active_exts s) (message_type msg) (msg_items msg) s
      else (msg_items msg, s) in
    (Ok (if handled then RecvExtensionMessage else RecvMessage (mkMessage (message_type msg) items)),
     set_shared s t).

Definition on_message (env : SessionEnv) (msg : Message) : stm Task DaemonError bool :=
  (st_modify (note_peer msg);;;
   t <~ st_get;;
   if fsm_in_session (t_fsm t) && negb (is_known_message_type (message_type msg))
      && negb (is_ok (validate_mac_format msg (env_mac_format env)))
   then feed env (ProtocolError StatusCode.INVALID_DATA)
   else
     event <~ offer_to_extensions env msg;;
     close <~ feed env event;;
     if close then st_ret true
     else with_shared (flush_pending_sends env);;; st_ret false)%stm.

(** The branches of the [select!].  [true] leaves the loop. *)
Definition on_read (env : SessionEnv) (r : outcome DaemonError FrameRead)
    : stm Task DaemonError bool :=
  match r with
  | Ok (FrameMessage msg) => on_message env msg
  | Ok FrameEof => (feed env TcpClosed;;; st_ret true)%stm
  | Err (CodecFailure _) => feed env (ProtocolError StatusCode.INVALID_DATA)
  | Err e => st_err e
  | Panic => st_lift Panic
  end.

Definition command_event (cmd : SessionCommand) : FsmEvent :=
  match cmd with
  | Shutdown reason => AppShutdown reason
  | AddDestination mac metrics addrs => AppAddDestination mac metrics addrs
  | UpdateDestination mac metrics => AppUpdateMetrics mac metrics
  | UpdateDestinationAddresses mac changes => AppUpdateAddresses mac changes
  | UpdateSessionAddresses _ changes => AppSessionAddresses changes
  | DropDestination mac reason => AppDropDestination mac reason
  | DropDestinationForSession _ mac => AppDropDestination mac StatusCode.SUCCESS
  | SessionUpdate metrics => AppSessionUpdate metrics
  | AnnounceDestination mac => AppAnnounceDestination mac
  | RequestLinkCharacteristics _ mac requested => AppRequestLinkCharacteristics mac requested
  end.

Definition command_outcome (actions : list FsmAction) : outcome CommandRejection unit :=
  match find_map (fun a => match a with Emit (CommandRejected r) => Some r | _ => None end) actions with
  | Some r => Err r
  | None => Ok tt
  end.

Definition send_receipt (wanted : bool) (r : CommandReceipt) : stm Task DaemonError unit :=
  with_shared (st_modify (fun s => if wanted then push_out (OReceipt r) s else s)).

(** [None] when every sender of the command channel is gone. *)
Definition on_command (env : SessionEnv) (request : option SessionRequest)
    : stm Task DaemonError bool :=
  match request with
  | Some req =>
      if match req_target req with Some id => negb (id =? env_session_id env) | None => false end
      then (send_receipt (req_receipt req) None;;; st_ret false)%stm
      else
        (actions <~ step_fsm (command_event (req_command req));;
         closed <~ process env actions;;
         send_receipt (req_receipt req) (Some (env_session_id env, command_outcome actions));;;
         st_ret closed)%stm
  | None =>
      (st_modify close_commands;;;
       feed env (AppShutdown StatusCode.SHUTTING_DOWN))%stm
  end.

Definition rejects_input (actions : list FsmAction) : bool :=
  any (fun a => match a with
                | Emit (CommandRejected (mkRejection _ InvalidInput)) => true
                | _ => false
                end) actions.

(** A link-control task has finished. *)
Definition on_link_job (env : SessionEnv) (id : Z) (joined : Joined) : stm Task DaemonError bool :=
  (t <~ st_get;;
   match next_job id joined (link_jobs (t_shared t)) with
   | Ok (event, jobs) =>
       with_shared (st_modify (set_link_jobs jobs));;;
       actions <~ step_fsm event;;
       if rejects_input actions then
         fallback <~ st_lift (expect (fallback_denial event));;
         actions' <~ step_fsm fallback;;
         process env (actions ++ actions')
       else process env actions
   | Err e => match e with end
   | Panic => st_lift Panic
   end)%stm.

Definition on_expiry (env : SessionEnv) (x : Expiry) : stm Task DaemonError bool :=
  let '(id, kind, generation) := x in
  (t <~ st_get;;
   if negb (is_current_generation (timers (t_shared t)) id generation) then st_ret false
   else
     with_shared (st_modify (fun s => set_timers (forget id (timers s)) (sleepers s) s));;;
     feed env (TimerExpired id kind))%stm.

(** The branches that may run. *)
Inductive ready (env : SessionEnv) (t : Task) : stm Task DaemonError bool -> Prop :=
  | ready_read reads r buf :
      Forall (fun x => match x with ReadBytes c => is_bytes c | _ => True end) reads ->
      read_frame reads (t_read_buf t) = (Some r, buf) ->
      ready env t (st_modify (set_read_buf buf);;; on_read env r)%stm
  | ready_command request :
      t_commands_open t = true -> ready env t (on_command env request)
  | ready_job id task joined :
      job_tasks (link_jobs (t_shared t)) !! id = Some task ->
      (task = ReadyDenial -> joined = Some LinkResponse_denied) ->
      ready env t (on_link_job env id joined)
  | ready_expiry x rest :
      t_expiries t = x :: rest -> ready env t (st_modify (set_expiries rest);;; on_expiry env x)%stm.

Inductive TaskStatus : Type :=
  | Running (t : Task)
  | Exited (t : Task)
  | Crashed (t : Task).

Definition verdict (r : outcome DaemonError bool * Task) : TaskStatus :=
  match r with
  | (Ok false, t) => Running t
  | (Ok true, t) | (Err _, t) => Exited t
  | (Panic, t) => Crashed t
  end.

Inductive task_step (env : SessionEnv) (t : Task) : TaskStatus -> Prop :=
  | step_select branch : ready env t branch -> task_step env t (verdict (branch t))
  | step_receive reads buf :
      Forall (fun x => match x with ReadBytes c => is_bytes c | _ => True end) reads ->
      read_frame reads (t_read_buf t) = (None, buf) -> task_step env t (Running (set_read_buf buf t))
  | step_wake h s :
      sleepers (t_shared t) !! h = Some s -> sl_finished s = false ->
      len (t_expiries t) < COMMAND_CHANNEL_CAPACITY ->
      task_step env t
        (Running (set_expiries (t_expiries t ++ [expiry_of s])
          (set_shared (set_timers (timers (t_shared t))
                         (<[h := finish_sleeper s]> (sleepers (t_shared t))) (t_shared t)) t)))
  | step_cancelled : task_step env t (Exited t).

(** [run_session_tracked] up to the loop. *)
Definition start_task (fsm : F) (peer : PeerInfo) (backend : bool) (w : World) : Task :=
  mkTask fsm
    (mkShared TimerSet_default [] [] false peer (LinkJobs_new backend) [] [] w)
    peer [] true [].

Inductive reaches (env : SessionEnv) (t0 : Task) (initial_event : FsmEvent) : TaskStatus -> Prop :=
  | reaches_start : reaches env t0 initial_event (verdict (feed env initial_event t0))
  | reaches_step t st :
      reaches env t0 initial_event (Running t) -> task_step env t st ->
      reaches env t0 initial_event st.

End Task.
End Runtime.

Arguments Task {host} F.
Arguments TaskStatus {host} F.
