(* ===== verification/RuntimeInv.v ===== *)
(** * The session task keeps its promises

    What every run of [Runtime.task_step] keeps: the events the state machine is
    fed form a run of the lifecycle in which only armed timers expire, the armed
    timers are those of the [TimerSet], and the public events carry the
    notifications of that run.  The theorems about exits follow. *)

From S2P Require Import Prelude Externs CoreTypes Codec CodecMessage Addresses Events.
From S2P Require Import SessionCommon Validation Lifecycle DaemonTypes Timers Runtime.
Import DataItem.

Section RuntimeInv.
Context {crates : Crates} {host : Host}.

(** The SessionUp and SessionDown events among the outputs. *)
Definition life_output (o : Output) : option Effect :=
  match o with
  | OEvent (EvSessionUp _ _ _) => Some Up
  | OEvent (EvSessionDown _ _ _) => Some Down
  | _ => None
  end.
Definition life_log (l : list Output) : list Effect := omap life_output l.

Lemma life_log_app a b : life_log (a ++ b) = life_log a ++ life_log b.
Proof. apply omap_app. Qed.

(** The part of the state hooks and writes leave alone. *)
Definition core (s : Shared) : TimerSet * list Sleeper * bool * LinkJobs * list Effect :=
  (timers s, sleepers s, down_emitted s, link_jobs s, life_log (out s)).

Lemma core_push o s : life_output o = None -> core (push_out o s) = core s.
Proof. intros H. unfold core. cbn. rewrite life_log_app. cbn. by rewrite H, app_nil_r. Qed.

Lemma core_ctx calls s : core (run_ctx calls s) = core s.
Proof.
  unfold run_ctx. revert s. induction calls as [|[] calls IH]; intros s; cbn; [done|..]; rewrite IH.
  - done.
  - by apply core_push.
Qed.

Lemma core_hook calls w s : core (run_ctx calls (set_world w s)) = core s.
Proof. by rewrite core_ctx. Qed.

(** Hooks one after the other. *)
Lemma core_hooks (f : DlepExtension -> World -> list CtxCall * World) exts s :
  core (foldl (fun s ext => let '(calls, w) := f ext (world s) in run_ctx calls (set_world w s)) s exts)
  = core s.
Proof.
  revert s. induction exts as [|ext exts IH]; intros s; cbn; [done|]. rewrite IH.
  destruct (f ext (world s)). apply core_hook.
Qed.

Lemma core_session_state env up s : core (dispatch_session_state env up s) = core s.
Proof.
  exact (core_hooks (fun ext => on_session_state ext (env_session_id env) (env_is_router env) up)
           (active_exts s) s).
Qed.

Lemma core_destination_state env mac up m st s :
  core (dispatch_destination_state env mac up m st s) = core s.
Proof.
  exact (core_hooks (fun ext => on_destination_state ext (env_session_id env) (env_is_router env)
           mac (mkSnapshot up st m)) (active_exts s) s).
Qed.

Lemma core_unknown_message env exts mt items s :
  core (dispatch_unknown_message env exts mt items s).2 = core s.
Proof.
  revert s. induction exts as [|ext exts IH]; intros s; cbn; [done|].
  destruct (on_unknown_message _ _ _ _ _ _) as [[[] calls] w]; cbn; rewrite ?IH; apply core_hook.
Qed.

Lemma core_claim env exts mt raw s : core (claim_item env exts mt raw s).2 = core s.
Proof.
  revert s. induction exts as [|ext exts IH]; intros s; cbn; [done|].
  destruct (on_unknown_data_item _ _ _ _ _ _) as [[[] calls] w]; cbn; rewrite ?IH; apply core_hook.
Qed.

Lemma core_filter env exts mt items s :
  core (filter_unknown_items env exts mt items s).2 = core s.
Proof.
  revert s. induction items as [|item items IH]; intros s; cbn; [done|].
  set (c := match item with Unknown raw => claim_item env exts mt raw s | _ => (false, s) end).
  assert (Hc : core c.2 = core s) by (subst c; destruct item; try done; apply core_claim).
  destruct c as [claimed s1]. cbn in Hc. specialize (IH s1).
  destruct (filter_unknown_items env exts mt items s1) as [rest s2]. cbn in *. congruence.
Qed.

(** ** Sending *)

Lemma write_message_core msg s :
  (write_message msg s).1 <> Panic /\ core (write_message msg s).2 = core s.
Proof.
  unfold write_message, st_bind, st_lift. pose proof (Message_encode_no_panic msg) as Hp.
  destruct (Message_encode msg) as [bs|e|]; [|done|done]. cbn.
  destruct (write_all bs (world s)) as [[] w]; cbn; [|done]. split; [done|]. by rewrite core_push.
Qed.

Lemma flush_messages_core env msgs s :
  (flush_messages env msgs s).1 <> Panic /\ core (flush_messages env msgs s).2 = core s.
Proof.
  revert s. induction msgs as [|msg msgs IH]; intros s; [done|]. cbn [flush_messages].
  unfold st_bind at 1, st_lift.
  destruct (validate_mac_format msg (env_mac_format env)) as [u|e|] eqn:E; cbn [map_err]; [|done|].
  - unfold st_bind. destruct (write_message_core msg s) as [Hp Hc].
    destruct (write_message msg s) as [[] s1]; cbn in *; [|done|done].
    rewrite <-Hc. apply IH.
  - unfold validate_mac_format in E. by case_match.
Qed.

Lemma flush_core env s :
  (flush_pending_sends env s).1 <> Panic /\ core (flush_pending_sends env s).2 = core s.
Proof. apply (flush_messages_core env (pending_sends s) (set_pending_sends [] s)). Qed.

(** ** Actions *)

(** Every link-control task has its destination on record. *)
Definition jobs_ok (j : LinkJobs) : Prop := dom (job_tasks j) = dom (job_macs j).

Record shared_inv (s : Shared) : Prop := {
  si_timers : timers_inv (timers s) (sleepers s);
  si_jobs : jobs_ok (link_jobs s);
  si_down : down_emitted s = bool_decide (Down ∈ life_log (out s));
}.

(** The armed timers of the runtime. *)
Definition armed (s : Shared) : gset TimerId := dom (handles (timers s)).

Lemma shared_inv_core s s' : core s = core s' -> shared_inv s -> shared_inv s'.
Proof.
  unfold core. intros [= Ht Hl Hd Hj Ho] [H1 H2 H3].
  split; [by rewrite <-Ht, <-Hl|by rewrite <-Hj|by rewrite <-Hd, <-Ho].
Qed.

(** [s'] is [s] after actions with these effects. *)
Record advanced (s s' : Shared) (effs : list Effect) : Prop := {
  ad_inv : shared_inv s';
  ad_armed : armed s' = foldl arm_effect (armed s) effs;
  ad_log : life_log (out s') = life_log (out s) ++ notifications effs;
  ad_sent : forall x, expiry_sent (sleepers s) x -> expiry_sent (sleepers s') x;
}.

Lemma advanced_core s s' : core s = core s' -> shared_inv s -> advanced s s' [].
Proof.
  intros Hc Hi. pose proof (shared_inv_core _ _ Hc Hi). unfold core in Hc.
  injection Hc as Ht Hl Hd Hj Ho.
  split; [done|unfold armed; by rewrite Ht|by rewrite Ho, app_nil_r|by rewrite Hl].
Qed.

Lemma advanced_trans s1 s2 s3 e1 e2 :
  advanced s1 s2 e1 -> advanced s2 s3 e2 -> advanced s1 s3 (e1 ++ e2).
Proof.
  intros [I1 A1 L1 S1] [I2 A2 L2 S2]. split; [done|..].
  - by rewrite foldl_app, <-A1.
  - by rewrite L2, L1, notifications_app, app_assoc.
  - auto.
Qed.

Lemma core_sleepers s s' : core s = core s' -> sleepers s = sleepers s'.
Proof. by intros [= _ ? _ _ _]. Qed.

(** Timers started and cancelled. *)
Lemma advanced_timers s t l effs :
  shared_inv s -> timers_inv t l -> dom (handles t) = foldl arm_effect (armed s) effs ->
  notifications effs = [] -> (forall x, expiry_sent (sleepers s) x -> expiry_sent l x) ->
  advanced s (set_timers t l s) effs.
Proof.
  intros Hi Ht Hd Hn Hs. split; [|done| |done].
  - split; [done|apply Hi|apply Hi].
  - cbn. by rewrite Hn, app_nil_r.
Qed.

Lemma start_sleeper_length id kind d p t l :
  len (start_sleeper id kind d p t l).2 = len l + 1.
Proof.
  unfold start_sleeper. cbn. rewrite len_abort_all, len_app. done.
Qed.

Lemma advanced_start s id kind d p :
  timer_started_ok id kind p = true -> shared_inv s ->
  let '(t, l) := start_sleeper id kind d p (timers s) (sleepers s) in
  len l <= u64_max -> advanced s (set_timers t l s) [Arm id].
Proof.
  intros Hk Hi. pose proof (start_sleeper_length id kind d p (timers s) (sleepers s)) as Hlen.
  pose proof (timers_inv_start (timers s) (sleepers s) id kind d p (si_timers _ Hi) Hk) as H.
  destruct (start_sleeper _ _ _ _ _ _) as [t l]. cbn in Hlen. intros Hmax.
  destruct H as (H1 & H2 & _ & H3); [lia|]. by apply advanced_timers.
Qed.

Lemma advanced_cancel s id :
  shared_inv s ->
  let '(t, l) := cancel_sleeper id (timers s) (sleepers s) in
  advanced s (set_timers t l s) [Disarm id].
Proof.
  intros Hi. pose proof (timers_inv_cancel (timers s) (sleepers s) id (si_timers _ Hi)) as H.
  destruct (cancel_sleeper _ _ _) as [t l]. destruct H as (H1 & H2 & _ & H3).
  by apply advanced_timers.
Qed.

(** An emitted event: its broadcast carries its notification. *)
Definition notice (e : EmittedEvent) : list Effect := effects [Emit e].

Lemma notice_notifications e : notifications (notice e) = notice e.
Proof. by destruct e. Qed.

Lemma notice_arms e A : foldl arm_effect A (notice e) = A.
Proof. by destruct e. Qed.

Lemma start_job_ok request j : jobs_ok j -> jobs_ok (start_job request j).
Proof. unfold jobs_ok. cbn. intros H. by rewrite !dom_insert_L, H. Qed.

Definition emit_state (env : SessionEnv) (peer : PeerInfo) (e : EmittedEvent) (s : Shared) : Shared :=
  after_emit env peer e (broadcast env peer e (before_emit env e s)).

Lemma broadcast_log env peer e s :
  life_log (out (broadcast env peer e (before_emit env e s))) = life_log (out s) ++ notice e.
Proof.
  unfold broadcast, before_emit. destruct e; cbn; rewrite ?app_nil_r; try done;
    rewrite ?life_log_app; cbn; rewrite ?app_nil_r; try done.
  destruct (env_connection env); cbn; rewrite ?life_log_app; cbn; by rewrite ?app_nil_r.
Qed.

Lemma after_emit_core env peer e s :
  let s' := after_emit env peer e s in
  timers s' = timers s /\ sleepers s' = sleepers s /\ down_emitted s' = down_emitted s
  /\ life_log (out s') = life_log (out s) /\ (jobs_ok (link_jobs s) -> jobs_ok (link_jobs s')).
Proof.
  assert (Hc : forall s', core s' = core s ->
    timers s' = timers s /\ sleepers s' = sleepers s /\ down_emitted s' = down_emitted s
    /\ life_log (out s') = life_log (out s) /\ (jobs_ok (link_jobs s) -> jobs_ok (link_jobs s'))).
  { unfold core. intros s' [= -> -> -> -> ->]. done. }
  destruct e; cbv zeta; cbn [after_emit]; try (by apply Hc);
    try (by apply Hc, core_session_state); try (by apply Hc, core_destination_state).
  destruct pending; [|by apply Hc]. split_and!; try done. apply start_job_ok.
Qed.

Lemma before_emit_core env peer e s :
  let s' := broadcast env peer e (before_emit env e s) in
  timers s' = timers s /\ sleepers s' = sleepers s /\ link_jobs s' = link_jobs s
  /\ down_emitted s' = down_emitted s || bool_decide (Down ∈ notice e).
Proof.
  unfold broadcast, before_emit. destruct e; cbn; rewrite ?orb_false_r; try done.
  - destruct (env_connection env); cbn; rewrite ?orb_false_r; done.
  - by rewrite orb_true_r.
Qed.

Lemma advanced_emit env peer e s :
  shared_inv s -> advanced s (emit_state env peer e s) (notice e).
Proof.
  intros [Ht Hj Hd]. unfold emit_state.
  destruct (before_emit_core env peer e s) as (B1 & B2 & B3 & B4).
  pose proof (broadcast_log env peer e s) as BL.
  set (s1 := broadcast env peer e (before_emit env e s)) in *.
  destruct (after_emit_core env peer e s1) as (A1 & A2 & A3 & A4 & A5).
  set (s2 := after_emit env peer e s1) in *.
  split.
  - split; [by rewrite A1, A2, B1, B2|by rewrite B3 in A5; auto|].
    rewrite A3, A4, B4, BL, Hd.
    apply eq_true_iff_eq. rewrite orb_true_iff, !bool_decide_eq_true. set_solver.
  - unfold armed. by rewrite A1, B1, notice_arms.
  - by rewrite A4, BL, notice_notifications.
  - by rewrite A2, B2.
Qed.

Lemma process_emit env peer e s :
  let '(r, s') := process_action env peer (Emit e) s in
  core s' = core (emit_state env peer e s) /\ r <> Panic /\ r <> Ok true.
Proof.
  cbn [process_action]. unfold st_bind, st_modify, st_ret. fold (emit_state env peer e s).
  destruct (flush_core env (emit_state env peer e s)) as [Hp Hc].
  by destruct (flush_pending_sends env (emit_state env peer e s)) as [[] s'].
Qed.

(** One action advances the state by its effect, whether or not a write fails. *)
Lemma process_action_ok env peer a s :
  let '(r, s') := process_action env peer a s in
  len (sleepers s) <= len (sleepers s') /\ r <> Panic
  /\ (forall c, r = Ok c -> c = closes (effects [a]))
  /\ (shared_inv s -> Stray ∉ effects [a] -> len (sleepers s') <= u64_max ->
      advanced s s' (effects [a])).
Proof.
  destruct a as [msg|sg tg|id kind d p|id|id d| |e].
  - cbn. unfold st_bind, st_ret. destruct (write_message_core msg s) as [Hp Hc].
    destruct (write_message msg s) as [[] s']; cbn in Hp, Hc; [..|done];
      rewrite (core_sleepers _ _ Hc); (split_and!; [lia|done|by intros ? [= <-]|]);
      intros; by apply advanced_core.
  - cbn. split_and!; [lia|done|by intros ? [= <-]|]. intros; by apply advanced_core.
  - cbn [process_action]. pose proof (start_sleeper_length id kind d p (timers s) (sleepers s)) as Hlen.
    pose proof (advanced_start s id kind d p) as Ha.
    destruct (start_sleeper _ _ _ _ _ _) as [t l]. cbn in *.
    destruct (timer_started_ok id kind p); split_and!; try (lia || done || by intros ? [= <-]); [auto|].
    set_solver.
  - cbn [process_action]. pose proof (advanced_cancel s id) as Ha.
    assert (Hlen : len (cancel_sleeper id (timers s) (sleepers s)).2 = len (sleepers s))
      by apply len_abort_all.
    destruct (cancel_sleeper id _ _) as [t l]. cbn in *.
    split_and!; [lia|done|by intros ? [= <-]|auto].
  - cbn [process_action].
    pose proof (start_sleeper_length id THeartbeatMissed d false (timers s) (sleepers s)) as Hlen.
    pose proof (advanced_start s id THeartbeatMissed d false) as Ha.
    destruct (start_sleeper _ _ _ _ _ _) as [t l]. cbn in *.
    destruct (id =? TIMER_HEARTBEAT_MISSED); cbn in *;
      split_and!; try (lia || done || by intros ? [= <-]); [auto|]. set_solver.
  - cbn. split_and!; [lia|done|by intros ? [= <-]|]. intros Hi _ _.
    split; [done|done|by rewrite app_nil_r|done].
  - pose proof (process_emit env peer e s) as H. destruct (process_action _ _ _ _) as [r s'].
    destruct H as (Hc & Hp & Ht). pose proof (core_sleepers _ _ Hc) as Hs.
    assert (Hsl : sleepers (emit_state env peer e s) = sleepers s).
    { unfold emit_state. destruct (before_emit_core env peer e s) as (_ & <- & _).
      by apply after_emit_core. }
    rewrite Hs, Hsl. split_and!; [lia|done| |].
    + intros [] ->; [done|by destruct e].
    + intros Hi _ _. fold (notice e). rewrite <-(app_nil_r (notice e)).
      eapply advanced_trans; [by apply advanced_emit|]. apply advanced_core; [by rewrite Hc|].
      apply advanced_emit, Hi.
Qed.

Lemma effects_cons a l : effects (a :: l) = effects [a] ++ effects l.
Proof. exact (effects_app [a] l). Qed.

Lemma closes_app a b : closes (a ++ b) = closes a || closes b.
Proof. apply existsb_app. Qed.

(** The loop carries out a prefix of the actions, all of them unless a write
    fails. *)
Lemma process_loop_ok env peer acts close s :
  let '(r, s') := process_loop env peer acts close s in
  len (sleepers s) <= len (sleepers s') /\ r <> Panic
  /\ (forall c, r = Ok c -> c = close || closes (effects acts))
  /\ (shared_inv s -> Stray ∉ effects acts -> len (sleepers s') <= u64_max ->
      exists acts1 acts2, acts = acts1 ++ acts2 /\ advanced s s' (effects acts1)
        /\ (is_ok r = true -> acts2 = [])).
Proof.
  revert close s. induction acts as [|a acts IH]; intros close s; cbn [process_loop].
  { cbn. split_and!; [lia|done|intros c [= <-]; by rewrite orb_false_r|].
    intros Hi _ _. exists [], []. split_and!; [done|by apply advanced_core|done]. }
  unfold st_bind at 1. pose proof (process_action_ok env peer a s) as Ha.
  destruct (process_action env peer a s) as [[c|e|] s1]; [| |naive_solver].
  - destruct Ha as (Hl & _ & Hc & Had). rewrite (Hc c eq_refl).
    specialize (IH (close || closes (effects [a])) s1).
    destruct (process_loop env peer acts _ s1) as [r s'].
    destruct IH as (Hl' & Hp & Hc' & Had'). split_and!; [lia|done| |].
    + intros c' ->. rewrite effects_cons, closes_app, orb_assoc. by apply Hc'.
    + intros Hi Hst Hmax. rewrite effects_cons, not_elem_of_app in Hst. destruct Hst as [Hs1 Hs2].
      assert (Hstep : advanced s s1 (effects [a])) by (apply Had; [done|done|lia]).
      destruct Had' as (a1 & a2 & -> & Hadv & Hok); [by apply Hstep|done|done|].
      exists (a :: a1), a2. split; [done|]. rewrite effects_cons.
      split; [by eapply advanced_trans|done].
  - destruct Ha as (Hl & _ & Hc & Had). split_and!; [lia|done|done|].
    intros Hi Hst Hmax. rewrite effects_cons, not_elem_of_app in Hst.
    exists [a], acts. split_and!; [done|apply Had; [done|tauto|lia]|done].
Qed.

Lemma process_actions_ok env peer acts s :
  let '(r, s') := process_actions env peer acts s in
  len (sleepers s) <= len (sleepers s') /\ r <> Panic
  /\ (forall c, r = Ok c -> c = closes (effects acts))
  /\ (shared_inv s -> Stray ∉ effects acts -> len (sleepers s') <= u64_max ->
      exists acts1 acts2, acts = acts1 ++ acts2 /\ advanced s s' (effects acts1)
        /\ (is_ok r = true -> acts2 = [])).
Proof.
  unfold process_actions, st_bind at 1. pose proof (process_loop_ok env peer acts false s) as H.
  destruct (process_loop env peer acts false s) as [[c|e|] s1]; [|done|done].
  unfold st_bind, st_modify, st_ret. destruct H as (Hl & Hp & Hc & Had).
  assert (Hcore : core (if c then push_out OShutdownWriter s1 else s1) = core s1)
    by (destruct c; [by apply core_push|done]).
  rewrite (core_sleepers _ _ Hcore). split_and!; [done|done|done|].
  intros Hi Hst Hmax. destruct (Had Hi Hst Hmax) as (a1 & a2 & -> & Hadv & Hok).
  exists a1, a2. split_and!; [done| |done]. rewrite <-(app_nil_r (effects a1)).
  eapply advanced_trans; [exact Hadv|]. apply advanced_core; [done|by apply Hadv].
Qed.

(** ** The task *)

Section Task.
Context `{Hfsm : SessionFsm F}.
Context (f0 : F) (Hf0 : fsm_inv f0) (Hidle : fsm_phase f0 = Idle).

(** The state machine has made a run from its initial state with exactly the
    timers of the runtime armed, and its notifications were broadcast. *)
Record task_inv (t : Task F) : Prop := {
  tk_run : exists es acts, turns (f0, ∅) es acts (t_fsm t, armed (t_shared t))
    /\ life_log (out (t_shared t)) = notifications (effects acts);
  tk_shared : shared_inv (t_shared t);
  tk_sent : Forall (expiry_sent (sleepers (t_shared t))) (t_expiries t);
  tk_bytes : is_bytes (t_read_buf t);
}.

(** A task that has stopped, possibly between two actions. *)
Definition exit_inv (t : Task F) : Prop :=
  shared_inv (t_shared t)
  /\ exists es acts c n, turns (f0, ∅) es acts c
       /\ life_log (out (t_shared t)) ++ n = notifications (effects acts).

(** The state machine is ahead of the runtime by the actions [acts]. *)
Record ahead (acts : list FsmAction) (t : Task F) : Prop := {
  ah_run : exists es acts0,
    turns (f0, ∅) es (acts0 ++ acts) (t_fsm t, foldl arm_effect (armed (t_shared t)) (effects acts))
    /\ life_log (out (t_shared t)) = notifications (effects acts0);
  ah_stray : Stray ∉ effects acts;
  ah_shared : shared_inv (t_shared t);
  ah_sent : Forall (expiry_sent (sleepers (t_shared t))) (t_expiries t);
  ah_bytes : is_bytes (t_read_buf t);
}.

Definition slept (t : Task F) : Z := len (sleepers (t_shared t)).

(** The outcome of a branch started in [t]. *)
Definition good (t : Task F) (res : outcome DaemonError bool * Task F) : Prop :=
  slept t <= slept res.2
  /\ (slept res.2 <= u64_max ->
      res.1 <> Panic /\ exit_inv res.2 /\ (is_ok res.1 = true -> task_inv res.2)).

Lemma task_inv_exit t : task_inv t -> exit_inv t.
Proof.
  intros [(es & acts & Hr & Hl) Hs _ _]. split; [done|]. exists es, acts, (t_fsm t, armed (t_shared t)), [].
  by rewrite app_nil_r.
Qed.

Lemma task_inv_core t t' :
  t_fsm t' = t_fsm t -> core (t_shared t') = core (t_shared t) ->
  Forall (expiry_sent (sleepers (t_shared t))) (t_expiries t') -> is_bytes (t_read_buf t') ->
  task_inv t -> task_inv t'.
Proof.
  intros Hf Hc He Hb [Hr Hs _ _]. split; [|by eapply shared_inv_core| |done].
  - rewrite Hf. unfold core in Hc. injection Hc as Ht _ _ _ ->. unfold armed. by rewrite Ht.
  - by rewrite (core_sleepers _ _ Hc).
Qed.

Lemma step_fsm_ok e t es acts0 A :
  turns (f0, ∅) es acts0 (t_fsm t, A) -> tick_ok (tick e) A ->
  exists f acts, step_fsm e t = (Ok acts, set_fsm f t) /\ Stray ∉ effects acts
    /\ turns (f0, ∅) (es ++ [e]) (acts0 ++ acts) (f, run_effects (tick e) A (effects acts)).
Proof.
  intros Hr Ht. destruct (turns_ok f0 es acts0 _ Hf0 Hidle Hr) as (Hi & _).
  destruct (fsm_total e (t_fsm t) Hi) as (f & acts & Hs & _ & Hl).
  exists f, acts. unfold step_fsm. rewrite Hs. split_and!; [done|by eapply life_step_no_stray|].
  eapply turns_snoc; [exact Hr|]. by constructor.
Qed.

(** An event that is no expiry, when the runtime is up to date or behind. *)
Lemma ahead_step e acts t :
  ahead acts t -> tick e = None ->
  exists f acts', step_fsm e t = (Ok acts', set_fsm f t) /\ ahead (acts ++ acts') (set_fsm f t).
Proof.
  intros [(es & acts0 & Hr & Hl) Hst Hs He Hb] Ht.
  destruct (step_fsm_ok e t es _ _ Hr) as (f & acts' & Hstep & Hst' & Hr'); [by rewrite Ht|].
  exists f, acts'. split; [done|]. split; [|by rewrite effects_app, not_elem_of_app|done..].
  exists (es ++ [e]), acts0. split; [|done]. rewrite app_assoc. rewrite Ht in Hr'.
  cbn [set_fsm t_fsm t_shared]. rewrite effects_app, foldl_app. exact Hr'.
Qed.

Lemma task_inv_ahead t : task_inv t -> ahead [] t.
Proof.
  intros [(es & acts & Hr & Hl) Hs He Hb]. split; [|apply not_elem_of_nil|done..].
  exists es, acts. by rewrite app_nil_r.
Qed.

Lemma process_ok env acts t : ahead acts t -> good t (process env acts t).
Proof.
  intros [(es & acts0 & Hr & Hl) Hst Hs He Hb]. unfold process, with_shared, good, slept.
  pose proof (process_actions_ok env (t_peer t) acts (t_shared t)) as H.
  destruct (process_actions env (t_peer t) acts (t_shared t)) as [r s'].
  destruct H as (Hle & Hp & _ & Had). split; [done|]. intros Hmax. cbn in Hmax |- *.
  destruct (Had Hs Hst Hmax) as (a1 & a2 & -> & [Hs' Ha Hlog Hsent] & Hok).
  split; [done|]. split.
  - split; [done|]. eexists es, _, _, (notifications (effects a2)). split; [exact Hr|]. cbn.
    rewrite Hlog, Hl, !effects_app, !notifications_app. by rewrite app_assoc.
  - intros E. specialize (Hok E) as ->. rewrite app_nil_r in Hr. split; cbn; [|done| |done].
    + exists es, (acts0 ++ a1). rewrite Ha. split; [done|].
      by rewrite Hlog, Hl, effects_app, notifications_app.
    + eapply Forall_impl; [exact He|auto].
Qed.

Lemma feed_ok env e t : task_inv t -> tick e = None -> good t (feed env e t).
Proof.
  intros Hi Ht. destruct (ahead_step e [] t (task_inv_ahead _ Hi) Ht) as (f & acts & Hs & Ha).
  unfold feed, st_bind. rewrite Hs. exact (process_ok env acts _ Ha).
Qed.

(** A step that stays up to date before a branch, and one after it. *)
Lemma good_after t t' m :
  slept t' = slept t -> good t' m -> good t m.
Proof. unfold good. by intros ->. Qed.

Lemma good_ret t t' b :
  slept t' = slept t -> task_inv t' -> good t (Ok b, t').
Proof.
  intros Hl Hi. split; cbn; [lia|]. intros _. split; [done|]. split; [by apply task_inv_exit|done].
Qed.

(** What leaves the state machine, the timers and the notifications alone. *)
Definition idle_tail (t : Task F) (res : outcome DaemonError bool * Task F) : Prop :=
  res.1 <> Panic /\ t_fsm res.2 = t_fsm t /\ core (t_shared res.2) = core (t_shared t)
  /\ t_expiries res.2 = t_expiries t /\ t_read_buf res.2 = t_read_buf t.

Lemma exit_inv_core t t' :
  core (t_shared t') = core (t_shared t) -> exit_inv t -> exit_inv t'.
Proof.
  intros Hc [Hs H]. split; [by eapply shared_inv_core|]. unfold core in Hc.
  injection Hc as _ _ _ _ ->. done.
Qed.

Lemma good_tail t m k :
  good t (m t) -> (forall b t', idle_tail t' (k b t')) -> good t (st_bind m k t).
Proof.
  intros [Hl Hg] Hk. unfold st_bind. destruct (m t) as [[b|e|] t']; [|done|done].
  destruct (Hk b t') as (Hp & Hf & Hc & He & Hb). unfold good, slept in *.
  rewrite (core_sleepers _ _ Hc). cbn in Hl, Hg. split; [done|]. intros Hmax.
  destruct (Hg Hmax) as (_ & Hx & Hi). specialize (Hi eq_refl).
  split; [done|]. split; [by eapply exit_inv_core|]. intros _.
  apply (task_inv_core t'); [done|done|rewrite He; apply Hi|rewrite Hb; apply Hi|done].
Qed.

Lemma note_peer_core msg (t : Task F) :
  t_fsm (note_peer msg t) = t_fsm t /\ core (t_shared (note_peer msg t)) = core (t_shared t)
  /\ t_expiries (note_peer msg t) = t_expiries t /\ t_read_buf (note_peer msg t) = t_read_buf t.
Proof. unfold note_peer. by case_match. Qed.

Lemma offer_core env msg (t : Task F) :
  exists e s, offer_to_extensions env msg t = (Ok e, set_shared s t) /\ core s = core (t_shared t)
    /\ tick e = None.
Proof.
  unfold offer_to_extensions.
  set (d := if _ && _ then dispatch_unknown_message _ _ _ _ _ else _).
  assert (Hd : core d.2 = core (t_shared t))
    by (subst d; case_match; [apply core_unknown_message|done]).
  destruct d as [handled s1]. cbn in Hd.
  set (f := if negb handled && _ then filter_unknown_items _ _ _ _ _ else _).
  assert (Hf : core f.2 = core s1) by (subst f; case_match; [apply core_filter|done]).
  destruct f as [items s2]. cbn in Hf. eexists _, s2. split; [done|]. split; [congruence|].
  by destruct handled.
Qed.

Lemma with_shared_tail {A} (m : stm Shared DaemonError A) (b : bool) (t : Task F) :
  (m (t_shared t)).1 <> Panic -> core (m (t_shared t)).2 = core (t_shared t) ->
  idle_tail t (st_bind (with_shared m) (fun _ => st_ret b) t).
Proof.
  unfold with_shared, st_bind, st_ret, idle_tail. by destruct (m (t_shared t)) as [[] s].
Qed.

Lemma task_inv_shared t s : core s = core (t_shared t) -> task_inv t -> task_inv (set_shared s t).
Proof. intros Hc Hi. apply (task_inv_core t); try done; apply Hi. Qed.

Lemma on_message_ok env msg t : task_inv t -> good t (on_message env msg t).
Proof.
  intros Hi. destruct (note_peer_core msg t) as (N1 & N2 & N3 & N4).
  assert (Hn : task_inv (note_peer msg t)).
  { apply (task_inv_core t); [done|done|rewrite N3; apply Hi|rewrite N4; apply Hi|done]. }
  unfold on_message, st_bind at 1, st_modify. cbn [fst snd].
  apply (good_after t (note_peer msg t)); [by unfold slept; rewrite (core_sleepers _ _ N2)|].
  unfold st_bind at 1, st_get. case_match; [by apply feed_ok|].
  destruct (offer_core env msg (note_peer msg t)) as (e & s & Ho & Hc & Ht).
  unfold st_bind at 1. rewrite Ho.
  apply (good_after _ (set_shared s (note_peer msg t)));
    [by unfold slept; cbn; rewrite (core_sleepers _ _ Hc)|].
  apply good_tail.
  - apply feed_ok; [by apply task_inv_shared|done].
  - intros [] t'; [by split_and!|]. apply with_shared_tail; apply flush_core.
Qed.

Lemma read_frame_bytes reads buf r buf' :
  Forall (fun x => match x with ReadBytes c => is_bytes c | _ => True end) reads ->
  is_bytes buf -> read_frame reads buf = (r, buf') -> is_bytes buf' /\ r <> Some Panic.
Proof.
  intros Hr. revert buf. induction Hr as [|x reads Hx _ IH]; intros buf Hb; cbn [read_frame];
    destruct (MessageCodec_decode_any buf Hb) as [Hp Hb'];
    destruct (MessageCodec_decode buf) as [[[msg|]|e|] b]; cbn in Hp, Hb'; try done;
    try (by intros [= <- <-]).
  destruct x as [chunk|]; [|by intros [= <- <-]]. case_bool_decide; [by intros [= <- <-]|].
  apply IH. by apply Forall_app.
Qed.

Lemma on_read_ok env r t : task_inv t -> r <> Panic -> good t (on_read env r t).
Proof.
  intros Hi Hp. destruct r as [[msg|]|e|]; [| | |done]; cbn [on_read].
  - by apply on_message_ok.
  - apply good_tail; [by apply feed_ok|]. done.
  - destruct e; try (by apply feed_ok);
      (split; cbn; [lia|]; intros _; split; [done|]; split; [by apply task_inv_exit|done]).
Qed.

Lemma tick_command cmd : tick (command_event cmd) = None.
Proof. by destruct cmd. Qed.

Lemma send_receipt_tail wanted r (b : bool) t :
  idle_tail t (st_bind (send_receipt wanted r) (fun _ => st_ret b) t).
Proof.
  apply with_shared_tail; [done|]. cbn. destruct wanted; [by apply core_push|done].
Qed.

Lemma on_command_ok env request t : task_inv t -> good t (on_command env request t).
Proof.
  intros Hi. destruct request as [req|]; cbn [on_command].
  - case_match.
    + destruct (send_receipt_tail (req_receipt req) None false t) as (Hp & Hf & Hc & He & Hb).
      destruct (st_bind _ _ t) as [r t'] eqn:E. cbn in *.
      split; cbn; [unfold slept; by rewrite (core_sleepers _ _ Hc)|]. intros _.
      assert (task_inv t') by
        (apply (task_inv_core t); [done|done|rewrite He; apply Hi|rewrite Hb; apply Hi|done]).
      split; [done|]. split; [by apply task_inv_exit|done].
    + destruct (ahead_step (command_event (req_command req)) [] t (task_inv_ahead _ Hi)
        (tick_command _)) as (f & acts & Hs & Ha).
      unfold st_bind at 1. rewrite Hs. apply (good_after t (set_fsm f t)); [done|].
      apply good_tail; [by apply process_ok|]. intros b t'. apply send_receipt_tail.
  - unfold st_bind at 1, st_modify. apply (good_after t (close_commands t)); [done|].
    apply feed_ok; [|done]. apply (task_inv_core t); try done; apply Hi.
Qed.

Lemma next_job_ok id task joined j :
  jobs_ok j -> job_tasks j !! id = Some task ->
  exists mac r j', next_job id joined j = Ok (into_event r mac, j') /\ jobs_ok j'.
Proof.
  intros Hj Hid. assert (Hm : id ∈ dom (job_macs j)) by (rewrite <-Hj; by apply elem_of_dom_2 in Hid).
  apply elem_of_dom in Hm as [mac Hm]. unfold next_job. rewrite Hm. eexists mac, _, _.
  split; [done|]. unfold jobs_ok in *. cbn. by rewrite !dom_delete_L, Hj.
Qed.

Lemma on_link_job_ok env id task joined t :
  task_inv t -> job_tasks (link_jobs (t_shared t)) !! id = Some task ->
  good t (on_link_job env id joined t).
Proof.
  intros Hi Hid.
  destruct (next_job_ok id task joined _ (si_jobs _ (tk_shared _ Hi)) Hid) as (mac & r & j' & Hn & Hj).
  unfold on_link_job, st_bind at 1, st_get. rewrite Hn.
  unfold st_bind at 1, with_shared, st_modify. cbn [fst snd].
  set (t1 := set_shared (set_link_jobs j' (t_shared t)) t).
  assert (Hi1 : task_inv t1).
  { destruct Hi as [Hr [S1 S2 S3] He Hb]. split; [exact Hr|by split|exact He|exact Hb]. }
  apply (good_after t t1); [done|].
  destruct (ahead_step (into_event r mac) [] t1 (task_inv_ahead _ Hi1) eq_refl) as (f & acts & Hs & Ha).
  unfold st_bind at 1. rewrite Hs. apply (good_after t1 (set_fsm f t1)); [done|].
  case_match; [|by apply process_ok].
  unfold st_bind at 1, st_lift. cbn [fallback_denial into_event expect].
  destruct (ahead_step (into_event LinkResponse_denied mac) _ _ Ha eq_refl) as (f' & acts' & Hs' & Ha').
  unfold st_bind. change (AppLinkCharacteristicsResponse mac _ _ _) with (into_event LinkResponse_denied mac).
  rewrite Hs'. exact (process_ok env _ _ Ha').
Qed.

(** A current expiry is one the lifecycle allows. *)
Lemma expiry_tick id kind e ts :
  handles ts !! id = Some e -> timer_started_ok id kind (te_periodic e) = true ->
  tick_ok (Some kind) (dom (handles ts))
  /\ dom (handles (forget id ts)) = consume (Some kind) (dom (handles ts)).
Proof.
  intros He Hk. split.
  - exists id. split; [by eapply elem_of_dom_2|].
    destruct kind; cbn in Hk; try done; apply andb_true_iff in Hk as [->%Z.eqb_eq _]; done.
  - unfold forget. rewrite He.
    destruct kind, (te_periodic e); cbn in *; rewrite ?andb_false_r in Hk; try done;
      rewrite andb_true_r in Hk; apply Z.eqb_eq in Hk as ->; by rewrite dom_delete_L.
Qed.

Lemma on_expiry_ok env x t :
  task_inv t -> expiry_sent (sleepers (t_shared t)) x -> good t (on_expiry env x t).
Proof.
  intros Hi Hx. destruct x as [[id kind] generation]. unfold on_expiry, st_bind at 1, st_get.
  destruct (is_current_generation _ id generation) eqn:Hg; cbn [negb]; [|by apply good_ret].
  destruct (current_expiry _ _ id kind generation (si_timers _ (tk_shared _ Hi)) Hx Hg)
    as (e & He & Hk & Hti).
  destruct (expiry_tick id kind e _ He Hk) as [Htick Hdom].
  destruct Hi as [(es & acts0 & Hr & Hl) [S1 S2 S3] Hsent Hb].
  unfold st_bind at 1, with_shared, st_modify. cbn [fst snd].
  set (t1 := set_shared _ t).
  destruct (step_fsm_ok (TimerExpired id kind) t1 es acts0 _ Hr) as (f & acts & Hs & Hst & Hr');
    [exact Htick|].
  apply (good_after t t1); [done|]. unfold feed, st_bind. rewrite Hs.
  apply (good_after t1 (set_fsm f t1)); [done|]. apply process_ok. split; [|done|by split|done|done].
  exists (es ++ [TimerExpired id kind]), acts0. split; [|done].
  cbn [tick] in Hr'. unfold run_effects, armed in Hr'. rewrite <-Hdom in Hr'. exact Hr'.
Qed.

Lemma ready_ok env t branch : task_inv t -> ready env t branch -> good t (branch t).
Proof.
  intros Hi [reads r buf Hreads Hread|request Ho|id task joined Hid Hden|x rest Hx].
  - destruct (read_frame_bytes _ _ _ _ Hreads (tk_bytes _ Hi) Hread) as [Hb Hp].
    unfold st_bind at 1, st_modify. apply (good_after t (set_read_buf buf t)); [done|].
    apply on_read_ok; [|congruence]. apply (task_inv_core t); try done; apply Hi.
  - by apply on_command_ok.
  - by eapply on_link_job_ok.
  - pose proof (tk_sent _ Hi) as Hs. rewrite Hx in Hs. apply Forall_cons in Hs as [Hs Hrest].
    unfold st_bind at 1, st_modify. apply (good_after t (set_expiries rest t)); [done|].
    apply on_expiry_ok; [|done]. apply (task_inv_core t); try done. apply Hi.
Qed.

(** ** Runs *)

(** Sleepers are only added. *)
Definition adds {A} (m : stm (Task F) DaemonError A) : Prop := forall t, slept t <= slept (m t).2.

Lemma adds_bind {A B} (m : stm (Task F) DaemonError A) (k : A -> stm (Task F) DaemonError B) :
  adds m -> (forall a, adds (k a)) -> adds (st_bind m k).
Proof.
  intros Hm Hk t. unfold st_bind. specialize (Hm t). destruct (m t) as [[a|e|] t']; cbn in *; [|done|done].
  specialize (Hk a t'). lia.
Qed.

Lemma adds_core {A} (m : stm Shared DaemonError A) :
  (forall s, core (m s).2 = core s) -> adds (with_shared m).
Proof.
  intros Hm t. unfold with_shared. specialize (Hm (t_shared t)).
  destruct (m (t_shared t)) as [r s]. unfold slept. cbn in *. by rewrite (core_sleepers _ _ Hm).
Qed.

Lemma adds_step e : adds (step_fsm e).
Proof. intros t. unfold step_fsm. by destruct (fsm_step e (t_fsm t)) as [[]|[]|]. Qed.

Lemma adds_process env acts : adds (process env acts).
Proof.
  intros t. unfold process, with_shared.
  pose proof (process_actions_ok env (t_peer t) acts (t_shared t)) as H.
  destruct (process_actions _ _ _ _) as [r s]. apply H.
Qed.

Lemma adds_feed env e : adds (feed env e).
Proof. apply adds_bind; [apply adds_step|intros; apply adds_process]. Qed.

Lemma adds_receipt wanted r : adds (send_receipt wanted r).
Proof. apply adds_core. intros s. cbn. destruct wanted; [by apply core_push|done]. Qed.

Lemma adds_ret {A} (r : outcome DaemonError A) : adds (st_lift r).
Proof. intros t. done. Qed.

Lemma adds_get {A} (k : Task F -> stm (Task F) DaemonError A) :
  (forall t, adds (k t)) -> adds (st_bind st_get k).
Proof. intros Hk t. apply Hk. Qed.

Lemma adds_modify f : (forall t, slept (f t) = slept t) -> adds (st_modify f).
Proof. intros Hf t. unfold st_modify. cbn. by rewrite Hf. Qed.

Lemma adds_message env msg : adds (on_message env msg).
Proof.
  apply adds_bind.
  { apply adds_modify. intros t. unfold slept. by rewrite (core_sleepers _ _ (proj1 (proj2 (note_peer_core msg t)))). }
  intros _. apply adds_get. intros t. case_match; [apply adds_feed|].
  apply adds_bind.
  { intros t'. destruct (offer_core env msg t') as (e & s & -> & Hc & _). unfold slept. cbn.
    by rewrite (core_sleepers _ _ Hc). }
  intros e. apply adds_bind; [apply adds_feed|]. intros []; [apply (adds_ret (Ok _))|].
  apply adds_bind; [|intros; apply (adds_ret (Ok _))]. apply adds_core. intros s. apply flush_core.
Qed.

Lemma adds_read env r : adds (on_read env r).
Proof.
  destruct r as [[msg|]|[]|]; cbn [on_read];
    try apply adds_message; try apply adds_feed; try apply (adds_ret (Err _)); try apply (adds_ret Panic).
  apply adds_bind; [apply adds_feed|intros; apply (adds_ret (Ok _))].
Qed.

Lemma adds_command env request : adds (on_command env request).
Proof.
  destruct request as [req|]; cbn [on_command]; [case_match|].
  - apply adds_bind; [apply adds_receipt|intros; apply (adds_ret (Ok _))].
  - apply adds_bind; [apply adds_step|]. intros acts. apply adds_bind; [apply adds_process|].
    intros b. apply adds_bind; [apply adds_receipt|intros; apply (adds_ret (Ok _))].
  - apply adds_bind; [by apply adds_modify|intros; apply adds_feed].
Qed.

Lemma adds_link_job env id joined : adds (on_link_job env id joined).
Proof.
  apply adds_get. intros t. destruct (next_job _ _ _) as [[e j]|[]|]; [|apply (adds_ret Panic)].
  apply adds_bind; [by intros t'|]. intros _. apply adds_bind; [apply adds_step|]. intros acts.
  case_match; [|apply adds_process]. apply adds_bind; [apply adds_ret|]. intros fb.
  apply adds_bind; [apply adds_step|]. intros; apply adds_process.
Qed.

Lemma adds_expiry env x : adds (on_expiry env x).
Proof.
  destruct x as [[id kind] g]. apply adds_get. intros t. case_match; [apply (adds_ret (Ok _))|].
  apply adds_bind; [by intros t'|]. intros _. apply adds_feed.
Qed.

Lemma adds_ready env t branch : ready env t branch -> adds branch.
Proof.
  intros [reads r buf Hreads Hread|request Ho|id task joined Hid Hden|x rest Hx].
  - apply adds_bind; [by apply adds_modify|intros; apply adds_read].
  - apply adds_command.
  - apply adds_link_job.
  - apply adds_bind; [by apply adds_modify|intros; apply adds_expiry].
Qed.

Definition task_of (st : TaskStatus F) : Task F :=
  match st with Running t | Exited t | Crashed t => t end.

Definition status_ok (st : TaskStatus F) : Prop :=
  match st with Running t => task_inv t | Exited t => exit_inv t | Crashed _ => False end.

Lemma task_of_verdict r : task_of (verdict r) = r.2.
Proof. by destruct r as [[[]|e|] t]. Qed.

Lemma verdict_ok t r : good t r -> slept r.2 <= u64_max -> status_ok (verdict r).
Proof.
  intros [_ Hg] Hm. destruct (Hg Hm) as (Hp & Hx & Hi). by destruct r as [[[]|e|] t']; cbn in *; auto.
Qed.

Lemma task_step_slept env t st : task_step env t st -> slept t <= slept (task_of st).
Proof.
  intros [branch Hb|reads buf Hr Hread|h s Hs Hf Hc|]; cbn [task_of]; [|done| |done].
  - rewrite task_of_verdict. by apply (adds_ready env t branch Hb).
  - unfold slept. cbn. unfold len. by rewrite length_insert.
Qed.

Lemma task_step_ok env t st :
  task_inv t -> task_step env t st -> slept (task_of st) <= u64_max -> status_ok st.
Proof.
  intros Hi [branch Hb|reads buf Hr Hread|h s Hs Hf Hc|] Hm; cbn [task_of status_ok] in *.
  - rewrite task_of_verdict in Hm. eapply verdict_ok; [by eapply ready_ok|done].
  - destruct (read_frame_bytes _ _ _ _ Hr (tk_bytes _ Hi) Hread) as [Hb _].
    apply (task_inv_core t); try done; apply Hi.
  - destruct (timers_inv_fire _ _ h s (si_timers _ (tk_shared _ Hi)) Hs Hf) as (H1 & H2 & H3).
    destruct Hi as [Hrun [S1 S2 S3] Hsent Hb]. split; cbn; [exact Hrun|by split| |done].
    apply Forall_app. split; [|apply Forall_singleton; auto].
    eapply Forall_impl; [exact Hsent|auto].
  - by apply task_inv_exit.
Qed.

Lemma start_task_inv peer backend w : task_inv (start_task f0 peer backend w).
Proof.
  split; [|split; [apply timers_inv_default|done|done]|apply Forall_nil; exact I|apply Forall_nil; exact I].
  exists [], []. split; [|done]. constructor.
Qed.

Lemma reaches_ok env peer backend w e0 st :
  reaches env (start_task f0 peer backend w) e0 st -> tick e0 = None ->
  slept (task_of st) <= u64_max -> status_ok st.
Proof.
  intros Hr Ht. induction Hr as [|t st _ IH Hstep]; intros Hm.
  - rewrite task_of_verdict in Hm. eapply verdict_ok; [|done].
    apply feed_ok; [apply start_task_inv|done].
  - pose proof (task_step_slept _ _ _ Hstep). apply (task_step_ok env t st); [|done|done].
    apply IH. cbn. lia.
Qed.

(** ** Exits *)

Lemma told_shapes p n : told p n -> n = [] \/ n = [Up] \/ n = [Down] \/ n = [Up; Down].
Proof. destruct p; cbn; naive_solver. Qed.

Lemma exit_log t : exit_inv t ->
  let n := life_log (out (t_shared t)) in n = [] \/ n = [Up] \/ n = [Down] \/ n = [Up; Down].
Proof.
  intros [_ (es & acts & c & n & Hr & Hl)]. cbv zeta.
  destruct (turns_ok f0 es acts c Hf0 Hidle Hr) as (_ & _ & Ht%told_shapes).
  rewrite <-Hl in Ht. revert Ht. generalize (life_log (out (t_shared t))).
  intros [|x [|y [|z l]]]; cbn; naive_solver.
Qed.

Lemma drop_log env t : exit_inv t ->
  let s := drop_session env (t_shared t) in
  life_log (out s) = [Down] \/ life_log (out s) = [Up; Down].
Proof.
  intros Hx. pose proof (exit_log t Hx) as Hl. destruct Hx as [[_ _ Hd] _]. cbv zeta in *.
  unfold drop_session. cbn [drop_timers].
  set (s1 := set_timers _ _ (t_shared t)). unfold drop_lifecycle.
  change (down_emitted s1) with (down_emitted (t_shared t)). rewrite Hd.
  assert (Hout : out s1 = out (t_shared t)) by done.
  case_bool_decide as Hin.
  - rewrite Hout. destruct Hl as [Hl|[Hl|[Hl|Hl]]]; rewrite Hl in *; set_solver.
  - set (s2 := set_pending_sends [] _). pose proof (core_session_state env false s2) as Hc.
    unfold core in Hc. injection Hc as _ _ _ _ Ho. cbn [set_pending_sends out]. rewrite Ho. subst s2.
    cbn [set_pending_sends push_out out]. rewrite life_log_app. cbn.
    destruct Hl as [Hl|[Hl|[Hl|Hl]]]; rewrite Hl in *; cbn; auto; set_solver.
Qed.

Lemma drop_sleepers env t h s : exit_inv t ->
  sleepers (drop_session env (t_shared t)) !! h = Some s -> sl_finished s = true \/ sl_aborted s = true.
Proof.
  intros [Hs _] H. apply (drop_timers_aborts (timers (t_shared t)) (sleepers (t_shared t)) h s);
    [apply Hs|]. revert H. unfold drop_session. destruct (drop_timers (timers (t_shared t))) as [ab ts].
  unfold drop_lifecycle. set (s1 := set_timers _ _ _). destruct (down_emitted s1); [done|].
  set (s2 := set_pending_sends [] _). pose proof (core_session_state env false s2) as Hc.
  apply core_sleepers in Hc. cbn [set_pending_sends sleepers]. by rewrite Hc.
Qed.

End Task.
End RuntimeInv.
