(* ===== verification/SessionTasks.v ===== *)
(** * Properties of session tasks

    The theorems about [dlep-daemon/src/session.rs], for any state machine that
    meets the interface, and their instances at a router's task. *)

From S2P Require Import Prelude Externs CoreTypes Codec CodecMessage Addresses Events.
From S2P Require Import SessionCommon Validation SessionRouter SessionModem Lifecycle.
From S2P Require Import RouterInv ModemInv Samples Sessions DaemonTypes Timers Runtime RuntimeInv.
Import DataItem.

Section Tasks.
Context {crates : Crates} {host : Host} `{Hfsm : SessionFsm F}.

(** C5: The runtime refines the lifecycle.  Whatever the peer, the application, the
    link-control backend, the extensions and the sleepers do, and in whatever
    order, a session task never panics; while it runs, its state machine has made
    a run of the lifecycle in which only armed timers expire, the timers armed are
    exactly those of its phase, and the SessionUp and SessionDown events broadcast
    are the notifications of that run.  (Generations are 64 bits wide: the task
    must not start more than 2^64 - 1 timers.) *)
Theorem task_refines_lifecycle env (fsm : F) peer backend w initial_event st :
  fsm_inv fsm -> fsm_phase fsm = Idle -> tick initial_event = None ->
  reaches env (start_task fsm peer backend w) initial_event st ->
  len (sleepers (t_shared (task_of st))) <= u64_max ->
  match st with
  | Running t =>
      exists es acts, turns (fsm, ∅) es acts (t_fsm t, armed (t_shared t))
        /\ timers_ok (fsm_phase (t_fsm t)) (armed (t_shared t))
        /\ life_log (out (t_shared t)) = notifications (effects acts)
  | Exited _ => True
  | Crashed _ => False
  end.
Proof.
  intros Hi Hp Ht Hr Hm. pose proof (reaches_ok fsm Hi Hp _ _ _ _ _ _ Hr Ht Hm) as H.
  destruct st as [t|t|t]; [|done|done]. destruct H as [(es & acts & Hrun & Hl) _ _ _].
  exists es, acts. split; [done|]. split; [|done].
  by destruct (turns_ok fsm es acts _ Hi Hp Hrun) as (_ & H & _).
Qed.

(** C6: Every session is reported down exactly once.  However a session task ends
    (the state machine closes, the peer closes, an I/O error between any two
    actions, cancellation), once its guards are dropped the SessionUp and
    SessionDown events broadcast are SessionDown alone or SessionUp and then
    SessionDown, and no timer task is left running. *)
Theorem task_reports_once env (fsm : F) peer backend w initial_event t :
  fsm_inv fsm -> fsm_phase fsm = Idle -> tick initial_event = None ->
  reaches env (start_task fsm peer backend w) initial_event (Exited t) ->
  len (sleepers (t_shared t)) <= u64_max ->
  let s := drop_session env (t_shared t) in
  (life_log (out s) = [Down] \/ life_log (out s) = [Up; Down])
  /\ Forall (fun sl => sl_finished sl = true \/ sl_aborted sl = true) (sleepers s).
Proof.
  intros Hi Hp Ht Hr Hm. pose proof (reaches_ok fsm Hi Hp _ _ _ _ _ _ Hr Ht Hm) as H. cbv zeta.
  split; [by eapply (drop_log fsm)|]. apply Forall_lookup. intros h sl. by eapply (drop_sleepers fsm).
Qed.

(** ** Extensions *)

Definition is_unknown (item : DataItem) : bool :=
  match item with Unknown _ => true | _ => false end.

Lemma filter_unknown_spec env exts mt items s :
  let items' := (filter_unknown_items env exts mt items s).1 in
  sublist items' items
  /\ retain (negb ∘ is_unknown) items' = retain (negb ∘ is_unknown) items
  /\ (exts = [] -> items' = items).
Proof.
  cbv zeta. revert s. induction items as [|item items IH]; intros s; cbn [filter_unknown_items]; [done|].
  set (c := match item with Unknown raw => claim_item env exts mt raw s | _ => (false, s) end).
  assert (Hc : c.1 = true -> is_unknown item = true /\ exts <> []).
  { subst c. destruct item; cbn; try done. by destruct exts. }
  destruct c as [claimed s1]. specialize (IH s1).
  destruct (filter_unknown_items env exts mt items s1) as [rest s2]. cbn in *.
  destruct IH as (H1 & H2 & H3). destruct claimed.
  - destruct (Hc eq_refl) as [Hu Hne]. cbn. rewrite Hu. cbn.
    split_and!; [by apply sublist_cons|done|done].
  - split_and!; [by apply sublist_skip|cbn; by rewrite H2|intros ->; by rewrite H3].
Qed.

Lemma dispatch_unknown_nil env exts mt items s :
  (dispatch_unknown_message env exts mt items s).1 = true -> exts <> [].
Proof. by destruct exts. Qed.

(** C22: Extensions are confined.  What the extensions leave for the state machine is
    the message received with some items of unknown type removed, and all of it
    outside a session or with no extension negotiated; a message is withheld
    altogether only in session, by a negotiated extension, and never one of a type
    [is_known_message_type] lists.  The timers and what was told so far stay as
    they are. *)
Theorem extensions_confined env msg (t : Task F) :
  exists e t', offer_to_extensions env msg t = (Ok e, t') /\ t_fsm t' = t_fsm t
    /\ core (t_shared t') = core (t_shared t)
    /\ match e with
       | RecvMessage msg' =>
           message_type msg' = message_type msg /\ sublist (msg_items msg') (msg_items msg)
           /\ retain (negb ∘ is_unknown) (msg_items msg') = retain (negb ∘ is_unknown) (msg_items msg)
           /\ (fsm_in_session (t_fsm t) = false \/ active_exts (t_shared t) = [] -> msg' = msg)
       | RecvExtensionMessage =>
           fsm_in_session (t_fsm t) = true /\ active_exts (t_shared t) <> []
           /\ is_known_message_type (message_type msg) = false
       | _ => False
       end.
Proof.
  destruct (offer_core env msg t) as (e & s & Ho & Hc & _). exists e, (set_shared s t).
  split; [done|]. split; [done|]. split; [done|]. revert Ho. unfold offer_to_extensions.
  destruct (fsm_in_session (t_fsm t)) eqn:Ein; cbn [andb].
  - destruct (negb (is_known_message_type (message_type msg))) eqn:Ek.
    + destruct (dispatch_unknown_message _ _ _ _ _) as [handled s1] eqn:Ed.
      destruct handled; cbn [negb andb].
      * intros [= <- _]. split_and!; [done| |by apply negb_true_iff].
        eapply dispatch_unknown_nil. by rewrite Ed.
      * pose proof (filter_unknown_spec env (active_exts s1) (message_type msg) (msg_items msg) s1) as Hf.
        assert (Ha : active_exts (t_shared t) = [] -> s1 = t_shared t).
        { intros Hn. rewrite Hn in Ed. by injection Ed. }
        destruct (filter_unknown_items _ _ _ _ _) as [items s2]. cbn in Hf. intros [= <- _].
        destruct Hf as (H1 & H2 & H3). split_and!; [done|done|done|].
        intros [?|Hn]; [done|]. cbn. rewrite H3 by (by rewrite (Ha Hn)). by destruct msg.
    + cbn [negb andb].
      pose proof (filter_unknown_spec env (active_exts (t_shared t)) (message_type msg) (msg_items msg) (t_shared t)) as Hf.
      destruct (filter_unknown_items _ _ _ _ _) as [items s2]. cbn in Hf. intros [= <- _].
      destruct Hf as (H1 & H2 & H3). split_and!; [done|done|done|].
      intros [?|Hn]; [done|]. cbn. rewrite H3 by done. by destruct msg.
  - intros [= <- _]. split_and!; [done|done|done|]. by destruct msg.
Qed.

End Tasks.

(** ** Witnesses *)

#[local] Existing Instance reference_crates.

(** A transport that takes everything, and no extension. *)
#[local] Instance quiet_host : Host :=
  {| World := unit; Payload := Empty_set; write_all _ w := (true, w) |}.

Definition sample_env : SessionEnv := mkEnv 1 true [] true FormatEui48.
Definition sample_peer : PeerInfo := mkPeer (SocketV4 2130706433 854) false None.
Definition router_task : Task Router.RouterSessionFsm :=
  start_task (Router.with_config router_config) sample_peer false tt.

(** The task once connected; after the modem's response in one read; at the end of
    the stream. *)
Definition connected_task : Task Router.RouterSessionFsm :=
  task_of (verdict (feed (Hfsm := router_session) sample_env TcpConnected router_task)).
Definition response_bytes : bytes :=
  match Message_encode (Modem.build_session_initialization_response modem_config) with
  | Ok bs => bs
  | _ => []
  end.
Definition read_branch (reads : list Read) (t : Task Router.RouterSessionFsm)
    : TaskStatus Router.RouterSessionFsm :=
  match read_frame reads (t_read_buf t) with
  | (Some r, buf) =>
      verdict (st_bind (st_modify (set_read_buf buf))
        (fun _ => on_read (Hfsm := router_session) sample_env r) t)
  | (None, buf) => Running (set_read_buf buf t)
  end.
Definition session_task : Task Router.RouterSessionFsm :=
  task_of (read_branch [ReadBytes response_bytes] connected_task).
Definition closed_task : Task Router.RouterSessionFsm :=
  task_of (read_branch [ReadBytes []] session_task).

Lemma read_branch_step reads t :
  Forall (fun x => match x with ReadBytes c => is_bytes c | _ => True end) reads ->
  task_step (Hfsm := router_session) sample_env t (read_branch reads t).
Proof.
  intros Hr. unfold read_branch. destruct (read_frame reads (t_read_buf t)) as [[r|] buf] eqn:E.
  - apply (step_select sample_env t (st_bind (st_modify (set_read_buf buf)) (fun _ => on_read sample_env r))).
    by eapply ready_read.
  - by eapply step_receive.
Qed.

Lemma response_bytes_ok : is_bytes response_bytes.
Proof. apply (bool_decide_unpack _). by vm_compute. Qed.

Lemma session_task_reached :
  reaches (Hfsm := router_session) sample_env router_task TcpConnected (Running session_task).
Proof.
  eapply (reaches_step (Hfsm := router_session) _ _ _ connected_task).
  - replace (Running connected_task)
      with (verdict (feed (Hfsm := router_session) sample_env TcpConnected router_task)).
    + apply reaches_start.
    + vm_compute. reflexivity.
  - replace (Running session_task) with (read_branch [ReadBytes response_bytes] connected_task).
    + apply read_branch_step. apply Forall_singleton, response_bytes_ok.
    + vm_compute. reflexivity.
Qed.

Lemma closed_task_reached :
  reaches (Hfsm := router_session) sample_env router_task TcpConnected (Exited closed_task).
Proof.
  eapply (reaches_step (Hfsm := router_session) _ _ _ session_task); [apply session_task_reached|].
  replace (Exited closed_task) with (read_branch [ReadBytes []] session_task).
  - apply read_branch_step. apply Forall_singleton, Forall_nil. exact I.
  - vm_compute. reflexivity.
Qed.

Lemma task_refines_lifecycle_witness :
  exists es acts, turns (Hfsm := router_session) (Router.with_config router_config, ∅) es acts
      (t_fsm session_task, armed (t_shared session_task))
    /\ timers_ok Established (armed (t_shared session_task))
    /\ life_log (out (t_shared session_task)) = notifications (effects acts).
Proof.
  exact (task_refines_lifecycle (Hfsm := router_session) sample_env (Router.with_config router_config)
    sample_peer false tt TcpConnected (Running session_task) (router_inv_initial router_config)
    eq_refl eq_refl session_task_reached ltac:(vm_compute; discriminate)).
Defined.

Lemma task_reports_once_witness :
  let s := drop_session sample_env (t_shared closed_task) in
  (life_log (out s) = [Down] \/ life_log (out s) = [Up; Down])
  /\ Forall (fun sl => sl_finished sl = true \/ sl_aborted sl = true) (sleepers s).
Proof.
  exact (task_reports_once (Hfsm := router_session) sample_env (Router.with_config router_config)
    sample_peer false tt TcpConnected closed_task (router_inv_initial router_config)
    eq_refl eq_refl closed_task_reached ltac:(vm_compute; discriminate)).
Defined.

Example sample_task_log :
  life_log (out (drop_session sample_env (t_shared closed_task))) = [Up; Down].
Proof. vm_compute. reflexivity. Qed.
