(* ===== verification/Connections.v ===== *)
(** * Connection registries

    [dlep-daemon/src/connections.rs]: the router's bounded history of modem
    endpoints ([ConnectionRegistry], with the trackers that own a registration)
    and the modem's set of connected routers ([ConnectedRouters]).  Both are
    shared under a lock, so an operation is a function on the locked state; the
    guards' destructors are operations too. *)

From S2P Require Import Prelude Externs CoreTypes Addresses Events DaemonTypes.

(** ** Socket addresses as keys *)

Definition socket_code (a : SocketAddr) : (Z * Z) + (Z * Z * Z * Z) :=
  match a with
  | SocketV4 ip port => inl (ip, port)
  | SocketV6 ip port flowinfo scope_id => inr (ip, port, flowinfo, scope_id)
  end.
Definition socket_decode (c : (Z * Z) + (Z * Z * Z * Z)) : SocketAddr :=
  match c with
  | inl (ip, port) => SocketV4 ip port
  | inr (ip, port, flowinfo, scope_id) => SocketV6 ip port flowinfo scope_id
  end.
#[global] Instance SocketAddr_countable : Countable SocketAddr.
Proof. apply (inj_countable' socket_code socket_decode). by intros []. Defined.

(** The derived order of [SocketAddr], as a sequence compared lexicographically. *)
Definition socket_key (a : SocketAddr) : list Z :=
  match a with
  | SocketV4 ip port => [0; ip; port]
  | SocketV6 ip port flowinfo scope_id => [1; ip; port; flowinfo; scope_id]
  end.
Fixpoint lex_le (a b : list Z) : bool :=
  match a, b with
  | [], _ => true
  | _ :: _, [] => false
  | x :: a', y :: b' => (x <? y) || ((x =? y) && lex_le a' b')
  end.

(** [std::time::Instant] and [tokio::time::Instant]: nanoseconds of a clock; a
    difference saturates at zero. *)
Abbreviation Instant := Z.
Definition duration_since (now earlier : Instant) : Duration := Z.max 0 (now - earlier).
Definition from_secs (s : Z) : Duration := s * 10 ^ 9.

(** ** The router's history *)

Record PeerConnectionState : Type := mkConn {
  active_sessions : Z;
  establishment_count : Z;
}.
Definition PeerConnectionState_default : PeerConnectionState := mkConn 0 0.

Record RouterLimits : Type := mkLimits {
  max_sessions : Z;
  max_discovered_peers : Z;
  peer_retention_secs : Z;
}.

Record History : Type := mkHistory {
  states : gmap SocketAddr PeerConnectionState;
  inactive_since : gmap SocketAddr Instant;
  next_establishment : Z;
}.

(** The registry: the watched snapshot, the locked history, what is fixed. *)
Record ConnectionRegistry : Type := mkRegistry {
  snapshot : gmap SocketAddr PeerConnectionState;
  history : History;
  pinned : gset SocketAddr;
  limits : RouterLimits;
}.

Definition ConnectionRegistry_new (l : RouterLimits) (p : list SocketAddr) : ConnectionRegistry :=
  mkRegistry ∅ (mkHistory ∅ ∅ 0) (list_to_set p) l.

Definition set_history (h : History) (self : ConnectionRegistry) : ConnectionRegistry :=
  mkRegistry (snapshot self) h (pinned self) (limits self).

(** [send_replace] of the history's states. *)
Definition publish (self : ConnectionRegistry) : ConnectionRegistry :=
  mkRegistry (states (history self)) (history self) (pinned self) (limits self).

(** The peers [prune_locked] keeps. *)
Definition keep_peer (self : ConnectionRegistry) (now : Instant) (h : History) (peer : SocketAddr)
    (st : PeerConnectionState) : bool :=
  bool_decide (peer ∈ pinned self)
  || (0 <? active_sessions st)
  || match inactive_since h !! peer with
     | None => true
     | Some at_ =>
         duration_since now at_ <? from_secs (peer_retention_secs (limits self))
     end.

Definition prune_locked (now : Instant) (self : ConnectionRegistry) : bool * ConnectionRegistry :=
  let h := history self in
  let before := size (states h) in
  let kept := filter (fun p => keep_peer self now h p.1 p.2 = true) (states h) in
  let since := filter (fun p => is_Some (kept !! p.1)) (inactive_since h) in
  (negb (size kept =? before)%nat,
   set_history (mkHistory kept since (next_establishment h)) self).

Definition prune (now : Instant) (self : ConnectionRegistry) : ConnectionRegistry :=
  let '(changed, self) := prune_locked now self in
  if changed then publish self else self.

(** [min_by_key] of [(at, peer)] over the entries of a map. *)
Definition older (a b : SocketAddr * Instant) : bool :=
  lex_le (a.2 :: socket_key a.1) (b.2 :: socket_key b.1).
Definition oldest_of (l : list (SocketAddr * Instant)) : option (SocketAddr * Instant) :=
  foldr (fun x acc =>
    match acc with Some y => Some (if older x y then x else y) | None => Some x end) None l.

(** [states[p]]: the state of a peer that must be there. *)
Fixpoint idle_peers (self : ConnectionRegistry) (l : list (SocketAddr * Instant))
    : panics (list (SocketAddr * Instant)) :=
  match l with
  | [] => mret []
  | (p, at_) :: l' =>
      idle ← (if bool_decide (p ∈ pinned self) then mret false
              else st ← expect (states (history self) !! p); mret (active_sessions st =? 0));
      rest ← idle_peers self l';
      mret (if (idle : bool) then (p, at_) :: rest else rest)
  end.

Definition evict (p : SocketAddr) (h : History) : History :=
  mkHistory (delete p (states h)) (delete p (inactive_since h)) (next_establishment h).

Definition discovered (self : ConnectionRegistry) : Z :=
  Z.of_nat (size (filter (fun p => p.1 ∉ pinned self) (states (history self)))).

(** [*x += 1] on a [usize] or a [u64]. *)
Definition increment {E} (max v : Z) : outcome E Z := if v <? max then Ok (v + 1) else Panic.
(** [*x -= 1]. *)
Definition decrement {E} (v : Z) : outcome E Z := if 0 <? v then Ok (v - 1) else Panic.

(** The registration itself, room having been made. *)
Definition admit_peer (peer : SocketAddr) (now : Instant) (self : ConnectionRegistry)
    : outcome DaemonError ConnectionRegistry :=
  let h := history self in
  let since := match states h !! peer with
               | None => <[peer := now]> (inactive_since h)
               | Some _ => inactive_since h
               end in
  let st := default PeerConnectionState_default (states h !! peer) in
  n ← increment usize_max (active_sessions st);
  mret (publish (set_history
    (mkHistory (<[peer := mkConn n (establishment_count st)]> (states h)) since
       (next_establishment h)) self)).

(** [register]; the tracker it returns is identified by its peer. *)
Definition register_peer (peer : SocketAddr) (now : Instant)
    : stm ConnectionRegistry DaemonError SocketAddr :=
  fun self =>
    let '(_, self) := prune_locked now self in
    let finish self :=
      match admit_peer peer now self with
      | Ok self' => (Ok peer, self')
      | Err e => (Err e, self)
      | Panic => (Panic, self)
      end in
    if bool_decide (states (history self) !! peer = None) && bool_decide (peer ∉ pinned self)
       && (max_discovered_peers (limits self) <=? discovered self)
    then
      match idle_peers self (map_to_list (inactive_since (history self))) with
      | Ok idle =>
          match oldest_of idle with
          | Some (oldest, _) => finish (set_history (evict oldest (history self)) self)
          | None => (Err PeerHistoryFull, publish self)
          end
      | Err e => match e with end
      | Panic => (Panic, self)
      end
    else finish self.

(** [ConnectionTracker::established]. *)
Definition established (peer : SocketAddr) (self : ConnectionRegistry)
    : panics ConnectionRegistry :=
  let h := history self in
  generation ← increment u64_max (next_establishment h);
  st ← expect (states h !! peer);
  mret (publish (set_history
    (mkHistory (<[peer := mkConn (active_sessions st) generation]> (states h))
       (delete peer (inactive_since h)) generation) self)).

(** [Drop for ConnectionTracker]. *)
Definition drop_tracker (peer : SocketAddr) (now : Instant) (self : ConnectionRegistry)
    : panics ConnectionRegistry :=
  let h := history self in
  st ← expect (states h !! peer);
  n ← decrement (active_sessions st);
  let since := if n =? 0 then
                 match inactive_since h !! peer with
                 | Some _ => inactive_since h
                 | None => <[peer := now]> (inactive_since h)
                 end
               else inactive_since h in
  let self := set_history
    (mkHistory (<[peer := mkConn n (establishment_count st)]> (states h)) since
       (next_establishment h)) self in
  mret (publish (prune_locked now self).2).

(** ** Runs *)

(** The number of live trackers of a peer. *)
Fixpoint occ (p : SocketAddr) (live : list SocketAddr) : Z :=
  match live with
  | [] => 0
  | q :: live' => (if decide (p = q) then 1 else 0) + occ p live'
  end.

(** Operations on a registry with the trackers given out.  A tracker reports an
    establishment or is dropped only while it exists.  The counters are 64 bits
    wide; runs that exhaust them are left out. *)
Inductive registry_step
    : ConnectionRegistry * list SocketAddr -> ConnectionRegistry * list SocketAddr -> Prop :=
  | reg_register peer now r r' live :
      len live < usize_max ->
      register_peer peer now r = (Ok peer, r') -> registry_step (r, live) (r', peer :: live)
  | reg_refuse peer now e r r' live :
      len live < usize_max ->
      register_peer peer now r = (Err e, r') -> registry_step (r, live) (r', live)
  | reg_established peer r r' live :
      peer ∈ live -> next_establishment (history r) < u64_max -> established peer r = Ok r' ->
      registry_step (r, live) (r', live)
  | reg_drop peer now r r' l1 l2 :
      drop_tracker peer now r = Ok r' -> registry_step (r, l1 ++ peer :: l2) (r', l1 ++ l2)
  | reg_prune now r live : registry_step (r, live) (prune now r, live).

(** The invariant: exact counts, every idle entry with the time it became idle,
    the bound on discovered peers, and distinct establishments. *)
Record locked_inv (r : ConnectionRegistry) (live : list SocketAddr) : Prop := {
  li_count : forall p, default 0 (active_sessions <$> states (history r) !! p) = occ p live;
  li_since : forall p, is_Some (inactive_since (history r) !! p) -> is_Some (states (history r) !! p);
  li_idle : forall p st, states (history r) !! p = Some st -> active_sessions st = 0 ->
    is_Some (inactive_since (history r) !! p);
  li_next : 0 <= next_establishment (history r);
  li_bound : discovered r <= Z.max 0 (max_discovered_peers (limits r));
  li_generation : forall p st, states (history r) !! p = Some st ->
    0 <= establishment_count st <= next_establishment (history r);
  li_distinct : forall p q st st', states (history r) !! p = Some st ->
    states (history r) !! q = Some st' -> establishment_count st = establishment_count st' ->
    establishment_count st <> 0 -> p = q;
}.

Definition registry_inv (r : ConnectionRegistry) (live : list SocketAddr) : Prop :=
  locked_inv r live /\ snapshot r = states (history r).

(** ** Lemmas *)

Lemma occ_app p a b : occ p (a ++ b) = occ p a + occ p b.
Proof. induction a as [|q a IH]; cbn; lia. Qed.

Lemma occ_nonneg p l : 0 <= occ p l.
Proof. induction l; cbn; [lia|]. case_decide; lia. Qed.

Lemma occ_le p l : occ p l <= len l.
Proof. induction l as [|q l IH]; [done|]. rewrite len_cons. cbn. case_decide; lia. Qed.

Lemma occ_elem p l : p ∈ l -> 0 < occ p l.
Proof.
  induction l as [|q l IH]; [set_solver|]. cbn. intros [->|H]%elem_of_cons.
  - rewrite decide_True by done. pose proof (occ_nonneg q l). lia.
  - specialize (IH H). case_decide; lia.
Qed.

Lemma discovered_dom r : discovered r = Z.of_nat (size (dom (states (history r)) ∖ pinned r)).
Proof.
  unfold discovered. rewrite <-size_dom. do 2 f_equal. apply dom_filter_L. intros p.
  rewrite elem_of_difference, elem_of_dom. split.
  - intros [[st Hst] Hn]. by exists st.
  - intros (st & Hst & Hn). eauto.
Qed.

Lemma locked_discovered r r' :
  dom (states (history r')) ⊆ dom (states (history r)) -> pinned r' = pinned r ->
  discovered r' <= discovered r.
Proof.
  intros Hd Hp. rewrite !discovered_dom, Hp. apply Nat2Z.inj_le, subseteq_size. set_solver.
Qed.

(** Pruning drops idle, unpinned peers only. *)
Lemma prune_spec now r live :
  locked_inv r live ->
  let '(changed, r') := prune_locked now r in
  locked_inv r' live /\ snapshot r' = snapshot r /\ pinned r' = pinned r /\ limits r' = limits r
  /\ next_establishment (history r') = next_establishment (history r)
  /\ (forall p, states (history r') !! p
        = match states (history r) !! p with
          | Some st => if keep_peer r now (history r) p st then Some st else None
          | None => None
          end)
  /\ (forall p a, inactive_since (history r') !! p = Some a -> inactive_since (history r) !! p = Some a)
  /\ (changed = false -> states (history r') = states (history r)).
Proof.
  intros Hi. unfold prune_locked. set (kept := filter _ (states (history r))).
  assert (Hk : forall p, kept !! p = match states (history r) !! p with
    | Some st => if keep_peer r now (history r) p st then Some st else None | None => None end).
  { intros p. subst kept. rewrite map_lookup_filter. destruct (states (history r) !! p) as [st|]; cbn; [|done].
    destruct (keep_peer r now (history r) p st) eqn:E; case_guard; cbn in *; congruence. }
  assert (Hsub : kept ⊆ states (history r)) by apply map_filter_subseteq.
  assert (Hsince : forall p a, filter (fun q => is_Some (kept !! q.1)) (inactive_since (history r)) !! p = Some a
    <-> inactive_since (history r) !! p = Some a /\ is_Some (kept !! p)).
  { intros p a. apply map_lookup_filter_Some. }
  split_and!; try done; cbn [history set_history states inactive_since next_establishment]; [split|..].
  - intros p. cbn. rewrite Hk, <-(li_count _ _ Hi p). destruct (states (history r) !! p) as [st|] eqn:E; [|done].
    destruct (keep_peer r now (history r) p st) eqn:Ek; [done|]. cbn.
    unfold keep_peer in Ek. bprop. pose proof (occ_nonneg p live) as Ho.
    rewrite <-(li_count _ _ Hi p), E in Ho. cbn in Ho. lia.
  - intros p [a Ha]. cbn in *. by apply Hsince in Ha as [_ ?].
  - intros p st Hst H0. cbn in *. rewrite Hk in Hst.
    destruct (states (history r) !! p) as [st'|] eqn:E; [|done].
    destruct (keep_peer r now (history r) p st') eqn:Ek; [|done]. injection Hst as ->.
    destruct (li_idle _ _ Hi p st E H0) as [a Ha]. exists a. apply Hsince. split; [done|].
    rewrite Hk, E, Ek. eauto.
  - apply (li_next _ _ Hi).
  - pose proof (li_bound _ _ Hi). etrans; [apply (locked_discovered r)|done]; [|done].
    cbn. by apply subseteq_dom.
  - intros p st Hst. cbn in *. apply (li_generation _ _ Hi p). by eapply lookup_weaken.
  - intros p q st st' Hst Hst'. cbn in *. apply (li_distinct _ _ Hi p q); by eapply lookup_weaken.
  - intros p a Ha. by apply Hsince in Ha as [? _].
  - intros Hc%negb_false_iff%Nat.eqb_eq. by apply map_subseteq_size_eq; [|rewrite Hc].
Qed.

(** Changing the entry of one peer. *)
Lemma locked_update r live live' peer st since next :
  locked_inv r live ->
  let r' := set_history (mkHistory (<[peer := st]> (states (history r))) since next) r in
  active_sessions st = occ peer live' -> (forall p, p <> peer -> occ p live' = occ p live) ->
  (forall p, is_Some (since !! p) -> p = peer \/ is_Some (inactive_since (history r) !! p)) ->
  (forall p, p <> peer -> is_Some (inactive_since (history r) !! p) -> is_Some (since !! p)) ->
  (active_sessions st = 0 -> is_Some (since !! peer)) ->
  next_establishment (history r) <= next ->
  0 <= establishment_count st <= next ->
  (forall q st', q <> peer -> states (history r) !! q = Some st' ->
     establishment_count st' = establishment_count st -> establishment_count st = 0) ->
  discovered r' <= Z.max 0 (max_discovered_peers (limits r)) ->
  locked_inv r' live'.
Proof.
  intros Hi r' Hn Ho Hs1 Hs2 Hs3 Hnext Hg Hd Hb. split; cbn; [..|lia|done| |].
  - intros p. rewrite lookup_insert. case_decide as E; [subst p; done|].
    rewrite Ho by done. apply (li_count _ _ Hi).
  - intros p [->|H]%Hs1; [rewrite lookup_insert_eq; eauto|]. rewrite lookup_insert.
    case_decide; [eauto|]. by apply (li_since _ _ Hi).
  - intros p st' [[<- <-]|[Hne Hst]]%lookup_insert_Some; [done|]. intros H0.
    apply Hs2; [done|]. by apply (li_idle _ _ Hi p st').
  - intros p st' [[<- <-]|[Hne Hst]]%lookup_insert_Some; [done|].
    pose proof (li_generation _ _ Hi p st' Hst). lia.
  - intros p q st1 st2 [[<- <-]|[Hp Hst]]%lookup_insert_Some [[<- <-]|[Hq Hst']]%lookup_insert_Some E H0.
    + done.
    + destruct H0. by apply (Hd q st2).
    + destruct H0. rewrite E. by apply (Hd p st1).
    + by apply (li_distinct _ _ Hi p q st1 st2).
Qed.

Lemma discovered_insert r peer st since next :
  is_Some (states (history r) !! peer) \/ peer ∈ pinned r ->
  discovered (set_history (mkHistory (<[peer := st]> (states (history r))) since next) r) = discovered r.
Proof.
  intros H. rewrite !discovered_dom. cbn. rewrite dom_insert_L. do 2 f_equal. apply set_eq. intros p.
  rewrite !elem_of_difference, elem_of_union, elem_of_singleton. split; [|tauto].
  intros [[->|Hp] Hn]; [|tauto]. destruct H as [H|H]; [|done]. split; [by apply elem_of_dom|done].
Qed.

Lemma discovered_new r peer st since next :
  states (history r) !! peer = None -> peer ∉ pinned r ->
  discovered (set_history (mkHistory (<[peer := st]> (states (history r))) since next) r)
  = discovered r + 1.
Proof.
  intros H Hn. rewrite !discovered_dom. cbn. rewrite dom_insert_L, difference_union_distr_l_L.
  rewrite (difference_disjoint_L {[peer]} (pinned r)) by set_solver.
  rewrite size_union, size_singleton; [lia|]. apply not_elem_of_dom in H. set_solver.
Qed.

Lemma locked_publish r live : locked_inv r live -> registry_inv (publish r) live.
Proof. intros [H1 H2 H3 H4 H5 H6 H7]. split; [by split|done]. Qed.

(** Admission of a peer there is room for. *)
Lemma admit_ok r live peer now :
  locked_inv r live -> len live < usize_max ->
  (states (history r) !! peer = None -> peer ∉ pinned r ->
   discovered r < max_discovered_peers (limits r)) ->
  exists r', admit_peer peer now r = Ok r' /\ registry_inv r' (peer :: live)
    /\ states (history r') = <[peer :=
         mkConn (occ peer live + 1)
           (default 0 (establishment_count <$> states (history r) !! peer))]> (states (history r)).
Proof.
  intros Hi Hlen Hroom. unfold admit_peer.
  pose proof (li_count _ _ Hi peer) as Hc. pose proof (occ_le peer live). pose proof (occ_nonneg peer live).
  set (st := default PeerConnectionState_default (states (history r) !! peer)).
  assert (Hst : active_sessions st = occ peer live)
    by (rewrite <-Hc; subst st; by destruct (states (history r) !! peer)).
  assert (He : establishment_count st = default 0 (establishment_count <$> states (history r) !! peer))
    by (subst st; by destruct (states (history r) !! peer)).
  unfold increment. rewrite Hst, (proj2 (Z.ltb_lt _ _)) by lia. cbn [mbind outcome_bind].
  eexists. split; [reflexivity|]. split; [|by rewrite <-He].
  apply locked_publish.
  set (since := match states (history r) !! peer with None => _ | Some _ => _ end).
  apply (locked_update r live (peer :: live) peer); try done.
  - cbn. rewrite decide_True by done. lia.
  - intros p Hp. cbn. rewrite decide_False by done. lia.
  - intros p Hp. subst since. destruct (states (history r) !! peer); [by right|].
    rewrite lookup_insert in Hp. case_decide; [by left|by right].
  - intros p Hp Hs. subst since. destruct (states (history r) !! peer); [done|].
    by rewrite lookup_insert_ne.
  - cbn. lia.
  - cbn. rewrite He. destruct (states (history r) !! peer) as [s|] eqn:E; cbn;
      [by apply (li_generation _ _ Hi peer)|]. pose proof (li_next _ _ Hi). lia.
  - cbn. intros q st' Hq Hst' E. rewrite He in *. destruct (states (history r) !! peer) as [s|] eqn:Es; [|done].
    cbn in *. destruct (decide (establishment_count s = 0)); [done|]. destruct Hq.
    apply (li_distinct _ _ Hi q peer st' s); [done|done|done|congruence].
  - destruct (states (history r) !! peer) as [s|] eqn:E.
    + rewrite discovered_insert by (left; by rewrite E). apply Hi.
    + destruct (decide (peer ∈ pinned r)).
      * rewrite discovered_insert by by right. apply Hi.
      * rewrite discovered_new by done. specialize (Hroom eq_refl n). lia.
Qed.

(** *** Eviction *)

Definition idle_peer (r : ConnectionRegistry) (p : SocketAddr) : Prop :=
  p ∉ pinned r /\ exists st, states (history r) !! p = Some st /\ active_sessions st = 0.

Lemma idle_peers_spec r l :
  (forall p a, (p, a) ∈ l -> is_Some (states (history r) !! p)) ->
  exists idle, idle_peers r l = Ok idle
    /\ forall p a, (p, a) ∈ idle <-> (p, a) ∈ l /\ idle_peer r p.
Proof.
  induction l as [|[q b] l IH]; intros Hl; [exists []; split; [done|set_solver]|].
  destruct IH as (idle & Hok & Hidle); [intros p a Hp; apply (Hl p a); set_solver|].
  destruct (Hl q b) as [st Hst]; [set_solver|]. cbn [idle_peers]. rewrite Hok, Hst.
  case_bool_decide as Hpin; cbn [mbind outcome_bind mret outcome_ret expect].
  - exists idle. split; [done|]. intros p a. rewrite Hidle, elem_of_cons.
    unfold idle_peer. naive_solver.
  - eexists. split; [done|]. intros p a. destruct (active_sessions st =? 0) eqn:E; bprop;
      rewrite ?elem_of_cons, Hidle; unfold idle_peer; [naive_solver|].
    split; [naive_solver|]. intros [[[= -> ->]|H] H']; [|done].
    destruct H' as (_ & st' & ? & ?). congruence.
Qed.

Lemma lex_le_refl a : lex_le a a = true.
Proof. induction a as [|x a IH]; cbn; [done|]. rewrite Z.eqb_refl, IH. by rewrite orb_true_r. Qed.

Lemma older_le p a q b : older (p, a) (q, b) = true -> a <= b.
Proof. unfold older. cbn. intros [H|[H _]%andb_true_iff]%orb_true_iff; bprop; lia. Qed.

Lemma older_total p a q b : older (p, a) (q, b) = false -> b <= a.
Proof.
  unfold older. cbn. intros [H1 _]%orb_false_iff. bprop. lia.
Qed.

Lemma oldest_spec l :
  match oldest_of l with
  | Some (p, a) => (p, a) ∈ l /\ forall q b, (q, b) ∈ l -> a <= b
  | None => l = []
  end.
Proof.
  induction l as [|[q b] l IH]; [done|]. cbn [oldest_of foldr]. fold (oldest_of l).
  destruct (oldest_of l) as [[p a]|].
  - destruct IH as [Hin Hmin]. destruct (older (q, b) (p, a)) eqn:E.
    + split; [left|]. apply older_le in E. intros q' b' [[= -> ->]|H]%elem_of_cons; [lia|].
      specialize (Hmin q' b' H). lia.
    + apply older_total in E. split; [by right|]. intros q' b' [[= -> ->]|H]%elem_of_cons; [done|eauto].
  - subst l. split; [left|]. intros q' b' [[= -> ->]|H]%elem_of_cons; [done|set_solver].
Qed.

Lemma evict_ok r live p :
  locked_inv r live -> idle_peer r p ->
  let r' := set_history (evict p (history r)) r in
  locked_inv r' live /\ discovered r' = discovered r - 1.
Proof.
  intros Hi [Hpin (st & Hst & H0)] r'.
  assert (Hd : discovered r' = discovered r - 1).
  { rewrite !discovered_dom. subst r'. cbn. rewrite dom_delete_L, difference_difference_l_L.
    rewrite (union_comm_L {[p]}), <-difference_difference_l_L.
    assert (p ∈ dom (states (history r)) ∖ pinned r).
    { apply elem_of_difference. split; [by eapply elem_of_dom_2|done]. }
    rewrite size_difference, size_singleton by set_solver.
    assert (size (dom (states (history r)) ∖ pinned r) <> 0%nat); [|lia].
    apply size_non_empty_iff. set_solver. }
  split; [|done]. split; subst r'; cbn.
  - intros q. rewrite <-(li_count _ _ Hi q). rewrite lookup_delete. case_decide as E; [|done].
    subst q. by rewrite Hst.
  - intros q [a [Hq Ha]%lookup_delete_Some]. rewrite lookup_delete_ne by done. apply (li_since _ _ Hi). eauto.
  - intros q st' [Hq Hst']%lookup_delete_Some. rewrite lookup_delete_ne by done. by apply (li_idle _ _ Hi).
  - apply Hi.
  - pose proof (li_bound _ _ Hi). etrans; [|exact H].
    assert (discovered (set_history (evict p (history r)) r) = discovered r - 1) as -> by exact Hd. lia.
  - intros q st' [Hq Hst']%lookup_delete_Some. by apply (li_generation _ _ Hi q).
  - intros q q' st1 st2 [_ H1]%lookup_delete_Some [_ H2]%lookup_delete_Some.
    by apply (li_distinct _ _ Hi q q').
Qed.

(** *** Operations *)

(** The peer a registration evicts, if it has to. *)
Definition evicts (r : ConnectionRegistry) (victim : option SocketAddr) : Prop :=
  match victim with
  | None => True
  | Some v => idle_peer r v /\ exists a, inactive_since (history r) !! v = Some a
      /\ forall q b, idle_peer r q -> inactive_since (history r) !! q = Some b -> a <= b
  end.

Lemma register_ok r live peer now :
  registry_inv r live -> len live < usize_max ->
  let r1 := (prune_locked now r).2 in
  exists res r', register_peer peer now r = (res, r')
  /\ ((res = Err PeerHistoryFull /\ registry_inv r' live /\ states (history r') = states (history r1)
       /\ states (history r1) !! peer = None /\ peer ∉ pinned r
       /\ max_discovered_peers (limits r) <= discovered r1 /\ forall q, ~ idle_peer r1 q)
      \/ (res = Ok peer /\ registry_inv r' (peer :: live)
          /\ exists victim, evicts r1 victim
             /\ (is_Some victim -> states (history r1) !! peer = None /\ peer ∉ pinned r
                   /\ max_discovered_peers (limits r) <= discovered r1)
             /\ states (history r')
                = <[peer := mkConn (occ peer live + 1)
                      (default 0 (establishment_count <$> states (history r1) !! peer))]>
                    (match victim with
                     | Some v => delete v (states (history r1))
                     | None => states (history r1)
                     end))).
Proof.
  intros [Hi _] Hlen. unfold register_peer. pose proof (prune_spec now r live Hi) as Hp.
  destruct (prune_locked now r) as [changed r1]. cbn zeta. cbn [snd].
  destruct Hp as (Hi1 & _ & Hpin & Hlim & _). rewrite <-Hpin, <-Hlim.
  destruct (bool_decide (states (history r1) !! peer = None) && bool_decide (peer ∉ pinned r1)
            && (max_discovered_peers (limits r1) <=? discovered r1)) eqn:Efull.
  - bprop. destruct (idle_peers_spec r1 (map_to_list (inactive_since (history r1)))) as (idle & -> & Hidle).
    { intros p a Ha%elem_of_map_to_list. apply (li_since _ _ Hi1). eauto. }
    pose proof (oldest_spec idle) as Ho. destruct (oldest_of idle) as [[v a]|].
    + destruct Ho as [Hv Hmin]. apply Hidle in Hv as [Ha%elem_of_map_to_list Hv].
      destruct (evict_ok r1 live v Hi1 Hv) as [Hi2 Hd].
      destruct (admit_ok _ live peer now Hi2 Hlen) as (r' & -> & Hr & Hst).
      { intros _ _. rewrite Hd. pose proof (li_bound _ _ Hi1). cbn.
        assert (0 <= discovered r1 - 1) by (rewrite <-Hd; unfold discovered; lia). lia. }
      exists (Ok peer), r'. split; [done|]. right. split; [done|]. split; [done|]. exists (Some v).
      split_and!; [|done|].
      * split; [done|]. exists a. split; [done|]. intros q b Hq Hb. apply (Hmin q b), Hidle.
        split; [by apply elem_of_map_to_list|done].
      * rewrite Hst. cbn. rewrite lookup_delete_ne; [done|]. intros ->.
        destruct Hv as (_ & st & ? & _). congruence.
    + subst idle. exists (Err PeerHistoryFull), (publish r1). split; [done|]. left.
      split_and!; try done; [by apply locked_publish|]. intros q Hq.
      pose proof Hq as (_ & st & Hst & Hz). destruct (li_idle _ _ Hi1 q st Hst Hz) as [a Ha].
      assert (Hn : (q, a) ∈ []) by (apply Hidle; split; [by apply elem_of_map_to_list|done]). set_solver.
  - destruct (admit_ok r1 live peer now Hi1 Hlen) as (r' & -> & Hr & Hst).
    { intros Hn Hnp. rewrite !bool_decide_eq_true_2 in Efull by done. cbn in Efull. bprop. lia. }
    exists (Ok peer), r'. split; [done|]. right. split; [done|]. split; [done|]. exists None.
    split_and!; [done|by intros []|done].
Qed.

Lemma live_state r live peer :
  locked_inv r live -> peer ∈ live ->
  exists st, states (history r) !! peer = Some st /\ active_sessions st = occ peer live.
Proof.
  intros Hi Hp%occ_elem. pose proof (li_count _ _ Hi peer) as Hc.
  destruct (states (history r) !! peer) as [st|]; cbn in Hc; [eauto|lia].
Qed.

Lemma established_ok r live peer :
  registry_inv r live -> peer ∈ live -> next_establishment (history r) < u64_max ->
  exists r', established peer r = Ok r' /\ registry_inv r' live
    /\ exists st, states (history r) !! peer = Some st
       /\ states (history r') = <[peer := mkConn (active_sessions st) (next_establishment (history r) + 1)]>
                                  (states (history r)).
Proof.
  intros [Hi _] Hp Hmax. destruct (live_state r live peer Hi Hp) as (st & Hst & Hn).
  pose proof (li_next _ _ Hi). pose proof (occ_elem _ _ Hp).
  unfold established, increment. rewrite (proj2 (Z.ltb_lt _ _)) by done. cbn [mbind outcome_bind].
  rewrite Hst. cbn [expect mbind outcome_bind]. eexists. split; [done|]. split; [|by exists st].
  apply locked_publish, (locked_update r live live peer); try done; cbn.
  - intros p [a [_ Ha]%lookup_delete_Some]. right. eauto.
  - intros p Hpp Hs. by rewrite lookup_delete_ne.
  - lia.
  - lia.
  - lia.
  - intros q st' _ Hq E. pose proof (li_generation _ _ Hi q st' Hq). lia.
  - rewrite discovered_insert by (left; by rewrite Hst). apply Hi.
Qed.

Lemma drop_ok r l1 l2 peer now :
  registry_inv r (l1 ++ peer :: l2) ->
  exists r', drop_tracker peer now r = Ok r' /\ registry_inv r' (l1 ++ l2).
Proof.
  intros [Hi _]. destruct (live_state r _ peer Hi) as (st & Hst & Hn); [set_solver|].
  assert (Ho : occ peer (l1 ++ peer :: l2) = occ peer (l1 ++ l2) + 1).
  { rewrite !occ_app. cbn. rewrite decide_True by done. lia. }
  pose proof (occ_nonneg peer (l1 ++ l2)).
  unfold drop_tracker. rewrite Hst. cbn [expect mbind outcome_bind]. unfold decrement.
  rewrite (proj2 (Z.ltb_lt _ _)) by lia. cbn [mbind outcome_bind]. eexists. split; [done|].
  set (since := if active_sessions st - 1 =? 0 then _ else _).
  apply locked_publish.
  match goal with |- locked_inv (prune_locked now ?r').2 _ => set (r1 := r') end.
  assert (H1 : locked_inv r1 (l1 ++ l2)).
  { apply (locked_update r (l1 ++ peer :: l2) (l1 ++ l2) peer); try done; cbn.
    - lia.
    - intros p Hp. rewrite !occ_app. cbn. rewrite decide_False by done. lia.
    - intros p Hs. subst since. destruct (_ =? 0); [|by right].
      destruct (inactive_since (history r) !! peer) eqn:E; [by right|].
      rewrite lookup_insert in Hs. case_decide; [by left|by right].
    - intros p Hp Hs. subst since. destruct (_ =? 0); [|done].
      destruct (inactive_since (history r) !! peer) eqn:E; [done|]. by rewrite lookup_insert_ne.
    - intros Hz. subst since. rewrite (proj2 (Z.eqb_eq _ _) Hz).
      destruct (inactive_since (history r) !! peer) eqn:E; [by rewrite E|].
      by rewrite lookup_insert_eq.
    - by apply (li_generation _ _ Hi peer).
    - intros q st' Hq Hst' E. destruct (decide (establishment_count st = 0)); [done|]. destruct Hq.
      apply (li_distinct _ _ Hi q peer st' st); [done|done|done|congruence].
    - rewrite discovered_insert by (left; by rewrite Hst). apply Hi. }
  pose proof (prune_spec now r1 _ H1) as Hp. destruct (prune_locked now r1) as [c r2].
  apply Hp.
Qed.

Lemma prune_ok r live now : registry_inv r live -> registry_inv (prune now r) live.
Proof.
  intros [Hi Hs]. unfold prune. pose proof (prune_spec now r live Hi) as Hp.
  destruct (prune_locked now r) as [[] r']; destruct Hp as (Hi' & Hsn & _ & _ & _ & _ & _ & Hch);
    [by apply locked_publish|]. split; [done|]. rewrite Hsn, Hs. symmetry. by apply Hch.
Qed.

Lemma registry_inv_new l p : registry_inv (ConnectionRegistry_new l p) [].
Proof.
  split; [|done]. split; cbn; try done; intros; rewrite ?lookup_empty in *; try done.
  rewrite discovered_dom. cbn. rewrite dom_empty_L.
  replace (∅ ∖ list_to_set p) with (∅ : gset SocketAddr) by set_solver. rewrite size_empty. lia.
Qed.

Lemma registry_step_inv c c' :
  registry_step c c' -> registry_inv c.1 c.2 -> registry_inv c'.1 c'.2.
Proof.
  intros [peer now r r' live Hl Hr|peer now e r r' live Hl Hr|peer r r' live Hp Hg He|
    peer now r r' l1 l2 Hd|now r live] Hi; cbn [fst snd] in *.
  - destruct (register_ok r live peer now Hi Hl) as (res & r2 & Hr2 & [H|H]);
      rewrite Hr in Hr2; injection Hr2 as <- <-; [by destruct H|tauto].
  - destruct (register_ok r live peer now Hi Hl) as (res & r2 & Hr2 & [H|H]);
      rewrite Hr in Hr2; injection Hr2 as <- <-; [tauto|by destruct H].
  - destruct (established_ok r live peer Hi Hp Hg) as (r2 & Hr2 & Hi2 & _). congruence.
  - destruct (drop_ok r l1 l2 peer now Hi) as (r2 & Hr2 & Hi2). congruence.
  - by apply prune_ok.
Qed.

(** What the history does not touch stays as it is. *)
Lemma register_fixed {A} (f : ConnectionRegistry -> A) peer now r :
  (forall h r, f (set_history h r) = f r) -> (forall r, f (publish r) = f r) ->
  f (register_peer peer now r).2 = f r.
Proof.
  intros Hh Hp. unfold register_peer. transitivity (f (prune_locked now r).2); [|by cbn; rewrite Hh].
  generalize (prune_locked now r). clear r. intros [ch r1]. cbn [snd].
  assert (Hf : forall r, f r = f r1 ->
    f (match admit_peer peer now r with
       | Ok r' => (Ok peer, r') | Err e => (Err e, r) | Panic => (@Panic DaemonError _, r) end).2
    = f r1).
  { intros r Hr. unfold admit_peer. destruct (increment _ _); [|done|done]. cbn. by rewrite Hp, Hh. }
  destruct (_ && _ && _); [|by apply Hf].
  destruct (idle_peers _ _) as [idle|[]|]; [|done]. destruct (oldest_of idle) as [[v a]|]; [|apply Hp].
  apply Hf, Hh.
Qed.

Lemma register_limits peer now r : limits (register_peer peer now r).2 = limits r.
Proof. by apply register_fixed. Qed.

Lemma register_pinned peer now r : pinned (register_peer peer now r).2 = pinned r.
Proof. by apply register_fixed. Qed.

Lemma registry_step_limits c c' : registry_step c c' -> limits c'.1 = limits c.1.
Proof.
  intros [peer now r r' live Hl Hr|peer now e r r' live Hl Hr|peer r r' live Hp Hg He|
    peer now r r' l1 l2 Hd|now r live]; cbn [fst snd].
  - pose proof (register_limits peer now r) as H. by rewrite Hr in H.
  - pose proof (register_limits peer now r) as H. by rewrite Hr in H.
  - revert He. unfold established. destruct (increment _ _); [|done|done]. cbn.
    destruct (states (history r) !! peer); cbn; [|done]. by intros [= <-].
  - revert Hd. unfold drop_tracker. destruct (states (history r) !! peer); cbn; [|done].
    destruct (decrement _); cbn; [|done|done]. by intros [= <-].
  - unfold prune, prune_locked. by case_match.
Qed.

Lemma registry_run_inv l p c :
  rtc registry_step (ConnectionRegistry_new l p, []) c ->
  registry_inv c.1 c.2 /\ limits c.1 = l.
Proof.
  intros H. cut (registry_inv c.1 c.2 /\ limits c.1 = limits (ConnectionRegistry_new l p)); [done|].
  remember (ConnectionRegistry_new l p, []) as c0 eqn:E.
  assert (Hi : registry_inv c0.1 c0.2) by (subst; apply registry_inv_new).
  assert (El : limits (ConnectionRegistry_new l p) = limits c0.1) by by subst.
  rewrite El. clear E El.
  induction H as [c|c c1 c2 Hs _ IH]; [done|].
  rewrite <-(registry_step_limits _ _ Hs). apply IH. by eapply registry_step_inv.
Qed.

(** C21: The connection history is exact and bounded.  In every run of registrations,
    establishments, dropped trackers and reaping, from an empty registry: the
    snapshot subscribers read is the history; a peer's [active_sessions] is the
    number of its live trackers; at most [max_discovered_peers] unpinned peers are
    retained; no two peers share an establishment generation; and no operation
    panics (no count underflows, no indexed entry is missing). *)
Theorem registry_exact l p r live :
  rtc registry_step (ConnectionRegistry_new l p, []) (r, live) ->
  snapshot r = states (history r)
  /\ (forall q, default 0 (active_sessions <$> snapshot r !! q) = occ q live)
  /\ discovered r <= Z.max 0 (max_discovered_peers l)
  /\ (forall q q' st st', snapshot r !! q = Some st -> snapshot r !! q' = Some st' ->
        establishment_count st = establishment_count st' -> establishment_count st <> 0 -> q = q')
  /\ (forall peer now, len live < usize_max -> (register_peer peer now r).1 <> Panic)
  /\ (forall peer, peer ∈ live -> next_establishment (history r) < u64_max ->
        established peer r <> Panic)
  /\ (forall peer now, peer ∈ live -> drop_tracker peer now r <> Panic).
Proof.
  intros [Hi Hl]%registry_run_inv. cbn [fst snd] in *. pose proof Hi as [Hk Hs]. rewrite Hs, <-Hl.
  split_and!; [done|apply Hk|apply Hk|apply Hk|..].
  - intros peer now Hlen. destruct (register_ok r live peer now Hi Hlen) as (res & r' & -> & H).
    destruct H as [[-> _]|[-> _]]; done.
  - intros peer Hp Hg. destruct (established_ok r live peer Hi Hp Hg) as (r' & -> & _). done.
  - intros peer now (l1 & l2 & ->)%list_elem_of_split. destruct (drop_ok r l1 l2 peer now Hi) as (r' & -> & _). done.
Qed.

(** Admission.  A registration first forgets the peers whose retention is over.
    It is refused exactly when the peer is new and not configured, the history is
    full and every discovered peer in it has a live session; when the history is
    full otherwise, one idle discovered peer makes room, none of the others having
    been idle for longer.  The peer's count grows by one and its establishment
    generation is kept. *)
Theorem registry_admission l p r live peer now :
  rtc registry_step (ConnectionRegistry_new l p, []) (r, live) -> len live < usize_max ->
  let r1 := (prune_locked now r).2 in
  exists res r', register_peer peer now r = (res, r')
  /\ ((res = Err PeerHistoryFull /\ states (history r') = states (history r1)
       /\ states (history r1) !! peer = None /\ peer ∉ pinned r
       /\ max_discovered_peers l <= discovered r1 /\ forall q, ~ idle_peer r1 q)
      \/ (res = Ok peer
          /\ exists victim, evicts r1 victim
             /\ (is_Some victim -> states (history r1) !! peer = None /\ peer ∉ pinned r
                   /\ max_discovered_peers l <= discovered r1)
             /\ states (history r')
                = <[peer := mkConn (occ peer live + 1)
                      (default 0 (establishment_count <$> states (history r1) !! peer))]>
                    (match victim with
                     | Some v => delete v (states (history r1))
                     | None => states (history r1)
                     end))).
Proof.
  intros [Hi Hl]%registry_run_inv Hlen. cbn [fst snd] in *. rewrite <-Hl.
  destruct (register_ok r live peer now Hi Hlen) as (res & r' & Hr & H).
  exists res, r'. split; [done|]. destruct H as [H|H]; [left|right]; tauto.
Qed.

(** ** The modem's routers *)

Inductive IpAddr : Type := IpV4 (a : Ipv4Addr) | IpV6 (a : Ipv6Addr).
#[global] Instance IpAddr_eq_dec : EqDecision IpAddr.
Proof. solve_decision. Defined.
#[global] Instance IpAddr_countable : Countable IpAddr.
Proof.
  apply (inj_countable' (fun a => match a with IpV4 x => inl x | IpV6 x => inr x end)
    (fun c => match c with inl x => IpV4 x | inr x => IpV6 x end)). by intros [].
Defined.

Abbreviation RouterAddress := (IpAddr * Z)%type.

(** [Ipv6Addr::to_ipv4_mapped]. *)
Definition to_ipv4_mapped (a : Ipv6Addr) : option Ipv4Addr :=
  if Z.shiftr a 32 =? 65535 then Some (Z.land a (Z.ones 32)) else None.

Definition router_address (peer : SocketAddr) : RouterAddress :=
  match peer with
  | SocketV6 ip _ _ scope_id =>
      match to_ipv4_mapped ip with
      | Some v4 => (IpV4 v4, 0)
      | None => (IpV6 ip, if is_unicast_link_local ip then scope_id else 0)
      end
  | SocketV4 ip _ => (IpV4 ip, 0)
  end.

Abbreviation RouterCounts := (gmap RouterAddress Z).

Definition router_contains (self : RouterCounts) (peer : SocketAddr) : bool :=
  is_some (self !! router_address peer).

(** [register], with the address the guard keeps. *)
Definition register_router (peer : SocketAddr) (self : RouterCounts)
    : panics (RouterAddress * RouterCounts) :=
  let address := router_address peer in
  n ← increment usize_max (default 0 (self !! address));
  mret (address, <[address := n]> self).

(** [Drop for RouterConnection]. *)
Definition drop_router (address : RouterAddress) (self : RouterCounts) : panics RouterCounts :=
  n ← expect (self !! address);
  n ← decrement n;
  mret (if n =? 0 then delete address self else <[address := n]> self).

Inductive routers_step
    : RouterCounts * list RouterAddress -> RouterCounts * list RouterAddress -> Prop :=
  | routers_register peer r a r' live :
      len live < usize_max -> register_router peer r = Ok (a, r') ->
      routers_step (r, live) (r', a :: live)
  | routers_drop a r r' l1 l2 :
      drop_router a r = Ok r' -> routers_step (r, l1 ++ a :: l2) (r', l1 ++ l2).

(** Every address with a connection, and its number. *)
Definition counts (r : RouterCounts) (live : list RouterAddress) : Prop :=
  forall a, r !! a = let n := Z.of_nat (length (filter (a =.) live)) in
                     if n =? 0 then None else Some n.

Lemma counts_default r live a :
  counts r live -> default 0 (r !! a) = Z.of_nat (length (filter (a =.) live)).
Proof. intros H. rewrite H. cbv zeta. case_match; cbn; bprop; lia. Qed.

Lemma length_filter_le {A} (P : A -> Prop) `{forall x, Decision (P x)} (l : list A) :
  (length (filter P l) <= length l)%nat.
Proof. apply length_filter. Qed.

Lemma register_router_ok peer r live :
  counts r live -> len live < usize_max ->
  exists r', register_router peer r = Ok (router_address peer, r')
    /\ counts r' (router_address peer :: live).
Proof.
  intros Hc Hl. unfold register_router. rewrite (counts_default r live) by done.
  pose proof (length_filter_le (router_address peer =.) live). unfold len in Hl.
  unfold increment. rewrite (proj2 (Z.ltb_lt _ _)) by lia. cbn. eexists. split; [done|].
  intros a. rewrite filter_cons, lookup_insert. case_decide as E.
  - subst a. rewrite decide_True by done. cbn [length]. cbv zeta.
    rewrite (proj2 (Z.eqb_neq _ _)) by lia. f_equal. lia.
  - rewrite decide_False by done. apply Hc.
Qed.

Lemma drop_router_ok a r l1 l2 :
  counts r (l1 ++ a :: l2) -> exists r', drop_router a r = Ok r' /\ counts r' (l1 ++ l2).
Proof.
  intros Hc. unfold drop_router. set (n := Z.of_nat (length (filter (a =.) (l1 ++ l2)))).
  assert (Hn : Z.of_nat (length (filter (a =.) (l1 ++ a :: l2))) = n + 1).
  { subst n. rewrite !filter_app, filter_cons, decide_True, !length_app by done. cbn. lia. }
  rewrite (Hc a). cbv zeta. rewrite Hn, (proj2 (Z.eqb_neq _ _)) by lia.
  cbn [expect mbind outcome_bind]. unfold decrement. rewrite (proj2 (Z.ltb_lt _ _)) by lia.
  cbn [mbind outcome_bind]. replace (n + 1 - 1) with n by lia. eexists. split; [done|].
  intros b. assert (Hb : b <> a -> filter (b =.) (l1 ++ a :: l2) = filter (b =.) (l1 ++ l2)).
  { intros Hne. by rewrite !filter_app, filter_cons, decide_False. }
  destruct (n =? 0) eqn:E.
  - rewrite lookup_delete. case_decide as Eb.
    + subst b. fold n. cbv zeta. by rewrite E.
    + rewrite Hc, Hb by done. done.
  - rewrite lookup_insert. case_decide as Eb.
    + subst b. fold n. cbv zeta. by rewrite E.
    + rewrite Hc, Hb by done. done.
Qed.

Lemma routers_step_counts c c' : routers_step c c' -> counts c.1 c.2 -> counts c'.1 c'.2.
Proof.
  intros [peer r a r' live Hl Hr|a r r' l1 l2 Hd] Hc; cbn [fst snd] in *.
  - destruct (register_router_ok peer r live Hc Hl) as (r2 & Hr2 & Hc2). rewrite Hr in Hr2. by injection Hr2 as -> ->.
  - destruct (drop_router_ok a r l1 l2 Hc) as (r2 & Hr2 & Hc2). rewrite Hd in Hr2. by injection Hr2 as ->.
Qed.

(** Discovery suppression follows connections exactly: in every run a peer is
    reported connected if and only if a live connection has its address (up to
    port, flow label and the IPv4-mapped form, and with the scope of a link-local
    address), and neither registering nor dropping a connection panics. *)
Theorem routers_exact r live :
  rtc routers_step (∅, []) (r, live) ->
  (forall peer, router_contains r peer = true <-> router_address peer ∈ live)
  /\ (forall peer, len live < usize_max -> register_router peer r <> Panic)
  /\ (forall a, a ∈ live -> drop_router a r <> Panic).
Proof.
  intros H. assert (Hc : counts r live).
  { change (counts (r, live).1 (r, live).2).
    assert (H0 : counts ((∅ : RouterCounts), @nil RouterAddress).1 (@nil RouterAddress))
      by (intros a; apply lookup_empty).
    change (@nil RouterAddress) with ((∅ : RouterCounts), @nil RouterAddress).2 in H0 at 2. revert H0.
    induction H as [c|c c1 c2 Hs _ IH]; [done|]. intros H0. apply IH. by eapply routers_step_counts. }
  split_and!.
  - intros peer. unfold router_contains. rewrite Hc. cbv zeta.
    destruct (_ =? 0) eqn:E; cbn; bprop.
    + split; [done|]. intros Hin. destruct (filter (router_address peer =.) live) eqn:Ef; [|done].
      assert (router_address peer ∈ filter (router_address peer =.) live)
        by by apply list_elem_of_filter. rewrite Ef in *. set_solver.
    + split; [|done]. intros _. destruct (filter (router_address peer =.) live) as [|x k] eqn:Ef; [done|].
      assert (Hx : x ∈ filter (router_address peer =.) live) by (rewrite Ef; left).
      apply list_elem_of_filter in Hx as [-> Hx]. done.
  - intros peer Hl. destruct (register_router_ok peer r live Hc Hl) as (r' & -> & _). done.
  - intros a (l1 & l2 & ->)%list_elem_of_split. destruct (drop_router_ok a r l1 l2 Hc) as (r' & -> & _). done.
Qed.

(** ** Witnesses *)

Definition endpoint (port : Z) : SocketAddr := SocketV4 2130706433 port.
Definition one_peer : RouterLimits := mkLimits 64 1 300.
Definition registry_0 : ConnectionRegistry := ConnectionRegistry_new one_peer [].
Definition registry_1 : ConnectionRegistry := (register_peer (endpoint 1) 5 registry_0).2.
Definition registry_2 : ConnectionRegistry :=
  match drop_tracker (endpoint 1) 7 registry_1 with Ok r => r | _ => registry_1 end.

Lemma registry_1_reached : rtc registry_step (registry_0, []) (registry_1, [endpoint 1]).
Proof.
  eapply rtc_l; [|apply rtc_refl]. apply (reg_register (endpoint 1) 5); [done|].
  vm_compute. reflexivity.
Qed.

Lemma registry_2_reached : rtc registry_step (registry_0, []) (registry_2, []).
Proof.
  eapply rtc_r; [apply registry_1_reached|].
  apply (reg_drop (endpoint 1) 7 registry_1 registry_2 [] []). vm_compute. reflexivity.
Qed.

Lemma registry_exact_witness :
  default 0 (active_sessions <$> snapshot registry_1 !! endpoint 1) = 1
  /\ drop_tracker (endpoint 1) 9 registry_1 <> Panic.
Proof.
  destruct (registry_exact one_peer [] registry_1 [endpoint 1] registry_1_reached)
    as (_ & H1 & _ & _ & _ & _ & H2).
  split; [exact (H1 (endpoint 1))|]. apply H2. left.
Defined.

(** The idle peer makes room for another. *)
Lemma registry_admission_witness :
  exists r', register_peer (endpoint 2) 11 registry_2 = (Ok (endpoint 2), r')
    /\ exists victim, evicts (prune_locked 11 registry_2).2 victim.
Proof.
  destruct (registry_admission one_peer [] registry_2 [] (endpoint 2) 11 registry_2_reached eq_refl)
    as (res & r' & Hr & H).
  exists r'. destruct H as [[-> _]|[-> (victim & Hv & _)]].
  - exfalso. assert (E : (register_peer (endpoint 2) 11 registry_2).1 = Ok (endpoint 2))
      by (vm_compute; reflexivity). rewrite Hr in E. discriminate E.
  - split; [exact Hr|]. exists victim. exact Hv.
Defined.

(** A link-local router, its IPv6 scope kept and its port ignored. *)
Definition fe80_1 : Z := 2 ^ 127 + 2 ^ 126 + 2 ^ 125 + 2 ^ 124 + 2 ^ 123 + 2 ^ 122 + 2 ^ 121 + 2 ^ 119 + 1.
Example link_local_scope : router_address (SocketV6 fe80_1 1234 42 3) = (IpV6 fe80_1, 3).
Proof. vm_compute. reflexivity. Qed.
Example mapped_address :
  router_address (SocketV6 (65535 * 2 ^ 32 + 2130706433) 1 0 7) = router_address (endpoint 99).
Proof. vm_compute. reflexivity. Qed.

Definition routers_1 : RouterCounts :=
  match register_router (endpoint 1) ∅ with Ok (_, r) => r | _ => ∅ end.

Lemma routers_1_reached : rtc routers_step (∅, []) (routers_1, [(IpV4 2130706433, 0)]).
Proof.
  eapply rtc_l; [|apply rtc_refl]. apply (routers_register (endpoint 1)); [done|].
  vm_compute. reflexivity.
Qed.

Lemma routers_exact_witness : router_contains routers_1 (endpoint 2) = true.
Proof. apply (proj1 (routers_exact routers_1 _ routers_1_reached) (endpoint 2)). left. Defined.
