(* ===== verification/Reconnect.v ===== *)
(** * The router's connection driver

    [dlep-router/src/{lib,connect}.rs]: the queue of peers to dial again with
    exponential backoff, the bounded set of connection attempts, and the body of
    the event loop that drives both from the connection snapshot of
    [Connections].  The clock and the snapshot are arguments. *)

From stdpp Require Import sorting.
From S2P Require Import Prelude Externs CoreTypes Addresses Events DaemonTypes Connections.

(** ** The queue *)

Definition RECONNECT_BASE : Duration := from_secs 1.
Definition RECONNECT_MAX : Duration := from_secs 30.

Record ReconnectEntry : Type := mkRetry {
  retries : Z;
  due : option Instant;
}.

Abbreviation ReconnectQueue := (gmap SocketAddr ReconnectEntry).

Definition backoff_for (n : Z) : Duration :=
  let shift := Z.min n 16 in
  Z.min (duration_saturating_mul RECONNECT_BASE (Z.shiftl 1 shift)) RECONNECT_MAX.

Definition schedule (addr : SocketAddr) (now : Instant) (self : ReconnectQueue) : ReconnectQueue :=
  match self !! addr with
  | Some entry =>
      match due entry with
      | None => <[addr := mkRetry (retries entry) (Some (now + backoff_for (retries entry)))]> self
      | Some _ => self
      end
  | None => <[addr := mkRetry 0 (Some (now + backoff_for 0))]> self
  end.

(** [due.sort()]: by time, then by address. *)
Definition due_le (a b : Instant * SocketAddr) : bool :=
  lex_le (a.1 :: socket_key a.2) (b.1 :: socket_key b.2).
Fixpoint insert_due (x : Instant * SocketAddr) (l : list (Instant * SocketAddr))
    : list (Instant * SocketAddr) :=
  match l with
  | [] => [x]
  | y :: l' => if due_le x y then x :: l else y :: insert_due x l'
  end.
Definition sort_due (l : list (Instant * SocketAddr)) : list (Instant * SocketAddr) :=
  foldr insert_due [] l.

Definition due_peers (self : ReconnectQueue) (now : Instant) : list (Instant * SocketAddr) :=
  omap (fun '(addr, entry) =>
    match due entry with
    | Some at_ => if at_ <=? now then Some (at_, addr) else None
    | None => None
    end) (map_to_list self).

(** [entry.attempts.saturating_add(1)] on a [u32], and the next deadline. *)
Definition hand_out (now : Instant) (addr : SocketAddr) (self : ReconnectQueue)
    : panics ReconnectQueue :=
  entry ← expect (self !! addr);
  let n := Z.min (retries entry + 1) u32_max in
  mret (<[addr := mkRetry n (Some (now + backoff_for n))]> self).

Fixpoint hand_out_all (now : Instant) (addrs : list SocketAddr) (self : ReconnectQueue)
    : panics ReconnectQueue :=
  match addrs with
  | [] => mret self
  | addr :: addrs' => self ← hand_out now addr self; hand_out_all now addrs' self
  end.

Definition take_due_limited (now : Instant) (limit : Z) (self : ReconnectQueue)
    : panics (list SocketAddr * ReconnectQueue) :=
  let addrs := (take (Z.to_nat limit) (sort_due (due_peers self now))).*2 in
  self ← hand_out_all now addrs self;
  mret (addrs, self).

Definition forget_retry (addr : SocketAddr) (self : ReconnectQueue) : ReconnectQueue :=
  delete addr self.
Definition suspend (addr : SocketAddr) (self : ReconnectQueue) : ReconnectQueue :=
  alter (fun entry => mkRetry (retries entry) None) addr self.
Definition queued (self : ReconnectQueue) (addr : SocketAddr) : bool := is_some (self !! addr).

(** [values().filter_map(due).min()]. *)
Definition next_due (self : ReconnectQueue) : option Instant :=
  foldr (fun t acc => match acc with Some u => Some (Z.min t u) | None => Some t end) None
    (omap (fun p => due p.2) (map_to_list self)).

(** ** Attempts ([connect.rs]) *)

Definition MAX_CONNECT_ATTEMPTS : Z := 8.

Record Attempt : Type := mkAttempt {
  at_endpoints : list SocketAddr;
  retry_peer : option SocketAddr;
}.

Record ConnectAttempts : Type := mkAttempts {
  attempts : list Attempt;
  reserved : gset SocketAddr;
}.

Definition ConnectAttempts_default : ConnectAttempts := mkAttempts [] ∅.

(** [MAX_CONNECT_ATTEMPTS - attempts.len()] on [usize]. *)
Definition capacity (self : ConnectAttempts) : panics Z :=
  let n := MAX_CONNECT_ATTEMPTS - len (attempts self) in
  if 0 <=? n then Ok n else Panic.

Definition attempting (self : ConnectAttempts) (peer : SocketAddr) : bool :=
  bool_decide (peer ∈ reserved self).

Definition insert_attempt (endpoints : list SocketAddr) (retry : option SocketAddr)
    (self : ConnectAttempts) : panics (bool * ConnectAttempts) :=
  cap ← capacity self;
  mret (if (cap =? 0) || bool_decide (endpoints = []) || any (attempting self) endpoints
        then (false, self)
        else (true, mkAttempts (attempts self ++ [mkAttempt endpoints retry])
                      (reserved self ∪ list_to_set endpoints))).

Definition start_static (peer : SocketAddr) (self : ConnectAttempts)
    : panics (bool * ConnectAttempts) := insert_attempt [peer] (Some peer) self.
Definition start_offer (endpoints : list OfferEndpoint) (self : ConnectAttempts)
    : panics (bool * ConnectAttempts) := insert_attempt (ep_addr <$> endpoints) None self.

Definition keeps (keep : SocketAddr -> bool) (a : Attempt) : bool :=
  match retry_peer a with Some p => keep p | None => true end.

(** [retain_retries]: the endpoints of what is dropped are released. *)
Definition retain_retries (keep : SocketAddr -> bool) (self : ConnectAttempts) : ConnectAttempts :=
  mkAttempts (retain (keeps keep) (attempts self))
    (foldl (fun r a => if keeps keep a then r else r ∖ list_to_set (at_endpoints a))
       (reserved self) (attempts self)).

(** [next], once attempt [i] is ready. *)
Definition complete (i : nat) (self : ConnectAttempts)
    : panics (option SocketAddr * ConnectAttempts) :=
  a ← expect (attempts self !! i);
  mret (retry_peer a,
        mkAttempts (delete i (attempts self)) (reserved self ∖ list_to_set (at_endpoints a))).

(** ** The event loop *)

(** The local variables of [run_event_loop]. *)
Record Driver : Type := mkDriver {
  dr_connected : gset SocketAddr;
  dr_reconnect : ReconnectQueue;
  dr_attempts : ConnectAttempts;
  dr_startup : list SocketAddr;
  dr_establishments : gmap SocketAddr Z;
}.

Abbreviation Snapshot := (gmap SocketAddr PeerConnectionState).

Definition prune_reconnect_state (snap : Snapshot) (pins : gset SocketAddr) (d : Driver) : Driver :=
  mkDriver (filter (fun p => is_Some (snap !! p)) (dr_connected d))
    (filter (fun e => is_Some (snap !! e.1) \/ e.1 ∈ pins) (dr_reconnect d))
    (dr_attempts d) (dr_startup d)
    (filter (fun e => is_Some (snap !! e.1)) (dr_establishments d)).

Definition reconcile_peer (now : Instant) (d : Driver) (p : SocketAddr * PeerConnectionState)
    : Driver :=
  let '(peer, st) := p in
  let seen := default 0 (dr_establishments d !! peer) in
  let fresh := negb (seen =? establishment_count st) in
  let queue := if fresh then forget_retry peer (dr_reconnect d) else dr_reconnect d in
  let establishments :=
    <[peer := if fresh then establishment_count st else seen]> (dr_establishments d) in
  if 0 <? active_sessions st
  then mkDriver (dr_connected d ∪ {[peer]}) (suspend peer queue) (dr_attempts d) (dr_startup d)
         establishments
  else mkDriver (dr_connected d ∖ {[peer]}) (schedule peer now queue) (dr_attempts d) (dr_startup d)
         establishments.

Definition reconcile_connections (snap : Snapshot) (now : Instant) (d : Driver) : Driver :=
  foldl (reconcile_peer now) d (map_to_list snap).

Definition set_reconnect (q : ReconnectQueue) (d : Driver) : Driver :=
  mkDriver (dr_connected d) q (dr_attempts d) (dr_startup d) (dr_establishments d).
Definition set_attempts (a : ConnectAttempts) (d : Driver) : Driver :=
  mkDriver (dr_connected d) (dr_reconnect d) a (dr_startup d) (dr_establishments d).
Definition set_startup (l : list SocketAddr) (d : Driver) : Driver :=
  mkDriver (dr_connected d) (dr_reconnect d) (dr_attempts d) l (dr_establishments d).

(** The state is read first, whenever it changed. *)
Definition refresh_state (snap : Snapshot) (pins : gset SocketAddr) (now : Instant) (d : Driver)
    : Driver :=
  let d := prune_reconnect_state snap pins d in
  let d := set_attempts
    (retain_retries (fun p => is_some (snap !! p) || bool_decide (p ∈ pins)) (dr_attempts d)) d in
  reconcile_connections snap now d.

(** Peers being dialled are not due. *)
Definition suspend_attempts (d : Driver) : Driver :=
  set_reconnect (foldl (fun q p => suspend p q) (dr_reconnect d)
                   (elements (reserved (dr_attempts d)))) d.

(** The configured peers not dialled yet. *)
Fixpoint run_startup (peers : list SocketAddr) (room : Z) (d : Driver) : panics Driver :=
  match peers with
  | [] => mret (set_startup [] d)
  | peer :: peers' =>
      if 0 <? room then
        if bool_decide (peer ∉ dr_connected d) && negb (queued (dr_reconnect d) peer) then
          '(started, a) ← start_static peer (dr_attempts d);
          run_startup peers' (if (started : bool) then room - 1 else room) (set_attempts a d)
        else run_startup peers' room d
      else mret (set_startup peers d)
  end.

Definition loop_top (refresh : option (Snapshot * Instant)) (pins : gset SocketAddr)
    (connection_capacity : Z) (d : Driver) : panics Driver :=
  let d := match refresh with
           | Some (snap, now) => refresh_state snap pins now d
           | None => d
           end in
  let d := suspend_attempts d in
  cap ← capacity (dr_attempts d);
  run_startup (dr_startup d) (Z.min cap connection_capacity) d.

(** The deadline the loop sleeps until. *)
Definition retry_deadline (connection_capacity : Z) (d : Driver) : panics (option Instant) :=
  cap ← capacity (dr_attempts d);
  mret (if (0 <? cap) && (0 <? connection_capacity) then next_due (dr_reconnect d) else None).

(** An attempt has ended: [ok] tells how. *)
Definition on_completion (i : nat) (ok : bool) (now : Instant) (d : Driver) : panics Driver :=
  '(retry, a) ← complete i (dr_attempts d);
  let d := set_attempts a d in
  mret (if ok then d
        else match (retry : option SocketAddr) with
             | Some peer => set_reconnect (schedule peer now (dr_reconnect d)) d
             | None => d
             end).

Fixpoint dial_due (peers : list SocketAddr) (d : Driver) : panics Driver :=
  match peers with
  | [] => mret d
  | peer :: peers' =>
      let d := set_reconnect (suspend peer (dr_reconnect d)) d in
      if bool_decide (peer ∈ dr_connected d) || attempting (dr_attempts d) peer then dial_due peers' d
      else '(_, a) ← start_static peer (dr_attempts d); dial_due peers' (set_attempts a d)
  end.

Definition on_retry_tick (now : Instant) (connection_capacity : Z) (d : Driver) : panics Driver :=
  cap ← capacity (dr_attempts d);
  '(peers, q) ← take_due_limited now (Z.min cap connection_capacity) (dr_reconnect d);
  dial_due peers (set_reconnect q d).

Definition on_peer_discovered (endpoints : list OfferEndpoint) (connection_capacity : Z) (d : Driver)
    : panics Driver :=
  if connection_capacity =? 0 then mret d
  else if any (fun e => bool_decide (ep_addr e ∈ dr_connected d)
                        || attempting (dr_attempts d) (ep_addr e)) endpoints then mret d
  else
    let endpoints := retain (fun e => negb (queued (dr_reconnect d) (ep_addr e))) endpoints in
    if bool_decide (endpoints = []) then mret d
    else '(_, a) ← start_offer endpoints (dr_attempts d); mret (set_attempts a d).

(** ** Lemmas on the queue *)

Lemma backoff_exact n : 0 <= n -> backoff_for n = Z.min (from_secs (2 ^ n)) RECONNECT_MAX.
Proof.
  intros Hn. unfold backoff_for, duration_saturating_mul, RECONNECT_BASE, RECONNECT_MAX, from_secs.
  rewrite Z.shiftl_mul_pow2 by lia. rewrite Z.mul_1_l.
  assert (H16 : 2 ^ Z.min n 16 <= 2 ^ 16) by (apply Z.pow_le_mono_r; lia).
  assert (H0 : 0 < 2 ^ Z.min n 16) by (apply Z.pow_pos_nonneg; lia).
  unfold Duration_MAX, u64_max. destruct (Z.le_gt_cases n 16) as [Hle|Hgt].
  - rewrite (Z.min_l n 16) in * by done. lia.
  - rewrite (Z.min_r n 16) in * by lia.
    assert (2 ^ 16 <= 2 ^ n) by (apply Z.pow_le_mono_r; lia).
    change (2 ^ 16) with 65536 in *. lia.
Qed.

Lemma backoff_range n : 0 <= n -> RECONNECT_BASE <= backoff_for n <= RECONNECT_MAX.
Proof.
  intros Hn. rewrite backoff_exact by done. unfold RECONNECT_BASE, RECONNECT_MAX, from_secs.
  assert (0 < 2 ^ n) by (apply Z.pow_pos_nonneg; lia). lia.
Qed.

Lemma elem_of_due_peers q now a p :
  (a, p) ∈ due_peers q now <-> exists e, q !! p = Some e /\ due e = Some a /\ a <= now.
Proof.
  unfold due_peers. rewrite list_elem_of_omap. split.
  - intros ([p' e] & H%elem_of_map_to_list & He). exists e. destruct (due e) as [t|] eqn:E; [|done].
    destruct (Z.leb_spec t now); [|done]. injection He as -> ->. done.
  - intros (e & H & E & Hle). exists (p, e). split; [by apply elem_of_map_to_list|].
    rewrite E. by rewrite (proj2 (Z.leb_le _ _) Hle).
Qed.

Lemma NoDup_due_peers q now : NoDup (due_peers q now).*2.
Proof.
  unfold due_peers. pose proof (NoDup_fst_map_to_list q) as H. revert H.
  induction (map_to_list q) as [|[p e] l IH]; cbn; [constructor|]. intros [Hn Hd]%NoDup_cons.
  assert (Hsub : forall x, x ∈ (omap (fun '(addr, entry) =>
      match due entry with Some at_ => if at_ <=? now then Some (at_, addr) else None | None => None end) l).*2
    -> x ∈ l.*1).
  { intros x ([t y] & -> & ([y' e'] & Hin & Hy)%list_elem_of_omap)%list_elem_of_fmap. cbn.
    destruct (due e') as [t'|]; [|done]. destruct (t' <=? now); [|done]. injection Hy as -> ->.
    apply list_elem_of_fmap. by exists (y, e'). }
  destruct (due e) as [t|]; [|by apply IH]. destruct (t <=? now); [|by apply IH].
  cbn. apply NoDup_cons. split; [|by apply IH]. intros Hin. by apply Hn, Hsub.
Qed.

Lemma insert_due_perm x l : insert_due x l ≡ₚ x :: l.
Proof.
  induction l as [|y l IH]; cbn [insert_due]; [reflexivity|]. destruct (due_le x y); [reflexivity|].
  rewrite IH. apply Permutation_swap.
Qed.

Lemma sort_due_perm l : sort_due l ≡ₚ l.
Proof.
  induction l as [|x l IH]; [reflexivity|]. cbn [sort_due foldr]. fold (sort_due l).
  by rewrite insert_due_perm, IH.
Qed.

(** Times ascend along a sorted list. *)
Definition ascending (l : list (Instant * SocketAddr)) : Prop :=
  StronglySorted (fun a b => a.1 <= b.1) l.

Lemma due_le_fst x y : due_le x y = true -> x.1 <= y.1.
Proof. unfold due_le. cbn. intros [H|[H _]%andb_true_iff]%orb_true_iff; bprop; lia. Qed.

Lemma due_gt_fst x y : due_le x y = false -> y.1 <= x.1.
Proof. unfold due_le. cbn. intros [H _]%orb_false_iff. bprop. lia. Qed.

Lemma insert_due_ascending x l : ascending l -> ascending (insert_due x l).
Proof.
  induction 1 as [|y l Hs IH Hy]; cbn [insert_due]; [by repeat constructor|].
  destruct (due_le x y) eqn:E.
  - apply due_le_fst in E. constructor; [by constructor|]. constructor; [done|].
    eapply Forall_impl; [exact Hy|]. intros z Hz. cbn in Hz. lia.
  - apply due_gt_fst in E. constructor; [done|].
    rewrite insert_due_perm. by constructor.
Qed.

Lemma sort_due_ascending l : ascending (sort_due l).
Proof. induction l as [|x l IH]; cbn; [constructor|]. by apply insert_due_ascending. Qed.

Lemma ascending_take_drop k l x y :
  ascending l -> x ∈ take k l -> y ∈ drop k l -> x.1 <= y.1.
Proof.
  intros Hs. revert k. induction Hs as [|z l Hs IH Hz]; intros k; [by rewrite take_nil; set_solver|].
  destruct k as [|k]; cbn; [set_solver|]. intros [->|Hx]%elem_of_cons Hy; [|by eapply IH].
  rewrite Forall_forall in Hz. apply Hz. eapply elem_of_submseteq; [exact Hy|].
  apply sublist_submseteq, sublist_drop.
Qed.

(** What handing a peer out does to its entry. *)
Definition handed_out (now : Instant) (e : ReconnectEntry) : ReconnectEntry :=
  let n := Z.min (retries e + 1) u32_max in mkRetry n (Some (now + backoff_for n)).

Lemma hand_out_all_spec now addrs q :
  NoDup addrs -> (forall p, p ∈ addrs -> is_Some (q !! p)) ->
  exists q', hand_out_all now addrs q = Ok q'
    /\ forall p, q' !! p = if bool_decide (p ∈ addrs) then handed_out now <$> q !! p else q !! p.
Proof.
  intros Hnd. revert q. induction Hnd as [|a addrs Ha Hnd IH]; intros q Hq.
  { exists q. split; [done|]. intros p. by rewrite bool_decide_eq_false_2 by set_solver. }
  destruct (Hq a) as [e He]; [left|]. cbn [hand_out_all]. unfold hand_out at 1. rewrite He.
  cbn [expect mbind outcome_bind mret outcome_ret].
  destruct (IH (<[a := handed_out now e]> q)) as (q' & Hok & Hq').
  { intros p Hp. rewrite lookup_insert. case_decide; [eauto|]. apply Hq. by right. }
  exists q'. split; [exact Hok|]. intros p. rewrite Hq', lookup_insert. case_decide as E.
  - subst p. rewrite bool_decide_eq_false_2, bool_decide_eq_true_2 by (done || left). by rewrite He.
  - by rewrite (bool_decide_ext (p ∈ a :: addrs) (p ∈ addrs)) by set_solver.
Qed.

Lemma take_due_ok now limit q :
  let d := sort_due (due_peers q now) in
  let addrs := (take (Z.to_nat limit) d).*2 in
  exists q', take_due_limited now limit q = Ok (addrs, q') /\ NoDup addrs
    /\ (forall p, p ∈ addrs -> exists e a, q !! p = Some e /\ due e = Some a /\ a <= now)
    /\ (forall p, q' !! p = if bool_decide (p ∈ addrs) then handed_out now <$> q !! p else q !! p).
Proof.
  intros d addrs.
  assert (Hel : forall p, p ∈ addrs -> exists e a, q !! p = Some e /\ due e = Some a /\ a <= now).
  { intros p ([a p'] & -> & Hin)%list_elem_of_fmap. cbn.
    assert (H : (a, p') ∈ due_peers q now).
    { rewrite <-(sort_due_perm (due_peers q now)). eapply elem_of_submseteq; [exact Hin|].
      apply sublist_submseteq, sublist_take. }
    apply elem_of_due_peers in H as (e & H1 & H2 & H3). eauto. }
  assert (Hnd : NoDup addrs).
  { subst addrs d. eapply sublist_NoDup; [|apply fmap_sublist, sublist_take].
    rewrite sort_due_perm. apply NoDup_due_peers. }
  destruct (hand_out_all_spec now addrs q Hnd) as (q' & Hok & Hq').
  { intros p Hp. destruct (Hel p Hp) as (e & _ & H & _). eauto. }
  exists q'. unfold take_due_limited. fold d. fold addrs. rewrite Hok. done.
Qed.

(** Retries are handed out fairly.  [take_due_limited] never panics; it returns
    distinct peers whose deadline has passed, as many as there are up to the
    limit, and a due peer left out is due no earlier than any handed out; the
    entry of each peer handed out counts one attempt more and is due again after
    the backoff of that count, between one and thirty seconds later; every other
    entry is unchanged. *)
Theorem retries_fair now limit q :
  0 <= limit -> map_Forall (fun _ e => 0 <= retries e) q ->
  exists addrs q', take_due_limited now limit q = Ok (addrs, q') /\ NoDup addrs
    /\ len addrs = Z.min limit (len (due_peers q now))
    /\ (forall p, p ∈ addrs -> exists e a, q !! p = Some e /\ due e = Some a /\ a <= now
         /\ q' !! p = Some (handed_out now e)
         /\ (exists a', due (handed_out now e) = Some a' /\ now + RECONNECT_BASE <= a' <= now + RECONNECT_MAX)
         /\ forall p' e' a', p' ∉ addrs -> q !! p' = Some e' -> due e' = Some a' -> a' <= now -> a <= a')
    /\ (forall p, p ∉ addrs -> q' !! p = q !! p).
Proof.
  intros Hlim Hpos. destruct (take_due_ok now limit q) as (q' & Hok & Hnd & Hdue & Hq').
  set (d := sort_due (due_peers q now)) in *. set (addrs := (take (Z.to_nat limit) d).*2) in *.
  exists addrs, q'. split; [done|]. split; [done|]. split_and!.
  - unfold len. subst addrs. rewrite length_fmap, length_take. subst d. rewrite sort_due_perm. lia.
  - intros p Hp. pose proof Hp as Hp0.
    apply list_elem_of_fmap in Hp0 as ([a p0] & -> & Hin). cbn in *.
    assert (Hd : (a, p0) ∈ due_peers q now).
    { rewrite <-(sort_due_perm (due_peers q now)). eapply elem_of_submseteq; [exact Hin|].
      apply sublist_submseteq, sublist_take. }
    apply elem_of_due_peers in Hd as (e & He & Ha & Hle). exists e, a.
    pose proof (Hpos p0 e He) as He0.
    split_and!; [done|done|done|by rewrite Hq', bool_decide_eq_true_2, He| |].
    + eexists. split; [done|]. pose proof (backoff_range (Z.min (retries e + 1) u32_max)) as Hb.
      unfold u32_max in *. lia.
    + intros p' e' a' Hn He' Ha' Hle'.
      assert (Hd' : (a', p') ∈ d).
      { subst d. rewrite sort_due_perm. apply elem_of_due_peers. eauto. }
      rewrite <-(take_drop (Z.to_nat limit) d) in Hd'. apply elem_of_app in Hd' as [Hd'|Hd'].
      * destruct Hn. subst addrs. apply list_elem_of_fmap. by exists (a', p').
      * exact (ascending_take_drop (Z.to_nat limit) d (a, p0) (a', p') (sort_due_ascending _) Hin Hd').
  - intros p Hp. by rewrite Hq', bool_decide_eq_false_2.
Qed.

(** ** Attempts *)

(** Attempts that share no endpoint. *)
Definition apart (x y : Attempt) : Prop := forall p, p ∈ at_endpoints x -> p ∉ at_endpoints y.

(** At most eight, no two with a common endpoint, and the reserved addresses are
    theirs. *)
Record attempts_ok (a : ConnectAttempts) : Prop := {
  ao_few : len (attempts a) <= MAX_CONNECT_ATTEMPTS;
  ao_reserved : forall p, p ∈ reserved a <-> exists x, x ∈ attempts a /\ p ∈ at_endpoints x;
  ao_apart : StronglySorted apart (attempts a);
}.

Lemma apart_sublist l l' : sublist l' l -> StronglySorted apart l -> StronglySorted apart l'.
Proof.
  induction 1 as [|x l1 l2 Hs IH|x l1 l2 Hs IH]; intros H; [done|..];
    inversion H as [|? ? H1 H2]; subst; [|by apply IH].
  constructor; [by apply IH|]. rewrite Forall_forall in *. intros y Hy. apply H2.
  eapply elem_of_submseteq; [exact Hy|by apply sublist_submseteq].
Qed.

Lemma apart_snoc l x :
  StronglySorted apart l -> Forall (fun y => apart y x) l -> StronglySorted apart (l ++ [x]).
Proof.
  induction 1 as [|y l Hs IH Hy]; intros Hf; cbn; [by repeat constructor|].
  apply Forall_cons in Hf as [H1 H2]. constructor; [by apply IH|]. apply Forall_app. split; [done|].
  by apply Forall_singleton.
Qed.

Lemma apart_middle l1 x l2 :
  StronglySorted apart (l1 ++ x :: l2) -> Forall (apart x) (l1 ++ l2).
Proof.
  induction l1 as [|y l1 IH]; cbn; intros H; inversion H as [|? ? H1 H2]; subst; [done|].
  constructor; [|by apply IH]. rewrite Forall_forall in H2. intros p Hx Hy.
  apply (H2 x) in Hy; [done|]. set_solver.
Qed.

Lemma apart_eq l x y p :
  StronglySorted apart l -> x ∈ l -> y ∈ l -> p ∈ at_endpoints x -> p ∈ at_endpoints y -> x = y.
Proof.
  induction 1 as [|z l Hs IH Hz]; [set_solver|]. rewrite Forall_forall in Hz.
  intros [->|Hx]%elem_of_cons [->|Hy]%elem_of_cons Hpx Hpy; [done| | |by apply IH].
  - by destruct (Hz y Hy p Hpx).
  - by destruct (Hz x Hx p Hpy).
Qed.

Lemma attempts_ok_default : attempts_ok ConnectAttempts_default.
Proof. split; cbn; [done|set_solver|constructor]. Qed.

Lemma capacity_ok a : attempts_ok a -> capacity a = Ok (MAX_CONNECT_ATTEMPTS - len (attempts a)).
Proof.
  intros H. unfold capacity. cbv zeta. rewrite (proj2 (Z.leb_le _ _)); [done|].
  pose proof (ao_few _ H). lia.
Qed.

Lemma insert_attempt_ok endpoints retry a :
  attempts_ok a ->
  exists started a', insert_attempt endpoints retry a = Ok (started, a') /\ attempts_ok a'
    /\ (if started
        then attempts a' = attempts a ++ [mkAttempt endpoints retry]
             /\ (forall p, p ∈ endpoints -> p ∉ reserved a)
             /\ reserved a' = reserved a ∪ list_to_set endpoints
        else a' = a /\ (len (attempts a) = MAX_CONNECT_ATTEMPTS \/ endpoints = []
                        \/ exists p, p ∈ endpoints /\ p ∈ reserved a)).
Proof.
  intros Ha. unfold insert_attempt. rewrite capacity_ok by done. cbn [mbind outcome_bind].
  destruct ((MAX_CONNECT_ATTEMPTS - len (attempts a) =? 0) || bool_decide (endpoints = [])
            || any (attempting a) endpoints) eqn:E.
  - eexists _, _. split; [done|]. split; [done|]. cbn. split; [done|].
    apply orb_true_iff in E as [[E|E]%orb_true_iff|E].
    + left. bprop. lia.
    + right; left. by bprop.
    + right; right. apply existsb_elem in E as (p & Hp & Hr). exists p. split; [done|].
      by apply bool_decide_eq_true in Hr.
  - apply orb_false_iff in E as [[Ecap Ene]%orb_false_iff Eany]. bprop.
    rewrite existsb_elem_false in Eany.
    assert (Hnr : forall p, p ∈ endpoints -> p ∉ reserved a).
    { intros p Hp. specialize (Eany p Hp). by apply bool_decide_eq_false in Eany. }
    eexists true, _. split; [done|]. cbn. split; [|done]. split; cbn.
    + rewrite len_app. change (len [_]) with 1. pose proof (ao_few _ Ha). lia.
    + intros p. rewrite elem_of_union, elem_of_list_to_set, (ao_reserved _ Ha). split.
      * intros [(x & Hx & Hp)|Hp]; [exists x; set_solver|]. eexists. split; [apply elem_of_app; right; left|done].
      * intros (x & [Hx|Hx]%elem_of_app & Hp); [eauto|]. apply list_elem_of_singleton in Hx as ->. by right.
    + apply apart_snoc; [apply Ha|]. apply Forall_forall. intros y Hy p Hpy Hp. apply (Hnr p Hp).
      apply (ao_reserved _ Ha). eauto.
Qed.

Lemma attempts_ok_sub a l' r' :
  attempts_ok a -> sublist l' (attempts a) ->
  (forall p, p ∈ r' <-> exists x, x ∈ l' /\ p ∈ at_endpoints x) -> attempts_ok (mkAttempts l' r').
Proof.
  intros Ha Hs Hr. split; cbn; [|done|eapply apart_sublist; [exact Hs|apply Ha]].
  pose proof (ao_few _ Ha). pose proof (sublist_length _ _ Hs). unfold len in *. lia.
Qed.

Lemma elem_of_released keep l (r : gset SocketAddr) p :
  p ∈ foldl (fun r a => if keeps keep a then r else r ∖ list_to_set (at_endpoints a)) r l
  <-> p ∈ r /\ forall x, x ∈ l -> keeps keep x = false -> p ∉ at_endpoints x.
Proof.
  revert r. induction l as [|y l IH]; intros r; cbn; [set_solver|]. rewrite IH.
  destruct (keeps keep y) eqn:E.
  - split; intros [H1 H2]; (split; [done|]); intros x.
    + intros [->|Hx]%elem_of_cons Hk; [congruence|by apply H2].
    + intros Hx. apply H2. by right.
  - rewrite elem_of_difference, elem_of_list_to_set. split.
    + intros [[H1 Hy] H2]. split; [done|]. intros x [->|Hx]%elem_of_cons Hk; [done|by apply H2].
    + intros [H1 H2]. split; [|intros x Hx; apply H2; by right]. split; [done|]. apply H2; [left|done].
Qed.

Lemma sublist_retain {A} (f : A -> bool) l : sublist (retain f l) l.
Proof. induction l as [|x l IH]; cbn; [done|]. destruct (f x); by constructor. Qed.

Lemma retain_retries_ok keep a : attempts_ok a -> attempts_ok (retain_retries keep a).
Proof.
  intros Ha. apply (attempts_ok_sub a); [done|apply sublist_retain|]. intros p.
  rewrite elem_of_released, (ao_reserved _ Ha). split.
  - intros [(x & Hx & Hp) Hn]. exists x. rewrite elem_of_retain. split; [|done]. split; [|done].
    destruct (keeps keep x) eqn:E; [done|]. by destruct (Hn x Hx E).
  - intros (x & [Hk Hx]%elem_of_retain & Hp). split; [eauto|]. intros y Hy Hky Hpy.
    rewrite (apart_eq _ x y p (ao_apart _ Ha) Hx Hy Hp Hpy) in Hk. congruence.
Qed.

Lemma complete_ok i a x :
  attempts_ok a -> attempts a !! i = Some x ->
  exists a', complete i a = Ok (retry_peer x, a') /\ attempts_ok a'
    /\ attempts a' = delete i (attempts a) /\ forall p, p ∈ reserved a' <-> p ∈ reserved a /\ p ∉ at_endpoints x.
Proof.
  intros Ha Hi. unfold complete. rewrite Hi. cbn [expect mbind outcome_bind]. eexists.
  split; [done|]. split; [|split; [done|]; intros p; cbn; set_solver].
  destruct (list_elem_of_split_length _ _ _ Hi) as (l1 & l2 & El & ->).
  pose proof (ao_apart _ Ha) as Hap. rewrite El in Hap. apply apart_middle in Hap.
  rewrite Forall_forall in Hap.
  assert (Hd : delete (length l1) (attempts a) = l1 ++ l2).
  { rewrite El. by rewrite delete_middle. }
  apply (attempts_ok_sub a); [done|apply sublist_delete|]. intros p.
  rewrite Hd, elem_of_difference, elem_of_list_to_set, (ao_reserved _ Ha), El. split.
  - intros [(y & Hy & Hp) Hn]. exists y. split; [|done]. set_solver.
  - intros (y & Hy & Hp). split; [exists y; set_solver|]. intros Hx. by apply (Hap y Hy p).
Qed.

(** ** Reconciliation, peer by peer *)

Definition suspended (e : ReconnectEntry) : ReconnectEntry := mkRetry (retries e) None.

Definition scheduled (now : Instant) (o : option ReconnectEntry) : ReconnectEntry :=
  match o with
  | Some e => mkRetry (retries e)
                (Some (match due e with Some a => a | None => now + backoff_for (retries e) end))
  | None => mkRetry 0 (Some (now + backoff_for 0))
  end.

(** The entry of a peer with state [st] in the snapshot; an establishment not seen
    before clears its history. *)
Definition reconciled (now : Instant) (st : PeerConnectionState) (seen : Z)
    (o : option ReconnectEntry) : option ReconnectEntry :=
  let o := if seen =? establishment_count st then o else None in
  if 0 <? active_sessions st then suspended <$> o else Some (scheduled now o).

Lemma schedule_spec addr now q p :
  schedule addr now q !! p = if decide (addr = p) then Some (scheduled now (q !! p)) else q !! p.
Proof.
  unfold schedule, scheduled. destruct (q !! addr) as [[n [a|]]|] eqn:E; cbn.
  - case_decide as Ep; [subst; by rewrite E|done].
  - rewrite lookup_insert. case_decide as Ep; [subst; by rewrite E|done].
  - rewrite lookup_insert. case_decide as Ep; [subst; by rewrite E|done].
Qed.

Lemma suspend_spec addr q p :
  suspend addr q !! p = if decide (addr = p) then suspended <$> q !! p else q !! p.
Proof. unfold suspend. rewrite lookup_alter. by case_decide; subst. Qed.

(** What the driver knows of one peer. *)
Definition view (d : Driver) (p : SocketAddr) : bool * option ReconnectEntry * option Z :=
  (bool_decide (p ∈ dr_connected d), dr_reconnect d !! p, dr_establishments d !! p).

Lemma reconcile_peer_spec now d p st q :
  view (reconcile_peer now d (p, st)) q
  = if decide (p = q)
    then (0 <? active_sessions st,
          reconciled now st (default 0 (dr_establishments d !! q)) (dr_reconnect d !! q),
          Some (establishment_count st))
    else view d q.
Proof.
  unfold view, reconcile_peer, reconciled.
  set (seen := default 0 (dr_establishments d !! p)).
  assert (Hseen : Some (if negb (seen =? establishment_count st) then establishment_count st else seen)
                  = Some (establishment_count st)).
  { f_equal. destruct (seen =? establishment_count st) eqn:E; cbn; [by bprop|done]. }
  assert (Hq : (if negb (seen =? establishment_count st) then forget_retry p (dr_reconnect d)
                else dr_reconnect d) !! q
    = if decide (p = q) then (if seen =? establishment_count st then dr_reconnect d !! q else None)
      else dr_reconnect d !! q).
  { destruct (seen =? establishment_count st); cbn; [by case_decide|].
    unfold forget_retry. rewrite lookup_delete. by case_decide. }
  set (queue := if negb _ then forget_retry _ _ else _) in *.
  destruct (0 <? active_sessions st) eqn:Ea; cbn [dr_connected dr_reconnect dr_establishments].
  - rewrite lookup_insert, suspend_spec, Hq. case_decide as E.
    + subst q. fold seen. rewrite Hseen. by rewrite bool_decide_eq_true_2 by set_solver.
    + f_equal. f_equal. apply bool_decide_ext. set_solver.
  - rewrite lookup_insert, schedule_spec, Hq. case_decide as E.
    + subst q. fold seen. rewrite Hseen. by rewrite bool_decide_eq_false_2 by set_solver.
    + f_equal. f_equal. apply bool_decide_ext. set_solver.
Qed.

Lemma reconcile_peer_rest now d x :
  dr_attempts (reconcile_peer now d x) = dr_attempts d
  /\ dr_startup (reconcile_peer now d x) = dr_startup d.
Proof. destruct x as [p st]. unfold reconcile_peer. by case_match. Qed.

Lemma reconcile_list_spec now l d q :
  NoDup l.*1 ->
  view (foldl (reconcile_peer now) d l) q
  = match list_to_map (M := gmap SocketAddr PeerConnectionState) l !! q with
    | Some st => (0 <? active_sessions st,
                  reconciled now st (default 0 (dr_establishments d !! q)) (dr_reconnect d !! q),
                  Some (establishment_count st))
    | None => view d q
    end.
Proof.
  revert d. induction l as [|[p st] l IH]; intros d; cbn [foldl list_to_map]; [done|].
  rewrite fmap_cons, NoDup_cons. intros [Hn Hd]. rewrite IH by done. cbn. rewrite lookup_insert.
  pose proof (reconcile_peer_spec now d p st q) as Hv. case_decide as E.
  - subst q. rewrite (not_elem_of_list_to_map_1 l p) by done. exact Hv.
  - unfold view in Hv. injection Hv as H1 H2 H3.
    destruct (list_to_map l !! q) as [st'|]; [by rewrite H2, H3|]. unfold view. by rewrite H1, H2, H3.
Qed.

(** The order in which the snapshot is walked does not matter. *)
Lemma reconcile_spec snap now d q :
  view (reconcile_connections snap now d) q
  = match snap !! q with
    | Some st => (0 <? active_sessions st,
                  reconciled now st (default 0 (dr_establishments d !! q)) (dr_reconnect d !! q),
                  Some (establishment_count st))
    | None => view d q
    end.
Proof.
  unfold reconcile_connections. rewrite reconcile_list_spec by apply NoDup_fst_map_to_list.
  by rewrite list_to_map_to_list.
Qed.

Lemma reconcile_rest snap now d :
  dr_attempts (reconcile_connections snap now d) = dr_attempts d
  /\ dr_startup (reconcile_connections snap now d) = dr_startup d.
Proof.
  unfold reconcile_connections. revert d.
  induction (map_to_list snap) as [|x l IH]; intros d; cbn [foldl]; [done|].
  destruct (IH (reconcile_peer now d x)) as [-> ->]. apply reconcile_peer_rest.
Qed.

(** *** A refresh *)

(** The entries a refresh keeps: those of peers in the snapshot, and the
    configured ones. *)
Definition kept {A} (snap : Snapshot) (pins : gset SocketAddr) (p : SocketAddr) (o : option A)
    : option A :=
  if bool_decide (is_Some (snap !! p) \/ p ∈ pins) then o else None.

Lemma refresh_view snap pins now d q :
  view (refresh_state snap pins now d) q
  = match snap !! q with
    | Some st => (0 <? active_sessions st,
                  reconciled now st (default 0 (dr_establishments d !! q)) (dr_reconnect d !! q),
                  Some (establishment_count st))
    | None => (false, kept snap pins q (dr_reconnect d !! q), None)
    end.
Proof.
  unfold refresh_state. rewrite reconcile_spec. cbn.
  assert (Hr : filter (fun e => is_Some (snap !! e.1) \/ e.1 ∈ pins) (dr_reconnect d) !! q
               = kept snap pins q (dr_reconnect d !! q)).
  { unfold kept. rewrite map_lookup_filter. destruct (dr_reconnect d !! q) as [e|]; cbn;
      [|by case_bool_decide]. case_guard; case_bool_decide; done. }
  assert (He : filter (fun e => is_Some (snap !! e.1)) (dr_establishments d) !! q
               = match snap !! q with Some _ => dr_establishments d !! q | None => None end).
  { rewrite map_lookup_filter. destruct (dr_establishments d !! q) as [e|]; cbn; [|by case_match].
    case_guard as H; destruct (snap !! q); cbn in *; try done; by destruct H. }
  rewrite Hr, He. unfold view. cbn. rewrite Hr, He.
  destruct (snap !! q) as [st|] eqn:E.
  - unfold kept. by rewrite bool_decide_eq_true_2 by (left; rewrite E; eauto).
  - rewrite bool_decide_eq_false_2; [done|]. rewrite elem_of_filter, E. by intros [[] _].
Qed.

(** ** The loop *)

Lemma suspend_list_spec l q p :
  foldl (fun q p => suspend p q) q l !! p
  = if bool_decide (p ∈ l) then suspended <$> q !! p else q !! p.
Proof.
  revert q. induction l as [|x l IH]; intros q; cbn [foldl].
  { by rewrite bool_decide_eq_false_2 by set_solver. }
  rewrite IH, suspend_spec. destruct (decide (x = p)) as [E|E].
  - subst x. rewrite (bool_decide_eq_true_2 (p ∈ p :: l)) by left.
    case_bool_decide; [|done]. by destruct (q !! p).
  - by rewrite (bool_decide_ext (p ∈ x :: l) (p ∈ l)) by set_solver.
Qed.

Lemma suspend_attempts_spec d p :
  dr_reconnect (suspend_attempts d) !! p
  = if bool_decide (p ∈ reserved (dr_attempts d)) then suspended <$> dr_reconnect d !! p
    else dr_reconnect d !! p.
Proof.
  unfold suspend_attempts. cbn. rewrite suspend_list_spec.
  by rewrite (bool_decide_ext (p ∈ elements _) (p ∈ reserved (dr_attempts d))) by set_solver.
Qed.

(** [d'] is [d] after dialling: new attempts, none to a connected peer. *)
Record dialled (d d' : Driver) : Prop := {
  dl_ok : attempts_ok (dr_attempts d');
  dl_connected : dr_connected d' = dr_connected d;
  dl_new : exists new, attempts (dr_attempts d') = attempts (dr_attempts d) ++ new
    /\ forall x p, x ∈ new -> p ∈ at_endpoints x -> p ∉ dr_connected d /\ p ∉ reserved (dr_attempts d);
}.

Lemma dialled_refl d : attempts_ok (dr_attempts d) -> dialled d d.
Proof. intros H. split; [done|done|]. exists []. rewrite app_nil_r. split; [done|set_solver]. Qed.

Lemma dialled_trans d1 d2 d3 :
  attempts_ok (dr_attempts d1) -> dialled d1 d2 -> dialled d2 d3 -> dialled d1 d3.
Proof.
  intros H0 [H1 C1 (n1 & E1 & N1)] [H2 C2 (n2 & E2 & N2)]. split; [done|congruence|].
  exists (n1 ++ n2). split; [by rewrite E2, E1, app_assoc|].
  intros x p [Hx|Hx]%elem_of_app Hp; [eauto|]. destruct (N2 x p Hx Hp) as [Hc Hr].
  rewrite C1 in Hc. split; [done|]. intros Hin. apply Hr, (ao_reserved _ H1).
  apply (ao_reserved _ H0) in Hin as (y & Hy & Hpy). exists y. rewrite E1. set_solver.
Qed.

Lemma reserved_dialled d d' :
  attempts_ok (dr_attempts d) -> dialled d d' ->
  reserved (dr_attempts d) ⊆ reserved (dr_attempts d').
Proof.
  intros H0 [H1 _ (n & E & _)] p Hp. apply (ao_reserved _ H1).
  apply (ao_reserved _ H0) in Hp as (x & Hx & Hp). exists x. rewrite E. set_solver.
Qed.

Lemma start_static_ok peer d :
  attempts_ok (dr_attempts d) -> peer ∉ dr_connected d ->
  exists started a, start_static peer (dr_attempts d) = Ok (started, a) /\ dialled d (set_attempts a d)
    /\ (len (attempts (dr_attempts d)) < MAX_CONNECT_ATTEMPTS -> peer ∈ reserved a)
    /\ (forall p, p ∈ reserved a -> p ∈ reserved (dr_attempts d) \/ p = peer)
    /\ len (attempts a) <= len (attempts (dr_attempts d)) + (if started then 1 else 0).
Proof.
  intros Ha Hc. destruct (insert_attempt_ok [peer] (Some peer) _ Ha) as (started & a & Hs & Ha' & H).
  exists started, a. split; [done|]. destruct started.
  - destruct H as (E & Hn & Hr). split_and!.
    + split; [done|done|]. exists [mkAttempt [peer] (Some peer)]. split; [done|].
      intros x p ->%list_elem_of_singleton ->%list_elem_of_singleton. split; [done|]. apply Hn. left.
    + intros _. rewrite Hr. set_solver.
    + intros p. rewrite Hr. set_solver.
    + rewrite E, len_app. done.
  - destruct H as (-> & Hwhy). split_and!.
    + split; [done|done|]. exists []. rewrite app_nil_r. split; [done|set_solver].
    + intros Hlt. destruct Hwhy as [Hf|[?|(p & ->%list_elem_of_singleton & Hp)]]; [lia|done|done].
    + by left.
    + lia.
Qed.

Lemma run_startup_ok peers room d :
  attempts_ok (dr_attempts d) ->
  exists d', run_startup peers room d = Ok d' /\ dialled d d'
    /\ dr_reconnect d' = dr_reconnect d
    /\ (forall p, p ∈ reserved (dr_attempts d') ->
          p ∈ reserved (dr_attempts d) \/ dr_reconnect d !! p = None).
Proof.
  revert room d. induction peers as [|peer peers IH]; intros room d Ha; cbn [run_startup].
  { eexists. split; [done|]. split; [|by eauto]. destruct (dialled_refl d Ha) as [H1 H2 H3]. by split. }
  destruct (0 <? room).
  2:{ eexists. split; [done|]. split; [|by eauto]. destruct (dialled_refl d Ha) as [H1 H2 H3]. by split. }
  destruct (bool_decide (peer ∉ dr_connected d) && negb (queued (dr_reconnect d) peer)) eqn:E;
    [|by apply IH].
  bprop. destruct (start_static_ok peer d Ha) as (started & a & -> & Hd & _ & Hr & _); [done|].
  cbn [mbind outcome_bind].
  destruct (IH (if started then room - 1 else room) (set_attempts a d) (dl_ok _ _ Hd))
    as (d' & Hok & Hd' & Hq & Hres).
  exists d'. split; [done|]. split; [by eapply dialled_trans|]. split; [done|].
  intros p [Hp|Hp]%Hres; [|by right]. cbn in Hp. apply Hr in Hp as [Hp| -> ]; [by left|right].
  unfold queued in *. by destruct (dr_reconnect d !! peer).
Qed.

Lemma dial_due_ok peers d :
  attempts_ok (dr_attempts d) -> len (attempts (dr_attempts d)) + len peers <= MAX_CONNECT_ATTEMPTS ->
  exists d', dial_due peers d = Ok d' /\ dialled d d'
    /\ (forall p, p ∈ peers -> p ∈ dr_connected d \/ p ∈ reserved (dr_attempts d'))
    /\ (forall p, dr_reconnect d' !! p
          = if bool_decide (p ∈ peers) then suspended <$> dr_reconnect d !! p else dr_reconnect d !! p).
Proof.
  revert d. induction peers as [|peer peers IH]; intros d Ha Hlen; cbn [dial_due].
  { exists d. split; [done|]. split; [by apply dialled_refl|]. split; [set_solver|].
    intros p. by rewrite bool_decide_eq_false_2 by set_solver. }
  rewrite len_cons in Hlen. set (d1 := set_reconnect (suspend peer (dr_reconnect d)) d).
  assert (Hq : forall p, (if bool_decide (p ∈ peers) then suspended <$> dr_reconnect d1 !! p
                          else dr_reconnect d1 !! p)
    = if bool_decide (p ∈ peer :: peers) then suspended <$> dr_reconnect d !! p else dr_reconnect d !! p).
  { intros p. subst d1. cbn. rewrite suspend_spec. destruct (decide (peer = p)) as [E|E].
    - subst p. rewrite (bool_decide_eq_true_2 (peer ∈ peer :: peers)) by left.
      case_bool_decide; [|done]. by destruct (dr_reconnect d !! peer).
    - by rewrite (bool_decide_ext (p ∈ peer :: peers) (p ∈ peers)) by set_solver. }
  change (dr_connected d1) with (dr_connected d). change (dr_attempts d1) with (dr_attempts d).
  assert (Hd1 : dialled d d1) by (destruct (dialled_refl d Ha); by split).
  destruct (bool_decide (peer ∈ dr_connected d) || attempting (dr_attempts d) peer) eqn:E.
  - destruct (IH d1 Ha) as (d' & Hok & Hd' & Hp & Hr); [cbn; lia|].
    exists d'. split; [done|]. split; [by eapply dialled_trans|]. split.
    + intros p [->|Hin]%elem_of_cons; [|by apply Hp].
      apply orb_true_iff in E as [E|E]; [left; by bprop|right].
      apply bool_decide_eq_true in E. by apply (reserved_dialled d1 d').
    + intros p. by rewrite Hr, Hq.
  - apply orb_false_iff in E as [E1 E2]. bprop.
    destruct (start_static_ok peer d1 Ha) as (started & a & Hs & Hda & Hin & _ & Hlen'); [done|].
    change (dr_attempts d1) with (dr_attempts d) in *. rewrite Hs. cbn [mbind outcome_bind].
    destruct (IH (set_attempts a d1) (dl_ok _ _ Hda)) as (d' & Hok & Hd' & Hp & Hr).
    { cbn. destruct started; lia. }
    exists d'. split; [done|]. split; [eapply dialled_trans; [done|done|by eapply dialled_trans]|]. split.
    + intros p [->|Hin']%elem_of_cons; [|by apply Hp]. right.
      apply (reserved_dialled (set_attempts a d1) d'); [apply Hda|done|]. cbn. apply Hin.
      pose proof (len_nonneg peers). lia.
    + intros p. by rewrite Hr, <-Hq.
Qed.

Lemma on_peer_discovered_ok endpoints cap d :
  attempts_ok (dr_attempts d) ->
  exists d', on_peer_discovered endpoints cap d = Ok d' /\ dialled d d' /\ dr_reconnect d' = dr_reconnect d.
Proof.
  intros Ha. unfold on_peer_discovered. destruct (cap =? 0); [exists d; split; [done|]; split; [by apply dialled_refl|done]|].
  destruct (any _ endpoints) eqn:E; [exists d; split; [done|]; split; [by apply dialled_refl|done]|].
  rewrite existsb_elem_false in E. set (eps := retain _ endpoints).
  case_bool_decide; [exists d; split; [done|]; split; [by apply dialled_refl|done]|].
  destruct (insert_attempt_ok (ep_addr <$> eps) None _ Ha) as (started & a & Hs & Ha' & H').
  unfold start_offer. rewrite Hs. cbn [mbind outcome_bind]. eexists. split; [done|]. split; [|done].
  split; [done|done|]. cbn. destruct started.
  - destruct H' as (Ea & Hn & _). eexists. split; [exact Ea|].
    intros x p ->%list_elem_of_singleton Hp. cbn in Hp. split; [|by apply Hn].
    apply list_elem_of_fmap in Hp as (e & -> & He). apply elem_of_retain in He as [_ He].
    specialize (E e He). apply orb_false_iff in E as [E _]. by bprop.
  - destruct H' as [-> _]. exists []. rewrite app_nil_r. split; [done|set_solver].
Qed.

Lemma refresh_attempts snap pins now d :
  dr_attempts (refresh_state snap pins now d)
  = retain_retries (fun p => is_some (snap !! p) || bool_decide (p ∈ pins)) (dr_attempts d).
Proof. unfold refresh_state. by rewrite (proj1 (reconcile_rest snap now _)). Qed.

(** The top of the loop, after the refresh if there is one. *)
Definition refreshed (refresh : option (Snapshot * Instant)) (pins : gset SocketAddr) (d : Driver)
    : Driver :=
  match refresh with Some (snap, now) => refresh_state snap pins now d | None => d end.

Lemma refreshed_attempts refresh pins d :
  attempts_ok (dr_attempts d) ->
  attempts_ok (dr_attempts (refreshed refresh pins d))
  /\ sublist (attempts (dr_attempts (refreshed refresh pins d))) (attempts (dr_attempts d)).
Proof.
  intros Ha. destruct refresh as [[snap now]|]; cbn [refreshed]; [|done].
  rewrite refresh_attempts. split; [by apply retain_retries_ok|]. apply sublist_retain.
Qed.

Lemma loop_top_ok refresh pins cap d :
  attempts_ok (dr_attempts d) ->
  exists d', loop_top refresh pins cap d = Ok d'
    /\ dialled (refreshed refresh pins d) d'
    /\ (forall p, p ∈ reserved (dr_attempts d') ->
          (due <$> dr_reconnect d' !! p) <> Some None -> dr_reconnect d' !! p = None)
    /\ (forall p, p ∉ reserved (dr_attempts d') ->
          dr_reconnect d' !! p = dr_reconnect (refreshed refresh pins d) !! p).
Proof.
  intros Ha. unfold loop_top. fold (refreshed refresh pins d).
  destruct (refreshed_attempts refresh pins d Ha) as [Hr _].
  set (d1 := refreshed refresh pins d) in *.
  change (dr_attempts (suspend_attempts d1)) with (dr_attempts d1).
  rewrite capacity_ok by done. cbn [mbind outcome_bind].
  destruct (run_startup_ok (dr_startup (suspend_attempts d1))
    (Z.min (MAX_CONNECT_ATTEMPTS - len (attempts (dr_attempts d1))) cap) (suspend_attempts d1) Hr)
    as (d' & Hok & Hd & Hq & Hres).
  exists d'. split; [done|]. split; [by destruct Hd; split|]. rewrite Hq. split.
  - intros p Hp. rewrite suspend_attempts_spec. apply Hres in Hp as [Hp|Hp].
    + change (dr_attempts (suspend_attempts d1)) with (dr_attempts d1) in Hp.
      rewrite bool_decide_eq_true_2 by done. by destruct (dr_reconnect d1 !! p).
    + rewrite suspend_attempts_spec in Hp. by rewrite Hp.
  - intros p Hp. rewrite suspend_attempts_spec, bool_decide_eq_false_2; [done|].
    intros Hin. apply Hp. by apply (reserved_dialled (suspend_attempts d1) d').
Qed.

Lemma retry_tick_ok now cap d :
  attempts_ok (dr_attempts d) -> 0 <= cap ->
  let limit := Z.min (MAX_CONNECT_ATTEMPTS - len (attempts (dr_attempts d))) cap in
  exists addrs q d', take_due_limited now limit (dr_reconnect d) = Ok (addrs, q)
    /\ on_retry_tick now cap d = Ok d' /\ dialled d d'
    /\ (forall p, p ∈ addrs -> (p ∈ dr_connected d \/ p ∈ reserved (dr_attempts d'))
          /\ exists e, dr_reconnect d !! p = Some e
               /\ dr_reconnect d' !! p = Some (suspended (handed_out now e)))
    /\ (forall p, p ∉ addrs -> dr_reconnect d' !! p = dr_reconnect d !! p).
Proof.
  intros Ha Hcap limit. destruct (take_due_ok now limit (dr_reconnect d)) as (q & Hok & _ & Hdue & Hq).
  set (addrs := (take _ _).*2) in *. exists addrs, q. unfold on_retry_tick.
  rewrite capacity_ok by done. cbn [mbind outcome_bind]. fold limit. rewrite Hok. cbn [mbind outcome_bind].
  assert (Hlen : len (attempts (dr_attempts d)) + len addrs <= MAX_CONNECT_ATTEMPTS).
  { pose proof (ao_few _ Ha). assert (len addrs <= limit); [|lia].
    subst addrs. unfold len at 1. rewrite length_fmap, length_take. subst limit. lia. }
  destruct (dial_due_ok addrs (set_reconnect q d) Ha Hlen) as (d' & Hd' & Hdl & Hin & Hr).
  exists d'. split; [done|]. split; [done|]. split; [by destruct Hdl; split|]. cbn in Hr. split.
  - intros p Hp. split; [by apply Hin|]. destruct (Hdue p Hp) as (e & a & He & _). exists e.
    split; [done|]. rewrite Hr, Hq, !bool_decide_eq_true_2 by done. by rewrite He.
  - intros p Hp. by rewrite Hr, Hq, !bool_decide_eq_false_2.
Qed.

(** ** Runs of the driver *)

Definition driver_start (static_peers : list SocketAddr) : Driver :=
  mkDriver ∅ ∅ ConnectAttempts_default static_peers ∅.

Inductive driver_step (pins : gset SocketAddr) : Driver -> Driver -> Prop :=
  | driver_top refresh cap d d' :
      0 <= cap -> loop_top refresh pins cap d = Ok d' -> driver_step pins d d'
  | driver_completion i ok now d d' :
      on_completion i ok now d = Ok d' -> driver_step pins d d'
  | driver_tick now cap d d' :
      0 <= cap -> on_retry_tick now cap d = Ok d' -> driver_step pins d d'
  | driver_offer endpoints cap d d' :
      0 <= cap -> on_peer_discovered endpoints cap d = Ok d' -> driver_step pins d d'.

(** [d'] has the attempts of [d], less some that ended, and new ones to peers that
    are not connected. *)
Definition dials_safely (d d' : Driver) : Prop :=
  exists old new, attempts (dr_attempts d') = old ++ new /\ sublist old (attempts (dr_attempts d))
    /\ forall x p, x ∈ new -> p ∈ at_endpoints x -> p ∉ dr_connected d'.

Lemma dialled_safely d d1 d' :
  sublist (attempts (dr_attempts d1)) (attempts (dr_attempts d)) -> dialled d1 d' -> dials_safely d d'.
Proof.
  intros Hs [_ Hc (new & E & Hn)]. exists (attempts (dr_attempts d1)), new. split; [done|].
  split; [done|]. intros x p Hx Hp. rewrite Hc. by apply (Hn x p).
Qed.

Lemma on_completion_ok i ok now d d' :
  attempts_ok (dr_attempts d) -> on_completion i ok now d = Ok d' ->
  attempts_ok (dr_attempts d') /\ dials_safely d d'.
Proof.
  intros Ha. unfold on_completion. destruct (attempts (dr_attempts d) !! i) as [x|] eqn:Ex.
  - destruct (complete_ok i _ x Ha Ex) as (a & -> & Ha' & Ed & _). cbn [mbind outcome_bind].
    intros [= <-].
    assert (H : forall d1, dr_attempts d1 = a -> attempts_ok (dr_attempts d1) /\ dials_safely d d1).
    { intros d1 Hd1. split; [by rewrite Hd1|]. exists (delete i (attempts (dr_attempts d))), []. rewrite app_nil_r.
      split; [by rewrite Hd1|]. split; [apply sublist_delete|set_solver]. }
    apply H. destruct ok; [done|]. by destruct (retry_peer x).
  - unfold complete. by rewrite Ex.
Qed.

Lemma driver_step_ok pins d d' :
  driver_step pins d d' -> attempts_ok (dr_attempts d) ->
  attempts_ok (dr_attempts d') /\ dials_safely d d'.
Proof.
  intros [refresh cap ? ? Hcap H|i ok now ? ? H|now cap ? ? Hcap H|endpoints cap ? ? Hcap H] Ha.
  - destruct (loop_top_ok refresh pins cap _ Ha) as (d2 & H2 & Hd & _).
    rewrite H in H2. injection H2 as <-. split; [apply Hd|].
    eapply dialled_safely; [by apply (refreshed_attempts refresh pins)|exact Hd].
  - by eapply on_completion_ok.
  - destruct (retry_tick_ok now cap _ Ha Hcap) as (addrs & q & d2 & _ & H2 & Hd & _).
    rewrite H in H2. injection H2 as <-. split; [apply Hd|]. by eapply dialled_safely; [|exact Hd].
  - destruct (on_peer_discovered_ok endpoints cap _ Ha) as (d2 & H2 & Hd & _).
    rewrite H in H2. injection H2 as <-. split; [apply Hd|]. by eapply dialled_safely; [|exact Hd].
Qed.

Lemma driver_run_ok pins peers d :
  rtc (driver_step pins) (driver_start peers) d -> attempts_ok (dr_attempts d).
Proof.
  remember (driver_start peers) as d0 eqn:E. intros H.
  assert (Ha : attempts_ok (dr_attempts d0)) by (subst; apply attempts_ok_default). clear E.
  induction H as [d|d d1 d2 Hs _ IH]; [done|]. apply IH. by eapply driver_step_ok.
Qed.

(** No modem is dialled twice.  In every run of the router's connection driver at
    most eight attempts are pending and no two of them share an endpoint; an
    attempt that is started goes to peers that are not connected; and nothing in
    the loop panics (the capacity never underflows, a due peer has its entry). *)
Theorem driver_dials_once pins peers d :
  rtc (driver_step pins) (driver_start peers) d ->
  len (attempts (dr_attempts d)) <= MAX_CONNECT_ATTEMPTS
  /\ StronglySorted apart (attempts (dr_attempts d))
  /\ (forall d', driver_step pins d d' -> dials_safely d d')
  /\ (forall refresh cap, loop_top refresh pins cap d <> Panic)
  /\ (forall i ok now, is_Some (attempts (dr_attempts d) !! i) -> on_completion i ok now d <> Panic)
  /\ (forall now cap, 0 <= cap -> on_retry_tick now cap d <> Panic)
  /\ (forall endpoints cap, on_peer_discovered endpoints cap d <> Panic).
Proof.
  intros Ha%driver_run_ok. split_and!; [apply Ha|apply Ha|..].
  - intros d' Hs. by apply (driver_step_ok pins d d').
  - intros refresh cap. by destruct (loop_top_ok refresh pins cap d Ha) as (d' & -> & _).
  - intros i ok now [x Hx]. unfold on_completion.
    by destruct (complete_ok i _ x Ha Hx) as (a & -> & _).
  - intros now cap Hcap. by destruct (retry_tick_ok now cap d Ha Hcap) as (? & ? & d' & _ & -> & _).
  - intros endpoints cap. by destruct (on_peer_discovered_ok endpoints cap d Ha) as (d' & -> & _).
Qed.

(** Every refresh accounts for every modem.  After the loop has read a snapshot,
    the peers it holds connected are exactly those with a live session; a peer
    being dialled has no deadline; a peer of the snapshot without a session is
    being dialled or has a deadline, from its retained backoff, or from the base
    delay when it was established since the last snapshot; and nothing is kept of
    a peer that is neither in the snapshot nor configured nor being dialled. *)
Theorem refresh_reconciles pins peers d snap now cap d' :
  rtc (driver_step pins) (driver_start peers) d ->
  loop_top (Some (snap, now)) pins cap d = Ok d' ->
  (forall p, p ∈ dr_connected d' <-> exists st, snap !! p = Some st /\ 0 < active_sessions st)
  /\ (forall p e, p ∈ reserved (dr_attempts d') -> dr_reconnect d' !! p = Some e -> due e = None)
  /\ (forall p st, snap !! p = Some st -> active_sessions st <= 0 -> p ∉ reserved (dr_attempts d') ->
        dr_reconnect d' !! p
        = Some (scheduled now
            (if default 0 (dr_establishments d !! p) =? establishment_count st
             then dr_reconnect d !! p else None)))
  /\ (forall p, snap !! p = None -> p ∉ pins -> p ∉ reserved (dr_attempts d') ->
        dr_reconnect d' !! p = None).
Proof.
  intros Ha%driver_run_ok Htop.
  destruct (loop_top_ok (Some (snap, now)) pins cap d Ha) as (d2 & H2 & Hd & Hres & Hrest).
  rewrite Htop in H2. injection H2 as <-. cbn [refreshed] in *.
  assert (Hv : forall p, view (refresh_state snap pins now d) p = _)
    by (intros p; apply (refresh_view snap pins now d p)).
  split_and!.
  - intros p. rewrite (dl_connected _ _ Hd). specialize (Hv p). unfold view in Hv.
    destruct (snap !! p) as [st|] eqn:E; injection Hv as Hc _ _.
    + rewrite <-(bool_decide_eq_true (p ∈ _)), Hc, Z.ltb_lt. naive_solver.
    + rewrite <-(bool_decide_eq_true (p ∈ _)), Hc. naive_solver.
  - intros p e Hp He. specialize (Hres p Hp). rewrite He in Hres. cbn in Hres.
    destruct (due e) as [a|] eqn:Ed; [|done]. discriminate Hres. discriminate.
  - intros p st Hst H0 Hn. rewrite Hrest by done. specialize (Hv p). unfold view in Hv.
    rewrite Hst in Hv. injection Hv as _ -> _. unfold reconciled.
    by rewrite (proj2 (Z.ltb_ge _ _)) by lia.
  - intros p Hst Hp Hn. rewrite Hrest by done. specialize (Hv p). unfold view in Hv.
    rewrite Hst in Hv. injection Hv as _ -> _. unfold kept.
    rewrite bool_decide_eq_false_2; [done|]. rewrite Hst. by intros [[] |].
Qed.

(** A due peer is dialled.  When the retry deadline fires, the longest-due peers,
    as many as there is room for, are handed out; each is connected or has a
    pending attempt afterwards, counts one attempt more and keeps no deadline until
    that attempt has ended; every other entry is unchanged. *)
Theorem due_peers_dialled pins peers d now cap :
  rtc (driver_step pins) (driver_start peers) d -> 0 <= cap ->
  exists addrs q d',
    take_due_limited now (Z.min (MAX_CONNECT_ATTEMPTS - len (attempts (dr_attempts d))) cap)
      (dr_reconnect d) = Ok (addrs, q)
    /\ on_retry_tick now cap d = Ok d'
    /\ (forall p, p ∈ addrs -> (p ∈ dr_connected d' \/ p ∈ reserved (dr_attempts d'))
          /\ exists e, dr_reconnect d !! p = Some e
               /\ dr_reconnect d' !! p = Some (mkRetry (Z.min (retries e + 1) u32_max) None))
    /\ (forall p, p ∉ addrs -> dr_reconnect d' !! p = dr_reconnect d !! p).
Proof.
  intros Ha%driver_run_ok Hcap.
  destruct (retry_tick_ok now cap d Ha Hcap) as (addrs & q & d' & Ht & Hok & Hd & Hin & Hout).
  exists addrs, q, d'. rewrite (dl_connected _ _ Hd). done.
Qed.

(** ** Witnesses *)

Definition sample_queue : ReconnectQueue :=
  <[endpoint 1 := mkRetry 3 (Some 100)]> (<[endpoint 2 := mkRetry 0 (Some 50)]> ∅).

Example take_oldest :
  (fst <$> match take_due_limited 200 1 sample_queue with Ok x => Some x | _ => None end)
  = Some [endpoint 2].
Proof. vm_compute. reflexivity. Qed.

Lemma retries_fair_witness :
  exists addrs q', take_due_limited 200 1 sample_queue = Ok (addrs, q') /\ len addrs = 1.
Proof.
  destruct (retries_fair 200 1 sample_queue) as (addrs & q' & H1 & _ & H2 & _).
  - discriminate.
  - apply (bool_decide_unpack _). by vm_compute.
  - exists addrs, q'. split; [exact H1|]. rewrite H2. vm_compute. reflexivity.
Defined.

(** A driver with one configured peer: dialled, refused, and due again. *)
Definition driver_of (m : panics Driver) : Driver :=
  match m with Ok d => d | _ => driver_start [] end.
Definition driver_1 : Driver := driver_of (loop_top (Some (∅, 0)) {[endpoint 1]} 64 (driver_start [endpoint 1])).
Definition driver_2 : Driver := driver_of (on_completion 0 false 10 driver_1).

Lemma driver_1_reached : rtc (driver_step {[endpoint 1]}) (driver_start [endpoint 1]) driver_1.
Proof.
  eapply rtc_l; [|apply rtc_refl]. apply (driver_top _ (Some (∅, 0)) 64); [done|].
  vm_compute. reflexivity.
Qed.
Lemma driver_2_reached : rtc (driver_step {[endpoint 1]}) (driver_start [endpoint 1]) driver_2.
Proof.
  eapply rtc_r; [apply driver_1_reached|]. apply (driver_completion _ 0 false 10).
  vm_compute. reflexivity.
Qed.

Lemma driver_dials_once_witness :
  len (attempts (dr_attempts driver_1)) = 1
  /\ on_completion 0 false 10 driver_1 <> Panic.
Proof.
  destruct (driver_dials_once {[endpoint 1]} [endpoint 1] driver_1 driver_1_reached)
    as (_ & _ & _ & _ & H & _).
  split; [vm_compute; reflexivity|]. apply H. apply (bool_decide_unpack _). by vm_compute.
Defined.

Definition driver_3 : Driver :=
  driver_of (loop_top (Some ({[endpoint 1 := mkConn 1 1]}, 20)) {[endpoint 1]} 64 driver_2).

Lemma refresh_reconciles_witness : endpoint 1 ∈ dr_connected driver_3.
Proof.
  assert (E : loop_top (Some ({[endpoint 1 := mkConn 1 1]}, 20)) {[endpoint 1]} 64 driver_2 = Ok driver_3)
    by (vm_compute; reflexivity).
  apply (proj1 (refresh_reconciles {[endpoint 1]} [endpoint 1] driver_2
    {[endpoint 1 := mkConn 1 1]} 20 64 driver_3 driver_2_reached E) (endpoint 1)).
  exists (mkConn 1 1). split; [apply lookup_singleton_eq|done].
Defined.

Lemma due_peers_dialled_witness :
  exists addrs q d',
    take_due_limited (from_secs 2) (Z.min (MAX_CONNECT_ATTEMPTS - len (attempts (dr_attempts driver_2))) 64)
      (dr_reconnect driver_2) = Ok (addrs, q)
    /\ on_retry_tick (from_secs 2) 64 driver_2 = Ok d'.
Proof.
  destruct (due_peers_dialled {[endpoint 1]} [endpoint 1] driver_2 (from_secs 2) 64 driver_2_reached)
    as (addrs & q & d' & H1 & H2 & _); [discriminate|].
  exists addrs, q, d'. exact (conj H1 H2).
Defined.

Example tick_dials :
  match on_retry_tick (from_secs 2) 64 driver_2 with
  | Ok d => attempting (dr_attempts d) (endpoint 1)
  | _ => false
  end = true.
Proof. vm_compute. reflexivity. Qed.
