(* ===== verification/DriverInv.v ===== *)
(** * What the connection driver keeps of its peers

    An invariant of the driver of [Reconnect] relative to the snapshot it read last: what
    is being dialled is not connected, and every peer with a history and every configured
    peer is attended to, that is connected, being dialled, or due at some time.  Each
    handler of the event loop keeps it; [RouterProcess] composes them with the daemon. *)

From S2P Require Import Prelude Externs CoreTypes Addresses Events DaemonTypes Connections Reconnect.

#[global] Instance PeerConnectionState_eq_dec : EqDecision PeerConnectionState.
Proof. solve_decision. Defined.

(** ** What is dialled *)

(** Attempts to single peers of [l], which are dialled again if they fail. *)
Definition retries_of (l : list SocketAddr) (new : list Attempt) : Prop :=
  forall x, x ∈ new -> exists p, p ∈ l /\ x = mkAttempt [p] (Some p).

Lemma retries_of_nil l : retries_of l [].
Proof. intros x Hx. by apply elem_of_nil in Hx. Qed.

Lemma retries_of_app l n1 n2 : retries_of l n1 -> retries_of l n2 -> retries_of l (n1 ++ n2).
Proof. intros H1 H2 x [Hx|Hx]%elem_of_app; eauto. Qed.

Lemma retries_of_weaken l l' n : (forall p, p ∈ l -> p ∈ l') -> retries_of l n -> retries_of l' n.
Proof. intros Hl H x Hx. destruct (H x Hx) as (q & Hq & ->). exists q. split; [by apply Hl|done]. Qed.

Lemma retries_of_cons l p n : retries_of l n -> retries_of (p :: l) n.
Proof. apply retries_of_weaken. by right. Qed.

Lemma retries_of_head l p n : retries_of [p] n -> retries_of (p :: l) n.
Proof. apply retries_of_weaken. intros q ->%list_elem_of_singleton. left. Qed.

Lemma start_static_new peer a started a' :
  attempts_ok a -> start_static peer a = Ok (started, a') ->
  exists new, attempts a' = attempts a ++ new /\ retries_of [peer] new /\ len new = (if started then 1 else 0).
Proof.
  intros Ha Hs. destruct (insert_attempt_ok [peer] (Some peer) a Ha) as (s & a2 & H2 & _ & H).
  unfold start_static in Hs. rewrite Hs in H2. injection H2 as <- <-. destruct started.
  - destruct H as (-> & _). eexists. split_and!; [done| |done]. intros x ->%list_elem_of_singleton.
    exists peer. split; [left|done].
  - destruct H as (-> & _). exists []. rewrite app_nil_r. split_and!; [done|apply retries_of_nil|done].
Qed.

Lemma run_startup_new peers room d :
  attempts_ok (dr_attempts d) -> len (attempts (dr_attempts d)) + room <= MAX_CONNECT_ATTEMPTS ->
  exists d' new, run_startup peers room d = Ok d'
    /\ attempts (dr_attempts d') = attempts (dr_attempts d) ++ new /\ retries_of peers new
    /\ (forall p, p ∈ dr_startup d' -> p ∈ peers)
    /\ (forall p, p ∈ peers -> p ∈ dr_startup d' \/ p ∈ dr_connected d \/ is_Some (dr_reconnect d !! p)
          \/ p ∈ reserved (dr_attempts d')).
Proof.
  revert room d. induction peers as [|peer peers IH]; intros room d Ha Hroom; cbn [run_startup].
  { exists (set_startup [] d), []. rewrite app_nil_r. split_and!; [done|done|apply retries_of_nil|done|set_solver]. }
  destruct (Z.ltb_spec 0 room) as [Hr|Hr].
  2:{ exists (set_startup (peer :: peers) d), []. rewrite app_nil_r.
      split_and!; [done|done|apply retries_of_nil|done|by left]. }
  destruct (bool_decide (peer ∉ dr_connected d) && negb (queued (dr_reconnect d) peer)) eqn:E.
  - bprop. destruct (start_static_ok peer d Ha) as (started & a & Hs & Hd & Hin & _ & Hlen); [done|].
    destruct (start_static_new _ _ _ _ Ha Hs) as (n1 & E1 & R1 & _). rewrite Hs. cbn [mbind outcome_bind].
    destruct (IH (if started then room - 1 else room) (set_attempts a d) (dl_ok _ _ Hd)) as (d' & n2 & Hok & E2 & R2 & Hsub & Hp).
    { cbn. destruct started; lia. }
    exists d', (n1 ++ n2). split_and!; [done| | | |].
    + rewrite E2. cbn. by rewrite E1, app_assoc.
    + apply retries_of_app; [by apply retries_of_head|by apply retries_of_cons].
    + intros p Hp'. right. by apply Hsub.
    + intros p [->|Hp']%elem_of_cons; [|by apply Hp]. right. right. right.
      destruct (run_startup_ok peers (if started then room - 1 else room) (set_attempts a d) (dl_ok _ _ Hd))
        as (d2 & Hok2 & Hd2 & _). rewrite Hok in Hok2. injection Hok2 as <-.
      apply (reserved_dialled (set_attempts a d) d'); [apply Hd|done|]. apply Hin. lia.
  - destruct (IH room d Ha Hroom) as (d' & n & Hok & En & Rn & Hsub & Hp). exists d', n.
    split_and!; [done|done|by apply retries_of_cons|intros p Hp'; right; by apply Hsub|].
    intros p [->|Hp']%elem_of_cons; [|by apply Hp]. right.
    apply andb_false_iff in E as [E|E]; bprop; [left; by apply dec_stable|right; left].
    unfold queued in E. destruct (dr_reconnect d !! peer); [by eexists|done].
Qed.

Lemma dial_due_new peers d d' :
  attempts_ok (dr_attempts d) -> dial_due peers d = Ok d' ->
  dr_startup d' = dr_startup d
  /\ exists new, attempts (dr_attempts d') = attempts (dr_attempts d) ++ new /\ retries_of peers new.
Proof.
  revert d. induction peers as [|peer peers IH]; intros d Ha; cbn [dial_due].
  { intros [= <-]. split; [done|]. exists []. rewrite app_nil_r. split; [done|apply retries_of_nil]. }
  set (d1 := set_reconnect (suspend peer (dr_reconnect d)) d). change (dr_attempts d) with (dr_attempts d1) in Ha |- *.
  change (dr_startup d) with (dr_startup d1). intros Hd. destruct (_ || _) eqn:E.
  - destruct (IH d1 Ha Hd) as (Hst & n & En & Rn). split; [done|]. exists n. split; [done|by apply retries_of_cons].
  - apply orb_false_iff in E as [E _]. bprop.
    destruct (start_static_ok peer d1 Ha E) as (started & a & Hs & Hda & _).
    destruct (start_static_new peer (dr_attempts d1) started a Ha Hs) as (n1 & E1 & R1 & _).
    rewrite Hs in Hd. cbn [mbind outcome_bind] in Hd.
    destruct (IH _ (dl_ok _ _ Hda) Hd) as (Hst & n & En & Rn). split; [by rewrite Hst|]. exists (n1 ++ n). split.
    + rewrite En. cbn. by rewrite E1, app_assoc.
    + apply retries_of_app; [by apply retries_of_head|by apply retries_of_cons].
Qed.

(** ** The invariant *)

(** A peer is dialled again if the attempt under way fails; it has a deadline; the driver
    attends to it. *)
Definition retrying (d : Driver) (p : SocketAddr) : Prop :=
  exists x, x ∈ attempts (dr_attempts d) /\ retry_peer x = Some p.
Definition waiting (d : Driver) (p : SocketAddr) : Prop :=
  exists e t, dr_reconnect d !! p = Some e /\ due e = Some t.
Definition attended (d : Driver) (p : SocketAddr) : Prop :=
  p ∈ dr_connected d \/ retrying d p \/ waiting d p.

(** [snap] is the snapshot read last; [fresh] a peer that has connected since, for which
    the next snapshot will account.  Offers are dialled only without configured peers. *)
Record driver_inv (pins : gset SocketAddr) (fresh : option SocketAddr) (snap : Snapshot) (d : Driver) : Prop := {
  v_attempts : attempts_ok (dr_attempts d);
  v_connected : forall p, p ∈ dr_connected d <-> exists st, snap !! p = Some st /\ 0 < active_sessions st;
  v_free : forall p, p ∈ reserved (dr_attempts d) -> p ∉ dr_connected d;
  v_retry : forall x p, x ∈ attempts (dr_attempts d) -> retry_peer x = Some p -> at_endpoints x = [p];
  v_offer : forall x p, x ∈ attempts (dr_attempts d) -> retry_peer x = None -> p ∈ at_endpoints x ->
    pins = ∅ /\ snap !! p = None /\ dr_reconnect d !! p = None;
  v_known : forall p, is_Some (snap !! p) -> fresh <> Some p -> attended d p;
  v_pinned : forall p, p ∈ pins -> fresh <> Some p -> p ∈ dr_startup d \/ attended d p;
  v_suspended : forall p e, dr_reconnect d !! p = Some e -> due e = None -> fresh <> Some p ->
    p ∈ dr_connected d \/ retrying d p;
  v_startup : forall p, p ∈ dr_startup d -> p ∈ pins;
}.

Lemma scheduled_due now o : exists t, due (scheduled now o) = Some t.
Proof. destruct o; by eexists. Qed.

Section Handlers.
Context (pins : gset SocketAddr).

Lemma driver_start_inv peers :
  pins = list_to_set peers -> driver_inv pins None ∅ (driver_start peers).
Proof.
  intros ->. split; cbn; try done; [apply attempts_ok_default|intros p|..].
  - split; [set_solver|]. intros (st & H & _). by rewrite lookup_empty in H.
  - intros x p Hx. by apply elem_of_nil in Hx.
  - intros x p Hx. by apply elem_of_nil in Hx.
  - intros p [st H]. by rewrite lookup_empty in H.
  - intros p Hp _. left. by apply elem_of_list_to_set in Hp.
  - intros p Hp. by apply elem_of_list_to_set.
Qed.

Lemma retrying_reserved fresh snap d p :
  driver_inv pins fresh snap d -> retrying d p -> p ∈ reserved (dr_attempts d).
Proof.
  intros Hi (x & Hx & Hr). apply (ao_reserved _ (v_attempts _ _ _ _ Hi)). exists x. split; [done|].
  rewrite (v_retry _ _ _ _ Hi x p Hx Hr). left.
Qed.

Lemma reserved_kind fresh snap d p :
  driver_inv pins fresh snap d -> p ∈ reserved (dr_attempts d) ->
  retrying d p \/ pins = ∅ /\ snap !! p = None /\ dr_reconnect d !! p = None.
Proof.
  intros Hi (x & Hx & Hp)%(ao_reserved _ (v_attempts _ _ _ _ Hi)).
  destruct (retry_peer x) as [q|] eqn:Er; [left|right; by apply (v_offer _ _ _ _ Hi x p)].
  exists x. split; [done|]. rewrite (v_retry _ _ _ _ Hi x q Hx Er) in Hp. by apply list_elem_of_singleton in Hp as ->.
Qed.

(** A queued or configured peer that is being dialled is dialled again. *)
Lemma reserved_retrying fresh snap d p :
  driver_inv pins fresh snap d -> p ∈ reserved (dr_attempts d) ->
  p ∈ pins \/ is_Some (dr_reconnect d !! p) \/ is_Some (snap !! p) -> retrying d p.
Proof.
  intros Hi Hp H. destruct (reserved_kind _ _ _ _ Hi Hp) as [?|(Hpins & Hs & Hq)]; [done|].
  rewrite Hs, Hq in H. destruct H as [H|[[]|[]]]; try done. set_solver.
Qed.

(** *** The top of the loop *)

(** What a refresh does to the peers. *)
Record refreshes (snap : Snapshot) (d d' : Driver) : Prop := {
  rf_attempts : attempts_ok (dr_attempts d');
  rf_sub : forall x, x ∈ attempts (dr_attempts d') -> x ∈ attempts (dr_attempts d);
  rf_retrying : forall p, retrying d p -> p ∈ pins -> retrying d' p;
  rf_connected : forall p, p ∈ dr_connected d' <-> exists st, snap !! p = Some st /\ 0 < active_sessions st;
  rf_known : forall p, is_Some (snap !! p) -> p ∈ dr_connected d' \/ waiting d' p;
  rf_unknown : forall p, snap !! p = None -> dr_reconnect d' !! p = if bool_decide (p ∈ pins) then dr_reconnect d !! p else None;
  rf_startup : dr_startup d' = dr_startup d;
}.

Lemma refresh_refreshes snap now d :
  attempts_ok (dr_attempts d) -> refreshes snap d (refresh_state snap pins now d).
Proof.
  intros Hok. set (d' := refresh_state snap pins now d).
  pose proof (refresh_view snap pins now d) as Hv. fold d' in Hv. unfold view in Hv.
  assert (Ha : dr_attempts d' = retain_retries (fun p => is_some (snap !! p) || bool_decide (p ∈ pins)) (dr_attempts d))
    by apply refresh_attempts.
  assert (Hc : forall p, p ∈ dr_connected d' <-> exists st, snap !! p = Some st /\ 0 < active_sessions st).
  { intros p. specialize (Hv p). rewrite <-(bool_decide_eq_true (p ∈ _)).
    destruct (snap !! p) as [st|]; injection Hv as -> _ _; [rewrite Z.ltb_lt|]; naive_solver. }
  split.
  - rewrite Ha. by apply retain_retries_ok.
  - rewrite Ha. intros x Hx. by apply elem_of_retain in Hx as [_ ?].
  - intros p (x & Hx & Hr) Hp. exists x. split; [|done]. rewrite Ha. apply elem_of_retain. split; [|done].
    unfold keeps. rewrite Hr, bool_decide_eq_true_2 by done. by rewrite orb_true_r.
  - done.
  - intros p [st Hs]. specialize (Hv p). rewrite Hs in Hv. injection Hv as _ Hq _.
    destruct (Z.ltb_spec 0 (active_sessions st)) as [Hlt|Hge]; [left; apply Hc; eauto|right].
    unfold reconciled in Hq. rewrite (proj2 (Z.ltb_ge _ _)) in Hq by done.
    match type of Hq with _ = Some (scheduled _ ?o) => destruct (scheduled_due now o) as [t Ht] end.
    by eexists _, t.
  - intros p Hs. specialize (Hv p). rewrite Hs in Hv. injection Hv as _ -> _. unfold kept.
    rewrite (bool_decide_ext (is_Some (snap !! p) \/ p ∈ pins) (p ∈ pins)); [done|]. rewrite Hs.
    split; [by intros [[]|]|by right].
  - exact (proj2 (reconcile_rest snap now _)).
Qed.

Lemma refresh_inv fresh snap snap' now d :
  driver_inv pins fresh snap d ->
  (forall p, p ∈ reserved (dr_attempts d) -> fresh <> Some p) ->
  (forall p st, p ∈ reserved (dr_attempts d) -> snap' !! p = Some st -> active_sessions st <= 0) ->
  (forall p, is_Some (snap' !! p) -> is_Some (snap !! p) \/ fresh = Some p) ->
  (forall p, p ∈ pins -> is_Some (snap !! p) \/ fresh = Some p -> is_Some (snap' !! p)) ->
  driver_inv pins None snap' (refresh_state snap' pins now d).
Proof.
  intros Hi Hfr Hin Hk Hpin. pose proof (v_attempts _ _ _ _ Hi) as Hao.
  destruct (refresh_refreshes snap' now d Hao) as [Hok Hsub Hre Hc Hatt Hq Hst].
  set (d' := refresh_state snap' pins now d) in *.
  assert (Hold : forall p, p ∈ pins -> snap' !! p = None -> fresh <> Some p /\ (p ∉ dr_connected d)
                           /\ dr_reconnect d' !! p = dr_reconnect d !! p).
  { intros p Hp Hs. split_and!.
    - intros ->. destruct (Hpin p Hp) as [? ?]; [by right|congruence].
    - intros (st & Hst' & _)%(v_connected _ _ _ _ Hi). destruct (Hpin p Hp) as [? ?]; [left; eauto|congruence].
    - by rewrite Hq, bool_decide_eq_true_2. }
  split.
  - done.
  - done.
  - intros p (x & Hx & Hp)%(ao_reserved _ Hok) (st & Hs & Hlt)%Hc.
    assert (active_sessions st <= 0); [|lia]. apply (Hin p st); [|done]. apply (ao_reserved _ Hao). eauto.
  - intros x p Hx. by apply (v_retry _ _ _ _ Hi), Hsub.
  - intros x p Hx%Hsub Hr Hp. destruct (v_offer _ _ _ _ Hi x p Hx Hr Hp) as (? & Hs & Hqn).
    assert (Hn : snap' !! p = None).
    { destruct (snap' !! p) as [st|] eqn:E; [|done]. destruct (Hk p) as [[? ?]|Hf]; [eauto|congruence|].
      exfalso. apply (Hfr p); [|done]. apply (ao_reserved _ Hao). eauto. }
    split_and!; [done|done|]. rewrite Hq, Hqn by done. by case_bool_decide.
  - intros p Hs _. unfold attended. destruct (Hatt p Hs); eauto.
  - intros p Hp _. rewrite Hst. destruct (snap' !! p) as [st|] eqn:E.
    { right. unfold attended. destruct (Hatt p) as [|]; [by eexists|eauto..]. }
    destruct (Hold p Hp E) as (Hf & Hnc & Hqo). destruct (v_pinned _ _ _ _ Hi p Hp Hf) as [?|[?|[?|(e & t & He & Ht)]]];
      [by left|done|right; right; left; by apply Hre|right; right; right]. exists e, t. by rewrite Hqo.
  - intros p e He Hd _. destruct (snap' !! p) as [st|] eqn:E.
    { destruct (Hatt p) as [?|(e' & t & He' & Ht)]; [by eexists|by left|congruence]. }
    pose proof (Hq p E) as Hqp. rewrite He in Hqp. case_bool_decide as Hp; [|done].
    destruct (Hold p Hp E) as (Hf & Hnc & _).
    by destruct (v_suspended _ _ _ _ Hi p e (eq_sym Hqp) Hd Hf) as [?|?]; [|right; apply Hre].
  - rewrite Hst. apply Hi.
Qed.

Lemma suspend_attempts_inv snap d :
  driver_inv pins None snap d -> driver_inv pins None snap (suspend_attempts d).
Proof.
  intros Hi. assert (Hq := suspend_attempts_spec d).
  assert (Hatt : forall p, attended d p -> attended (suspend_attempts d) p).
  { intros p [?|[?|(e & t & He & Ht)]]; [by left|by right; left|]. right.
    destruct (decide (p ∈ reserved (dr_attempts d))) as [Hr|Hr].
    - left. apply (reserved_retrying None snap d p Hi Hr). eauto.
    - right. exists e, t. by rewrite Hq, bool_decide_eq_false_2. }
  split; try apply Hi.
  - intros x p Hx Hr Hp. destruct (v_offer _ _ _ _ Hi x p Hx Hr Hp) as (? & ? & Hn). split_and!; [done..|].
    rewrite Hq, Hn. by case_bool_decide.
  - intros p Hs Hf. by apply Hatt, (v_known _ _ _ _ Hi).
  - intros p Hs Hf. destruct (v_pinned _ _ _ _ Hi p Hs Hf); [by left|right; by apply Hatt].
  - intros p e He Hd Hf. rewrite Hq in He. case_bool_decide as Hr; [|by eapply (v_suspended _ _ _ _ Hi)].
    right. apply (reserved_retrying None snap d p Hi Hr). right. left. destruct (dr_reconnect d !! p); [by eexists|done].
Qed.

(** *** Dialling *)

(** New attempts to peers that are dialled again, and what may have become of the queue
    and of the peers not dialled yet. *)
Lemma retries_inv snap d d' l new :
  driver_inv pins None snap d -> dialled d d' ->
  attempts (dr_attempts d') = attempts (dr_attempts d) ++ new -> retries_of l new ->
  (forall p, dr_reconnect d' !! p = dr_reconnect d !! p
     \/ is_Some (dr_reconnect d !! p) /\ is_Some (dr_reconnect d' !! p)
        /\ (p ∈ dr_connected d \/ p ∈ reserved (dr_attempts d'))) ->
  (forall p, p ∈ dr_startup d' -> p ∈ dr_startup d) ->
  (forall p, p ∈ dr_startup d -> p ∈ dr_startup d' \/ p ∈ dr_connected d \/ is_Some (dr_reconnect d !! p)
     \/ p ∈ reserved (dr_attempts d')) ->
  driver_inv pins None snap d'.
Proof.
  intros Hi Hd En Rn Hq Hsub Hst. pose proof (dl_connected _ _ Hd) as Hc.
  assert (Hre : forall p, retrying d p -> retrying d' p).
  { intros p (x & Hx & Hr). exists x. rewrite En. split; [apply elem_of_app; by left|done]. }
  assert (Hres : forall p, p ∈ reserved (dr_attempts d') -> p ∈ reserved (dr_attempts d) \/ retrying d' p /\ p ∉ dr_connected d).
  { intros p (x & Hx & Hp)%(ao_reserved _ (dl_ok _ _ Hd)). pose proof Hx as Hx'. rewrite En in Hx.
    apply elem_of_app in Hx as [Hx|Hx]; [left; apply (ao_reserved _ (v_attempts _ _ _ _ Hi)); eauto|right].
    destruct (Rn x Hx) as (q & _ & ->). cbn in Hp. apply list_elem_of_singleton in Hp as ->.
    split; [by eexists; split; [exact Hx'|]|]. destruct (dl_new _ _ Hd) as (new' & En' & Hn).
    rewrite En' in En. apply app_inv_head in En as ->. apply (Hn _ q Hx). left. }
  assert (Hkind : forall p, p ∈ reserved (dr_attempts d') ->
    p ∈ pins \/ is_Some (dr_reconnect d !! p) \/ is_Some (snap !! p) -> retrying d' p).
  { intros p [Hp|[Hp _]]%Hres H; [|done]. apply Hre. by eapply reserved_retrying. }
  assert (Hsusp : forall p e, dr_reconnect d !! p = Some e -> due e = None -> p ∈ dr_connected d \/ retrying d' p).
  { intros p e He Hn. destruct (v_suspended _ _ _ _ Hi p e He Hn) as [?|?]; [done|by left|right; by apply Hre]. }
  assert (Hatt : forall p, attended d p -> attended d' p).
  { intros p [Hp|[Hp|(e & t & He & Ht)]]; [left; by rewrite Hc|right; left; by apply Hre|].
    destruct (Hq p) as [E|(_ & _ & [Hp|Hp])]; [|left; by rewrite Hc|right; left; apply Hkind; eauto].
    right. right. exists e, t. by rewrite E. }
  split; rewrite ?Hc; try apply Hi.
  - apply Hd.
  - intros p [Hp|[_ Hp]]%Hres; [by apply (v_free _ _ _ _ Hi)|done].
  - intros x p. rewrite En. intros [Hx|Hx]%elem_of_app; [by apply (v_retry _ _ _ _ Hi)|].
    destruct (Rn x Hx) as (q & _ & ->). by intros [= ->].
  - intros x p. rewrite En. intros [Hx|Hx]%elem_of_app Hr Hp.
    + destruct (v_offer _ _ _ _ Hi x p Hx Hr Hp) as (? & ? & Hn). split_and!; [done..|].
      destruct (Hq p) as [->|([? ?] & _)]; congruence.
    + by destruct (Rn x Hx) as (q & _ & ->).
  - intros p Hs Hf. by apply Hatt, (v_known _ _ _ _ Hi).
  - intros p Hp Hf. destruct (v_pinned _ _ _ _ Hi p Hp Hf) as [Hin|Ha]; [|right; by apply Hatt].
    destruct (Hst p Hin) as [?|[?|[[e He]|?]]]; [by left|right; left; by rewrite Hc| |right; right; left; by apply Hkind; [|left]].
    right. apply Hatt. destruct (due e) as [t|] eqn:Ed; [right; right; by exists e, t|].
    destruct (v_suspended _ _ _ _ Hi p e He Ed) as [?|?]; [done|by left|by right; left].
  - intros p e He Hn _. destruct (Hq p) as [E|(Hs & _ & [?|Hp])]; [|by left|right; apply Hkind; eauto].
    rewrite E in He. eauto.
  - intros p Hp%Hsub. by apply (v_startup _ _ _ _ Hi).
Qed.

Lemma run_startup_inv snap d room :
  driver_inv pins None snap d -> len (attempts (dr_attempts d)) + room <= MAX_CONNECT_ATTEMPTS ->
  exists d' new, run_startup (dr_startup d) room d = Ok d' /\ driver_inv pins None snap d'
    /\ attempts (dr_attempts d') = attempts (dr_attempts d) ++ new /\ retries_of (dr_startup d) new.
Proof.
  intros Hi Hroom. pose proof (v_attempts _ _ _ _ Hi) as Ha.
  destruct (run_startup_new (dr_startup d) room d Ha Hroom) as (d' & new & Hok & En & Rn & Hsub & Hst).
  destruct (run_startup_ok (dr_startup d) room d Ha) as (d2 & Hok2 & Hd & Hq & _).
  rewrite Hok in Hok2. injection Hok2 as <-. exists d', new. split; [done|]. split; [|done].
  eapply retries_inv; [done|done|done|done| |done|done]. intros p. left. by rewrite Hq.
Qed.

Lemma loop_top_inv refresh snap d cap :
  driver_inv pins None snap (refreshed refresh pins d) ->
  exists d' new, loop_top refresh pins cap d = Ok d' /\ driver_inv pins None snap d'
    /\ attempts (dr_attempts d') = attempts (dr_attempts (refreshed refresh pins d)) ++ new
    /\ exists l, retries_of l new.
Proof.
  intros Hi%suspend_attempts_inv. unfold loop_top. fold (refreshed refresh pins d).
  rewrite capacity_ok by apply Hi. cbn [mbind outcome_bind].
  destruct (run_startup_inv snap (suspend_attempts (refreshed refresh pins d))
    (Z.min (MAX_CONNECT_ATTEMPTS - len (attempts (dr_attempts (suspend_attempts (refreshed refresh pins d))))) cap) Hi)
    as (d' & new & ? & ? & ? & ?); [lia|]. exists d', new. split_and!; [done..|by eexists].
Qed.

Lemma retry_tick_inv snap d now cap :
  driver_inv pins None snap d -> 0 <= cap ->
  exists d' new, on_retry_tick now cap d = Ok d' /\ driver_inv pins None snap d'
    /\ attempts (dr_attempts d') = attempts (dr_attempts d) ++ new /\ exists l, retries_of l new.
Proof.
  intros Hi Hcap. pose proof (v_attempts _ _ _ _ Hi) as Ha.
  destruct (retry_tick_ok now cap d Ha Hcap) as (addrs & q & d' & Ht & Hok & Hd & Hin & Hout).
  pose proof Hok as Hok'. unfold on_retry_tick in Hok. rewrite capacity_ok in Hok by done.
  cbn [mbind outcome_bind] in Hok. rewrite Ht in Hok. cbn [mbind outcome_bind] in Hok.
  destruct (dial_due_new addrs (set_reconnect q d) d' Ha Hok) as (Hst & new & En & Rn).
  exists d', new. split; [done|]. split; [|split; [done|by eexists]].
  eapply retries_inv; [done|done|exact En|exact Rn| | |]; rewrite ?Hst; [|done|by left].
  intros p. destruct (decide (p ∈ addrs)) as [Hp|Hp]; [right|left; by apply Hout].
  destruct (Hin p Hp) as (? & e & -> & ->). split_and!; [by eexists|by eexists|done].
Qed.

Lemma discovered_inv snap d endpoints cap :
  driver_inv pins None snap d -> pins = ∅ ->
  exists d' new, on_peer_discovered endpoints cap d = Ok d' /\ driver_inv pins None snap d'
    /\ attempts (dr_attempts d') = attempts (dr_attempts d) ++ new
    /\ forall x, x ∈ new -> retry_peer x = None /\ at_endpoints x <> []
         /\ at_endpoints x = ep_addr <$> retain (fun e => negb (queued (dr_reconnect d) (ep_addr e))) endpoints.
Proof.
  intros Hi Hpins. pose proof (v_attempts _ _ _ _ Hi) as Ha. unfold on_peer_discovered.
  assert (Hsame : exists d' new, Ok d = Ok (E := Empty_set) d' /\ driver_inv pins None snap d'
    /\ attempts (dr_attempts d') = attempts (dr_attempts d) ++ new
    /\ forall x, x ∈ new -> retry_peer x = None /\ at_endpoints x <> []
         /\ at_endpoints x = ep_addr <$> retain (fun e => negb (queued (dr_reconnect d) (ep_addr e))) endpoints).
  { exists d, []. rewrite app_nil_r. split_and!; [done..|]. intros x Hx. by apply elem_of_nil in Hx. }
  destruct (cap =? 0); [done|]. destruct (any _ endpoints) eqn:E; [done|].
  rewrite existsb_elem_false in E. set (eps := retain _ endpoints) in *. case_bool_decide; [done|].
  destruct (insert_attempt_ok (ep_addr <$> eps) None _ Ha) as (started & a & Hs & Ha' & H').
  unfold start_offer. rewrite Hs. cbn [mbind outcome_bind].
  destruct started; [|destruct H' as [-> _]; by destruct d]. destruct H' as (En & Hn & Hr).
  exists (set_attempts a d), [mkAttempt (ep_addr <$> eps) None]. split; [done|]. split; [|split; [done|]].
  2:{ intros x ->%list_elem_of_singleton. split_and!; [done| |done]. cbn. by intros ?%fmap_nil_inv. }
  assert (Hre : forall p, retrying d p -> retrying (set_attempts a d) p).
  { intros p (x & Hx & Hx'). exists x. cbn. rewrite En. split; [apply elem_of_app; by left|done]. }
  assert (Hatt : forall p, attended d p -> attended (set_attempts a d) p).
  { intros p [?|[?|?]]; [by left|right; left; by apply Hre|by right; right]. }
  assert (Hnew : forall p, p ∈ ep_addr <$> eps -> p ∉ dr_connected d /\ dr_reconnect d !! p = None).
  { intros p (e & -> & He)%list_elem_of_fmap. apply elem_of_retain in He as [Hq He].
    specialize (E e He). apply orb_false_iff in E as [E _]. bprop. split; [done|].
    unfold queued in Hq. by destruct (dr_reconnect d !! ep_addr e). }
  split; try apply Hi; cbn; [done|..].
  - intros p. rewrite Hr, elem_of_union, elem_of_list_to_set. intros [Hp|Hp]; [by apply (v_free _ _ _ _ Hi)|by apply Hnew].
  - intros x p. rewrite En. intros [Hx| ->%list_elem_of_singleton]%elem_of_app; [by apply (v_retry _ _ _ _ Hi)|done].
  - intros x p. rewrite En. intros [Hx| ->%list_elem_of_singleton]%elem_of_app Hx' Hp; [by apply (v_offer _ _ _ _ Hi x p)|].
    cbn in Hp. destruct (Hnew p Hp) as [Hc Hq]. split_and!; [done| |done].
    destruct (snap !! p) as [st|] eqn:Es; [exfalso|done].
    destruct (v_known _ _ _ _ Hi p) as [?|[Hret|(e & t & He & _)]]; [by eexists|done|done| |congruence].
    eapply (Hn p Hp), retrying_reserved; [exact Hi|done].
  - intros p Hs' Hf. by apply Hatt, (v_known _ _ _ _ Hi).
  - intros p Hp Hf. destruct (v_pinned _ _ _ _ Hi p Hp Hf); [by left|right; by apply Hatt].
  - intros p e He Hd Hf. destruct (v_suspended _ _ _ _ Hi p e He Hd Hf); [by left|right; by apply Hre].
Qed.

(** *** The end of an attempt *)

Lemma elem_of_delete_list {A} (l : list A) i x y : l !! i = Some x -> y ∈ l -> y = x \/ y ∈ delete i l.
Proof.
  intros Hi Hy. destruct (list_elem_of_split_length _ _ _ Hi) as (l1 & l2 & -> & ->).
  rewrite delete_middle. set_solver.
Qed.

(** What the end of an attempt does to the peers. *)
Record completes (fresh : option SocketAddr) (d : Driver) (i : nat) (x : Attempt) (d' : Driver) : Prop := {
  cp_attempts : attempts_ok (dr_attempts d');
  cp_delete : attempts (dr_attempts d') = delete i (attempts (dr_attempts d));
  cp_reserved : forall p, p ∈ reserved (dr_attempts d') <-> p ∈ reserved (dr_attempts d) /\ p ∉ at_endpoints x;
  cp_connected : dr_connected d' = dr_connected d;
  cp_startup : dr_startup d' = dr_startup d;
  cp_self : forall p, retry_peer x = Some p -> fresh = Some p \/ waiting d' p;
  cp_others : forall p, retry_peer x <> Some p -> dr_reconnect d' !! p = dr_reconnect d !! p;
}.

Lemma completion_completes d i x (ok : bool) addr now :
  attempts_ok (dr_attempts d) -> attempts (dr_attempts d) !! i = Some x ->
  (forall p, retry_peer x = Some p -> addr = p) ->
  exists d', on_completion i ok now d = Ok d' /\ completes (if ok then Some addr else None) d i x d'.
Proof.
  intros Ha Hx Haddr. destruct (complete_ok i _ x Ha Hx) as (a & Hcomp & Ha' & Ed & Hr).
  unfold on_completion. rewrite Hcomp. cbn [mbind outcome_bind]. eexists. split; [done|]. destruct ok.
  { split; try done. intros p Hp. left. by rewrite (Haddr p Hp). }
  destruct (retry_peer x) as [peer|] eqn:Ep; [|split; try done; congruence]. split; try done; rewrite ?Ep.
  - intros p [= <-]. right. destruct (scheduled_due now (dr_reconnect d !! peer)) as [t Ht].
    eexists _, t. split; [|exact Ht]. cbn. rewrite schedule_spec. by rewrite decide_True.
  - intros p Hp. cbn. rewrite schedule_spec, decide_False; [done|congruence].
Qed.

Lemma completion_inv snap d i x (ok : bool) addr now :
  driver_inv pins None snap d -> attempts (dr_attempts d) !! i = Some x -> addr ∈ at_endpoints x ->
  exists d', on_completion i ok now d = Ok d' /\ completes (if ok then Some addr else None) d i x d'
    /\ driver_inv pins (if ok then Some addr else None) snap d'.
Proof.
  intros Hi Hx Haddr. pose proof (v_attempts _ _ _ _ Hi) as Ha. pose proof (list_elem_of_lookup_2 _ _ _ Hx) as Hin.
  destruct (completion_completes d i x ok addr now Ha Hx) as (d' & Hok & Hcp).
  { intros p Hp. rewrite (v_retry _ _ _ _ Hi x p Hin Hp) in Haddr. by apply list_elem_of_singleton in Haddr. }
  exists d'. split; [done|]. split; [done|]. destruct Hcp as [Ha' Ed Hr Ec Est Hself Hq].
  set (fresh := if ok then Some addr else None) in *.
  assert (Hsub : forall y, y ∈ attempts (dr_attempts d') -> y ∈ attempts (dr_attempts d)).
  { rewrite Ed. intros y Hy. eapply elem_of_submseteq; [exact Hy|]. apply sublist_submseteq, sublist_delete. }
  assert (Hre : forall p, retrying d p -> retry_peer x <> Some p -> retrying d' p).
  { intros p (y & Hy & Hyr) Hp. exists y. rewrite Ed. split; [|done].
    by destruct (elem_of_delete_list _ _ _ _ Hx Hy) as [->|]. }
  assert (Hatt : forall p, attended d p -> fresh = Some p \/ attended d' p).
  { intros p Hp. destruct (decide (retry_peer x = Some p)) as [E|E].
    { destruct (Hself p E); [by left|right; by right; right]. }
    right. destruct Hp as [?|[?|(e & t & He)]]; [left; by rewrite Ec|right; left; by apply Hre|right; right].
    exists e, t. by rewrite Hq. }
  split; rewrite ?Ec, ?Est; try apply Hi.
  - done.
  - intros p [Hp _]%Hr. by apply (v_free _ _ _ _ Hi).
  - intros y p Hy%Hsub. by apply (v_retry _ _ _ _ Hi).
  - intros y p Hy%Hsub Hyr Hp. destruct (v_offer _ _ _ _ Hi y p Hy Hyr Hp) as (? & ? & Hn). split_and!; [done..|].
    rewrite Hq; [done|]. intros E. rewrite (apart_eq _ y x p (ao_apart _ Ha) Hy Hin Hp) in Hyr; [congruence|].
    rewrite (v_retry _ _ _ _ Hi x p Hin E). left.
  - intros p Hs Hf. by destruct (Hatt p (v_known _ _ _ _ Hi p Hs ltac:(done))).
  - intros p Hp Hf. destruct (v_pinned _ _ _ _ Hi p Hp ltac:(done)) as [?|Hp']; [by left|right]. by destruct (Hatt p Hp').
  - intros p e He Hn Hf. destruct (decide (retry_peer x = Some p)) as [E|E].
    { destruct (Hself p E) as [?|(e' & t & He' & Ht)]; [done|congruence]. }
    rewrite Hq in He by done. destruct (v_suspended _ _ _ _ Hi p e He Hn ltac:(done)); [by left|right; by apply Hre].
Qed.
End Handlers.
