(* ===== verification/DaemonApi.v ===== *)
(** * Configuration and public operations of the daemons

    The checks of [dlep-daemon/src/config.rs], the session configuration made from
    them ([session.rs]), and the operations [RouterDaemon] and [ModemDaemon] offer
    to applications ([router.rs], [modem.rs]): local checks, then the command to
    the sessions.  What the sessions answer is [Runtime.on_command]. *)

From S2P Require Import Prelude Externs CoreTypes Codec CodecItem CodecMessage Addresses Events.
From S2P Require Import SessionCommon Validation SessionFacts SessionRouter SessionModem Lifecycle.
From S2P Require Import RouterInv ModemInv Samples Sessions SessionSteps DaemonTypes Timers.
From S2P Require Import Runtime Connections.
Import DataItem.

(** ** Configuration *)

Record TimersConfig : Type := mkTimersConfig {
  tc_heartbeat_interval_ms : Z;
  tc_discovery_interval_ms : Z;
  tc_session_init_timeout_ms : Z;
  tc_termination_timeout_ms : option Z;
}.

Definition TimersConfig_default : TimersConfig := mkTimersConfig 60000 5000 5000 None.

(** The error of a check names what it found. *)
Inductive ConfigFault : Type :=
  | TimerTooSmall (name : rstring) (value minimum : Z)
  | TerminationZero
  | SessionLimit
  | HistoryLimit
  | RateExceedsMaximum
  | MetricEncoding (e : CodecError)
  | RadioPath
  | RadioTimeout.

Fixpoint check_minimums (l : list (rstring * Z * Z)) : outcome ConfigFault unit :=
  match l with
  | [] => Ok tt
  | (name, value, minimum) :: l' =>
      if value <? minimum then Err (TimerTooSmall name value minimum) else check_minimums l'
  end.

Definition timers_validate (self : TimersConfig) : outcome ConfigFault unit :=
  _ ← check_minimums
        [(str "heartbeat_interval_ms", tc_heartbeat_interval_ms self, 1000);
         (str "discovery_interval_ms", tc_discovery_interval_ms self, 1000);
         (str "session_init_timeout_ms", tc_session_init_timeout_ms self, 1)];
  if bool_decide (tc_termination_timeout_ms self = Some 0) then Err TerminationZero else Ok tt.

Definition RouterLimits_default : RouterLimits := mkLimits 64 256 300.

(** [tokio::sync::Semaphore::MAX_PERMITS]. *)
Definition MAX_PERMITS : Z := Z.shiftr usize_max 3.

Definition limits_validate (self : RouterLimits) : outcome ConfigFault unit :=
  if (max_sessions self =? 0) || (MAX_PERMITS <? max_sessions self) then Err SessionLimit
  else if (max_discovered_peers self =? 0) || (peer_retention_secs self =? 0) then Err HistoryLimit
  else Ok tt.

Record MetricsConfig : Type := mkMetricsConfig {
  mc_max_data_rate_rx_bps : Z;
  mc_max_data_rate_tx_bps : Z;
  mc_current_data_rate_rx_bps : Z;
  mc_current_data_rate_tx_bps : Z;
  mc_latency_us : Z;
  mc_resources : option Z;
  mc_rlq_rx : option Z;
  mc_rlq_tx : option Z;
  mc_mtu : option Z;
}.

Definition config_link_metrics (self : MetricsConfig) : LinkMetrics :=
  mkLinkMetrics (mc_max_data_rate_rx_bps self) (mc_max_data_rate_tx_bps self)
    (mc_current_data_rate_rx_bps self) (mc_current_data_rate_tx_bps self)
    (from_micros (mc_latency_us self)) (mc_resources self) (mc_rlq_rx self) (mc_rlq_tx self)
    (mc_mtu self).

Section Checks.
Context {crates : Crates}.

Definition metrics_validate (self : MetricsConfig) : outcome ConfigFault unit :=
  if (mc_max_data_rate_rx_bps self <? mc_current_data_rate_rx_bps self)
     || (mc_max_data_rate_tx_bps self <? mc_current_data_rate_tx_bps self)
  then Err RateExceedsMaximum
  else
    _ ← map_err MetricEncoding (Message_encode (build_session_update (config_link_metrics self)));
    Ok tt.
End Checks.

(** [RadioConfig::validate]; whether the path is absolute is the platform's rule. *)
Definition radio_validate (absolute : bool) (link_request_timeout_ms : Z) : outcome ConfigFault unit :=
  if negb absolute then Err RadioPath
  else if link_request_timeout_ms =? 0 then Err RadioTimeout
  else Ok tt.

(** [session_config_from_timers] ([session.rs]). *)
Definition session_config_from_timers (timers : TimersConfig) (description : rstring)
    (extensions : list ExtensionId) : SessionConfig :=
  mkConfig FormatEui48 description LinkMetrics_default (tc_heartbeat_interval_ms timers)
    (from_millis (tc_session_init_timeout_ms timers))
    (from_millis <$> tc_termination_timeout_ms timers) extensions false.

(** The configuration of a router's session ([connect_static]) and of a modem's
    ([modem_accept_loop]). *)
Definition router_session_config (timers : TimersConfig) (description : rstring)
    (extensions : list ExtensionId) (format : MacAddressFormat) : SessionConfig :=
  let c := session_config_from_timers timers description extensions in
  mkConfig format (SessionCommon.peer_description c) (initial_metrics c) (heartbeat_interval_ms c)
    (session_init_timeout c) (cfg_termination_timeout c) (advertised_extensions c)
    (defer_link_characteristics c).

Definition modem_session_config (timers : TimersConfig) (description : rstring)
    (extensions : list ExtensionId) (format : MacAddressFormat) (metrics : LinkMetrics)
    (link_control : bool) : SessionConfig :=
  let c := session_config_from_timers timers description extensions in
  mkConfig format (SessionCommon.peer_description c) metrics (heartbeat_interval_ms c)
    (session_init_timeout c) (cfg_termination_timeout c) (advertised_extensions c) link_control.

(** ** Operations *)

(** The command channel of a session: whether it is known to be closed, and what
    becomes of a request sent to it. *)
Record Channel : Type := mkChannel {
  ch_is_closed : bool;
  ch_send : SessionRequest -> Delivery;
}.

(** The sessions of a daemon, shared behind a lock with the tasks that run them
    ([session_cmds]): their channels, and what they are after a command. *)
Class SessionPool (D : Type) : Type := {
  pool_channels : D -> list Channel;
  pool_after : SessionCommand -> option SessionId -> D -> D;
}.

(** The field of the modem daemon its operations read; the sessions are the state
    they act on. *)
Record ModemDaemon : Type := mkModemDaemon {
  md_initial_metrics : LinkMetrics;
}.

Section Api.
Context {crates : Crates} `{pool : SessionPool D}.

Abbreviation op := (stm D DaemonError unit).

Definition encode_check (msg : Message) : outcome DaemonError unit :=
  _ ← map_err CodecFailure (Message_encode msg); Ok tt.

Definition validate_address_changes (changes : AddressChanges) : outcome DaemonError unit :=
  _ ← map_err (fun _ => ConfigError (str "duplicate or conflicting address changes"))
        (validate changes);
  encode_check (append_to changes (Message_new MessageType.SESSION_UPDATE)).

Definition validate_metrics (self : ModemDaemon) (metrics : LinkMetrics) : outcome DaemonError unit :=
  if negb (supported_by metrics (md_initial_metrics self))
  then Err (ConfigError (str "optional metric was not declared in ModemConfig.metrics"))
  else encode_check (build_session_update metrics).

(** Both daemons' [dispatch].  Dropping the closed channels from the daemon's list
    is part of [pool_after]; as a channel never reopens, later calls do not notice. *)
Definition dispatch (cmd : SessionCommand) (target : option SessionId) : op :=
  fun d => (dispatch_command (ch_send <$> filter (fun c => ch_is_closed c = false) (pool_channels d))
              cmd target, pool_after cmd target d).

Definition fanout (cmd : SessionCommand) : op := dispatch cmd None.
Definition send_command_to (session_id : SessionId) (cmd : SessionCommand) : op :=
  dispatch cmd (Some session_id).

(** [ModemDaemon]'s. *)
Definition add_destination_with_addresses (self : ModemDaemon) (id : DestinationId)
    (metrics : LinkMetrics) (addresses : DestinationAddrs) : op :=
  (st_lift (validate_metrics self metrics);;;
   let changes := mkChanges (addrs_canonical addresses) DestinationAddrs_default in
   st_lift (validate_address_changes changes);;;
   st_lift (encode_check (build_destination_up id metrics (added changes)));;;
   fanout (AddDestination id metrics (added changes)))%stm.

Definition add_destination (self : ModemDaemon) (id : DestinationId) (metrics : LinkMetrics) : op :=
  add_destination_with_addresses self id metrics DestinationAddrs_default.

Definition update_destination_addresses (id : DestinationId) (changes : AddressChanges) : op :=
  (st_lift (validate_address_changes changes);;;
   fanout (UpdateDestinationAddresses id (changes_canonical changes)))%stm.

Definition update_destination (self : ModemDaemon) (id : DestinationId) (metrics : LinkMetrics) : op :=
  (st_lift (validate_metrics self metrics);;; fanout (UpdateDestination id metrics))%stm.

Definition modem_drop_destination (id : DestinationId) (reason : StatusCode) : op :=
  fanout (DropDestination id reason).

Definition modem_update_session_metrics (self : ModemDaemon) (metrics : LinkMetrics) : op :=
  (st_lift (validate_metrics self metrics);;; fanout (SessionUpdate metrics))%stm.

(** Of both daemons. *)
Definition update_session_addresses (session_id : SessionId) (changes : AddressChanges) : op :=
  (st_lift (validate_address_changes changes);;;
   fanout (UpdateSessionAddresses session_id (changes_canonical changes)))%stm.

(** [RouterDaemon]'s. *)
Definition announce_destination (id : DestinationId) : op := fanout (AnnounceDestination id).

Definition router_drop_destination (session_id : SessionId) (id : DestinationId) : op :=
  fanout (DropDestinationForSession session_id id).

Definition request_link_characteristics (session_id : SessionId) (id : DestinationId)
    (requested : LinkCharacteristics) : op :=
  if LinkCharacteristics_is_empty requested
  then st_err (ConfigError (str "at least one link characteristic must be requested"))
  else
    (st_lift (encode_check (build_link_characteristics_request id requested));;;
     fanout (RequestLinkCharacteristics session_id id requested))%stm.

Definition router_update_session_metrics (metrics : LinkMetrics) : op :=
  st_err (ConfigError
    (str "only a modem may originate session metrics (RFC 8175 section 12.7)")).

End Api.

(** ** Validated configurations *)

(** What the Rust types of the timers guarantee. *)
Definition is_timers (t : TimersConfig) : Prop :=
  is_u32 (tc_heartbeat_interval_ms t) /\ is_u32 (tc_discovery_interval_ms t)
  /\ is_u32 (tc_session_init_timeout_ms t) /\ default True (is_u32 <$> tc_termination_timeout_ms t).

Lemma from_millis_duration ms : is_u32 ms -> is_duration (from_millis ms).
Proof. unfold is_u32, u32_max, is_duration, from_millis, Duration_MAX, u64_max. lia. Qed.

Lemma is_metrics_default : is_metrics LinkMetrics_default.
Proof. by split_and!. Qed.

Lemma timers_validate_spec t :
  timers_validate t = Ok tt <->
  1000 <= tc_heartbeat_interval_ms t /\ 1000 <= tc_discovery_interval_ms t
  /\ 1 <= tc_session_init_timeout_ms t /\ tc_termination_timeout_ms t <> Some 0.
Proof.
  unfold timers_validate. cbn [check_minimums].
  destruct (Z.ltb_spec (tc_heartbeat_interval_ms t) 1000); [split; [done|lia]|].
  destruct (Z.ltb_spec (tc_discovery_interval_ms t) 1000); [split; [done|lia]|].
  destruct (Z.ltb_spec (tc_session_init_timeout_ms t) 1); [split; [done|lia]|].
  cbn. case_bool_decide; split; try done; tauto.
Qed.

(** Validated timers take effect.  When [TimersConfig::validate] accepts, the
    session configuration of a router or modem is well formed, the heartbeat
    interval announced to the peer is the configured one (the minimum of the
    protocol changes nothing), and both deadlines of a session are positive: the
    initialization deadline and the termination deadline, which without a setting
    is four of those intervals. *)
Theorem validated_timers_effective t description extensions format metrics lc :
  is_timers t -> utf8_valid description = true -> Forall is_u16 extensions -> is_metrics metrics ->
  timers_validate t = Ok tt ->
  Forall (fun c => is_config c
    /\ local_heartbeat_interval c = from_millis (tc_heartbeat_interval_ms t)
    /\ session_init_timeout c = from_millis (tc_session_init_timeout_ms t)
    /\ 0 < session_init_timeout c
    /\ termination_timeout c
       = match tc_termination_timeout_ms t with
         | Some ms => from_millis ms
         | None => 4 * from_millis (tc_heartbeat_interval_ms t)
         end
    /\ 0 < termination_timeout c)
    [router_session_config t description extensions format;
     modem_session_config t description extensions format metrics lc].
Proof.
  intros (Hh & Hd & Hs & Ht) Hu He Hm (H1 & H2 & H3 & H4)%timers_validate_spec.
  assert (Hterm : default True (is_duration <$> (from_millis <$> tc_termination_timeout_ms t))).
  { destruct (tc_termination_timeout_ms t); [by apply from_millis_duration|done]. }
  assert (Htt : 0 < match tc_termination_timeout_ms t with
      | Some ms => from_millis ms | None => 4 * from_millis (tc_heartbeat_interval_ms t) end).
  { unfold from_millis. destruct (tc_termination_timeout_ms t) as [ms|]; [|lia].
    cbn in Ht. unfold is_u32 in Ht. assert (ms <> 0) by congruence. lia. }
  assert (Hr : Z.max (tc_heartbeat_interval_ms t) MIN_HEARTBEAT_INTERVAL_MS = tc_heartbeat_interval_ms t)
    by (unfold MIN_HEARTBEAT_INTERVAL_MS; lia).
  assert (Hmul : duration_saturating_mul (from_millis (tc_heartbeat_interval_ms t)) 4
                 = 4 * from_millis (tc_heartbeat_interval_ms t)).
  { unfold duration_saturating_mul, from_millis, Duration_MAX, u64_max, is_u32, u32_max in *. lia. }
  assert (Hpos : 0 < from_millis (tc_session_init_timeout_ms t)) by (unfold from_millis; lia).
  pose proof (from_millis_duration _ Hs). pose proof is_metrics_default.
  assert (Hc : forall c, heartbeat_interval_ms c = tc_heartbeat_interval_ms t ->
    cfg_termination_timeout c = from_millis <$> tc_termination_timeout_ms t ->
    local_heartbeat_interval c = from_millis (tc_heartbeat_interval_ms t)
    /\ termination_timeout c
       = match tc_termination_timeout_ms t with
         | Some ms => from_millis ms | None => 4 * from_millis (tc_heartbeat_interval_ms t) end).
  { intros c Eh Et. unfold termination_timeout, local_heartbeat_interval. rewrite Et, Eh, Hr.
    destruct (tc_termination_timeout_ms t); cbn; [done|by rewrite Hmul]. }
  repeat apply Forall_cons_2; [| |by apply Forall_nil].
  all: match goal with |- context [local_heartbeat_interval ?c] =>
    destruct (Hc c eq_refl eq_refl) as [-> ->] end; by split_and!.
Qed.

(** ** Sessions behind the operations *)

(** The receipt of a session whose writes succeed. *)
Definition session_sender `{SessionFsm F} (session_id : SessionId) (f : F) (req : SessionRequest)
    : Delivery :=
  if match req_target req with Some id => negb (id =? session_id) | None => false end
  then Receipt None
  else
    match fsm_step (command_event (req_command req)) f with
    | Ok (_, actions) => Receipt (Some (session_id, command_outcome actions))
    | _ => ReceiptLost
    end.

(** It is the receipt the session task sends. *)
Lemma on_command_receipt {crates : Crates} {host : Host} `{Hfsm : SessionFsm F} env req
    (t t' : Task F) closed :
  req_receipt req = true -> on_command env (Some req) t = (Ok closed, t') ->
  exists r, session_sender (env_session_id env) (t_fsm t) req = Receipt r
    /\ last (out (t_shared t')) = Some (OReceipt r).
Proof.
  intros Hr. unfold session_sender. cbn [on_command].
  destruct (match req_target req with Some id => negb (id =? env_session_id env) | None => false end).
  - unfold send_receipt, st_bind, with_shared, st_modify, st_ret. rewrite Hr. intros [= _ <-].
    exists None. split; [done|]. cbn. by rewrite last_snoc.
  - unfold st_bind at 1, step_fsm.
    destruct (fsm_step (command_event (req_command req)) (t_fsm t)) as [[f acts]|[]|]; [|done].
    unfold st_bind at 1. destruct (process env acts (set_fsm f t)) as [[b|e|] t1]; [|done|done].
    unfold send_receipt, st_bind, with_shared, st_modify, st_ret. rewrite Hr. intros [= _ <-].
    eexists. split; [done|]. cbn. by rewrite last_snoc.
Qed.

Lemma command_outcome_rejected acts r :
  command_outcome acts = Err r -> Emit (CommandRejected r) ∈ acts.
Proof.
  unfold command_outcome. destruct (find_map _ acts) as [r'|] eqn:E; [|done]. intros [= ->].
  apply find_map_Some in E as (a & Ha & Hf). destruct a as [| | | | | |[]]; try done.
  by injection Hf as ->.
Qed.

Lemma session_sender_rejected `{SessionFsm F} id (f : F) req sid r :
  session_sender id f req = Receipt (Some (sid, Err r)) ->
  exists f' acts, fsm_step (command_event (req_command req)) f = Ok (f', acts)
    /\ Emit (CommandRejected r) ∈ acts.
Proof.
  unfold session_sender. case_match; [done|].
  destruct (fsm_step _ f) as [[f' acts]|[]|]; [|done]. intros [= _ Ho].
  exists f', acts. by split; [|apply command_outcome_rejected].
Qed.

Lemma report_rejected ds rep p :
  p ∈ rejected (foldl report_delivery rep ds) ->
  p ∈ rejected rep \/ Receipt (Some (p.1, Err p.2)) ∈ ds.
Proof.
  revert rep. induction ds as [|d ds IH]; intros rep; cbn [foldl]; [by left|].
  intros [H|H]%IH; [|right; by right].
  destruct d as [| |[[id [[]|r|]]|]]; cbn in H; auto.
  apply elem_of_app in H as [H|H%list_elem_of_singleton]; [auto|]. subst p. right. left.
Qed.

(** A rejection in the report was some session's. *)
Lemma dispatch_rejected senders cmd target report p :
  dispatch_command senders cmd target = Err (CommandNotAccepted report) -> p ∈ rejected report ->
  exists sender tg, sender ∈ senders
    /\ sender (mkRequest tg cmd true) = Receipt (Some (p.1, Err p.2)).
Proof.
  unfold dispatch_command. case_match; [done|]. cbv zeta.
  set (tg := match target with Some t => Some t | None => command_target cmd end).
  set (rep := foldl report_delivery _ _). set (rep' := if is_some tg && _ then _ else rep).
  assert (Er : rejected rep' = rejected rep) by (subst rep'; by case_match).
  case_match; [|by case_match]. intros [= <-]. rewrite Er. intros Hp.
  apply report_rejected in Hp as [Hp|Hp]; [cbn in Hp; set_solver|].
  apply list_elem_of_fmap in Hp as (sender & Hs & Hin). by exists sender, tg.
Qed.

Lemma fanout_rejected `{SessionPool D} (d : D) cmd report p :
  (fanout cmd d).1 = Err (CommandNotAccepted report) -> p ∈ rejected report ->
  exists c tg, c ∈ pool_channels d
    /\ ch_send c (mkRequest tg cmd true) = Receipt (Some (p.1, Err p.2)).
Proof.
  intros Hf Hp. destruct (dispatch_rejected _ _ _ _ _ Hf Hp) as (s & tg & Hin & Hr).
  apply list_elem_of_fmap in Hin as (c & -> & Hin). apply list_elem_of_filter in Hin as [_ Hin].
  by exists c, tg.
Qed.

(** Every channel leads to a session of which [P] holds. *)
Definition served `{SessionPool D} `{SessionFsm F} (P : F -> Prop) (d : D) : Prop :=
  Forall (fun c => exists id f, ch_send c = session_sender id f /\ P f) (pool_channels d).

Lemma served_rejected `{SessionPool D} `{SessionFsm F} (P : F -> Prop) (d : D) cmd report p :
  served P d -> (fanout cmd d).1 = Err (CommandNotAccepted report) -> p ∈ rejected report ->
  exists f f' acts, P f /\ fsm_step (command_event cmd) f = Ok (f', acts)
    /\ Emit (CommandRejected p.2) ∈ acts.
Proof.
  unfold served. rewrite Forall_forall. intros Hs Hf Hp.
  destruct (fanout_rejected _ _ _ _ Hf Hp) as (c & tg & Hin & Hr).
  destruct (Hs c Hin) as (id & f & Ec & HP). rewrite Ec in Hr.
  apply session_sender_rejected in Hr as (f' & acts & Est & Ho). by exists f, f', acts.
Qed.

(** *** Sessions as a pool *)

(** A session of the daemon: its task runs while [se_open], with the actions of
    its commands in [se_actions]. *)
Record SessionEntry (F : Type) : Type := mkEntry {
  se_id : SessionId;
  se_open : bool;
  se_fsm : F;
  se_actions : list FsmAction;
}.
Arguments mkEntry {F} _ _ _ _.
Arguments se_id {F} _.
Arguments se_open {F} _.
Arguments se_fsm {F} _.
Arguments se_actions {F} _.

Definition entry_after `{SessionFsm F} (cmd : SessionCommand) (target : option SessionId)
    (e : SessionEntry F) : SessionEntry F :=
  if se_open e && bool_decide (default (se_id e) target = se_id e) then
    match fsm_step (command_event cmd) (se_fsm e) with
    | Ok (f, actions) => mkEntry (se_id e) true f (se_actions e ++ actions)
    | _ => mkEntry (se_id e) false (se_fsm e) (se_actions e)
    end
  else e.

(** Commands with a target of their own that contradicts the call's are not sent. *)
Definition effective_target (cmd : SessionCommand) (target : option SessionId)
    : option (option SessionId) :=
  match target, command_target cmd with
  | Some a, Some b => if a =? b then Some (Some a) else None
  | Some a, None => Some (Some a)
  | None, t => Some t
  end.

#[export] Instance sessions_pool `{SessionFsm F} : SessionPool (list (SessionEntry F)) := {
  pool_channels d := (fun e => mkChannel (negb (se_open e)) (session_sender (se_id e) (se_fsm e))) <$> d;
  pool_after cmd target d :=
    match effective_target cmd target with
    | Some t => entry_after cmd t <$> d
    | None => d
    end;
}.

(** A command that was right but does not fit the session it met: its state, or the MAC
    address format it was set up with. *)
Definition state_conflict (e : CommandError) : Prop :=
  match e with
  | Busy | NotReady | UnknownDestination | AlreadyExists | NoPendingRequest | MacAddressFormatMismatch => True
  | Unsupported | InvalidInput => False
  end.

Section Conflicts.
Context {crates : Crates}.

Lemma modem_scope_conflict self event info e :
  Modem.check_scope self event info = Err e -> state_conflict e.
Proof.
  unfold Modem.check_scope, state_conflict.
  destruct (destination info); [|by case_match; intros [= <-]].
  case_match; [by intros [= <-]|]. cbv zeta. intros Hs.
  destruct event; cbn [mbind outcome_bind] in Hs; repeat case_match; cbn in Hs; try done; by injection Hs as <-.
Qed.

(** The checks of the modem's operations are those of its sessions. *)
Lemma validate_metrics_session self (d : ModemDaemon) m :
  initial_metrics (Modem.config self) = md_initial_metrics d -> validate_metrics d m = Ok tt ->
  Modem.valid_metrics self m = true.
Proof.
  intros Hi. unfold validate_metrics, Modem.valid_metrics, encode_check. rewrite Hi.
  destruct (supported_by m (md_initial_metrics d)); [|done]. cbn [negb andb].
  by destruct (Message_encode (build_session_update m)).
Qed.

Definition modem_checked (d : ModemDaemon) (cmd : SessionCommand) : Prop :=
  match cmd with
  | UpdateDestination _ m | SessionUpdate m => validate_metrics d m = Ok tt
  | DropDestination _ _ => True
  | _ => False
  end.

Lemma modem_conflict self d cmd e :
  initial_metrics (Modem.config self) = md_initial_metrics d -> modem_checked d cmd ->
  Modem.check_command self (command_event cmd) = Err e -> state_conflict e.
Proof.
  intros Hi Hcmd. unfold Modem.check_command.
  destruct (negb (bool_decide (Modem.state self = _))); [by intros [= <-]|].
  destruct cmd as [| |mac m| | |mac reason| |m| |]; try done; cbn [command_event command expect mbind outcome_bind];
    (destruct (Modem.check_scope _ _ _) as [[]|e'|] eqn:Es; cbn [mbind outcome_bind];
     [|intros [= <-]; by eapply modem_scope_conflict|done]).
  - case_match; [by intros [= <-]|]. by rewrite (validate_metrics_session self d m Hi Hcmd).
  - case_match; [by intros [= <-]|done].
  - by rewrite (validate_metrics_session self d m Hi Hcmd).
Qed.

Definition router_checked (cmd : SessionCommand) : Prop :=
  match cmd with
  | AnnounceDestination _ | DropDestinationForSession _ _ => True
  | RequestLinkCharacteristics _ id requested =>
      LinkCharacteristics_is_empty requested = false
      /\ is_ok (Message_encode (build_link_characteristics_request id requested)) = true
  | _ => False
  end.

Lemma router_conflict self cmd e :
  router_checked cmd -> Router.check_command self (command_event cmd) = Err e -> state_conflict e.
Proof.
  intros Hcmd. unfold Router.check_command.
  destruct (negb (bool_decide (Router.state self = _))); [by intros [= <-]|].
  destruct cmd as [| | | | | |sid mac| |mac|sid mac requested]; try done;
    cbn [command_event command negb expect mbind outcome_bind destination];
    (destruct (if negb (accepts _ _) then _ else _) as [[]|e'|] eqn:Es; cbn [mbind outcome_bind];
     [clear Es|intros [= <-]; repeat case_match; try done; by injection Es as <-|by repeat case_match]).
  - case_match; [by intros [= <-]|done].
  - case_match; [by intros [= <-]|done].
  - destruct Hcmd as [He Hok]. case_match; [by intros [= <-]|]. rewrite He.
    by destruct (Message_encode _).
Qed.

(** A report of rejections comes from the sessions. *)
Lemma encode_check_error msg report : encode_check msg <> Err (CommandNotAccepted report).
Proof. unfold encode_check. by destruct (Message_encode msg). Qed.

Lemma metrics_check self m report : validate_metrics self m <> Err (CommandNotAccepted report).
Proof. unfold validate_metrics. case_match; [done|apply encode_check_error]. Qed.

Lemma checked_op {D} check (op : stm D DaemonError unit) d report :
  check <> Err (CommandNotAccepted report) ->
  ((st_lift check;;; op)%stm d).1 = Err (CommandNotAccepted report) ->
  check = Ok tt /\ (op d).1 = Err (CommandNotAccepted report).
Proof. unfold st_bind, st_lift. destruct check as [[]|e|]; [done| |done]. cbn. by intros ? [= ->]. Qed.

(** C23: The operations report conflicts of state only.  What
    [ModemDaemon::update_destination], [update_session_metrics] and
    [drop_destination] pass on after their own checks, a modem session rejects
    only for its state (busy, unknown or existing destination, not in session,
    address format): never as invalid or unsupported; likewise
    [announce_destination], [drop_destination] and [request_link_characteristics]
    of a router. *)
Theorem api_reports_conflicts `{SessionPool D} (self : ModemDaemon) (modems routers : D) id session_id
    m reason requested report :
  served (H0 := modem_session)
    (fun f => initial_metrics (Modem.config f) = md_initial_metrics self) modems ->
  served (H0 := router_session) (fun _ => True) routers ->
  Err (CommandNotAccepted report)
    ∈ [(update_destination self id m modems).1; (modem_update_session_metrics self m modems).1;
       (modem_drop_destination id reason modems).1; (announce_destination id routers).1;
       (router_drop_destination session_id id routers).1;
       (request_link_characteristics session_id id requested routers).1] ->
  Forall (fun p => state_conflict (Events.reason p.2)) (rejected report).
Proof.
  intros Hm Hr Hop.
  assert (Hmodem : forall cmd, modem_checked self cmd ->
    (fanout cmd modems).1 = Err (CommandNotAccepted report) ->
    Forall (fun p => state_conflict (Events.reason p.2)) (rejected report)).
  { intros cmd Hcmd Hf. apply Forall_forall. intros p Hp.
    destruct (served_rejected _ _ _ _ _ Hm Hf Hp) as (f & f' & acts & Hi & Est & Ho).
    destruct (modem_rejected _ _ _ _ _ Est Ho) as [Hc _]. by apply (modem_conflict f self cmd). }
  assert (Hrouter : forall cmd, router_checked cmd ->
    (fanout cmd routers).1 = Err (CommandNotAccepted report) ->
    Forall (fun p => state_conflict (Events.reason p.2)) (rejected report)).
  { intros cmd Hcmd Hf. apply Forall_forall. intros p Hp.
    destruct (served_rejected _ _ _ _ _ Hr Hf Hp) as (f & f' & acts & _ & Est & Ho).
    destruct (router_rejected _ _ _ _ _ Est Ho) as [Hc _]. by apply (router_conflict f cmd). }
  repeat (apply elem_of_cons in Hop as [Herr|Hop]); [..|set_solver]; symmetry in Herr.
  - apply checked_op in Herr as [Hv Hf]; [|by apply metrics_check]. by apply (Hmodem (UpdateDestination id m)).
  - apply checked_op in Herr as [Hv Hf]; [|by apply metrics_check]. by apply (Hmodem (SessionUpdate m)).
  - by apply (Hmodem (DropDestination id reason)).
  - by apply (Hrouter (AnnounceDestination id)).
  - by apply (Hrouter (DropDestinationForSession session_id id)).
  - unfold request_link_characteristics in Herr.
    destruct (LinkCharacteristics_is_empty requested) eqn:He; [done|].
    apply checked_op in Herr as [Hv Hf]; [|by apply encode_check_error].
    apply (Hrouter (RequestLinkCharacteristics session_id id requested)); [|done].
    split; [done|]. unfold encode_check in Hv. by destruct (Message_encode _).
Qed.

End Conflicts.

#[local] Existing Instance reference_crates.

Lemma validated_timers_effective_witness :
  timers_validate TimersConfig_default = Ok tt
  /\ termination_timeout (router_session_config TimersConfig_default [] [] FormatEui48)
     = 240000000000.
Proof.
  split; [reflexivity|].
  assert (H : Forall _ _) by (apply (validated_timers_effective TimersConfig_default [] [] FormatEui48
    LinkMetrics_default false); [by split_and!|done|apply Forall_nil_2|apply is_metrics_default|done]).
  inversion_clear H as [|? ? Hc _]. by destruct Hc as (_ & _ & _ & _ & -> & _).
Defined.

Definition sample_daemon : ModemDaemon := mkModemDaemon (initial_metrics modem_config).

Definition sample_pool : list (SessionEntry Modem.ModemSessionFsm) :=
  [mkEntry 7 true sample_modem []].

Definition sample_report : CommandReport :=
  mkReport [] [(7, mkRejection (mkCommandInfo KDropDestination (Some sample_mac))
                     UnknownDestination)] 0 0.

Lemma api_reports_conflicts_witness :
  (modem_drop_destination sample_mac 0 (D := list (SessionEntry _))
     (pool := sessions_pool (H := modem_session)) sample_pool).1
  = Err (CommandNotAccepted sample_report)
  /\ state_conflict UnknownDestination.
Proof.
  match goal with |- ?x = ?y /\ _ => assert (E : x = y) by (vm_compute; reflexivity) end.
  split; [exact E|].
  assert (H : Forall (fun p => state_conflict (Events.reason p.2)) (rejected sample_report)).
  { apply (api_reports_conflicts (H := sessions_pool (H := modem_session)) sample_daemon sample_pool []
      sample_mac 7 LinkMetrics_default 0 LinkCharacteristics_default).
    - apply Forall_cons_2; [|apply Forall_nil_2]. exists 7, sample_modem.
      split; [reflexivity|vm_compute; reflexivity].
    - apply Forall_nil_2.
    - right. right. rewrite <-E. left. }
  by inversion_clear H.
Defined.
