(* ===== verification/Radio.v ===== *)
(** * The radio adapter's protocol

    [dlep-modem/src/radio.rs], the side that faces the adapter process: MAC
    addresses as text, partial metrics, the lines read from the adapter's output
    and the messages both ways.  JSON is parsed by serde, a parameter. *)

From S2P Require Import Prelude Externs CoreTypes Codec CodecItem CodecMessage Addresses Events.
From S2P Require Import SessionCommon DaemonTypes.

(** ** MAC addresses as text *)

Definition hex_digit (c : Z) : option Z :=
  if in_range 48 57 c then Some (c - 48)
  else if in_range 65 70 c then Some (c - 55)
  else if in_range 97 102 c then Some (c - 87)
  else None.

(** The digits of [from_str_radix], [acc] read so far; [None] also on overflow. *)
Fixpoint radix_digits (acc : Z) (s : rstring) : option Z :=
  match s with
  | [] => Some acc
  | c :: s' =>
      match hex_digit c with
      | Some d => if 16 * acc + d <=? u8_max then radix_digits (16 * acc + d) s' else None
      | None => None
      end
  end.

(** [u8::from_str_radix(_, 16)]: a leading plus sign is accepted before digits. *)
Definition u8_from_str_radix_16 (s : rstring) : option Z :=
  match s with
  | [] => None
  | [c] => if (c =? 43) || (c =? 45) then None else radix_digits 0 s
  | c :: s' => if c =? 43 then radix_digits 0 s' else radix_digits 0 s
  end.

(** [str::split] at a character of one octet. *)
Fixpoint split_at_char (sep : Z) (s : rstring) : list rstring :=
  match s with
  | [] => [[]]
  | c :: s' =>
      if c =? sep then [] :: split_at_char sep s'
      else
        match split_at_char sep s' with
        | part :: parts => (c :: part) :: parts
        | [] => [[c]]
        end
  end.

Inductive MacError : Type :=
  | InvalidMac (text : rstring)
  | MacOctets (text : rstring).

Definition parse_octet (part : rstring) : option Z :=
  if (len part =? 1) || (len part =? 2) then u8_from_str_radix_16 part else None.

(** [TryFrom<String> for Mac]. *)
Definition Mac_try_from (text : rstring) : outcome MacError MacAddress :=
  match mapM parse_octet (split_at_char 58 text) with
  | None => Err (InvalidMac text)
  | Some octets =>
      if len octets =? 6 then Ok (Eui48 octets)
      else if len octets =? 8 then Ok (Eui64 octets)
      else Err (MacOctets text)
  end.

(** [Display for MacAddress]: octets as [{byte:02x}] joined by colons. *)
Definition hex_char (d : Z) : Z := if d <? 10 then 48 + d else 87 + d.
Definition hex_octet (b : Z) : rstring := [hex_char (b / 16); hex_char (b mod 16)].
Fixpoint join_octets (octets : bytes) : rstring :=
  match octets with
  | [] => []
  | [b] => hex_octet b
  | b :: octets' => hex_octet b ++ 58 :: join_octets octets'
  end.
Definition mac_to_string (self : MacAddress) : rstring := join_octets (mac_as_bytes self).

(** ** Metrics *)

(** [Metrics]: omitted fields keep their previous value. *)
Record Metrics : Type := mkMetrics {
  m_max_data_rate_rx_bps : option Z;
  m_max_data_rate_tx_bps : option Z;
  m_current_data_rate_rx_bps : option Z;
  m_current_data_rate_tx_bps : option Z;
  m_latency_us : option Z;
  m_resources : option Z;
  m_rlq_rx : option Z;
  m_rlq_tx : option Z;
  m_mtu : option Z;
}.

Definition Metrics_default : Metrics := mkMetrics None None None None None None None None None.

Definition Metrics_overlay (self : Metrics) (base : LinkMetrics) : LinkMetrics :=
  mkLinkMetrics
    (default (max_data_rate_rx_bps base) (m_max_data_rate_rx_bps self))
    (default (max_data_rate_tx_bps base) (m_max_data_rate_tx_bps self))
    (default (current_data_rate_rx_bps base) (m_current_data_rate_rx_bps self))
    (default (current_data_rate_tx_bps base) (m_current_data_rate_tx_bps self))
    (match m_latency_us self with Some v => from_micros v | None => latency base end)
    (or_else (m_resources self) (resources base))
    (or_else (m_rlq_rx self) (rlq_rx base))
    (or_else (m_rlq_tx self) (rlq_tx base))
    (or_else (m_mtu self) (mtu base)).

Definition duration_us (d : Duration) : Z :=
  if as_micros d <=? u64_max then as_micros d else u64_max.

Definition Metrics_from_link (m : LinkMetrics) : Metrics :=
  mkMetrics (Some (max_data_rate_rx_bps m)) (Some (max_data_rate_tx_bps m))
    (Some (current_data_rate_rx_bps m)) (Some (current_data_rate_tx_bps m))
    (Some (duration_us (latency m))) (resources m) (rlq_rx m) (rlq_tx m) (mtu m).

(** [Requested]. *)
Record Requested : Type := mkRequested {
  rq_current_data_rate_rx_bps : option Z;
  rq_current_data_rate_tx_bps : option Z;
  rq_latency_us : option Z;
}.

(** ** Messages *)

(** The crate [ipnet] parses subnets; a prefix it accepts is well formed. *)
Class SubnetText : Type := {
  parse_v4net : rstring -> option IpNet;
  parse_v6net : rstring -> option IpNet;
  parse_v4net_ok s n : parse_v4net s = Some n -> is_net 32 n;
  parse_v6net_ok s n : parse_v6net s = Some n -> is_net 128 n;
}.

(** [Addresses]. *)
Record Addresses : Type := mkAddresses {
  ipv4 : list Z;
  ipv6 : list Z;
  ipv4_subnets : list rstring;
  ipv6_subnets : list rstring;
}.

Definition Addresses_default : Addresses := mkAddresses [] [] [] [].

Definition Addresses_parse `{SubnetText} (self : Addresses) : option DestinationAddrs :=
  n4 ← mapM parse_v4net (ipv4_subnets self);
  n6 ← mapM parse_v6net (ipv6_subnets self);
  Some (mkAddrs (ipv4 self) (ipv6 self) n4 n6).

Inductive LinkStatus : Type := LinkSuccess | LinkDenied.

(** [Inbound]: adapter to modem. *)
Inductive Inbound : Type :=
  | InDestinationUp (mac : MacAddress) (metrics : Metrics) (addresses : Addresses)
  | InDestinationUpdate (mac : MacAddress) (metrics : Metrics)
  | InDestinationAddresses (mac : MacAddress) (add remove : Addresses)
  | InDestinationDown (mac : MacAddress)
  | InSessionMetrics (metrics : Metrics)
  | InLinkResponse (request : Z) (status : LinkStatus) (text : rstring) (metrics : option Metrics)
  | InUnknown.

(** The numbers of a message are those of its types. *)
Definition is_report_metrics (r : Metrics) : Prop :=
  default True (is_u64 <$> m_max_data_rate_rx_bps r)
  /\ default True (is_u64 <$> m_max_data_rate_tx_bps r)
  /\ default True (is_u64 <$> m_current_data_rate_rx_bps r)
  /\ default True (is_u64 <$> m_current_data_rate_tx_bps r)
  /\ default True (is_u64 <$> m_latency_us r)
  /\ default True (is_u8 <$> m_resources r) /\ default True (is_u8 <$> m_rlq_rx r)
  /\ default True (is_u8 <$> m_rlq_tx r) /\ default True (is_u16 <$> m_mtu r).

Definition is_report (msg : Inbound) : Prop :=
  match msg with
  | InDestinationUp mac r _ => is_mac mac /\ is_report_metrics r
  | InDestinationUpdate mac r => is_mac mac /\ is_report_metrics r
  | InDestinationAddresses mac _ _ | InDestinationDown mac => is_mac mac
  | InSessionMetrics r => is_report_metrics r
  | InLinkResponse request _ _ r => is_u64 request /\ default True (is_report_metrics <$> r)
  | InUnknown => True
  end.

(** [Outbound]: modem to adapter. *)
Inductive Outbound : Type :=
  | OutSessionUp (session : SessionId) (peer : SocketAddr)
  | OutSessionDown (session : SessionId) (peer : SocketAddr) (status : StatusCode)
  | OutDestinationAnnounced (session : SessionId) (mac : MacAddress)
  | OutLinkRequest (request : Z) (session : SessionId) (peer : SocketAddr) (mac : MacAddress)
      (requested : Requested) (current : Metrics).

(** [serde_json]: its values ([VOther] is null, a boolean, a number or an array), the
    parser, and the deserializer derived for [Inbound]. *)
Inductive Value : Type :=
  | VString (s : rstring)
  | VObject (fields : list (rstring * Value))
  | VOther.

Class Serde : Type := {
  from_str : rstring -> option Value;
  from_value : Value -> option Inbound;
  from_value_typed v m : from_value v = Some m -> is_report m;
}.

Definition INBOUND_FIELDS : list (rstring * list rstring) :=
  [(str "destination_up", [str "mac"; str "metrics"; str "addresses"]);
   (str "destination_update", [str "mac"; str "metrics"]);
   (str "destination_addresses", [str "mac"; str "add"; str "remove"]);
   (str "destination_down", [str "mac"]);
   (str "session_metrics", [str "metrics"]);
   (str "link_response", [str "request"; str "status"; str "text"; str "metrics"])].

Inductive ParseError : Type :=
  | JsonError
  | NotAnObject
  | NoType
  | UnknownField (name kind : rstring).

Fixpoint assoc {A B} `{EqDecision A} (a : A) (l : list (A * B)) : option B :=
  match l with
  | [] => None
  | (a', b) :: l' => if bool_decide (a' = a) then Some b else assoc a l'
  end.

Definition unknown_field (fields : list rstring) (o : list (rstring * Value)) : option rstring :=
  find_map (fun kv : rstring * Value =>
    if negb (bool_decide (kv.1 = str "type")) && negb (contains fields kv.1)
    then Some kv.1 else None) o.

Definition parse_inbound `{Serde} (line : rstring) : outcome ParseError Inbound :=
  match from_str line with
  | None => Err JsonError
  | Some (VObject o as value) =>
      match assoc (str "type") o with
      | Some (VString kind) =>
          _ ← match assoc kind INBOUND_FIELDS with
              | Some fields =>
                  match unknown_field fields o with
                  | Some name => Err (UnknownField name kind)
                  | None => Ok tt
                  end
              | None => Ok tt
              end;
          match from_value value with Some m => Ok m | None => Err JsonError end
      | _ => Err NoType
      end
  | Some _ => Err NotAnObject
  end.

(** ** The adapter's output *)

Definition MAX_LINE : Z := 64 * 1024.

Inductive LineError : Type := LineTooLong | LineNotUtf8 | LineIo.

(** What the pipe delivers: octets, then the end or a read error. *)
Record Pipe : Type := mkPipe { pipe_octets : bytes; pipe_fails : bool }.

(** [take(limit).read_until(b'\n', _)]: up to and with the newline, at most [limit]
    octets; the flag says that neither stopped it. *)
Fixpoint read_until (limit : Z) (input : bytes) : bytes * bytes * bool :=
  if limit <=? 0 then ([], input, false)
  else
    match input with
    | [] => ([], [], true)
    | c :: input' =>
        if c =? 10 then ([c], input', false)
        else let '(line, rest, ran_out) := read_until (limit - 1) input' in (c :: line, rest, ran_out)
    end.

(** [char::is_whitespace] octet-wise: [str::trim] leaves nothing of valid text. *)
Fixpoint blank (s : rstring) : bool :=
  match s with
  | [] => true
  | c :: s1 =>
      if in_range 9 13 c || (c =? 32) then blank s1
      else
        match s1 with
        | c1 :: s2 =>
            if (c =? 194) && ((c1 =? 133) || (c1 =? 160)) then blank s2
            else
              match s2 with
              | c2 :: s3 =>
                  (((c =? 225) && (c1 =? 154) && (c2 =? 128))
                   || ((c =? 226) && (c1 =? 128)
                       && (in_range 128 138 c2 || (c2 =? 168) || (c2 =? 169) || (c2 =? 175)))
                   || ((c =? 226) && (c1 =? 129) && (c2 =? 159))
                   || ((c =? 227) && (c1 =? 128) && (c2 =? 128))) && blank s3
              | [] => false
              end
        | [] => false
        end
  end.

(** [line.pop()] of a final newline. *)
Definition pop_newline (line : bytes) : bytes :=
  if bool_decide (last line = Some 10) then removelast line else line.

Definition line_result (line : bytes) : outcome LineError rstring :=
  if negb (bool_decide (last line = Some 10)) && (MAX_LINE <? len line) then Err LineTooLong
  else
    let text := pop_newline line in
    if utf8_valid text then Ok text else Err LineNotUtf8.

(** [read_lines]: what is put in the channel, until the output ends or fails.  Each
    iteration takes an octet, so [fuel] is one more than their number. *)
Fixpoint read_lines_loop (fuel : nat) (p : Pipe) : list (outcome LineError rstring) :=
  match fuel with
  | O => [Panic]
  | S fuel' =>
      let '(line, rest, ran_out) := read_until (MAX_LINE + 1) (pipe_octets p) in
      if ran_out && pipe_fails p then [Err LineIo]
      else if bool_decide (line = []) then []
      else
        match line_result line with
        | Ok text =>
            if blank text then read_lines_loop fuel' (mkPipe rest (pipe_fails p))
            else Ok text :: read_lines_loop fuel' (mkPipe rest (pipe_fails p))
        | r => [r]
        end
  end.

Definition read_lines (p : Pipe) : list (outcome LineError rstring) :=
  read_lines_loop (S (length (pipe_octets p))) p.

(** ** Link requests *)

(** How the wait for the adapter's answer ends. *)
Inductive Answer : Type :=
  | Answered (response : LinkResponse)
  | AnswerDropped
  | AnswerTimedOut.

(** [RadioLink::request]. *)
Definition radio_request (sent : bool) (a : Answer) : LinkResponse :=
  if negb sent then with_text LinkResponse_denied (str "radio adapter unavailable")
  else
    match a with
    | Answered response => response
    | AnswerDropped => with_text LinkResponse_denied (str "radio adapter unavailable")
    | AnswerTimedOut => with_text LinkResponse_denied (str "radio adapter timed out")
    end.

(** ** Theorems *)

(** *** Text of MAC addresses *)

Lemma hex_char_digit d : 0 <= d < 16 -> hex_digit (hex_char d) = Some d.
Proof.
  intros H. unfold hex_char, hex_digit, in_range.
  destruct (Z.ltb_spec d 10).
  - rewrite (proj2 (Z.leb_le 48 (48 + d))), (proj2 (Z.leb_le (48 + d) 57)) by lia. cbn. f_equal. lia.
  - rewrite (proj2 (Z.leb_gt (87 + d) 57)), (proj2 (Z.leb_gt (87 + d) 70)) by lia.
    rewrite !andb_false_r.
    rewrite (proj2 (Z.leb_le 97 (87 + d))), (proj2 (Z.leb_le (87 + d) 102)) by lia. cbn. f_equal. lia.
Qed.

Lemma hex_char_plain d : 0 <= d < 16 -> hex_char d <> 43 /\ hex_char d <> 58.
Proof. intros H. unfold hex_char. destruct (Z.ltb_spec d 10); lia. Qed.

Lemma nibbles b : is_u8 b -> 0 <= b / 16 < 16 /\ 0 <= b mod 16 < 16.
Proof.
  unfold is_u8, u8_max. intros H. split; [|by apply Z.mod_pos_bound].
  split; [apply Z.div_pos; lia|apply Z.div_lt_upper_bound; lia].
Qed.

Lemma parse_hex_octet b : is_u8 b -> parse_octet (hex_octet b) = Some b.
Proof.
  intros H. destruct (nibbles b H) as [Hh Hl]. unfold parse_octet, hex_octet, u8_from_str_radix_16.
  cbn [len length]. change ((len [hex_char (b / 16); hex_char (b mod 16)] =? 1) || _) with true.
  cbn iota. destruct (hex_char_plain (b / 16) Hh) as [Hp _].
  rewrite (proj2 (Z.eqb_neq _ _) Hp). cbn [radix_digits]. rewrite !hex_char_digit by done.
  unfold is_u8 in H. pose proof (Z.div_mod b 16 ltac:(done)).
  rewrite (proj2 (Z.leb_le (16 * 0 + b / 16) u8_max)) by (unfold u8_max; lia).
  rewrite (proj2 (Z.leb_le (16 * (16 * 0 + b / 16) + b mod 16) u8_max)) by lia. f_equal. lia.
Qed.

Lemma split_plain sep part rest :
  sep ∉ part -> split_at_char sep (part ++ sep :: rest) = part :: split_at_char sep rest.
Proof.
  induction part as [|c part IH]; intros H; cbn; [by rewrite Z.eqb_refl|].
  apply not_elem_of_cons in H as [Hc Hp]. rewrite (proj2 (Z.eqb_neq c sep)) by congruence.
  by rewrite (IH Hp).
Qed.

Lemma split_last sep part : sep ∉ part -> split_at_char sep part = [part].
Proof.
  induction part as [|c part IH]; intros H; cbn; [done|].
  apply not_elem_of_cons in H as [Hc Hp]. rewrite (proj2 (Z.eqb_neq c sep)) by congruence.
  by rewrite (IH Hp).
Qed.

Lemma hex_octet_plain b : is_u8 b -> 58 ∉ hex_octet b.
Proof.
  intros H. destruct (nibbles b H) as [Hh Hl]. unfold hex_octet.
  destruct (hex_char_plain _ Hh) as [_ ?], (hex_char_plain _ Hl) as [_ ?]. set_solver.
Qed.

Lemma split_join octets :
  is_bytes octets -> octets <> [] -> split_at_char 58 (join_octets octets) = hex_octet <$> octets.
Proof.
  induction octets as [|b octets IH]; [done|]. intros [Hb Ho]%Forall_cons _.
  destruct octets as [|b' octets]; [by apply split_last, hex_octet_plain|].
  change (join_octets (b :: b' :: octets)) with (hex_octet b ++ 58 :: join_octets (b' :: octets)).
  rewrite split_plain by (by apply hex_octet_plain). by rewrite IH.
Qed.

(** The text of a MAC address names it.  [TryFrom<String>] reads back what
    [Display] wrote, for both formats. *)
Theorem mac_text_roundtrip m : is_mac m -> Mac_try_from (mac_to_string m) = Ok m.
Proof.
  intros H. unfold Mac_try_from, mac_to_string.
  assert (Hp : forall octets, is_bytes octets ->
    mapM parse_octet (hex_octet <$> octets) = Some octets).
  { intros octets Hb. apply mapM_Some. rewrite Forall2_fmap_l. apply Forall_Forall2_diag.
    eapply Forall_impl; [exact Hb|]. intros b. apply parse_hex_octet. }
  destruct m as [o|o]; destruct H as [Hb Hl]; cbn [mac_as_bytes].
  all: rewrite split_join, Hp by (try done; by destruct o).
  all: unfold len; by rewrite Hl.
Qed.

Lemma mac_text_roundtrip_witness :
  Mac_try_from (str "02:00:0a:ff:10:01") = Ok (Eui48 [2; 0; 10; 255; 16; 1]).
Proof.
  apply (mac_text_roundtrip (Eui48 [2; 0; 10; 255; 16; 1])).
  split; [|done]. repeat constructor; unfold is_u8; done.
Defined.

(** Signs pass as digits: [from_str_radix] takes a plus sign before a digit. *)
Lemma mac_text_signs : Mac_try_from (str "+2:00:+a:ff:10:01") = Ok (Eui48 [2; 0; 10; 255; 16; 1]).
Proof. reflexivity. Qed.

(** *** Lines *)

Lemma read_until_line l rest limit :
  10 ∉ l -> len l < limit -> read_until limit (l ++ 10 :: rest) = (l ++ [10], rest, false).
Proof.
  revert limit. induction l as [|c l IH]; intros limit Hn Hl; unfold len in Hl; cbn [length] in Hl.
  - cbn. by destruct (Z.leb_spec limit 0); [lia|].
  - apply not_elem_of_cons in Hn as [Hc Hn]. cbn. destruct (Z.leb_spec limit 0); [lia|].
    rewrite (proj2 (Z.eqb_neq c 10)) by congruence. by rewrite IH by (try done; unfold len; lia).
Qed.

Lemma read_until_end l limit :
  10 ∉ l -> len l < limit -> read_until limit l = (l, [], true).
Proof.
  revert limit. induction l as [|c l IH]; intros limit Hn Hl; unfold len in Hl; cbn [length] in Hl.
  - cbn. by destruct (Z.leb_spec limit 0); [lia|].
  - apply not_elem_of_cons in Hn as [Hc Hn]. cbn. destruct (Z.leb_spec limit 0); [lia|].
    rewrite (proj2 (Z.eqb_neq c 10)) by congruence. by rewrite IH by (try done; unfold len; lia).
Qed.

Lemma read_until_long l rest limit :
  10 ∉ l -> len l = limit -> read_until limit (l ++ rest) = (l, rest, false).
Proof.
  revert limit. induction l as [|c l IH]; intros limit Hn Hl; unfold len in Hl; cbn [length] in Hl.
  - subst limit. by destruct rest.
  - apply not_elem_of_cons in Hn as [Hc Hn]. cbn. destruct (Z.leb_spec limit 0); [lia|].
    rewrite (proj2 (Z.eqb_neq c 10)) by congruence. by rewrite IH by (try done; unfold len; lia).
Qed.

Lemma line_result_line l :
  line_result (l ++ [10]) = if utf8_valid l then Ok l else Err LineNotUtf8.
Proof.
  unfold line_result, pop_newline. rewrite last_snoc. cbn [negb andb].
  rewrite bool_decide_true by done. cbn [negb andb]. by rewrite removelast_last.
Qed.

Lemma line_result_plain l :
  10 ∉ l -> line_result l = if MAX_LINE <? len l then Err LineTooLong
                            else if utf8_valid l then Ok l else Err LineNotUtf8.
Proof.
  intros Hn. unfold line_result, pop_newline. rewrite bool_decide_false; [done|].
  intros H%last_Some. destruct H as [l' ->]. set_solver.
Qed.

(** A line the reader passes on, and the output made of such lines. *)
Definition plain_line (l : rstring) : Prop := 10 ∉ l /\ len l <= MAX_LINE.
Definition output_of (ls : list rstring) : bytes := concat ((fun l => l ++ [10]) <$> ls).

Lemma read_lines_cons fuel l rest f :
  plain_line l ->
  read_lines_loop (S fuel) (mkPipe (l ++ 10 :: rest) f)
  = if utf8_valid l then
      (if blank l then [] else [Ok l]) ++ read_lines_loop fuel (mkPipe rest f)
    else [Err LineNotUtf8].
Proof.
  intros [Hn Hl]. cbn [read_lines_loop pipe_octets pipe_fails].
  rewrite read_until_line by (try done; lia). cbn [andb].
  rewrite bool_decide_false by (by destruct l). rewrite line_result_line.
  destruct (utf8_valid l); [|done]. by destruct (blank l).
Qed.

Lemma read_lines_app ls rest f fuel :
  Forall (fun l => plain_line l /\ utf8_valid l = true) ls ->
  (length (output_of ls ++ rest) < fuel)%nat ->
  exists fuel', (length rest < fuel')%nat
    /\ read_lines_loop fuel (mkPipe (output_of ls ++ rest) f)
       = (Ok <$> retain (fun l => negb (blank l)) ls) ++ read_lines_loop fuel' (mkPipe rest f).
Proof.
  intros H. revert fuel. induction H as [|l ls [Hl Hu] Hls IH]; intros fuel Hf; [by exists fuel|].
  unfold output_of in *. cbn [fmap list_fmap concat] in *. rewrite <-!app_assoc in *. cbn [app] in *.
  destruct fuel as [|fuel]; [lia|]. rewrite read_lines_cons, Hu by done.
  rewrite length_app in Hf. cbn [length] in Hf.
  destruct (IH fuel ltac:(lia)) as (fuel' & Hf' & ->). exists fuel'. split; [done|].
  cbn. by destruct (blank l).
Qed.

(** The reader's last result, for output [rest] that ends or fails within a line. *)
Definition last_result (rest : bytes) (fails : bool) : list (outcome LineError rstring) :=
  if MAX_LINE <? len rest then [Err LineTooLong]
  else if fails then [Err LineIo]
  else if negb (utf8_valid rest) then [Err LineNotUtf8]
  else if blank rest then [] else [Ok rest].

Lemma read_lines_last rest more f fuel :
  10 ∉ rest -> (MAX_LINE + 1 <= len rest -> len rest = MAX_LINE + 1) ->
  (len rest <= MAX_LINE -> more = []) -> (length rest < fuel)%nat ->
  read_lines_loop fuel (mkPipe (rest ++ more) f) = last_result rest f.
Proof.
  intros Hn Hlong Hmore Hf. destruct fuel as [|fuel]; [lia|]. cbn [read_lines_loop pipe_octets pipe_fails].
  unfold last_result. destruct (Z.ltb_spec MAX_LINE (len rest)).
  - rewrite read_until_long by (try done; lia). cbn [andb].
    rewrite bool_decide_false by (intros ->; unfold len, MAX_LINE in *; cbn in *; lia).
    rewrite line_result_plain by done. by rewrite (proj2 (Z.ltb_lt _ _)) by lia.
  - rewrite Hmore, app_nil_r, read_until_end by (try done; lia). cbn [andb].
    destruct f; [done|]. case_bool_decide as He; [by subst rest|].
    rewrite line_result_plain, (proj2 (Z.ltb_ge _ _)) by (try done; lia).
    destruct (utf8_valid rest); [|done]. cbn [negb].
    destruct fuel as [|fuel]; [destruct rest; cbn in Hf; [done|lia]|].
    cbn. by destruct (blank rest).
Qed.

(** The reader loses no line.  Whatever lines of at most 64 KiB the adapter writes,
    [read_lines] passes on exactly those that are not blank, in order; then, within
    a line, it reports the end of the output, a read error, text that is not UTF-8,
    or a line that is too long, and stops: what follows is not read. *)
Theorem read_lines_exact ls rest more f :
  Forall (fun l => plain_line l /\ utf8_valid l = true) ls ->
  10 ∉ rest ->
  (more = [] /\ len rest <= MAX_LINE) \/ len rest = MAX_LINE + 1 ->
  read_lines (mkPipe (output_of ls ++ rest ++ more) f)
  = (Ok <$> retain (fun l => negb (blank l)) ls) ++ last_result rest f.
Proof.
  intros Hls Hn Hc. unfold read_lines. cbn [pipe_octets].
  destruct (read_lines_app ls (rest ++ more) f _ Hls (Nat.lt_succ_diag_r _)) as (fuel & Hf & ->).
  f_equal. rewrite length_app in Hf. apply read_lines_last; [done| | |lia].
  - destruct Hc as [[_ ?]|?]; lia.
  - destruct Hc as [[? _]|?]; [done|lia].
Qed.

Lemma read_lines_exact_witness :
  read_lines (mkPipe (str "ab" ++ [10; 32; 10; 99; 100]) false) = [Ok (str "ab"); Ok (str "cd")].
Proof.
  apply (read_lines_exact [str "ab"; [32]] [99; 100] [] false).
  - repeat constructor; try done; apply (bool_decide_unpack _); by vm_compute.
  - apply (bool_decide_unpack _). by vm_compute.
  - left. done.
Defined.
