(* ===== verification/Bridge.v ===== *)
(** * The bridge between radio adapter and modem

    [Bridge] and [Adapter::run] of [dlep-modem/src/radio.rs]: the adapter's table of
    destinations, its reports passed on to every session, the replay to a session
    that comes up, the retries of commands a session was too busy for, and the
    link requests put to the adapter.  Time, the sessions and the tasks that await
    an answer are outside: they are the state of a [BridgeWorld]. *)

From S2P Require Import Prelude Externs CoreTypes Codec CodecItem CodecMessage Addresses Events.
From S2P Require Import SessionCommon Validation SessionFacts SessionRouter SessionModem Lifecycle.
From S2P Require Import RouterInv ModemInv Samples Sessions SessionSteps SessionWire Handshake Exchange.
From S2P Require Import DaemonTypes Timers Runtime Connections DaemonApi Radio.
Import DataItem.

(** ** State *)

(** The sender half of the channel that awaits an answer. *)
Abbreviation AskId := Z.

Class BridgeWorld (D : Type) : Type := {
  world_pool :: SessionPool D;
  (** [Instant::now()]. *)
  world_now : D -> Instant;
  (** [answer.is_closed()], and whether [answer.send] still finds a receiver. *)
  answer_is_closed : D -> AskId -> bool;
  answer_received : D -> AskId -> bool;
}.

Inductive Retry : Type :=
  | RetryAdd (mac : Mac)
  | RetryDrop (mac : Mac)
  | RetrySessionMetrics.

Record Known : Type := mkKnown {
  k_metrics : LinkMetrics;
  k_addresses : DestinationAddrs;
}.

Record Pending : Type := mkLinkPending {
  p_answer : AskId;
  p_mac : Mac;
  p_current : LinkMetrics;
}.

(** [Bridge], with the world it acts in, the lines it sent to the adapter and the
    answers it gave. *)
Record Bridge (D : Type) : Type := mkBridge {
  br_world : D;
  br_destinations : gmap Mac Known;
  br_initial : LinkMetrics;
  br_session_metrics : LinkMetrics;
  br_pending : gmap Z Pending;
  br_next_request : Z;
  br_retries : list (Instant * SessionId * Retry);
  br_out : list Outbound;
  br_answers : list (AskId * LinkResponse);
}.
Arguments mkBridge {D}.
Arguments br_world {D}.
Arguments br_destinations {D}.
Arguments br_initial {D}.
Arguments br_session_metrics {D}.
Arguments br_pending {D}.
Arguments br_next_request {D}.
Arguments br_retries {D}.
Arguments br_out {D}.
Arguments br_answers {D}.

Section Setters.
Context {D : Type}.
Definition set_world (w : D) (b : Bridge D) : Bridge D :=
  mkBridge w (br_destinations b) (br_initial b) (br_session_metrics b)
  (br_pending b) (br_next_request b) (br_retries b) (br_out b) (br_answers b).
Definition set_table (t : gmap Mac Known) (b : Bridge D) : Bridge D :=
  mkBridge (br_world b) t (br_initial b) (br_session_metrics b)
  (br_pending b) (br_next_request b) (br_retries b) (br_out b) (br_answers b).
Definition set_wide (m : LinkMetrics) (b : Bridge D) : Bridge D :=
  mkBridge (br_world b) (br_destinations b) (br_initial b) m
  (br_pending b) (br_next_request b) (br_retries b) (br_out b) (br_answers b).
Definition set_pending (p : gmap Z Pending) (b : Bridge D) : Bridge D :=
  mkBridge (br_world b) (br_destinations b) (br_initial b)
  (br_session_metrics b) p (br_next_request b) (br_retries b) (br_out b) (br_answers b).
Definition set_next (n : Z) (b : Bridge D) : Bridge D :=
  mkBridge (br_world b) (br_destinations b) (br_initial b)
  (br_session_metrics b) (br_pending b) n (br_retries b) (br_out b) (br_answers b).
Definition set_retries (r : list (Instant * SessionId * Retry)) (b : Bridge D) : Bridge D :=
  mkBridge (br_world b) (br_destinations b) (br_initial b)
  (br_session_metrics b) (br_pending b) (br_next_request b) r (br_out b) (br_answers b).
Definition push_line (o : Outbound) (b : Bridge D) : Bridge D :=
  mkBridge (br_world b) (br_destinations b) (br_initial b)
  (br_session_metrics b) (br_pending b) (br_next_request b) (br_retries b) (br_out b ++ [o])
  (br_answers b).
Definition push_answer (a : AskId * LinkResponse) (b : Bridge D) : Bridge D :=
  mkBridge (br_world b) (br_destinations b) (br_initial b)
  (br_session_metrics b) (br_pending b) (br_next_request b) (br_retries b) (br_out b)
  (br_answers b ++ [a]).
End Setters.

#[global] Instance CommandError_eq_dec : EqDecision CommandError.
Proof. solve_decision. Defined.

Definition RETRY_DELAY : Duration := from_millis 250.

(** ** Operations *)

Section Operations.
Context {crates : Crates} {host : Host} {subnets : SubnetText} `{world : BridgeWorld D}.
Variable daemon : ModemDaemon.

Abbreviation action A := (stm (Bridge D) Empty_set A).

(** A call of the daemon: its result is a value for the bridge. *)
Definition call (op : stm D DaemonError unit) : action (outcome DaemonError unit) := fun b =>
  match op (br_world b) with
  | (Panic, w) => (Panic, set_world w b)
  | (r, w) => (Ok r, set_world w b)
  end.

Definition current : action (Bridge D) := fun b => (Ok b, b).
Definition modify (f : Bridge D -> Bridge D) : action unit := st_modify f.

(** [send]: the line of a message; the writer may be gone, which is ignored. *)
Definition send (o : Outbound) : action unit := modify (push_line o).

(** [accepted]: whether the input was valid; it logs the rest. *)
Definition accepted_input (r : outcome DaemonError unit) : bool :=
  match r with
  | Ok tt | Err NoMatchingSession | Err (CommandNotAccepted _) => true
  | Err (ConfigError _) | Err (CodecFailure _) => false
  | _ => true
  end.

Definition busy_sessions (r : outcome DaemonError unit) : list SessionId :=
  match r with
  | Err (CommandNotAccepted report) =>
      fst <$> retain (fun p : SessionId * CommandRejection => bool_decide (reason p.2 = Busy))
                (rejected report)
  | _ => []
  end.

Definition push_retry (retry : Retry) (b : Bridge D) (session_id : SessionId) : Bridge D :=
  set_retries (br_retries b ++ [(world_now (br_world b) + RETRY_DELAY, session_id, retry)]) b.

Definition schedule_busy (r : outcome DaemonError unit) (retry : Retry) : action unit :=
  modify (fun b => foldl (push_retry retry) b (busy_sessions r)).

Definition when (c : bool) (m : action unit) : action unit := if c then m else st_ret tt.

(** The arms of [inbound]. *)
Definition on_up (mac : Mac) (metrics : Metrics) (addresses : Addresses) : action unit := fun b =>
  match br_destinations b !! mac with
  | Some _ => (Ok tt, b)
  | None =>
      match Addresses_parse addresses with
      | None => (Ok tt, b)
      | Some parsed =>
          let addresses := addrs_canonical parsed in
          let metrics := Metrics_overlay metrics (br_session_metrics b) in
          (result <~ call (add_destination_with_addresses daemon mac metrics addresses);;
           when (accepted_input result)
             (modify (fun b => set_table (<[mac := mkKnown metrics addresses]> (br_destinations b)) b);;;
              schedule_busy result (RetryAdd mac)))%stm b
      end
  end.

(** [get_mut(&mac).expect("known")] and an update of what it finds. *)
Definition update_known (mac : Mac) (f : Known -> Known) : action unit := fun b =>
  match br_destinations b !! mac with
  | Some known => (Ok tt, set_table (<[mac := f known]> (br_destinations b)) b)
  | None => (Panic, b)
  end.

Definition on_update (mac : Mac) (metrics : Metrics) : action unit := fun b =>
  match br_destinations b !! mac with
  | None => (Ok tt, b)
  | Some known =>
      let metrics := Metrics_overlay metrics (k_metrics known) in
      (result <~ call (update_destination daemon mac metrics);;
       when (accepted_input result)
         (update_known mac (fun known => mkKnown metrics (k_addresses known))))%stm b
  end.

Definition on_addresses (mac : Mac) (add remove : Addresses) : action unit := fun b =>
  match br_destinations b !! mac with
  | None => (Ok tt, b)
  | Some _ =>
      match Addresses_parse add, Addresses_parse remove with
      | Some added, Some removed =>
          let changes := changes_canonical (mkChanges added removed) in
          (result <~ call (update_destination_addresses mac changes);;
           when (accepted_input result)
             (update_known mac (fun known =>
                mkKnown (k_metrics known) (apply_lenient changes (k_addresses known)))))%stm b
      | _, _ => (Ok tt, b)
      end
  end.

Definition on_down (mac : Mac) : action unit := fun b =>
  match br_destinations b !! mac with
  | None => (Ok tt, b)
  | Some _ =>
      (modify (fun b => set_table (delete mac (br_destinations b)) b);;;
       result <~ call (modem_drop_destination mac StatusCode.SUCCESS);;
       schedule_busy result (RetryDrop mac))%stm b
  end.

Definition on_session_metrics (metrics : Metrics) : action unit := fun b =>
  let metrics := Metrics_overlay metrics (br_session_metrics b) in
  (result <~ call (modem_update_session_metrics daemon metrics);;
   when (accepted_input result)
     (modify (fun b =>
        set_table ((fun known => mkKnown (Metrics_overlay (Metrics_from_link metrics) (k_metrics known))
                                   (k_addresses known)) <$> br_destinations b)
          (set_wide metrics b));;;
      schedule_busy result RetrySessionMetrics))%stm b.

Definition status_code (s : LinkStatus) : StatusCode :=
  match s with
  | LinkSuccess => StatusCode.SUCCESS
  | LinkDenied => StatusCode.REQUEST_DENIED
  end.

(** The destination's metrics after a granted request. *)
Definition grant (mac : Mac) (status : LinkStatus) (metrics : option LinkMetrics) (b : Bridge D)
    : Bridge D :=
  match status, metrics, br_destinations b !! mac with
  | LinkSuccess, Some metrics, Some known =>
      set_table (<[mac := mkKnown metrics (k_addresses known)]> (br_destinations b)) b
  | _, _, _ => b
  end.

Definition on_link_response (request : Z) (status : LinkStatus) (text : rstring)
    (metrics : option Metrics) : action unit := fun b =>
  match br_pending b !! request with
  | None => (Ok tt, b)
  | Some pending =>
      let b := set_pending (delete request (br_pending b)) b in
      if answer_is_closed (br_world b) (p_answer pending) then (Ok tt, b)
      else
        let metrics := (fun m => Metrics_overlay m (p_current pending)) <$> metrics in
        let answer r b :=
          if answer_received (br_world b) (p_answer pending)
          then (true, push_answer (p_answer pending, r) b) else (false, b) in
        if match metrics with Some m => negb (is_ok (validate_metrics daemon m)) | None => false end
        then (Ok tt, (answer LinkResponse_denied b).2)
        else
          let '(delivered, b) := answer (mkLinkResponse (status_code status) text metrics) b in
          (Ok tt, if delivered then grant (p_mac pending) status metrics b else b)
  end.

Definition inbound (message : Inbound) : action unit :=
  match message with
  | InDestinationUp mac metrics addresses => on_up mac metrics addresses
  | InDestinationUpdate mac metrics => on_update mac metrics
  | InDestinationAddresses mac add remove => on_addresses mac add remove
  | InDestinationDown mac => on_down mac
  | InSessionMetrics metrics => on_session_metrics metrics
  | InLinkResponse request status text metrics => on_link_response request status text metrics
  | InUnknown => st_ret tt
  end.

(** [ask]: the pending requests whose task still waits are kept, the request gets
    the next number.  The number is a [u64]. *)
Definition ask (request : LinkRequest) (answer : AskId) : action unit := fun b =>
  let pending := filter (fun kp : Z * Pending =>
                   answer_is_closed (br_world b) (p_answer kp.2) = false) (br_pending b) in
  let id := br_next_request b in
  match increment (E := Empty_set) u64_max id with
  | Ok next =>
    (send (OutLinkRequest id (lr_session_id request) (peer_addr (lr_peer request)) (lr_id request)
             (mkRequested (req_data_rate_rx_bps (lr_requested request))
                (req_data_rate_tx_bps (lr_requested request))
                (duration_us <$> req_latency (lr_requested request)))
             (Metrics_from_link (lr_current request)));;;
     modify (set_pending (<[id := mkLinkPending answer (lr_id request) (lr_current request)]> pending)))%stm
      (set_next next b)
  | _ => (Panic, b)
  end.

(** The order of the [BTreeMap]: EUI-48 addresses first, octets most significant
    first; and its entries in that order. *)
Definition mac_key (mac : Mac) : Z :=
  match mac with
  | Eui48 octets => from_be_bytes octets
  | Eui64 octets => 2 ^ 48 + from_be_bytes octets
  end.

Fixpoint insert_entry (e : Mac * Known) (l : list (Mac * Known)) : list (Mac * Known) :=
  match l with
  | [] => [e]
  | x :: l' => if mac_key e.1 <=? mac_key x.1 then e :: l else x :: insert_entry e l'
  end.

Definition entries (t : gmap Mac Known) : list (Mac * Known) :=
  foldr insert_entry [] (map_to_list t).

(** [event], for a session that comes up: its metrics first, then the table. *)
Definition replay_metrics (session_id : SessionId) : action unit := fun b =>
  if bool_decide (br_session_metrics b = br_initial b) then (Ok tt, b)
  else
    (_ <~ call (send_command_to session_id (SessionUpdate (br_session_metrics b)));; st_ret tt)%stm b.

Fixpoint replay_entries (session_id : SessionId) (l : list (Mac * Known)) : action unit :=
  match l with
  | [] => st_ret tt
  | (mac, known) :: l' =>
      (_ <~ call (send_command_to session_id
                    (AddDestination mac (k_metrics known) (k_addresses known)));;
       replay_entries session_id l')%stm
  end.

Definition on_event (event : DaemonEvent) : action unit :=
  match event with
  | EvSessionUp session_id peer _ =>
      (replay_metrics session_id;;;
       b <~ current;;
       replay_entries session_id (entries (br_destinations b));;;
       send (OutSessionUp session_id (peer_addr peer)))%stm
  | EvSessionDown session_id peer reason => send (OutSessionDown session_id (peer_addr peer) reason)
  | EvDestination session_id _ (DestAnnounced id _) => send (OutDestinationAnnounced session_id id)
  | _ => st_ret tt
  end.

(** [retry]: the command a due entry stands for now, if any. *)
Definition retry_command (b : Bridge D) (retry : Retry) : option SessionCommand :=
  match retry with
  | RetryAdd mac =>
      (fun known => AddDestination mac (k_metrics known) (k_addresses known))
        <$> br_destinations b !! mac
  | RetryDrop mac => Some (DropDestination mac StatusCode.SUCCESS)
  | RetrySessionMetrics => Some (SessionUpdate (br_session_metrics b))
  end.

(** A withdrawn destination that was reported again is added once it is gone. *)
Definition readd (session_id : SessionId) (retry : Retry) (result : outcome DaemonError unit)
    (b : Bridge D) : Bridge D :=
  match retry, result with
  | RetryDrop mac, Ok tt =>
      if is_some (br_destinations b !! mac) then push_retry (RetryAdd mac) b session_id else b
  | _, _ => b
  end.

Fixpoint retry_due (due : list (Instant * SessionId * Retry)) : action unit :=
  match due with
  | [] => st_ret tt
  | (_, session_id, retry) :: due' =>
      (b <~ current;;
       match retry_command b retry with
       | None => st_ret tt
       | Some command =>
           result <~ call (send_command_to session_id command);;
           schedule_busy result retry;;;
           modify (readd session_id retry result)
       end;;;
       retry_due due')%stm
  end.

Definition is_due (now : Instant) (r : Instant * SessionId * Retry) : bool := r.1.1 <=? now.

Definition retry : action unit := fun b =>
  let now := world_now (br_world b) in
  let due := retain (is_due now) (br_retries b) in
  let later := retain (fun r => negb (is_due now r)) (br_retries b) in
  retry_due due (set_retries later b).

End Operations.

(** [Adapter::run]: the bridge before the first event. *)
Definition new_bridge {D} (world : D) (initial : LinkMetrics) : Bridge D :=
  mkBridge world ∅ initial initial ∅ 1 [] [] [].

Definition after {D A} (asked : gset AskId) (r : outcome Empty_set A * Bridge D)
    : outcome Empty_set (gset AskId * Bridge D) :=
  match r with
  | (Ok _, b) => Ok (asked, b)
  | (Err e, _) => match e with end
  | (Panic, _) => Panic
  end.

(** One iteration of the loop of [Adapter::run]; the sessions, the clock and the
    tasks that wait for answers do anything in between.  Each link request comes with
    a channel of its own. *)
Inductive bridge_step {crates : Crates} {host : Host} {subnets : SubnetText} {serde : Serde}
    `{world : BridgeWorld D} (daemon : ModemDaemon)
    : gset AskId * Bridge D -> outcome Empty_set (gset AskId * Bridge D) -> Prop :=
  | step_line asked b line message :
      parse_inbound line = Ok message ->
      bridge_step daemon (asked, b) (after asked (inbound daemon message b))
  | step_ask asked b request answer :
      answer ∉ asked -> br_next_request b < u64_max -> is_metrics (lr_current request) ->
      bridge_step daemon (asked, b) (after ({[answer]} ∪ asked) (ask request answer b))
  | step_event asked b event :
      bridge_step daemon (asked, b) (after asked (on_event event b))
  | step_retry asked b r :
      r ∈ br_retries b -> is_due (world_now (br_world b)) r = true ->
      bridge_step daemon (asked, b) (after asked (retry b))
  | step_world asked b w :
      bridge_step daemon (asked, b) (Ok (asked, set_world w b)).

(** ** What a session shows of the table *)

(** A destination whose Destination Down awaits its response is gone already. *)
Definition live (f : Modem.ModemSessionFsm) (mac : Mac) : option Modem.DestinationState :=
  match per_destination (Modem.tx f) !! mac with
  | Some p => if bool_decide (pending_kind p = RDestinationDown) then None
              else Modem.destinations f !! mac
  | None => Modem.destinations f !! mac
  end.

Definition known_of (d : Modem.DestinationState) : Known :=
  mkKnown (Modem.metrics d) (Modem.addrs d).

Definition view (f : Modem.ModemSessionFsm) (mac : Mac) : option Known := known_of <$> live f mac.

Section Sessions.
Context {crates : Crates}.

Lemma modem_accepted f event info f' acts :
  Modem.step event f = Ok (f', acts) -> command event = Some info -> rejections acts = [] ->
  Modem.check_command f event = Ok tt /\ Modem.dispatch event f = Ok (f', acts)
  /\ Modem.state f = Modem.InSession.
Proof.
  intros Hs Hc Hr. unfold Modem.step in Hs. rewrite Hc in Hs.
  destruct (Modem.check_command f event) as [[]|e|] eqn:E; [|by injection Hs as <- <-|done].
  split; [done|]. split; [by destruct event|].
  unfold Modem.check_command in E. by case_bool_decide.
Qed.

Lemma modem_scope_free f event info mac p :
  Modem.check_scope f event info = Ok tt -> destination info = Some mac ->
  per_destination (Modem.tx f) !! mac = Some p ->
  pending_kind p = RDestinationUp
  /\ match event with AppUpdateMetrics _ _ | AppUpdateAddresses _ _ => True | _ => False end.
Proof.
  unfold Modem.check_scope. intros H Hd Hp. rewrite Hd in H. cbv zeta in H. rewrite Hp in H.
  destruct event; repeat case_match; try done; cbn in *; bprop; done.
Qed.

Lemma view_put f mac d t :
  (forall p, t !! mac = Some p -> pending_kind p <> RDestinationDown) ->
  (forall x, x <> mac -> t !! x = per_destination (Modem.tx f) !! x) ->
  forall x, view (Modem.put_destination mac d
                    (Modem.set_tx (mkTracker (session_pending (Modem.tx f)) t) f)) x
            = if decide (x = mac) then Some (known_of d) else view f x.
Proof.
  intros Ht Hx x. unfold view, live. cbn. destruct (decide (x = mac)) as [->|Hn].
  - rewrite lookup_insert_eq. destruct (t !! mac) as [p|] eqn:E; [|done].
    by rewrite bool_decide_false by (by apply Ht).
  - rewrite lookup_insert_ne, (Hx x Hn) by done. done.
Qed.

(** What each accepted command makes of the view. *)
Lemma add_view f mac m a f' acts :
  Modem.step (AppAddDestination mac m a) f = Ok (f', acts) -> rejections acts = [] ->
  Modem.session_metrics f' = Modem.session_metrics f
  /\ forall x, view f' x
       = if decide (x = mac)
         then Some (mkKnown (overlay (Modem.session_metrics f) m)
                      (addrs_canonical (addrs_canonical a)))
         else view f x.
Proof.
  intros Hs Hr. destruct (modem_accepted _ _ _ _ _ Hs eq_refl Hr) as (Hc & Hd & Hst).
  unfold Modem.dispatch in Hd. rewrite Hst in Hd. unfold Modem.on_app_add_destination in Hd.
  unfold open_destination in Hd.
  destruct (per_destination (Modem.tx f) !! mac) as [p|] eqn:Hp; [done|].
  injection Hd as <- _. split; [done|]. intros x. rewrite view_put.
  - cbn. by rewrite merge_update_overlay.
  - intros p. rewrite lookup_insert_eq. by intros [= <-].
  - intros y Hy. by rewrite lookup_insert_ne.
Qed.

(** The destination an update is for, and the tracker it leaves. *)
Lemma update_target f event mac f' acts info :
  Modem.step event f = Ok (f', acts) -> command event = Some info -> destination info = Some mac ->
  rejections acts = [] ->
  match event with AppUpdateMetrics _ _ | AppUpdateAddresses _ _ => True | _ => False end ->
  forall p, per_destination (Modem.tx f) !! mac = Some p -> pending_kind p <> RDestinationDown.
Proof.
  intros Hs Hi Hm Hr He p Hp. destruct (modem_accepted _ _ _ _ _ Hs Hi Hr) as (Hc & _ & Hst).
  unfold Modem.check_command in Hc. rewrite Hst, Hi in Hc.
  rewrite bool_decide_true in Hc by done. cbn [negb expect mbind outcome_bind] in Hc.
  destruct event; try done; cbn [mbind outcome_bind] in Hc.
  all: destruct (Modem.check_scope f _ info) as [[]|e|] eqn:E; [|done|done].
  all: by destruct (modem_scope_free _ _ _ _ _ E Hm Hp) as [-> _].
Qed.

Lemma update_view f mac m f' acts :
  Modem.step (AppUpdateMetrics mac m) f = Ok (f', acts) -> rejections acts = [] ->
  exists k, view f mac = Some k /\ Modem.session_metrics f' = Modem.session_metrics f
  /\ forall x, view f' x
       = if decide (x = mac) then Some (mkKnown (overlay (k_metrics k) m) (k_addresses k))
         else view f x.
Proof.
  intros Hs Hr. destruct (modem_accepted _ _ _ _ _ Hs eq_refl Hr) as (Hc & Hd & Hst).
  pose proof (update_target f _ mac f' acts _ Hs eq_refl eq_refl Hr I) as Ht.
  unfold Modem.dispatch in Hd. rewrite Hst in Hd. unfold Modem.on_app_update_metrics in Hd.
  destruct (Modem.destinations f !! mac) as [d|] eqn:Ed; [|done]. cbn [expect mbind outcome_bind] in Hd.
  exists (known_of d). split.
  { unfold view, live. rewrite Ed. destruct (per_destination _ !! mac) as [p|]; [|done].
    by rewrite bool_decide_false by (by apply Ht). }
  assert (E : exists d', f' = Modem.put_destination mac d' f
    /\ known_of d' = mkKnown (overlay (Modem.metrics d) m) (Modem.addrs d)).
  { rewrite merge_update_overlay in Hd. destruct (negb _ || _); injection Hd as <- _; by eexists. }
  destruct E as (d' & -> & Ek). split; [done|]. intros x. cbn [known_of k_metrics k_addresses].
  rewrite <-Ek. by rewrite <-(view_put f mac d' (per_destination (Modem.tx f))); [|done|done].
Qed.

Lemma addresses_view f mac ch f' acts :
  Modem.step (AppUpdateAddresses mac ch) f = Ok (f', acts) -> rejections acts = [] ->
  exists k, view f mac = Some k /\ Modem.session_metrics f' = Modem.session_metrics f
  /\ forall x, view f' x
       = if decide (x = mac) then Some (mkKnown (k_metrics k) (apply_lenient ch (k_addresses k)))
         else view f x.
Proof.
  intros Hs Hr. destruct (modem_accepted _ _ _ _ _ Hs eq_refl Hr) as (Hc & Hd & Hst).
  pose proof (update_target f _ mac f' acts _ Hs eq_refl eq_refl Hr I) as Ht.
  unfold Modem.dispatch in Hd. rewrite Hst in Hd. unfold Modem.on_app_update_addresses in Hd.
  destruct (Modem.destinations f !! mac) as [d|] eqn:Ed; [|done]. cbn [expect mbind outcome_bind] in Hd.
  exists (known_of d). split.
  { unfold view, live. rewrite Ed. destruct (per_destination _ !! mac) as [p|]; [|done].
    by rewrite bool_decide_false by (by apply Ht). }
  assert (E : exists d', f' = Modem.put_destination mac d' f
    /\ known_of d' = mkKnown (Modem.metrics d) (apply_lenient ch (Modem.addrs d))).
  { cbv zeta in Hd. destruct (negb _ || _); [injection Hd as <- _; by eexists|].
    destruct (AddressChanges_is_empty _); injection Hd as <- _; by eexists. }
  destruct E as (d' & -> & Ek). split; [done|]. intros x. cbn [known_of k_metrics k_addresses].
  rewrite <-Ek. by rewrite <-(view_put f mac d' (per_destination (Modem.tx f))); [|done|done].
Qed.

Lemma drop_view f mac r f' acts :
  Modem.step (AppDropDestination mac r) f = Ok (f', acts) -> rejections acts = [] ->
  Modem.session_metrics f' = Modem.session_metrics f
  /\ forall x, view f' x = if decide (x = mac) then None else view f x.
Proof.
  intros Hs Hr. destruct (modem_accepted _ _ _ _ _ Hs eq_refl Hr) as (Hc & Hd & Hst).
  unfold Modem.dispatch in Hd. rewrite Hst in Hd. unfold Modem.on_app_drop_destination in Hd.
  destruct (Modem.destinations f !! mac) as [d|] eqn:Ed; [|done]. cbn [expect mbind outcome_bind] in Hd.
  unfold view, live, open_destination, destination_busy in *.
  destruct (per_destination (Modem.tx f) !! mac) as [p|] eqn:Hp.
  { by rewrite andb_false_r in Hd. }
  destruct (negb (Modem.announced d) && _); injection Hd as <- _; (split; [done|]); intros x; cbn;
    destruct (decide (x = mac)) as [->|Hn].
  - by rewrite Hp, lookup_delete_eq.
  - by rewrite lookup_delete_ne.
  - by rewrite lookup_insert_eq.
  - by rewrite lookup_insert_ne.
Qed.

Lemma session_view f m f' acts :
  Modem.step (AppSessionUpdate m) f = Ok (f', acts) -> rejections acts = [] ->
  Modem.session_metrics f' = overlay (Modem.session_metrics f) m
  /\ forall x, view f' x
       = (fun k => mkKnown (overlay (k_metrics k) m) (k_addresses k)) <$> view f x.
Proof.
  intros Hs Hr. destruct (modem_accepted _ _ _ _ _ Hs eq_refl Hr) as (Hc & Hd & Hst).
  unfold Modem.dispatch in Hd. rewrite Hst in Hd. unfold Modem.on_app_session_update in Hd.
  destruct (open_session RSessionUpdate (Modem.tx f)) as [[[]|e|] tx'] eqn:Eo; [|done|done].
  assert (Et : per_destination tx' = per_destination (Modem.tx f)).
  { unfold open_session in Eo. destruct (session_pending (Modem.tx f)); [done|]. by injection Eo as <-. }
  injection Hd as <- _. split; [apply merge_update_overlay|]. intros x.
  unfold view, live. cbn. rewrite Et, lookup_fmap.
  destruct (per_destination (Modem.tx f) !! x) as [p|]; [destruct (bool_decide _); [done|]|];
    destruct (Modem.destinations f !! x); try done; cbn; unfold known_of; cbn;
    by rewrite <-merge_update_overlay.
Qed.
End Sessions.

(** ** Reports and metrics *)

(** A latency the adapter can name. *)
Definition whole_latency (m : LinkMetrics) : Prop :=
  exists us, is_u64 us /\ latency m = from_micros us.

Lemma whole_overlay r base :
  is_report_metrics r -> whole_latency base -> whole_latency (Metrics_overlay r base).
Proof.
  intros (_ & _ & _ & _ & Hl & _) Hb. unfold Metrics_overlay.
  destruct (m_latency_us r) as [us|] eqn:E; [|done]. by exists us.
Qed.

Lemma overlay_report r base : overlay base (Metrics_overlay r base) = Metrics_overlay r base.
Proof.
  unfold overlay, Metrics_overlay. cbn. f_equal; unfold or_else; repeat case_match; congruence.
Qed.

Lemma overlay_link m base :
  whole_latency m -> Metrics_overlay (Metrics_from_link m) base = overlay base m.
Proof.
  intros (us & Hus & El). unfold Metrics_overlay, Metrics_from_link, overlay, duration_us. cbn.
  assert (Ea : as_micros (latency m) = us).
  { rewrite El. unfold as_micros, from_micros. by rewrite Z.div_mul. }
  rewrite Ea, (proj2 (Z.leb_le us u64_max)) by apply Hus. by rewrite <-El.
Qed.

(** ** Calls of the daemon *)

Section Calls.
Context {crates : Crates}.

Lemma encode_check_refuses msg :
  match encode_check msg with Ok _ => True | Err e => accepted_input (Err e) = false | Panic => False end.
Proof.
  unfold encode_check. pose proof (Message_encode_no_panic msg). by destruct (Message_encode msg).
Qed.

Lemma metrics_refuses daemon m :
  match validate_metrics daemon m with
  | Ok _ => True | Err e => accepted_input (Err e) = false | Panic => False
  end.
Proof. unfold validate_metrics. destruct (negb _); [done|apply encode_check_refuses]. Qed.

Lemma addresses_refuse ch :
  match validate_address_changes ch with
  | Ok _ => True | Err e => accepted_input (Err e) = false | Panic => False
  end.
Proof.
  unfold validate_address_changes. pose proof (validate_no_panic ch).
  destruct (validate ch); [|done|done]. cbn. apply encode_check_refuses.
Qed.

Context `{world : BridgeWorld D}.

Lemma dispatch_accepted cmd target (d : D) :
  effective_target cmd target <> None ->
  exists r, dispatch cmd target d = (r, pool_after cmd target d)
    /\ accepted_input r = true /\ r <> Panic.
Proof.
  intros Ht. unfold dispatch, dispatch_command. eexists. split; [reflexivity|].
  destruct (is_some target && _ && _) eqn:E.
  - destruct Ht. unfold effective_target. destruct target as [a|]; [|done].
    destruct (command_target cmd) as [c|]; [|done]. bprop. destruct (Z.eqb_spec a c); [|done].
    subst. done.
  - split; repeat case_match; done.
Qed.

(** The operations of the daemon, as the bridge sees them: the check refuses, or the
    command goes to the sessions. *)
Lemma call_checked check (op : stm D DaemonError unit) (b : Bridge D) :
  match check with Ok _ => True | Err e => accepted_input (Err e) = false | Panic => False end ->
  (exists e, check = Err e /\ accepted_input (Err e) = false
     /\ call (st_lift check;;; op)%stm b = (Ok (Err e), b))
  \/ check = Ok tt /\ call (st_lift check;;; op)%stm b = call op b.
Proof.
  intros H. unfold call, st_bind, st_lift. destruct check as [[]|e|]; [by right| |done].
  left. exists e. split_and!; try done. by destruct b.
Qed.

Lemma call_fanout cmd (b : Bridge D) :
  exists r, accepted_input r = true
    /\ call (fanout cmd) b = (Ok r, set_world (pool_after cmd None (br_world b)) b).
Proof.
  destruct (dispatch_accepted cmd None (br_world b)) as (r & E & Ha & Hp).
  { by destruct (command_target cmd). }
  exists r. split; [done|]. unfold call, fanout. rewrite E. by destruct r.
Qed.

Lemma schedule_busy_retries r retry (b : Bridge D) :
  exists l, schedule_busy r retry b = (Ok tt, set_retries (br_retries b ++ l) b).
Proof.
  unfold schedule_busy, modify, st_modify. generalize (busy_sessions r). intros ids.
  assert (H : forall b' : Bridge D, exists l, foldl (push_retry retry) b' ids
                                             = set_retries (br_retries b' ++ l) b').
  { induction ids as [|id ids IH]; intros b'; [exists []; rewrite app_nil_r; by destruct b'|].
    cbn [foldl]. destruct (IH (push_retry retry b' id)) as [l ->]. unfold push_retry. cbn.
    eexists. unfold set_retries. cbn. by rewrite <-app_assoc. }
  destruct (H b) as [l ->]. by exists l.
Qed.
End Calls.

(** ** Reports *)

Section Reports.
Context {crates : Crates} {host : Host} {subnets : SubnetText} `{world : BridgeWorld D}.
Variable daemon : ModemDaemon.
Implicit Types b : Bridge D.

(** What a report means, when it applies and passes the checks: the command to the
    sessions, the session-wide metrics and the table afterwards. *)
Definition report_effect (msg : Inbound) (b : Bridge D)
    : option (SessionCommand * LinkMetrics * gmap Mac Known) :=
  let wide := br_session_metrics b in
  let table := br_destinations b in
  match msg with
  | InDestinationUp mac r a =>
      match table !! mac, Addresses_parse a with
      | None, Some parsed =>
          let a := addrs_canonical parsed in
          let m := Metrics_overlay r wide in
          Some (AddDestination mac m (addrs_canonical a), wide, <[mac := mkKnown m a]> table)
      | _, _ => None
      end
  | InDestinationUpdate mac r =>
      match table !! mac with
      | Some known =>
          let m := Metrics_overlay r (k_metrics known) in
          Some (UpdateDestination mac m, wide, <[mac := mkKnown m (k_addresses known)]> table)
      | None => None
      end
  | InDestinationAddresses mac add remove =>
      match table !! mac, Addresses_parse add, Addresses_parse remove with
      | Some known, Some added, Some removed =>
          let ch := changes_canonical (mkChanges added removed) in
          Some (UpdateDestinationAddresses mac (changes_canonical ch), wide,
                <[mac := mkKnown (k_metrics known) (apply_lenient ch (k_addresses known))]> table)
      | _, _, _ => None
      end
  | InDestinationDown mac =>
      match table !! mac with
      | Some _ => Some (DropDestination mac StatusCode.SUCCESS, wide, delete mac table)
      | None => None
      end
  | InSessionMetrics r =>
      let m := Metrics_overlay r wide in
      Some (SessionUpdate m, m,
            (fun known => mkKnown (Metrics_overlay (Metrics_from_link m) (k_metrics known))
                            (k_addresses known)) <$> table)
  | InLinkResponse _ _ _ _ | InUnknown => None
  end.

(** What the checks of the daemon establish. *)
Definition command_checked (cmd : SessionCommand) : Prop :=
  match cmd with
  | AddDestination _ m a =>
      validate_metrics daemon m = Ok tt
      /\ validate_address_changes (mkChanges a DestinationAddrs_default) = Ok tt
  | UpdateDestination _ m | SessionUpdate m => validate_metrics daemon m = Ok tt
  | UpdateDestinationAddresses _ ch => True
  | _ => True
  end.

Definition reported (cmd : SessionCommand) (wide : LinkMetrics) (table : gmap Mac Known)
    (more : list (Instant * SessionId * Retry)) (b : Bridge D) : Bridge D :=
  mkBridge (pool_after cmd None (br_world b)) table (br_initial b) wide (br_pending b)
    (br_next_request b) (br_retries b ++ more) (br_out b) (br_answers b).

Definition is_answer (msg : Inbound) : bool :=
  match msg with InLinkResponse _ _ _ _ => true | _ => false end.

(** A report is ignored, refused, or has its effect. *)
Definition effective (m : stm (Bridge D) Empty_set unit) (b : Bridge D)
    (eff : option (SessionCommand * LinkMetrics * gmap Mac Known)) : Prop :=
  exists b', m b = (Ok tt, b')
    /\ (b' = b \/ exists cmd wide table more, eff = Some (cmd, wide, table)
                    /\ command_checked cmd /\ b' = reported cmd wide table more b).

Lemma effective_ignored b eff : effective (fun b => (Ok tt, b)) b eff.
Proof. exists b. auto. Qed.

(** A call behind a check, and the sessions' part of it. *)
Lemma effective_checked check op k b eff :
  match check with Ok _ => True | Err e => accepted_input (Err e) = false | Panic => False end ->
  (check = Ok tt -> effective (st_bind (call op) (fun r => when (accepted_input r) (k r))) b eff) ->
  effective (st_bind (call (st_lift check;;; op)%stm) (fun r => when (accepted_input r) (k r))) b eff.
Proof.
  intros Hc H. unfold effective, st_bind at 1.
  destruct (call_checked check op b Hc) as [(e & _ & Hr & ->)|[Hv ->]].
  - exists b. unfold when. rewrite Hr. auto.
  - by apply H.
Qed.

Lemma effective_fanout cmd k b eff wide table :
  eff = Some (cmd, wide, table) -> command_checked cmd ->
  (forall r, exists more, k r (set_world (pool_after cmd None (br_world b)) b)
                          = (Ok tt, reported cmd wide table more b)) ->
  effective (st_bind (call (fanout cmd)) (fun r => when (accepted_input r) (k r))) b eff.
Proof.
  intros He Hk H. destruct (call_fanout cmd b) as (r & Hr & E). destruct (H r) as [more Ek].
  unfold effective, st_bind, when. rewrite E, Hr, Ek. eexists. split; [reflexivity|].
  right. by exists cmd, wide, table, more.
Qed.

Lemma up_effect mac r a b : effective (on_up daemon mac r a) b (report_effect (InDestinationUp mac r a) b).
Proof.
  unfold effective, on_up. cbn [report_effect].
  destruct (br_destinations b !! mac) eqn:Ek; [apply effective_ignored|].
  destruct (Addresses_parse a) as [parsed|]; [|apply effective_ignored]. cbv zeta.
  apply effective_checked; [apply metrics_refuses|intros Hv].
  apply effective_checked; [apply addresses_refuse|intros Ha]. cbn [added] in *.
  apply effective_checked; [apply encode_check_refuses|intros _].
  eapply effective_fanout; [done|done|]. intros res. unfold st_bind, modify, st_modify.
  match goal with |- context [schedule_busy ?x ?y ?z] => destruct (schedule_busy_retries x y z) as [l ->] end.
  by exists l.
Qed.

Lemma update_effect mac r b :
  effective (on_update daemon mac r) b (report_effect (InDestinationUpdate mac r) b).
Proof.
  unfold effective, on_update. cbn [report_effect].
  destruct (br_destinations b !! mac) as [known|] eqn:Ek; [|apply effective_ignored]. cbv zeta.
  apply effective_checked; [apply metrics_refuses|intros Hv].
  eapply effective_fanout; [done|done|]. intros res. unfold update_known. cbn [set_world br_destinations].
  rewrite Ek. exists []. unfold reported. by rewrite app_nil_r.
Qed.

Lemma addresses_effect mac add remove b :
  effective (on_addresses mac add remove) b (report_effect (InDestinationAddresses mac add remove) b).
Proof.
  unfold effective, on_addresses. cbn [report_effect].
  destruct (br_destinations b !! mac) as [known|] eqn:Ek; [|apply effective_ignored].
  destruct (Addresses_parse add); [|apply effective_ignored].
  destruct (Addresses_parse remove); [|apply effective_ignored]. cbv zeta.
  apply effective_checked; [apply addresses_refuse|intros Hv].
  eapply effective_fanout; [done|done|]. intros res. unfold update_known. cbn [set_world br_destinations].
  rewrite Ek. exists []. unfold reported. by rewrite app_nil_r.
Qed.

Lemma down_effect mac b : effective (on_down mac) b (report_effect (InDestinationDown mac) b).
Proof.
  unfold effective, on_down. cbn [report_effect].
  destruct (br_destinations b !! mac) as [known|] eqn:Ek; [|apply effective_ignored].
  unfold modem_drop_destination, st_bind at 1, modify at 1, st_modify at 1, st_bind at 1.
  match goal with |- context [call (fanout ?c) ?x] => destruct (call_fanout c x) as (res & Hr & ->) end.
  match goal with |- context [schedule_busy ?x ?y ?z] => destruct (schedule_busy_retries x y z) as [l ->] end.
  eexists. split; [reflexivity|]. right. by do 4 eexists.
Qed.

Lemma wide_effect r b : effective (on_session_metrics daemon r) b (report_effect (InSessionMetrics r) b).
Proof.
  unfold effective, on_session_metrics. cbv zeta. cbn [report_effect].
  apply effective_checked; [apply metrics_refuses|intros Hv].
  eapply effective_fanout; [done|done|]. intros res. unfold st_bind, modify, st_modify.
  match goal with |- context [schedule_busy ?x ?y ?z] => destruct (schedule_busy_retries x y z) as [l ->] end.
  by exists l.
Qed.

Lemma inbound_effect msg b :
  is_answer msg = false -> effective (inbound daemon msg) b (report_effect msg b).
Proof.
  destruct msg; try done; intros _; first [apply up_effect|apply update_effect
    |apply addresses_effect|apply down_effect|apply wide_effect|apply effective_ignored].
Qed.
End Reports.

(** ** The modem's sessions as the world *)

(** Sessions, the clock, and the link requests no task waits for any more. *)
Record ModemWorld : Type := mkModemWorld {
  w_sessions : list (SessionEntry Modem.ModemSessionFsm);
  w_now : Instant;
  w_closed : gset AskId;
}.

#[export] Instance modem_world {crates : Crates} : BridgeWorld ModemWorld := {
  world_pool := {|
    pool_channels w := pool_channels (SessionPool := sessions_pool (H := modem_session)) (w_sessions w);
    pool_after cmd target w :=
      mkModemWorld
        (pool_after (SessionPool := sessions_pool (H := modem_session)) cmd target (w_sessions w))
        (w_now w) (w_closed w);
  |};
  world_now := w_now;
  answer_is_closed w a := bool_decide (a ∈ w_closed w);
  answer_received w a := bool_decide (a ∉ w_closed w);
}.

(** A session shows the table: the same session-wide metrics, the same destinations
    with the same metrics and addresses. *)
Definition mirrors {D} (b : Bridge D) (f : Modem.ModemSessionFsm) : Prop :=
  Modem.session_metrics f = br_session_metrics b
  /\ forall mac, view f mac = br_destinations b !! mac.

Section Mirror.
Context {crates : Crates} {host : Host} {subnets : SubnetText}.

Lemma addrs_canonical_idemp a : addrs_canonical (addrs_canonical a) = addrs_canonical a.
Proof.
  pose proof (changes_canonical_idemp (mkChanges a DestinationAddrs_default)) as H.
  by apply (f_equal added) in H.
Qed.

(** The effect of a report on the table is the effect of its command on a session. *)
Lemma effect_mirrored msg (b : Bridge ModemWorld) cmd wide table f f' acts more :
  whole_latency (br_session_metrics b) -> is_report msg -> mirrors b f ->
  report_effect msg b = Some (cmd, wide, table) ->
  Modem.step (command_event cmd) f = Ok (f', acts) -> rejections acts = [] ->
  mirrors (reported cmd wide table more b) f'.
Proof.
  intros Hw Hr [Hs Hv] He Hst Hrej. unfold mirrors, reported. cbn [br_session_metrics br_destinations].
  destruct msg as [mac r a|mac r|mac add remove|mac|r| |]; cbn [report_effect] in He; try done.
  - destruct (br_destinations b !! mac) eqn:Ek; [done|]. destruct (Addresses_parse a); [|done].
    cbv zeta in He. injection He as <- <- <-. cbn [command_event] in Hst.
    destruct (add_view _ _ _ _ _ _ Hst Hrej) as [-> Hf]. split; [done|]. intros x.
    rewrite Hf, Hs, overlay_report, !addrs_canonical_idemp. destruct (decide (x = mac)) as [->|Hn].
    + by rewrite lookup_insert_eq.
    + by rewrite lookup_insert_ne, Hv.
  - destruct (br_destinations b !! mac) as [known|] eqn:Ek; [|done].
    cbv zeta in He. injection He as <- <- <-. cbn [command_event] in Hst.
    destruct (update_view _ _ _ _ _ Hst Hrej) as (k & Hk & -> & Hf). split; [done|]. intros x.
    rewrite Hv, Ek in Hk. injection Hk as <-. rewrite Hf, overlay_report.
    destruct (decide (x = mac)) as [->|Hn]; [by rewrite lookup_insert_eq|by rewrite lookup_insert_ne, Hv].
  - destruct (br_destinations b !! mac) as [known|] eqn:Ek; [|done].
    destruct (Addresses_parse add); [|done]. destruct (Addresses_parse remove); [|done].
    cbv zeta in He. injection He as <- <- <-. cbn [command_event] in Hst.
    destruct (addresses_view _ _ _ _ _ Hst Hrej) as (k & Hk & -> & Hf). split; [done|]. intros x.
    rewrite Hv, Ek in Hk. injection Hk as <-. rewrite Hf, apply_lenient_canonical.
    destruct (decide (x = mac)) as [->|Hn]; [by rewrite lookup_insert_eq|by rewrite lookup_insert_ne, Hv].
  - destruct (br_destinations b !! mac) as [known|] eqn:Ek; [|done].
    injection He as <- <- <-. cbn [command_event] in Hst.
    destruct (drop_view _ _ _ _ _ Hst Hrej) as [-> Hf]. split; [done|]. intros x. rewrite Hf.
    destruct (decide (x = mac)) as [->|Hn]; [by rewrite lookup_delete_eq|by rewrite lookup_delete_ne, Hv].
  - cbv zeta in He. injection He as <- <- <-. cbn [command_event] in Hst.
    destruct (session_view _ _ _ _ Hst Hrej) as [-> Hf]. rewrite Hs, overlay_report.
    split; [done|]. intros x. rewrite Hf, Hv, lookup_fmap.
    apply option_fmap_ext. intros k. cbn. f_equal. symmetry. apply overlay_link.
    by apply whole_overlay.
Qed.

(** What became of a session that took a command. *)
Lemma entry_took cmd target (e e' : SessionEntry Modem.ModemSessionFsm) :
  entry_after (H := modem_session) cmd target e = e' -> se_open e = true ->
  default (se_id e) target = se_id e -> se_open e' = true ->
  rejections (se_actions e') = rejections (se_actions e) ->
  exists acts, Modem.step (command_event cmd) (se_fsm e) = Ok (se_fsm e', acts)
    /\ rejections acts = [].
Proof.
  unfold entry_after. intros He Ho Ht Ho' Hr. rewrite Ho, bool_decide_true in He by done. cbn [andb] in He.
  cbn [fsm_step modem_session] in He.
  destruct (Modem.step (command_event cmd) (se_fsm e)) as [[f acts]|[]|] eqn:Es; subst e'; [|done].
  cbn in *. exists acts. split; [done|]. rewrite rejections_app in Hr.
  apply (f_equal length) in Hr. rewrite length_app in Hr. apply length_zero_iff_nil. lia.
Qed.

(** C15: Reports reach the sessions.  When the adapter reports something, every session
    that shows the bridge's table and does not reject the command shows the new table
    afterwards: destinations, their metrics and addresses, and the session-wide
    metrics are the same on both sides. *)
Theorem reports_mirrored daemon msg (b b' : Bridge ModemWorld) i e e' :
  whole_latency (br_session_metrics b) -> is_report msg -> is_answer msg = false ->
  inbound daemon msg b = (Ok tt, b') ->
  w_sessions (br_world b) !! i = Some e -> w_sessions (br_world b') !! i = Some e' ->
  se_open e = true -> se_open e' = true ->
  rejections (se_actions e') = rejections (se_actions e) ->
  mirrors b (se_fsm e) -> mirrors b' (se_fsm e').
Proof.
  intros Hw Hr Ha Hin He He' Ho Ho' Hrej Hm.
  destruct (inbound_effect daemon msg b Ha) as (b1 & E & Hb). rewrite Hin in E. injection E as <-.
  destruct Hb as [->|(cmd & wide & table & more & Heff & _ & ->)].
  { rewrite He in He'. by injection He' as <-. }
  assert (Ht : effective_target cmd None = Some None).
  { destruct msg; cbn in Heff; repeat case_match; try done; by injection Heff as <-. }
  unfold reported in He'. cbn [br_world w_sessions world_pool modem_world pool_after sessions_pool] in He'.
  rewrite Ht in He'. rewrite list_lookup_fmap, He in He'. injection He' as He'.
  destruct (entry_took cmd None e e' He' Ho eq_refl Ho' Hrej) as (acts & Hst & Hacts).
  by eapply effect_mirrored.
Qed.
End Mirror.

(** ** Replay *)

Section Replay.
Context {crates : Crates} {host : Host}.

(** What the table guarantees of its entries. *)
Definition sound_entry (daemon : ModemDaemon) (k : Known) : Prop :=
  validate_metrics daemon (k_metrics k) = Ok tt
  /\ validate (mkChanges (k_addresses k) DestinationAddrs_default) = Ok tt
  /\ addrs_canonical (k_addresses k) = k_addresses k.

(** What it does not: that the session speaks of addresses of this format, and that the
    Destination Up has a wire form. *)
Definition expressible (format : MacAddressFormat) (wide : LinkMetrics) (mac : Mac) (k : Known) : bool :=
  accepts format mac
  && is_ok (Message_encode (build_destination_up mac (overlay wide (k_metrics k)) (k_addresses k))).

(** The rejection of an entry a session cannot show. *)
Definition refusal (format : MacAddressFormat) (wide : LinkMetrics) (e : Mac * Known)
    : list CommandRejection :=
  if expressible format wide e.1 e.2 then []
  else [mkRejection (mkCommandInfo KAddDestination (Some e.1))
          (if accepts format e.1 then InvalidInput else MacAddressFormatMismatch)].

(** A session that was sent what was replayed so far; nothing of [l] is known to it. *)
Definition awaits (daemon : ModemDaemon) (format : MacAddressFormat) (wide : LinkMetrics)
    (l : list (Mac * Known)) (f : Modem.ModemSessionFsm) : Prop :=
  Modem.state f = Modem.InSession
  /\ initial_metrics (Modem.config f) = md_initial_metrics daemon
  /\ mac_address_format (Modem.config f) = format /\ Modem.session_metrics f = wide
  /\ Forall (fun e : Mac * Known => sound_entry daemon e.2
       /\ Modem.destinations f !! e.1 = None /\ per_destination (Modem.tx f) !! e.1 = None) l.

Lemma add_checked daemon format wide mac k l f :
  awaits daemon format wide ((mac, k) :: l) f ->
  Modem.check_command f (AppAddDestination mac (k_metrics k) (k_addresses k))
  = if expressible format wide mac k then Ok tt
    else Err (if accepts format mac then InvalidInput else MacAddressFormatMismatch).
Proof.
  intros (Hst & Hi & Hf & Hw & [((Hv & Ha & _) & Hd & Hp) _]%Forall_cons). cbn [fst snd] in *.
  unfold Modem.check_command, expressible. rewrite Hst. cbn [command expect mbind outcome_bind].
  rewrite bool_decide_true by done. cbn [negb]. unfold Modem.check_scope. cbn [destination].
  rewrite Hf. destruct (accepts format mac); [|done]. rewrite Hp. cbn [negb mbind outcome_bind andb].
  unfold Modem.check_add. rewrite Hd.
  rewrite (validate_metrics_session f daemon _ Hi Hv), Ha. cbn [negb is_some is_none mbind outcome_bind map_err].
  rewrite merge_update_overlay, Hw.
  pose proof (Message_encode_no_panic (build_destination_up mac (overlay wide (k_metrics k)) (k_addresses k))).
  by destruct (Message_encode _).
Qed.

(** An entry is shown, or refused with nothing changed. *)
Lemma replay_put daemon format wide mac k l f :
  awaits daemon format wide ((mac, k) :: l) f -> mac ∉ l.*1 ->
  exists f' acts,
    Modem.step (AppAddDestination mac (k_metrics k) (k_addresses k)) f = Ok (f', acts)
    /\ rejections acts = refusal format wide (mac, k) /\ awaits daemon format wide l f'
    /\ (expressible format wide mac k = false -> f' = f).
Proof.
  intros Haw Hn. pose proof (add_checked _ _ _ _ _ _ _ Haw) as Hc.
  destruct Haw as (Hst & Hi & Hf & Hw & [(Hk & Hd & Hp) Hl]%Forall_cons). cbn [fst snd] in *.
  unfold Modem.step. cbn [command]. rewrite Hc. unfold refusal. cbn [fst snd].
  destruct (expressible format wide mac k).
  2: { do 2 eexists. split; [reflexivity|]. by split_and!. }
  unfold Modem.accepted, Modem.dispatch. rewrite Hst. unfold Modem.on_app_add_destination, open_destination. rewrite Hp.
  do 2 eexists. split; [reflexivity|]. split; [done|]. split; [|done]. split_and!; [done..|].
  apply Forall_forall. intros [mac' k'] Hin. rewrite Forall_forall in Hl.
  destruct (Hl _ Hin) as (Hk' & Hd' & Hp'). cbn [fst snd] in *.
  assert (mac' <> mac) by (intros ->; apply Hn, list_elem_of_fmap; by exists (mac, k')).
  split_and!; [done|cbn; by rewrite lookup_insert_ne..].
Qed.

Lemma insert_entry_perm e l : insert_entry e l ≡ₚ e :: l.
Proof.
  induction l as [|x l IH]; cbn; [done|]. destruct (_ <=? _); [done|]. rewrite IH.
  apply Permutation_swap.
Qed.

Lemma entries_perm t : entries t ≡ₚ map_to_list t.
Proof.
  unfold entries. induction (map_to_list t) as [|e l IH]; cbn; [done|]. by rewrite insert_entry_perm, IH.
Qed.

(** A command put to one session of the world. *)
Lemma call_session cmd session_id (b : Bridge ModemWorld) i e f' acts :
  command_target cmd = None -> w_sessions (br_world b) !! i = Some e ->
  se_open e = true -> se_id e = session_id -> Modem.step (command_event cmd) (se_fsm e) = Ok (f', acts) ->
  exists r w, call (send_command_to session_id cmd) b = (Ok r, set_world w b)
    /\ w_now w = w_now (br_world b) /\ w_closed w = w_closed (br_world b)
    /\ w_sessions w !! i = Some (mkEntry session_id true f' (se_actions e ++ acts)).
Proof.
  intros Ht He Ho Hid Hst.
  assert (Heff : effective_target cmd (Some session_id) = Some (Some session_id)).
  { unfold effective_target. by rewrite Ht. }
  destruct (dispatch_accepted cmd (Some session_id) (br_world b)) as (r & E & _ & Hp).
  { by rewrite Heff. }
  unfold call, send_command_to. rewrite E. exists r. eexists. split; [by destruct r|].
  split; [done|]. split; [done|].
  cbn [w_sessions world_pool modem_world pool_after sessions_pool]. rewrite Heff, list_lookup_fmap, He.
  cbn [fmap option_fmap option_map]. unfold entry_after. rewrite Ho, Hid, bool_decide_true by done.
  cbn [andb fsm_step modem_session]. by rewrite Hst.
Qed.

(** What a session shows of an entry. *)
Definition shown (format : MacAddressFormat) (wide : LinkMetrics) (mac : Mac) (k : Known) : option Known :=
  if expressible format wide mac k
  then Some (mkKnown (overlay wide (k_metrics k)) (k_addresses k)) else None.

Lemma assoc_notin {A B} `{EqDecision A} (x : A) (l : list (A * B)) : x ∉ l.*1 -> assoc x l = None.
Proof.
  induction l as [|[y v] l IH]; intros Hn; [done|]. cbn in *. rewrite bool_decide_false by set_solver.
  apply IH. set_solver.
Qed.

Lemma replay_entries_mirrored daemon format wide session_id l (b : Bridge ModemWorld) i e :
  NoDup l.*1 -> w_sessions (br_world b) !! i = Some e -> se_open e = true -> se_id e = session_id ->
  awaits daemon format wide l (se_fsm e) ->
  exists w e', replay_entries session_id l b = (Ok tt, set_world w b)
    /\ w_sessions w !! i = Some e' /\ se_open e' = true /\ se_id e' = session_id
    /\ rejections (se_actions e') = rejections (se_actions e) ++ (l ≫= refusal format wide)
    /\ Modem.session_metrics (se_fsm e') = wide
    /\ forall x, view (se_fsm e') x
         = match assoc x l with
           | Some k => match shown format wide x k with Some v => Some v | None => view (se_fsm e) x end
           | None => view (se_fsm e) x
           end.
Proof.
  revert b e. induction l as [|[mac k] l IH]; intros b e Hnd He Ho Hid Haw.
  { exists (br_world b), e. split_and!; try done; [by destruct b|by rewrite app_nil_r|apply Haw]. }
  apply NoDup_cons in Hnd as [Hn Hnd]. cbn [fst] in Hn.
  destruct (replay_put _ _ _ _ _ _ _ Haw Hn) as (f' & acts & Hst & Hrej & Haw' & Hsame).
  destruct (call_session (AddDestination mac (k_metrics k) (k_addresses k)) session_id b i e f' acts
    eq_refl He Ho Hid Hst) as (r & w & E & Hnow & Hcl & Hw).
  destruct (IH (set_world w b) _ Hnd Hw eq_refl eq_refl Haw')
    as (w' & e' & E' & He' & Ho' & Hid' & Hrej' & Hwide & Hv').
  exists w', e'. split_and!; try done.
  - cbn [replay_entries]. unfold st_bind. rewrite E, E'. by destruct b.
  - rewrite Hrej'. cbn [se_actions]. by rewrite rejections_app, Hrej, bind_cons, <-app_assoc.
  - intros x. rewrite Hv'. cbn [assoc se_fsm]. unfold shown, refusal in *. cbn [fst snd] in Hrej.
    destruct (expressible format wide mac k) eqn:Ex; [|rewrite (Hsame eq_refl)].
    + destruct (add_view _ _ _ _ _ _ Hst Hrej) as [_ Hview].
      destruct Haw as (_ & _ & _ & Hsw & [((_ & _ & Hcan) & _) _]%Forall_cons).
      destruct (decide (x = mac)) as [->|Hx].
      * rewrite bool_decide_true, assoc_notin, Ex by done.
        rewrite Hview. rewrite decide_True by done. cbn [snd] in Hcan. by rewrite Hsw, !Hcan.
      * rewrite bool_decide_false by congruence. by rewrite Hview, decide_False by done.
    + case_bool_decide as Hx; [|done]. subst x. by rewrite assoc_notin, Ex by done.
Qed.

Lemma assoc_entries t mac : assoc mac (entries t) = t !! mac.
Proof.
  assert (Hnd : NoDup (entries t).*1) by (rewrite entries_perm; apply NoDup_fst_map_to_list).
  assert (H : forall k, (mac, k) ∈ entries t <-> t !! mac = Some k).
  { intros k. rewrite entries_perm. apply elem_of_map_to_list. }
  revert Hnd H. generalize (t !! mac), (entries t). intros o l. revert o.
  induction l as [|[m k] l IH]; intros o Hnd H.
  { destruct o as [k|]; [|done]. pose proof (proj2 (H k) eq_refl). set_solver. }
  apply NoDup_cons in Hnd as [Hn Hnd]. cbn [assoc fst] in *. case_bool_decide as Hm.
  - subst m. symmetry. apply H. left.
  - apply IH; [done|]. intros k'. rewrite <-H, elem_of_cons. naive_solver.
Qed.

(** A session that has just come up. *)
Definition fresh (daemon : ModemDaemon) (f : Modem.ModemSessionFsm) : Prop :=
  Modem.state f = Modem.InSession /\ initial_metrics (Modem.config f) = md_initial_metrics daemon
  /\ Modem.tx f = TransactionTracker_default /\ Modem.destinations f = ∅.

Lemma replay_metrics_mirrored daemon session_id (b : Bridge ModemWorld) i e :
  w_sessions (br_world b) !! i = Some e -> se_open e = true -> se_id e = session_id ->
  fresh daemon (se_fsm e) -> Modem.session_metrics (se_fsm e) = br_initial b ->
  validate_metrics daemon (br_session_metrics b) = Ok tt ->
  overlay (br_initial b) (br_session_metrics b) = br_session_metrics b ->
  exists w e', replay_metrics session_id b = (Ok tt, set_world w b)
    /\ w_sessions w !! i = Some e' /\ se_open e' = true /\ se_id e' = session_id
    /\ rejections (se_actions e') = rejections (se_actions e)
    /\ Modem.state (se_fsm e') = Modem.InSession /\ Modem.config (se_fsm e') = Modem.config (se_fsm e)
    /\ Modem.session_metrics (se_fsm e') = br_session_metrics b
    /\ Modem.destinations (se_fsm e') = ∅ /\ per_destination (Modem.tx (se_fsm e')) = ∅.
Proof.
  intros He Ho Hid (Hst & Hi & Htx & Hd) Hsm Hv Hov. unfold replay_metrics.
  case_bool_decide as Heq.
  { exists (br_world b), e. split_and!; try done; [by destruct b|by rewrite Hsm|by rewrite Htx]. }
  assert (Hc : Modem.check_command (se_fsm e) (AppSessionUpdate (br_session_metrics b)) = Ok tt).
  { unfold Modem.check_command. rewrite Hst. rewrite bool_decide_true by done.
    cbn [negb command expect mbind outcome_bind]. unfold Modem.check_scope. cbn [destination].
    rewrite Htx. cbn [session_busy TransactionTracker_default session_pending is_some is_none negb mbind outcome_bind].
    cbn [mbind outcome_bind]. by rewrite (validate_metrics_session _ daemon _ Hi Hv). }
  assert (Hs : exists f' acts, Modem.step (AppSessionUpdate (br_session_metrics b)) (se_fsm e) = Ok (f', acts)
    /\ rejections acts = [] /\ Modem.state f' = Modem.InSession
    /\ Modem.config f' = Modem.config (se_fsm e) /\ Modem.destinations f' = ∅
    /\ per_destination (Modem.tx f') = ∅).
  { unfold Modem.step. cbn [command]. rewrite Hc. unfold Modem.accepted, Modem.dispatch. rewrite Hst.
    unfold Modem.on_app_session_update. rewrite Htx. cbn [open_session TransactionTracker_default session_pending].
    do 2 eexists. split; [reflexivity|]. split_and!; [done|done|done| |done]. cbn. by rewrite Hd, fmap_empty. }
  destruct Hs as (f' & acts & Hs & Hrej & Hf').
  destruct (session_view _ _ _ _ Hs Hrej) as [Hm _].
  destruct (call_session (SessionUpdate (br_session_metrics b)) session_id b i e f' acts
    eq_refl He Ho Hid Hs) as (r & w & E & _ & _ & Hw).
  exists w, (mkEntry session_id true f' (se_actions e ++ acts)). unfold st_bind. rewrite E.
  destruct Hf' as (? & ? & ? & ?).
  split_and!; try done; cbn [se_actions se_fsm].
  - by rewrite rejections_app, Hrej, app_nil_r.
  - by rewrite Hm, Hsm.
Qed.

(** A session that comes up: its metrics, then the table. *)
Lemma replay_shows daemon session_id peer exts (b : Bridge ModemWorld) i e :
  w_sessions (br_world b) !! i = Some e -> se_open e = true -> se_id e = session_id ->
  fresh daemon (se_fsm e) -> Modem.session_metrics (se_fsm e) = br_initial b ->
  validate_metrics daemon (br_session_metrics b) = Ok tt ->
  overlay (br_initial b) (br_session_metrics b) = br_session_metrics b ->
  map_Forall (fun _ k => sound_entry daemon k) (br_destinations b) ->
  let format := mac_address_format (Modem.config (se_fsm e)) in
  exists w e', on_event (EvSessionUp session_id peer exts) b
      = (Ok tt, push_line (OutSessionUp session_id (peer_addr peer)) (set_world w b))
    /\ w_sessions w !! i = Some e' /\ se_open e' = true
    /\ rejections (se_actions e')
       = rejections (se_actions e)
         ++ (entries (br_destinations b) ≫= refusal format (br_session_metrics b))
    /\ Modem.session_metrics (se_fsm e') = br_session_metrics b
    /\ forall mac, view (se_fsm e') mac
         = br_destinations b !! mac ≫= shown format (br_session_metrics b) mac.
Proof.
  intros He Ho Hid Hf Hsm Hv Hov Ht format. pose proof Hf as (_ & Hi & _ & _).
  destruct (replay_metrics_mirrored daemon session_id b i e He Ho Hid Hf Hsm Hv Hov)
    as (w & e1 & E1 & He1 & Ho1 & Hid1 & Hrej1 & Hst1 & Hc1 & Hm1 & Hd1 & Hp1).
  destruct (replay_entries_mirrored daemon format
    (br_session_metrics b) session_id (entries (br_destinations b)) (set_world w b) i e1)
    as (w2 & e2 & E2 & He2 & Ho2 & _ & Hrej2 & Hm2 & Hv2); try done.
  { rewrite entries_perm. apply NoDup_fst_map_to_list. }
  { split_and!; [done|by rewrite Hc1|by rewrite Hc1|done|]. apply Forall_forall. intros [mac k] Hin.
    rewrite entries_perm in Hin. apply elem_of_map_to_list in Hin. cbn [fst snd].
    rewrite Hd1, Hp1, !lookup_empty. split_and!; [by eapply Ht|done|done]. }
  exists w2, e2. split_and!; try done.
  - cbn [on_event]. unfold st_bind, current. rewrite E1. cbn [set_world br_destinations]. by rewrite E2.
  - by rewrite Hrej2, Hrej1.
  - intros mac. rewrite Hv2, assoc_entries.
    assert (Hnone : view (se_fsm e1) mac = None) by (unfold view, live; by rewrite Hd1, Hp1, !lookup_empty).
    rewrite Hnone. destruct (br_destinations b !! mac) as [k|]; [|done]. cbn. by destruct (shown _ _ mac k).
Qed.
End Replay.
