(* ===== verification/BridgeRuns.v ===== *)
(** * Runs of the bridge

    What holds at every point of every run of [Adapter::run], whatever the adapter,
    the sessions, the clock and the waiting tasks do: the bridge does not panic, the
    metrics it keeps pass the daemon's checks, link requests are numbered in order and
    each is answered at most once.  With that, what a session that comes up is shown of
    the table, and what a late update of session-wide metrics does to it. *)

From S2P Require Import Prelude Externs CoreTypes Codec CodecItem CodecMessage Addresses Events.
From S2P Require Import SessionCommon Validation SessionFacts SessionRouter SessionModem Lifecycle.
From S2P Require Import RouterInv ModemInv Samples Sessions SessionSteps SessionWire Handshake Exchange.
From S2P Require Import DaemonTypes Timers Runtime Connections DaemonApi Radio Bridge.
Import DataItem.

(** ** Metrics that pass the checks *)

Section Metrics.
Context {crates : Crates}.
Variable daemon : ModemDaemon.

Definition good (m : LinkMetrics) : Prop := validate_metrics daemon m = Ok tt /\ is_metrics m.

(** What the encoder requires of metrics. *)
Definition in_percent (o : option Z) : Prop := default True ((fun v => v <= 100) <$> o).
Definition encodes (m : LinkMetrics) : Prop :=
  as_micros (latency m) <= u64_max
  /\ in_percent (resources m) /\ in_percent (rlq_rx m) /\ in_percent (rlq_tx m).

Lemma is_message_metrics m : is_metrics m -> is_message (build_session_update m).
Proof.
  intros (?&?&?&?&?&?&?&?&?). unfold build_session_update. rewrite push_metric_items_items.
  split; [by unfold is_u16, u16_max|]. cbn [msg_items Message_new app].
  unfold metric_items. destruct m as [m1 m2 m3 m4 m5 r x y z]; cbn in *.
  repeat (apply Forall_cons_2; [done|]).
  destruct r, x, y, z; cbn in *; repeat (apply Forall_cons_2; [done|]); apply Forall_nil_2.
Qed.

Lemma encodes_spec m : is_metrics m -> fits (build_session_update m) <-> encodes m.
Proof.
  intros Hm. pose proof (is_message_metrics m Hm) as Hmsg.
  assert (E : message_encodable (msg_items (build_session_update m)) = true <-> encodes m).
  { unfold build_session_update. rewrite push_metric_items_items. cbn [msg_items Message_new app].
    unfold message_encodable, metric_items, encodes, in_percent.
    rewrite andb_true_iff, Z.leb_le. destruct m as [m1 m2 m3 m4 m5 r x y z]. cbn [latency resources rlq_rx rlq_tx mtu].
    destruct r, x, y, z; cbn [opt_list fmap list_fmap app option_fmap option_map default];
      rewrite ?len_wire_cons; cbn [all encodable]; rewrite ?andb_true_iff, ?Z.leb_le;
      unfold len; cbn [length value_bytes]; rewrite ?length_to_be_bytes; cbn; unfold u16_max; lia. }
  rewrite <-E. split; [by apply encodable_fits|by apply fits_encodable].
Qed.

Lemma good_spec m : is_metrics m ->
  validate_metrics daemon m = Ok tt
  <-> supported_by m (md_initial_metrics daemon) = true /\ encodes m.
Proof.
  intros Hm. rewrite <-encodes_spec by done. unfold validate_metrics, encode_check, fits.
  destruct (supported_by _ _); cbn [negb]; [|split; [done|by intros [? _]]].
  destruct (Message_encode _); cbn; split; try done; by intros [_ ?].
Qed.

Lemma good_overlay base m : good base -> good m -> good (overlay base m).
Proof.
  intros [Hb Tb] [Hm Tm]. pose proof (is_metrics_overlay base m Tb Tm) as T.
  split; [|done]. apply good_spec; [done|].
  apply good_spec in Hb as [Sb (_ & Rb & Xb & Yb)]; [|done].
  apply good_spec in Hm as [Sm (Lm & Rm & Xm & Ym)]; [|done].
  unfold supported_by in *. rewrite !andb_true_iff, !orb_true_iff in *.
  unfold encodes, overlay, or_else, in_percent in *. cbn.
  split.
  - destruct Sb as [[[? ?] ?] ?], Sm as [[[? ?] ?] ?].
    destruct (resources m), (rlq_rx m), (rlq_tx m), (mtu m); auto.
  - destruct (resources m), (rlq_rx m), (rlq_tx m); auto.
Qed.

Lemma is_metrics_report r base :
  is_report_metrics r -> is_metrics base -> is_metrics (Metrics_overlay r base).
Proof.
  intros (?&?&?&?&Hl&?&?&?&?) (?&?&?&?&?&?&?&?&?).
  assert (Hor : forall (P : Z -> Prop) a b, default True (P <$> a) -> default True (P <$> b) ->
    default True (P <$> or_else a b)) by (by intros P [] b).
  assert (Hdef : forall (P : Z -> Prop) o d, default True (P <$> o) -> P d -> P (default d o))
    by (by intros P [] d).
  assert (Hd : forall us, is_u64 us -> is_duration (from_micros us)).
  { intros us Hus. unfold is_duration, from_micros, Duration_MAX, is_u64, u64_max in *. lia. }
  unfold Metrics_overlay, is_metrics.
  cbn [max_data_rate_rx_bps max_data_rate_tx_bps current_data_rate_rx_bps current_data_rate_tx_bps
       latency resources rlq_rx rlq_tx mtu].
  split_and!; first [by apply (Hdef is_u64)|by apply (Hor is_u8)|by apply (Hor is_u16)|idtac].
  destruct (m_latency_us r); auto.
Qed.
End Metrics.

(** ** The invariant *)

(** The link requests sent to the adapter. *)
Definition request_lines (out : list Outbound) : list (Z * Mac) :=
  omap (fun o => match o with OutLinkRequest id _ _ mac _ _ => Some (id, mac) | _ => None end) out.

Definition kept_addresses {crates : Crates} (a : DestinationAddrs) : Prop :=
  addrs_nodup a /\ addrs_canonical a = a.

Record bridge_inv {crates : Crates} {D} (daemon : ModemDaemon) (asked : gset AskId) (b : Bridge D)
    : Prop := {
  inv_wide : good daemon (br_session_metrics b);
  inv_whole : whole_latency (br_session_metrics b);
  inv_initial : overlay (br_initial b) (br_session_metrics b) = br_session_metrics b;
  inv_table : map_Forall (fun _ k => good daemon (k_metrics k) /\ kept_addresses (k_addresses k))
                (br_destinations b);
  inv_next : 1 <= br_next_request b <= u64_max;
  inv_lines : (request_lines (br_out b)).*1 = seqZ 1 (br_next_request b - 1);
  inv_pending : map_Forall (fun id p => (id, p_mac p) ∈ request_lines (br_out b)
                  /\ p_answer p ∈ asked /\ p_answer p ∉ (br_answers b).*1 /\ is_metrics (p_current p))
                (br_pending b);
  inv_channels : forall id id' p p', br_pending b !! id = Some p -> br_pending b !! id' = Some p' ->
                   p_answer p = p_answer p' -> id = id';
  inv_answers : NoDup (br_answers b).*1 /\ Forall (fun a => a.1 ∈ asked
                  /\ default True ((fun m => validate_metrics daemon m = Ok tt) <$> resp_metrics a.2))
                  (br_answers b);
}.

(** Everything but the world, the retries and other lines. *)
Definition same_data {D} (b b' : Bridge D) : Prop :=
  br_destinations b' = br_destinations b /\ br_initial b' = br_initial b
  /\ br_session_metrics b' = br_session_metrics b /\ br_pending b' = br_pending b
  /\ br_next_request b' = br_next_request b /\ br_answers b' = br_answers b
  /\ request_lines (br_out b') = request_lines (br_out b).

Lemma same_data_trans {D} (b b' b'' : Bridge D) : same_data b b' -> same_data b' b'' -> same_data b b''.
Proof. intros (?&?&?&?&?&?&?) (?&?&?&?&?&?&?). split_and!; congruence. Qed.

Lemma request_lines_app l l' : request_lines (l ++ l') = request_lines l ++ request_lines l'.
Proof. apply omap_app. Qed.

Section Preserve.
Context {crates : Crates} {host : Host} {subnets : SubnetText} `{world : BridgeWorld D}.
Variable daemon : ModemDaemon.
Implicit Types b : Bridge D.

Lemma inv_same asked b b' : same_data b b' -> bridge_inv daemon asked b -> bridge_inv daemon asked b'.
Proof.
  intros (Et & Ei & Ew & Ep & En & Ea & El) []. split;
    rewrite ?Et, ?Ei, ?Ew, ?Ep, ?En, ?Ea, ?El; try done.
Qed.

(** *** Events and retries *)

Lemma call_send cmd session_id b :
  command_target cmd = None ->
  exists r, call (send_command_to session_id cmd) b
    = (Ok r, set_world (pool_after cmd (Some session_id) (br_world b)) b).
Proof.
  intros Ht. destruct (dispatch_accepted cmd (Some session_id) (br_world b)) as (r & E & _ & Hp).
  { unfold effective_target. by rewrite Ht. }
  exists r. unfold call, send_command_to. rewrite E. by destruct r.
Qed.

Lemma replay_entries_same session_id l b :
  exists b', replay_entries session_id l b = (Ok tt, b') /\ same_data b b'.
Proof.
  revert b. induction l as [|[mac k] l IH]; intros b; [by exists b|].
  cbn [replay_entries]. unfold st_bind.
  destruct (call_send (AddDestination mac (k_metrics k) (k_addresses k)) session_id b eq_refl) as [r ->].
  destruct (IH (set_world (pool_after (AddDestination mac (k_metrics k) (k_addresses k)) (Some session_id)
    (br_world b)) b)) as (b' & -> & Hs). by exists b'.
Qed.

Lemma event_same event b : exists b', on_event event b = (Ok tt, b') /\ same_data b b'.
Proof.
  assert (Hline : forall o b, request_lines [o] = [] ->
    exists b', send o b = (Ok tt, b') /\ same_data b b').
  { intros o b0 Ho. eexists. split; [reflexivity|]. split_and!; try done. cbn.
    by rewrite request_lines_app, Ho, app_nil_r. }
  destruct event as [| |session_id peer exts|session_id peer reason|session_id peer de| | |]; cbn [on_event];
    try (by exists b); try (by apply Hline).
  - assert (Hm : exists b1, replay_metrics session_id b = (Ok tt, b1) /\ same_data b b1).
    { unfold replay_metrics. case_bool_decide; [by exists b|]. unfold st_bind.
      destruct (call_send (SessionUpdate (br_session_metrics b)) session_id b eq_refl) as [r ->].
      by eexists. }
    destruct Hm as (b1 & E1 & H1). unfold st_bind, current. rewrite E1.
    destruct (replay_entries_same session_id (entries (br_destinations b1)) b1) as (b2 & -> & H2).
    destruct (Hline (OutSessionUp session_id (peer_addr peer)) b2 eq_refl) as (b3 & -> & H3).
    exists b3. split; [done|]. by do 2 (eapply same_data_trans; [eassumption|]).
  - destruct de; try (by exists b). by apply Hline.
Qed.

Lemma retry_due_same due b : exists b', retry_due due b = (Ok tt, b') /\ same_data b b'.
Proof.
  revert b. induction due as [|[[t session_id] r] due IH]; intros b; [by exists b|].
  cbn [retry_due]. unfold st_bind at 1, current. unfold st_bind at 1.
  destruct (retry_command b r) as [cmd|] eqn:Ec; [|apply IH].
  assert (Ht : command_target cmd = None).
  { destruct r; cbn in Ec; [destruct (br_destinations b !! mac); [|done]|..]; by injection Ec as <-. }
  unfold st_bind at 1. destruct (call_send cmd session_id b Ht) as [res ->].
  unfold st_bind at 1.
  match goal with |- context [schedule_busy ?x ?y ?z] => destruct (schedule_busy_retries x y z) as [l ->] end.
  unfold modify, st_modify.
  match goal with |- context [retry_due due ?x] => destruct (IH x) as (b' & -> & Hs) end.
  exists b'. split; [done|]. eapply same_data_trans; [|exact Hs].
  unfold readd. by repeat case_match.
Qed.

Lemma retry_same b : exists b', retry b = (Ok tt, b') /\ same_data b b'.
Proof.
  unfold retry. match goal with |- context [retry_due ?d ?x] => destruct (retry_due_same d x) as (b' & -> & Hs) end.
  by exists b'.
Qed.

(** *** Reports *)

Lemma overlay_absorbs i w r : overlay i w = w -> overlay i (Metrics_overlay r w) = Metrics_overlay r w.
Proof.
  destruct i, w. unfold overlay, Metrics_overlay. cbn. intros [= Er Ex Ey Ez].
  f_equal; unfold or_else in *; repeat case_match; congruence.
Qed.

Lemma checked_addresses a :
  validate_address_changes (mkChanges a DestinationAddrs_default) = Ok tt -> addrs_canonical a = a ->
  kept_addresses a.
Proof.
  unfold validate_address_changes. intros Hv Hc. split; [|done].
  destruct (validate_spec (mkChanges a DestinationAddrs_default)) as [[_ Hu]|[E _]]; [|by rewrite E in Hv].
  destruct Hu as [Hu _]. cbn in Hu. by rewrite <-Hc.
Qed.

Lemma kept_lenient ch a : kept_addresses a -> kept_addresses (apply_lenient ch a).
Proof. intros [Hn Hc]. split; [by apply apply_lenient_nodup|by apply apply_lenient_is_canonical]. Qed.

Lemma report_inv asked msg b :
  is_report msg -> is_answer msg = false -> bridge_inv daemon asked b ->
  exists b', inbound daemon msg b = (Ok tt, b') /\ bridge_inv daemon asked b'.
Proof.
  intros Hr Ha Hi. destruct (inbound_effect daemon msg b Ha) as (b' & -> & Hb). exists b'.
  split; [done|]. destruct Hb as [->|(cmd & wide & table & more & He & Hc & ->)]; [done|].
  destruct Hi as [Hw Hwh Hin Ht Hn Hl Hp Hch Han].
  assert (Hdata : good daemon wide /\ whole_latency wide /\ overlay (br_initial b) wide = wide
    /\ map_Forall (fun _ k => good daemon (k_metrics k) /\ kept_addresses (k_addresses k)) table).
  { destruct msg as [mac r a|mac r|mac add remove|mac|r| |]; cbn [report_effect is_report] in *; try done.
    - destruct (br_destinations b !! mac) eqn:Ek; [done|]. destruct (Addresses_parse a) as [parsed|]; [|done].
      cbv zeta in He. injection He as <- <- <-. destruct Hc as [Hv Hva], Hr as [_ Hr].
      split_and!; try done. apply map_Forall_insert_2; [|done]. split.
      + split; [done|]. apply is_metrics_report; [done|apply Hw].
      + rewrite addrs_canonical_idemp in Hva. apply checked_addresses; [done|apply addrs_canonical_idemp].
    - destruct (br_destinations b !! mac) as [known|] eqn:Ek; [|done].
      cbv zeta in He. injection He as <- <- <-. split_and!; try done.
      destruct (Ht _ _ Ek) as [[_ Hk] Hka], Hr as [_ Hr].
      apply map_Forall_insert_2; [|done]. split; [|done]. split; [done|by apply is_metrics_report].
    - destruct (br_destinations b !! mac) as [known|] eqn:Ek; [|done].
      destruct (Addresses_parse add); [|done]. destruct (Addresses_parse remove); [|done].
      cbv zeta in He. injection He as <- <- <-. split_and!; try done.
      destruct (Ht _ _ Ek) as [Hk Hka]. apply map_Forall_insert_2; [|done]. split; [done|].
      by apply kept_lenient.
    - destruct (br_destinations b !! mac) as [known|] eqn:Ek; [|done].
      injection He as <- <- <-. split_and!; try done. by apply map_Forall_delete.
    - cbv zeta in He. injection He as <- <- <-. pose proof (whole_overlay _ _ Hr Hwh) as Hwh'.
      assert (Hg : good daemon (Metrics_overlay r (br_session_metrics b))).
      { split; [done|]. apply is_metrics_report; [done|apply Hw]. }
      split_and!; [done|done|by apply overlay_absorbs|]. apply map_Forall_fmap. intros mac k Hk.
      destruct (Ht _ _ Hk) as [Hkg Hka]. cbn. split; [|done]. rewrite overlay_link by done.
      by apply good_overlay. }
  destruct Hdata as (? & ? & ? & ?). by split.
Qed.

(** *** Link requests *)

Lemma ask_inv asked request answer b :
  answer ∉ asked -> br_next_request b < u64_max -> is_metrics (lr_current request) ->
  bridge_inv daemon asked b ->
  exists b', ask request answer b = (Ok tt, b') /\ bridge_inv daemon ({[answer]} ∪ asked) b'.
Proof.
  intros Hf Hn Hm Hi. destruct Hi as [? ? ? ? Hnext Hl Hp Hch [Hnd Hall]].
  unfold ask, increment. rewrite (proj2 (Z.ltb_lt _ _)) by done.
  eexists. split; [reflexivity|]. set (n := br_next_request b) in *.
  assert (Hlines : request_lines (br_out b ++ [OutLinkRequest n (lr_session_id request)
      (peer_addr (lr_peer request)) (lr_id request) (mkRequested
         (req_data_rate_rx_bps (lr_requested request)) (req_data_rate_tx_bps (lr_requested request))
         (duration_us <$> req_latency (lr_requested request))) (Metrics_from_link (lr_current request))])
    = request_lines (br_out b) ++ [(n, lr_id request)]) by apply request_lines_app.
  assert (Hold : forall id p, filter (fun kp : Z * Pending => answer_is_closed (br_world b) (p_answer kp.2) = false)
      (br_pending b) !! id = Some p -> br_pending b !! id = Some p)
    by (intros id p Hlk; by apply map_lookup_filter_Some in Hlk as [? _]).
  assert (Hnew : n ∉ dom (br_pending b)).
  { intros [p Hpn]%elem_of_dom. apply Hp in Hpn as [Hin _].
    apply (list_elem_of_fmap_2 fst) in Hin. rewrite Hl in Hin. apply elem_of_seqZ in Hin. cbn in Hin. lia. }
  split; cbn [set_pending push_line set_next br_session_metrics br_initial br_destinations br_next_request
              br_out br_pending br_answers]; try done.
  - lia.
  - rewrite Hlines, fmap_app, Hl. cbn. replace (n + 1 - 1) with (n - 1 + 1) by lia.
    rewrite seqZ_app by lia. f_equal. replace (1 + (n - 1)) with n by lia. by rewrite seqZ_cons by lia.
  - rewrite Hlines. apply map_Forall_insert_2.
    + cbn. split_and!; [set_solver|set_solver| |done].
      intros Hin. apply list_elem_of_fmap in Hin as (a & -> & Hina). rewrite Forall_forall in Hall.
      by destruct (Hall a Hina).
    + intros id p Hid%Hold. destruct (Hp _ _ Hid) as (? & ? & ? & ?). split_and!; set_solver.
  - intros id id' p p'. assert (Hna : forall id p, br_pending b !! id = Some p -> p_answer p <> answer).
    { intros x q Hx Hq. destruct (Hp _ _ Hx) as (_ & Hasked & _). by rewrite Hq in Hasked. }
    rewrite !lookup_insert_Some. intros [[<- <-]|[_ H1%Hold]] [[<- <-]|[_ H2%Hold]]; cbn; try done.
    + intros E. by destruct (Hna _ _ H2).
    + intros E. by destruct (Hna _ _ H1).
    + by apply Hch.
  - split; [done|]. eapply Forall_impl; [exact Hall|]. intros a [? ?]. split; [set_solver|done].
Qed.

(** The request is answered, or will never be: either way it is not pending. *)
Lemma settle_inv asked request pending b :
  br_pending b !! request = Some pending -> bridge_inv daemon asked b ->
  bridge_inv daemon asked (set_pending (delete request (br_pending b)) b).
Proof.
  intros Hr []. split; try done; cbn [set_pending br_pending].
  - by apply map_Forall_delete.
  - intros id id' p p' [_ H1]%lookup_delete_Some [_ H2]%lookup_delete_Some. eauto.
Qed.

Lemma answer_inv asked a r b :
  bridge_inv daemon asked b -> a ∈ asked -> a ∉ (br_answers b).*1 ->
  (forall id p, br_pending b !! id = Some p -> p_answer p <> a) ->
  default True ((fun m => validate_metrics daemon m = Ok tt) <$> resp_metrics r) ->
  bridge_inv daemon asked (push_answer (a, r) b).
Proof.
  intros [? ? ? ? ? ? Hp ? [Hnd Hall]] Ha Hn Hpa Hr. split; try done; cbn [push_answer br_pending br_answers br_out].
  - intros id p Hid. destruct (Hp _ _ Hid) as (? & ? & ? & ?). split_and!; try done.
    rewrite fmap_app. cbn. pose proof (Hpa _ _ Hid). set_solver.
  - rewrite fmap_app. cbn. split.
    + apply NoDup_app. split_and!; [done|set_solver|apply NoDup_singleton].
    + apply Forall_app. split; [done|]. by apply Forall_singleton.
Qed.

Lemma grant_inv asked mac status metrics b :
  default True (good daemon <$> metrics) -> bridge_inv daemon asked b ->
  bridge_inv daemon asked (grant mac status metrics b).
Proof.
  intros Hm Hi. unfold grant. destruct status; [|done]. destruct metrics as [m|]; [|done].
  destruct (br_destinations b !! mac) as [known|] eqn:Ek; [|done]. destruct Hi as [? ? ? Ht ? ? ? ? ?].
  split; try done. cbn. apply map_Forall_insert_2; [|done]. by destruct (Ht _ _ Ek).
Qed.

Lemma link_response_inv asked request status text metrics b :
  default True (is_report_metrics <$> metrics) -> bridge_inv daemon asked b ->
  exists b', on_link_response daemon request status text metrics b = (Ok tt, b')
    /\ bridge_inv daemon asked b'.
Proof.
  intros Hr Hi. unfold on_link_response.
  destruct (br_pending b !! request) as [pending|] eqn:Ep; [|by exists b]. cbv zeta.
  pose proof (settle_inv asked request pending b Ep Hi) as Hs.
  destruct Hi as [_ _ _ _ _ _ Hp Hch _]. destruct (Hp _ _ Ep) as (_ & Ha & Hna & Hcur).
  assert (Hfree : forall id p, delete request (br_pending b) !! id = Some p -> p_answer p <> p_answer pending).
  { intros id p [Hne H]%lookup_delete_Some E. apply Hne. by rewrite (Hch _ _ _ _ H Ep E). }
  set (b1 := set_pending _ b) in *. set (m' := (fun m => Metrics_overlay m (p_current pending)) <$> metrics).
  assert (Hty : default True (is_metrics <$> m')).
  { subst m'. destruct metrics; cbn; [by apply is_metrics_report|done]. }
  destruct (answer_is_closed _ _); [by exists b1|].
  assert (Hanswer : forall r, default True ((fun m => validate_metrics daemon m = Ok tt) <$> resp_metrics r) ->
    bridge_inv daemon asked (push_answer (p_answer pending, r) b1)) by (intros r; by apply answer_inv).
  destruct (match m' with Some m => _ | None => false end) eqn:Ev.
  - eexists. split; [reflexivity|]. destruct (answer_received _ _); [by apply Hanswer|done].
  - assert (Hok : default True ((fun m => validate_metrics daemon m = Ok tt) <$> m')).
    { destruct m' as [m|]; [|done]. cbn. by destruct (validate_metrics daemon m) as [[]| |]. }
    destruct (answer_received _ _); (eexists; split; [reflexivity|]); [|done].
    apply grant_inv; [|by apply Hanswer]. destruct m'; [|done]. by split.
Qed.

(** ** Runs *)

Context {serde : Serde}.

Inductive bridge_runs : gset AskId * Bridge D -> outcome Empty_set (gset AskId * Bridge D) -> Prop :=
  | runs_start st : bridge_runs st (Ok st)
  | runs_step st st' st'' : bridge_runs st (Ok st') -> bridge_step daemon st' st'' -> bridge_runs st st''.

Lemma parse_typed line m : parse_inbound line = Ok m -> is_report m.
Proof.
  unfold parse_inbound. destruct (from_str line) as [v|]; [|done]. destruct v as [|o|]; [done| |done].
  destruct (assoc _ o) as [[kind| |]|]; try done.
  destruct (assoc kind INBOUND_FIELDS) as [fields|]; [destruct (unknown_field fields o); [done|]|]; cbn;
    destruct (from_value (VObject o)) as [m'|] eqn:E; try done; intros [= <-]; by eapply from_value_typed.
Qed.

Lemma step_inv asked b st :
  bridge_inv daemon asked b -> bridge_step daemon (asked, b) st ->
  exists asked' b', st = Ok (asked', b') /\ bridge_inv daemon asked' b'.
Proof.
  intros Hi Hs. inversion Hs; subst.
  - match goal with H : parse_inbound _ = Ok ?m |- _ => pose proof (parse_typed _ _ H) as Hr; rename m into msg end.
    assert (H : exists b', inbound daemon msg b = (Ok tt, b') /\ bridge_inv daemon asked b').
    { destruct msg; try (by apply report_inv). destruct Hr as [_ Hr]. by apply link_response_inv. }
    destruct H as (b' & -> & Hb'). by exists asked, b'.
  - match goal with |- context [ask ?r ?a b] => destruct (ask_inv asked r a b) as (b' & -> & Hb'); try done end.
    by eexists _, b'.
  - match goal with |- context [on_event ?e b] => destruct (event_same e b) as (b' & -> & Hs') end.
    exists asked, b'. split; [done|]. by eapply inv_same.
  - destruct (retry_same b) as (b' & -> & Hs'). exists asked, b'. split; [done|]. by eapply inv_same.
  - eexists _, _. split; [done|]. by eapply inv_same; [|exact Hi].
Qed.

Lemma new_inv (w : D) initial :
  good daemon initial -> whole_latency initial -> bridge_inv daemon ∅ (new_bridge w initial).
Proof.
  intros Hg Hw. split; try done; cbn.
  - unfold overlay, or_else. destruct initial; cbn. f_equal; by case_match.
  - split; [apply NoDup_nil_2|apply Forall_nil_2].
Qed.

Lemma runs_inv (w : D) initial st :
  good daemon initial -> whole_latency initial ->
  bridge_runs (∅, new_bridge w initial) st ->
  exists asked b, st = Ok (asked, b) /\ bridge_inv daemon asked b.
Proof.
  intros Hg Hw Hr. remember (∅, new_bridge w initial) as st0 eqn:E0.
  induction Hr as [st|st st' st'' _ IH Hs]; subst.
  - eexists _, _. split; [done|]. by apply new_inv.
  - destruct (IH eq_refl) as (asked & b & [= ->] & Hi). by eapply step_inv.
Qed.

(** C17: The bridge is safe.  Started with the configured metrics, at every point of every
    run, whatever the adapter reports and the sessions answer: no [expect] and no
    counter panics; the session-wide metrics and those of every known destination pass
    the daemon's checks, addresses are canonical and without duplicates; the link
    requests sent to the adapter are numbered 1, 2, ... in order; each waiting task is
    answered at most once, with metrics that pass the checks, and the pending requests
    are sent ones that have no answer yet.  Nothing is said of how many addresses a
    destination accumulates. *)
Theorem bridge_safe (w : D) initial st :
  good daemon initial -> whole_latency initial ->
  bridge_runs (∅, new_bridge w initial) st ->
  exists asked b, st = Ok (asked, b) /\ bridge_inv daemon asked b.
Proof. apply runs_inv. Qed.
End Preserve.

(** ** What a session is shown *)

Section Shown.
Context {crates : Crates} {host : Host} {subnets : SubnetText} {serde : Serde}.
Variable daemon : ModemDaemon.

Lemma kept_valid a : kept_addresses a -> validate (mkChanges a DestinationAddrs_default) = Ok tt.
Proof.
  intros [Hn Hc]. destruct (validate_spec (mkChanges a DestinationAddrs_default)) as [[E _]|[_ []]]; [done|].
  unfold changes_canonical. cbn [added removed]. rewrite Hc. split_and!; [done|by repeat constructor|].
  intros e _. by destruct e; intros ?%elem_of_nil.
Qed.

Lemma inv_sound {D} asked (b : Bridge D) :
  bridge_inv daemon asked b -> map_Forall (fun _ k => sound_entry daemon k) (br_destinations b).
Proof.
  intros Hi mac k Hk. destruct (inv_table _ _ _ Hi mac k Hk) as [[Hv _] Ha].
  split_and!; [done|by apply kept_valid|apply Ha].
Qed.

(** C16: New sessions are brought up to date.  At any point of any run of the bridge, when a
    session comes up, the bridge sends it the session-wide metrics, if they changed,
    which it takes, and every destination of the table, in the order of their MAC
    addresses.  The session takes exactly those whose MAC address has the format of the
    session and whose Destination Up can be encoded, and refuses each of the others, for
    the one reason or the other; it then shows exactly the entries it took, with the
    session-wide values of metrics a destination has none of. *)
Theorem replay_complete w0 initial asked (b : Bridge ModemWorld) session_id peer exts i e :
  good daemon initial -> whole_latency initial ->
  bridge_runs daemon (∅, new_bridge w0 initial) (Ok (asked, b)) ->
  w_sessions (br_world b) !! i = Some e -> se_open e = true -> se_id e = session_id ->
  fresh daemon (se_fsm e) -> Modem.session_metrics (se_fsm e) = br_initial b ->
  let format := mac_address_format (Modem.config (se_fsm e)) in
  exists w e', on_event (EvSessionUp session_id peer exts) b
      = (Ok tt, push_line (OutSessionUp session_id (peer_addr peer)) (set_world w b))
    /\ w_sessions w !! i = Some e' /\ se_open e' = true
    /\ rejections (se_actions e')
       = rejections (se_actions e)
         ++ (entries (br_destinations b) ≫= refusal format (br_session_metrics b))
    /\ Modem.session_metrics (se_fsm e') = br_session_metrics b
    /\ forall mac, view (se_fsm e') mac
         = br_destinations b !! mac ≫= shown format (br_session_metrics b) mac.
Proof.
  intros Hg Hw Hr He Ho Hid Hf Hsm format.
  destruct (runs_inv daemon w0 initial _ Hg Hw Hr) as (asked' & b' & [= <- <-] & Hi).
  apply (replay_shows daemon); try done; [apply Hi|apply Hi|by eapply inv_sound].
Qed.

(** A session update is taken by a session that has none outstanding. *)
Lemma session_update_taken f m :
  Modem.state f = Modem.InSession -> session_pending (Modem.tx f) = None ->
  initial_metrics (Modem.config f) = md_initial_metrics daemon -> validate_metrics daemon m = Ok tt ->
  exists f' acts, Modem.step (AppSessionUpdate m) f = Ok (f', acts) /\ rejections acts = [].
Proof.
  intros Hst Hp Hi Hv. unfold Modem.step. cbn [command].
  assert (Hc : Modem.check_command f (AppSessionUpdate m) = Ok tt).
  { unfold Modem.check_command. rewrite Hst. rewrite bool_decide_true by done.
    cbn [negb command expect mbind outcome_bind]. unfold Modem.check_scope. cbn [destination].
    unfold session_busy. rewrite Hp. cbn [is_some mbind outcome_bind].
    by rewrite (validate_metrics_session _ daemon _ Hi Hv). }
  rewrite Hc. unfold Modem.accepted, Modem.dispatch. rewrite Hst.
  unfold Modem.on_app_session_update, open_session. rewrite Hp. by do 2 eexists.
Qed.

End Shown.

(** ** Sample runs *)

Section Examples.
#[local] Existing Instance reference_crates.

#[local] Instance idle_host : Host :=
  {| World := unit; Payload := Empty_set; write_all _ w := (true, w) |}.

(** An adapter that reports one destination. *)
#[local] Instance sample_subnets : SubnetText.
Proof. by refine {| parse_v4net := fun _ => None; parse_v6net := fun _ => None |}. Defined.

#[local] Instance sample_serde : Serde.
Proof.
  refine {| from_str := fun line => Some (VObject [(str "type", VString line)]);
            from_value := fun v =>
              match v with
              | VObject [(_, VString kind)] =>
                  Some (if bool_decide (kind = str "up")
                        then InDestinationUp sample_mac Metrics_default Addresses_default else InUnknown)
              | _ => None
              end |}.
  intros v m. repeat case_match; try done; intros [= <-]; [|done].
  split; [|done]. split; [|done]. apply (bool_decide_unpack _). by vm_compute.
Defined.

Definition radio_metrics : LinkMetrics :=
  mkLinkMetrics 1000000 500000 800000 400000 2000 None None None (Some 1500).
Definition radio_config : SessionConfig :=
  mkConfig FormatEui48 (str "dlep-modem") radio_metrics 5000 (from_millis 5000) None [] false.
Definition radio_modem : Modem.ModemSessionFsm :=
  match exec Modem.step (Modem.with_config radio_config) modem_events with
  | Some (s, _) => s
  | None => Modem.with_config radio_config
  end.

Definition radio_daemon : ModemDaemon := mkModemDaemon radio_metrics.
Definition one_session (f : Modem.ModemSessionFsm) : ModemWorld :=
  mkModemWorld [mkEntry 7 true f []] 0 ∅.
Definition radio_start : Bridge ModemWorld :=
  new_bridge (one_session radio_modem) radio_metrics.
Definition up_report : Inbound := InDestinationUp sample_mac Metrics_default Addresses_default.
Definition radio_up : Bridge ModemWorld := (inbound radio_daemon up_report radio_start).2.

Lemma radio_initial_ok : good radio_daemon radio_metrics.
Proof. split; [by vm_compute|]. by repeat split. Qed.

Lemma radio_initial_whole : whole_latency radio_metrics.
Proof. by exists 2. Qed.

Lemma radio_up_reached :
  bridge_runs radio_daemon (∅, radio_start) (Ok (∅, radio_up)).
Proof.
  eapply runs_step; [apply runs_start|].
  replace (Ok (∅, radio_up)) with (after ∅ (inbound radio_daemon up_report radio_start)) by by vm_compute.
  by apply (step_line radio_daemon ∅ radio_start (str "up")).
Qed.

Lemma bridge_safe_witness :
  exists k, br_destinations radio_up !! sample_mac = Some k
    /\ validate_metrics radio_daemon (k_metrics k) = Ok tt.
Proof.
  destruct (bridge_safe radio_daemon (one_session radio_modem) radio_metrics
    (Ok (∅, radio_up)) radio_initial_ok radio_initial_whole radio_up_reached) as (asked & b & E & Hi).
  apply (f_equal (fun o => match o with Ok (_, x) => x | _ => radio_start end)) in E. cbv beta iota in E.
  destruct Hi as [_ _ _ Ht _ _ _ _ _]. rewrite <-E in Ht.
  destruct (br_destinations radio_up !! sample_mac) as [k|] eqn:Ek.
  - exists k. split; [reflexivity|]. by destruct (Ht _ _ Ek) as [[? _] _].
  - exfalso. by vm_compute in Ek.
Defined.

Lemma reports_mirrored_witness :
  exists e', w_sessions (br_world radio_up) !! 0%nat = Some e' /\ mirrors radio_up (se_fsm e').
Proof.
  assert (Hf : match w_sessions (br_world radio_up) !! 0%nat with
               | Some e => se_open e = true /\ rejections (se_actions e) = [] | None => False end)
    by (vm_compute; split; reflexivity).
  assert (Hin : inbound radio_daemon up_report radio_start = (Ok tt, radio_up))
    by (vm_compute; reflexivity).
  destruct (w_sessions (br_world radio_up) !! 0%nat) as [e'|] eqn:E'; [|destruct Hf].
  exists e'. split; [reflexivity|].
  apply (reports_mirrored radio_daemon up_report radio_start radio_up 0 (mkEntry 7 true radio_modem []) e').
  - apply radio_initial_whole.
  - split; [apply sample_mac_ok|]. repeat split.
  - reflexivity.
  - exact Hin.
  - reflexivity.
  - exact E'.
  - reflexivity.
  - apply Hf.
  - apply Hf.
  - split; [vm_compute; reflexivity|]. intros mac. unfold view, live.
    assert (Ht : per_destination (Modem.tx radio_modem) = ∅) by (vm_compute; reflexivity).
    assert (Hd : Modem.destinations radio_modem = ∅) by (vm_compute; reflexivity).
    cbn [se_fsm]. rewrite Ht, Hd, !lookup_empty. reflexivity.
Defined.

(** The bridge of [radio_up] when another session comes up. *)
Definition radio_next : Bridge ModemWorld := set_world (one_session radio_modem) radio_up.
Definition radio_peer : PeerInfo := mkPeer (SocketV4 2130706433 854) false None.

Lemma radio_next_reached :
  bridge_runs radio_daemon (∅, radio_start) (Ok (∅, radio_next)).
Proof. eapply runs_step; [apply radio_up_reached|]. apply step_world. Qed.

Lemma replay_complete_witness :
  exists w e', on_event (EvSessionUp 7 radio_peer []) radio_next
      = (Ok tt, push_line (OutSessionUp 7 (peer_addr radio_peer)) (set_world w radio_next))
    /\ w_sessions w !! 0%nat = Some e'
    /\ rejections (se_actions e') = [] /\ is_some (view (se_fsm e') sample_mac) = true.
Proof.
  destruct (replay_complete radio_daemon (one_session radio_modem) radio_metrics ∅ radio_next 7 radio_peer [] 0
    (mkEntry 7 true radio_modem []) radio_initial_ok radio_initial_whole radio_next_reached)
    as (w & e' & E & He & _ & Hr & _ & Hv).
  - reflexivity.
  - reflexivity.
  - reflexivity.
  - split_and!; by vm_compute.
  - by vm_compute.
  - exists w, e'. split; [exact E|]. split; [exact He|]. rewrite Hv, Hr. split; by vm_compute.
Defined.

(** *** A late session update *)

(** The session receives a message; then it is [now]. *)
Definition hear (msg : Message) (now : Instant) (b : Bridge ModemWorld) : Bridge ModemWorld :=
  set_world (mkModemWorld
    ((fun e => match Modem.step (RecvMessage msg) (se_fsm e) with
               | Ok (f, acts) => mkEntry (se_id e) (se_open e) f (se_actions e ++ acts)
               | _ => e
               end) <$> w_sessions (br_world b)) now (w_closed (br_world b))) b.

Definition rate_report (v : Z) : Metrics := mkMetrics None None (Some v) None None None None None None.
Definition report (msg : Inbound) (b : Bridge ModemWorld) : Bridge ModemWorld :=
  (inbound radio_daemon msg b).2.

(** The destination is confirmed; session-wide metrics are reported twice, the second
    time while the first Session Update awaits its response; then the destination's
    own rate is reported. *)
Definition rate_reported : Bridge ModemWorld :=
  report (InDestinationUpdate sample_mac (rate_report 5))
    (report (InSessionMetrics (rate_report 20))
      (report (InSessionMetrics (rate_report 10))
        (hear (build_destination_up_response sample_mac StatusCode.SUCCESS) 0 radio_up))).

(** The response arrives and the retry is due. *)
Definition rate_due : Bridge ModemWorld :=
  hear (build_session_update_response StatusCode.SUCCESS) RETRY_DELAY rate_reported.

Definition rate_entry : SessionEntry Modem.ModemSessionFsm :=
  default (mkEntry 7 true radio_modem []) (w_sessions (br_world rate_due) !! 0%nat).

Definition table_rate (b : Bridge ModemWorld) : option Z :=
  (fun k => current_data_rate_rx_bps (k_metrics k)) <$> br_destinations b !! sample_mac.

Lemma single_None {V} (m : gmap Mac V) mac :
  (exists v, m = {[sample_mac := v]}) -> mac <> sample_mac -> m !! mac = None.
Proof. intros [v ->] Hne. by apply lookup_singleton_ne. Qed.

Lemma rate_shown mac : view (se_fsm rate_entry) mac = br_destinations rate_due !! mac.
Proof.
  destruct (decide (mac = sample_mac)) as [->|Hne]; [vm_compute; reflexivity|].
  rewrite (single_None (br_destinations rate_due)); [|eexists; vm_compute; reflexivity|done].
  unfold view, live.
  rewrite (single_None (Modem.destinations (se_fsm rate_entry))); [|eexists; vm_compute; reflexivity|done].
  destruct (per_destination _ !! mac); [by destruct (bool_decide _)|done].
Qed.


End Examples.
