(* ===== verification/Monitor.v ===== *)
(** * Monitoring of connections for GTSM

    [dlep-net/src/tcp_monitor.rs]: a packet socket sees every IP packet of the host;
    a filter in the kernel discards those that left their sender with the required
    TTL, the parser finds the TCP connection of the others, and the monitor resets
    that connection if it is registered. *)

From S2P Require Import Prelude CoreTypes Addresses Events Connections.

(** ** The monitor's connections *)

Record Connection : Type := mkConnection {
  c_local : SocketAddr;
  c_peer : SocketAddr;
}.

#[global] Instance Connection_eq_dec : EqDecision Connection.
Proof. solve_decision. Defined.

#[global] Instance Connection_countable : Countable Connection.
Proof.
  refine (inj_countable' (fun c => (c_local c, c_peer c)) (fun x => mkConnection x.1 x.2) _).
  by intros [].
Defined.

(** A cloned socket, by identity ([Arc::ptr_eq]). *)
Abbreviation SocketRef := Z.

Record MonitorState : Type := mkMonitor {
  sockets : gmap Connection SocketRef;
  failed : bool;
}.

Definition MonitorState_default : MonitorState := mkMonitor ∅ false.

Definition normalize (addr : SocketAddr) : SocketAddr :=
  match addr with
  | SocketV6 ip port _ _ =>
      match to_ipv4_mapped ip with
      | Some v4 => SocketV4 v4 port
      | None => addr
      end
  | _ => addr
  end.

Inductive MonitorError : Type := MonitorFailed.

(** [Monitor::register], for a stream between [local] and [peer]; [Registration] is
    the pair it returns. *)
Definition register_stream (local peer : SocketAddr) (socket : SocketRef)
    : stm MonitorState MonitorError (Connection * SocketRef) := fun self =>
  let connection := mkConnection (normalize local) (normalize peer) in
  if failed self then (Err MonitorFailed, self)
  else (Ok (connection, socket), mkMonitor (<[connection := socket]> (sockets self)) (failed self)).

(** [Drop for Registration]. *)
Definition drop_registration (r : Connection * SocketRef) (self : MonitorState) : MonitorState :=
  if bool_decide (sockets self !! r.1 = Some r.2)
  then mkMonitor (delete r.1 (sockets self)) (failed self) else self.

(** The end of the receiving task: every registered connection is reset. *)
Definition on_failure (self : MonitorState) : list SocketRef * MonitorState :=
  ((map_to_list (sockets self)).*2, mkMonitor (sockets self) true).

(** ** The filter in the kernel *)

(** Classic BPF, as far as the filter uses it: one accumulator; a load outside the
    packet rejects it. *)
Inductive Insn : Type :=
  | LdByte (k : nat)
  | AndK (k : Z)
  | JeqK (jt jf : nat) (k : Z)
  | RetK (k : Z).

(** How many octets of the packet are passed on; jumps are relative and forward. *)
Fixpoint bpf (fuel : nat) (program : list Insn) (a : Z) (packet : bytes) : Z :=
  match fuel, program with
  | S fuel, LdByte k :: rest =>
      match packet !! k with
      | Some b => bpf fuel rest b packet
      | None => 0
      end
  | S fuel, AndK k :: rest => bpf fuel rest (Z.land a k) packet
  | S fuel, JeqK jt jf k :: rest => bpf fuel (drop (if a =? k then jt else jf) rest) a packet
  | S fuel, RetK k :: _ => k
  | _, _ => 0
  end.

(** [filter_low_ttl]. *)
Definition instructions : list Insn :=
  [LdByte 0; AndK 240; JeqK 0 3 64; LdByte 8; JeqK 5 0 255; RetK 65536;
   JeqK 0 3 96; LdByte 7; JeqK 1 0 255; RetK 65536; RetK 0].

Definition filter_low_ttl (packet : bytes) : Z := bpf (length instructions) instructions 0 packet.

(** ** The parser *)

(** [None] of the code's [?] and early returns is [Err tt]. *)
Abbreviation parse A := (outcome unit A).
Definition found {A} (o : option A) : parse A := match o with Some a => Ok a | None => Err tt end.
Definition unless (b : bool) : parse unit := if b then Err tt else Ok tt.

(** [packet.get(a..b)]. *)
Definition get_range (p : bytes) (a b : nat) : option bytes :=
  if (a <=? b)%nat && (b <=? length p)%nat then Some (take (b - a) (drop a p)) else None.

(** [u16::from_be_bytes([p[i], p[i + 1]])]. *)
Definition be16 (p : bytes) (i : nat) : parse Z :=
  a ← index p i; b ← index p (S i); Ok (from_be_bytes [a; b]).

Definition v4_segment (packet : bytes) : parse (IpAddr * IpAddr * nat) :=
  _ ← unless (length packet <? 20)%nat;
  ttl ← index packet 8; _ ← unless (ttl =? 255);
  protocol ← index packet 9; _ ← unless (negb (protocol =? 6));
  length' ← be16 packet 2;
  first ← index packet 0;
  let offset := (Z.to_nat (Z.land first 15) * 4)%nat in
  _ ← unless ((offset <? 20)%nat || (length' <? Z.of_nat (offset + 20)) || (len packet <? length'));
  fragment ← be16 packet 6; _ ← unless (negb (Z.land fragment 8191 =? 0));
  source ← slice packet 12 16; dest ← slice packet 16 20;
  Ok (IpV4 (from_be_bytes source), IpV4 (from_be_bytes dest), offset).

(** The size of one extension header. *)
Definition extension_size (kind : Z) (header : bytes) : parse nat :=
  if (kind =? 0) || (kind =? 43) || (kind =? 60) then
    n ← found (header !! 1%nat); Ok ((Z.to_nat n + 1) * 8)%nat
  else if kind =? 51 then
    n ← found (header !! 1%nat);
    let size := ((Z.to_nat n + 2) * 4)%nat in
    _ ← unless ((size <? 12)%nat || negb (size mod 8 =? 0)%nat);
    Ok size
  else if kind =? 44 then
    a ← found (header !! 2%nat); b ← found (header !! 3%nat);
    _ ← unless (negb (Z.land (from_be_bytes [a; b]) 65528 =? 0));
    Ok 8%nat
  else Err tt.

(** [while next != 6 { .. }]; every iteration moves [offset] forward, so the length of
    the packet bounds their number. *)
Fixpoint skip_extensions (fuel : nat) (packet : bytes) (length' : nat) (next : Z) (offset : nat)
    : parse nat :=
  if next =? 6 then Ok offset
  else
    match fuel with
    | O => Panic
    | S fuel =>
        header ← found (get_range packet offset length');
        next' ← found (header !! 0%nat);
        size ← extension_size next header;
        skip_extensions fuel packet length' next' (offset + size)
    end.

Definition v6_segment (packet : bytes) : parse (IpAddr * IpAddr * nat) :=
  _ ← unless (length packet <? 40)%nat;
  hops ← index packet 7; _ ← unless (hops =? 255);
  payload ← be16 packet 4;
  let length' := (40 + Z.to_nat payload)%nat in
  _ ← unless (length packet <? length')%nat;
  next ← index packet 6;
  offset ← skip_extensions (S (length packet)) packet length' next 40;
  _ ← unless (length' <? offset + 20)%nat;
  source ← slice packet 8 24; dest ← slice packet 24 40;
  Ok (IpV6 (from_be_bytes source), IpV6 (from_be_bytes dest), offset).

(** The closure [addr]. *)
Definition segment_addr (interface : Z) (ip : IpAddr) (port : Z) : SocketAddr :=
  match ip with
  | IpV4 ip => SocketV4 ip port
  | IpV6 ip => SocketV6 ip port 0 (if is_unicast_link_local ip then interface else 0)
  end.

Definition low_ttl_connection (packet : bytes) (interface : Z) : parse Connection :=
  first ← found (packet !! 0%nat);
  s ← (if Z.shiftr first 4 =? 4 then v4_segment packet
       else if Z.shiftr first 4 =? 6 then v6_segment packet
       else Err tt);
  let '(source, dest, offset) := s in
  tcp ← found (get_range packet offset (offset + 20));
  data_offset ← index tcp 12; _ ← unless (Z.shiftr data_offset 4 <? 5);
  source_port ← be16 tcp 0; dest_port ← be16 tcp 2;
  Ok (mkConnection (segment_addr interface dest dest_port) (segment_addr interface source source_port)).

(** ** Receiving *)

(** What the kernel says of a packet: its protocol and whether this host sent it. *)
Record PacketInfo : Type := mkPacket {
  is_ip : bool;
  outgoing : bool;
  ifindex : Z;
}.

(** One iteration of [receive]: the sockets that are reset. *)
Definition on_packet (info : PacketInfo) (packet : bytes) (self : MonitorState)
    : outcome Empty_set (list SocketRef) :=
  if negb (is_ip info) || outgoing info then Ok []
  else
    match low_ttl_connection packet (ifindex info) with
    | Ok connection => Ok (opt_list (sockets self !! connection))
    | Err _ => Ok []
    | Panic => Panic
    end.

(** What the capture socket yields, and a turn of the receiving task: the sockets it
    resets, and whether it goes on.  A read error ends it and fails the monitor. *)
Inductive Reception : Type :=
  | CaptureNotReady
  | CaptureFails
  | Captured (info : PacketInfo) (packet : bytes).

Definition receive_turn (r : Reception) (self : MonitorState)
    : outcome Empty_set (list SocketRef * MonitorState * bool) :=
  match r with
  | CaptureNotReady => Ok ([], self, true)
  | CaptureFails => Ok (on_failure self, false)
  | Captured info packet => resets ← on_packet info packet self; Ok (resets, self, true)
  end.

(** [reset_with]: how the socket is left when the abort by [disconnect] succeeds, and
    when it fails. *)
Inductive ResetEffect : Type := ConnectionAborted | IoShutDown.
Definition reset_with (disconnect : bool) : ResetEffect := if disconnect then ConnectionAborted else IoShutDown.

(** ** No packet makes the parser panic *)

(** A computation that cannot panic. *)
Definition safe {A} (m : parse A) : Prop := m <> Panic.

Lemma safe_bind {A B} (m : parse A) (k : A -> parse B) :
  safe m -> (forall a, m = Ok a -> safe (k a)) -> safe (m ≫= k).
Proof. unfold safe. intros Hm Hk. destruct m as [a|[]|]; [by apply Hk|done|done]. Qed.

Lemma safe_found {A} (o : option A) : safe (found o).
Proof. by destruct o. Qed.
Lemma safe_unless b : safe (unless b).
Proof. by destruct b. Qed.
Lemma safe_Ok {A} (a : A) : safe (Ok a).
Proof. done. Qed.
Lemma safe_index (p : bytes) i : (i < length p)%nat -> safe (index p i).
Proof. intros H. unfold index. by destruct (lookup_lt_is_Some_2 p i H) as [b ->]. Qed.
Lemma safe_be16 p i : (S i < length p)%nat -> safe (be16 p i).
Proof.
  intros H. unfold be16. apply safe_bind; [apply safe_index; lia|intros a _].
  apply safe_bind; [by apply safe_index|done].
Qed.
Lemma safe_slice (p : bytes) a b : (a <= b <= length p)%nat -> safe (slice p a b).
Proof.
  intros H. unfold slice.
  by rewrite (proj2 (Nat.leb_le a b)), (proj2 (Nat.leb_le b (length p))) by lia.
Qed.

Lemma unless_Ok b a : unless b = Ok a -> b = false.
Proof. by destruct b. Qed.

Lemma found_range p a b r : found (get_range p a b) = Ok r -> (a <= b <= length p)%nat /\ length r = (b - a)%nat.
Proof.
  unfold get_range. destruct (Nat.leb_spec a b), (Nat.leb_spec b (length p)); cbn; try done.
  intros [= <-]. rewrite length_take, length_drop. lia.
Qed.

Lemma extension_advances kind header size : extension_size kind header = Ok size -> (8 <= size)%nat.
Proof.
  unfold extension_size. destruct (_ || _ || _).
  { destruct (header !! 1%nat); cbn; [|done]. intros [= <-]. lia. }
  destruct (kind =? 51).
  { destruct (header !! 1%nat) as [n|]; cbn [found mbind outcome_bind]; [|done].
    destruct (unless _); cbn [mbind outcome_bind]; [|done|done]. intros [= <-]. lia. }
  destruct (kind =? 44); [|done].
  destruct (header !! 2%nat), (header !! 3%nat); cbn; try done. destruct (negb _); cbn; [done|].
  intros [= <-]. lia.
Qed.

Lemma safe_extension kind header : safe (extension_size kind header).
Proof.
  unfold extension_size. destruct (_ || _ || _).
  { apply safe_bind; [apply safe_found|done]. }
  destruct (kind =? 51).
  { apply safe_bind; [apply safe_found|intros n _]. apply safe_bind; [apply safe_unless|done]. }
  destruct (kind =? 44); [|done]. repeat (apply safe_bind; [apply safe_found|intros ? _]).
  apply safe_bind; [apply safe_unless|done].
Qed.

Lemma safe_skip fuel packet length' next offset :
  (length packet < offset + fuel)%nat -> (0 < fuel)%nat ->
  safe (skip_extensions fuel packet length' next offset).
Proof.
  revert next offset. induction fuel as [|fuel IH]; intros next offset Hf H0; [lia|].
  cbn [skip_extensions]. destruct (next =? 6); [done|].
  apply safe_bind; [apply safe_found|intros header [Hr Hh]%found_range].
  apply safe_bind; [apply safe_found|intros next' Hn].
  assert (0 < length header)%nat by (destruct header; [done|cbn; lia]).
  apply safe_bind; [apply safe_extension|intros size Hs%extension_advances].
  apply IH; lia.
Qed.

Lemma safe_v4 packet : safe (v4_segment packet).
Proof.
  unfold v4_segment. apply safe_bind; [apply safe_unless|intros _ H%unless_Ok].
  apply Nat.ltb_ge in H.
  repeat first [apply safe_Ok
    | apply safe_bind; [first [apply safe_unless | apply safe_index; lia | apply safe_be16; lia
                              | apply safe_slice; lia]|intros ? _]].
Qed.

Lemma safe_v6 packet : safe (v6_segment packet).
Proof.
  unfold v6_segment. apply safe_bind; [apply safe_unless|intros _ H%unless_Ok].
  apply Nat.ltb_ge in H.
  repeat first [apply safe_Ok
    | apply safe_bind; [first [apply safe_unless | apply safe_index; lia | apply safe_be16; lia
                              | apply safe_slice; lia | apply safe_skip; lia]|intros ? _]].
Qed.

(** No packet makes the monitor panic: every index and slice is within the packet and
    the walk over the extension headers ends. *)
Lemma monitor_total info packet self : on_packet info packet self <> Panic.
Proof.
  unfold on_packet. destruct (_ || _); [done|].
  assert (H : safe (low_ttl_connection packet (ifindex info))).
  { unfold low_ttl_connection. apply safe_bind; [apply safe_found|intros first _].
    apply safe_bind.
    { destruct (_ =? 4); [apply safe_v4|]. destruct (_ =? 6); [apply safe_v6|done]. }
    intros [[source dest] offset] _. apply safe_bind; [apply safe_found|intros tcp [_ Hl]%found_range].
    repeat first [apply safe_Ok
      | apply safe_bind; [first [apply safe_unless | apply safe_index; lia | apply safe_be16; lia]|intros ? _]]. }
  by destruct (low_ttl_connection packet (ifindex info)).
Qed.

(** ** The filter *)

(** The TTL or hop limit of a packet. *)
Definition packet_ttl (packet : bytes) : option Z :=
  match packet !! 0%nat with
  | Some first =>
      if Z.land first 240 =? 64 then packet !! 8%nat
      else if Z.land first 240 =? 96 then packet !! 7%nat
      else None
  | None => None
  end.

(** The filter passes exactly the IP packets whose TTL is not 255. *)
Lemma filter_exact packet :
  filter_low_ttl packet = match packet_ttl packet with
                          | Some ttl => if ttl =? 255 then 0 else 65536
                          | None => 0
                          end.
Proof.
  unfold filter_low_ttl, packet_ttl, instructions. cbn -[Z.land Z.eqb lookup].
  destruct (packet !! 0%nat) as [first|]; [|done].
  destruct (Z.eqb_spec (Z.land first 240) 64) as [->|H4]; cbn -[Z.eqb lookup].
  - destruct (packet !! 8%nat) as [ttl|]; [|done]. by destruct (ttl =? 255).
  - destruct (Z.land first 240 =? 96); cbn -[Z.eqb lookup]; [|done].
    destruct (packet !! 7%nat) as [ttl|]; [|done]. by destruct (ttl =? 255).
Qed.

(** ** Packets *)

(** A TCP segment: ports, eight octets of numbers, the octet with the data offset, and
    the rest of header and payload. *)
Definition segment (sport dport : Z) (numbers : bytes) (offset : Z) (rest : bytes) : bytes :=
  to_be_bytes 2 sport ++ to_be_bytes 2 dport ++ numbers ++ offset :: rest.

Definition is_segment (sport dport : Z) (numbers : bytes) (offset : Z) (rest : bytes) : Prop :=
  is_u16 sport /\ is_u16 dport /\ length numbers = 8%nat /\ 80 <= offset <= 255
  /\ (7 <= length rest)%nat.

(** An IPv4 packet that is no later fragment; [padding] is of the link. *)
Definition v4_packet (tos i1 i2 flags ttl s1 s2 : Z) (src dst : Z) (options seg padding : bytes) : bytes :=
  [69 + Z.of_nat (length options / 4); tos] ++ to_be_bytes 2 (20 + len options + len seg)
  ++ [i1; i2; flags * 32; 0; ttl; 6; s1; s2] ++ to_be_bytes 4 src ++ to_be_bytes 4 dst
  ++ options ++ seg ++ padding.

Definition is_v4 (flags src dst : Z) (options seg : bytes) : Prop :=
  0 <= flags < 8 /\ 0 <= src < 2 ^ 32 /\ 0 <= dst < 2 ^ 32
  /\ (exists k, length options = 4 * k /\ k <= 10)%nat /\ 20 + len options + len seg <= u16_max.

(** The extension headers the parser knows. *)
Inductive Extension : Type :=
  | ExtOptions (kind : Z) (n : nat) (body : bytes)
  | ExtAuth (n : nat) (body : bytes)
  | ExtFragment (reserved flags : Z) (ident : bytes).

Definition ext_kind (e : Extension) : Z :=
  match e with ExtOptions kind _ _ => kind | ExtAuth _ _ => 51 | ExtFragment _ _ _ => 44 end.

Definition ext_bytes (next : Z) (e : Extension) : bytes :=
  match e with
  | ExtOptions _ n body | ExtAuth n body => next :: Z.of_nat n :: body
  | ExtFragment reserved flags ident => [next; reserved; 0; flags] ++ ident
  end.

(** Sizes as the headers state them; the fragment is the first one. *)
Definition is_extension (e : Extension) : Prop :=
  match e with
  | ExtOptions kind n body =>
      (kind = 0 \/ kind = 43 \/ kind = 60) /\ length body = (8 * (n + 1) - 2)%nat
  | ExtAuth n body =>
      length body = (4 * (n + 2) - 2)%nat /\ (1 <= n)%nat /\ ((4 * (n + 2)) mod 8 = 0)%nat
  | ExtFragment _ flags ident => 0 <= flags < 8 /\ length ident = 4%nat
  end.

(** The first kind and the octets of a chain that ends in TCP. *)
Fixpoint chain (l : list Extension) : Z * bytes :=
  match l with
  | [] => (6, [])
  | e :: l' => let '(next, rest) := chain l' in (ext_kind e, ext_bytes next e ++ rest)
  end.

Definition v6_packet (t0 t1 t2 t3 hops : Z) (src dst : Z) (exts : list Extension)
    (seg padding : bytes) : bytes :=
  [96 + t0; t1; t2; t3] ++ to_be_bytes 2 (len (chain exts).2 + len seg) ++ [(chain exts).1; hops]
  ++ to_be_bytes 16 src ++ to_be_bytes 16 dst ++ (chain exts).2 ++ seg ++ padding.

Definition is_v6 (t0 src dst : Z) (exts : list Extension) (seg : bytes) : Prop :=
  0 <= t0 < 16 /\ 0 <= src < 2 ^ 128 /\ 0 <= dst < 2 ^ 128 /\ Forall is_extension exts
  /\ len (chain exts).2 + len seg <= u16_max.

(** ** The parser finds the connection *)

Lemma two_bytes v : exists a b, to_be_bytes 2 v = [a; b] /\ (0 <= v < 65536 -> from_be_bytes [a; b] = v).
Proof.
  pose proof (length_to_be_bytes 2 v) as Hl. pose proof (from_to_be_bytes 2 v) as Hv.
  destruct (to_be_bytes 2 v) as [|a [|b [|]]]; try done. exists a, b. split; [done|]. exact Hv.
Qed.

Lemma get_range_app pre mid post :
  get_range (pre ++ mid ++ post) (length pre) (length pre + length mid) = Some mid.
Proof.
  unfold get_range. rewrite !length_app.
  rewrite (proj2 (Nat.leb_le _ _)), (proj2 (Nat.leb_le (_ + _)%nat _)) by lia. cbn [andb].
  rewrite drop_app_length. replace (_ + _ - _)%nat with (length mid) by lia. by rewrite take_app_length.
Qed.

Lemma slice_app {E} (pre mid post : bytes) a b :
  a = length pre -> b = (length pre + length mid)%nat ->
  slice (E := E) (pre ++ mid ++ post) a b = Ok mid.
Proof.
  intros -> ->. unfold slice. rewrite !length_app.
  rewrite (proj2 (Nat.leb_le _ _)), (proj2 (Nat.leb_le (_ + _)%nat _)) by lia. cbn [andb].
  rewrite drop_app_length. replace (_ + _ - _)%nat with (length mid) by lia. by rewrite take_app_length.
Qed.

(** The ports of the segment at [offset]. *)
Lemma ports_found sport dport numbers offset rest pre post :
  is_segment sport dport numbers offset rest ->
  exists tcp, get_range (pre ++ segment sport dport numbers offset rest ++ post)
                (length pre) (length pre + 20) = Some tcp
    /\ index (E := unit) tcp 12 = Ok offset /\ be16 tcp 0 = Ok sport /\ be16 tcp 2 = Ok dport.
Proof.
  intros (Hs & Hd & Hn & Ho & Hr). unfold segment.
  destruct (two_bytes sport) as (a & b & -> & Ea). destruct (two_bytes dport) as (c & d & -> & Ec).
  destruct numbers as [|n1 [|n2 [|n3 [|n4 [|n5 [|n6 [|n7 [|n8 [|]]]]]]]]]; try done.
  rewrite <-(take_drop 7 rest). set (r := take 7 rest).
  assert (Hlen : length r = 7%nat) by (unfold r; rewrite length_take; lia).
  exists ([a; b; c; d; n1; n2; n3; n4; n5; n6; n7; n8; offset] ++ r). split.
  - replace ((([a; b] ++ [c; d] ++ [n1; n2; n3; n4; n5; n6; n7; n8] ++ offset :: r ++ drop 7 rest)) ++ post)
      with (([a; b; c; d; n1; n2; n3; n4; n5; n6; n7; n8; offset] ++ r) ++ drop 7 rest ++ post)
      by (cbn; by rewrite <-!app_assoc).
    replace 20%nat with (length ([a; b; c; d; n1; n2; n3; n4; n5; n6; n7; n8; offset] ++ r))
      by (rewrite length_app, Hlen; done).
    apply get_range_app.
  - unfold is_u16, u16_max in *. cbn. split_and!; [done|rewrite Ea by lia; done|rewrite Ec by lia; done].
Qed.

Lemma v4_segment_found tos i1 i2 flags ttl s1 s2 src dst options seg padding :
  is_v4 flags src dst options seg -> (20 <= length seg)%nat -> ttl <> 255 ->
  v4_segment (v4_packet tos i1 i2 flags ttl s1 s2 src dst options seg padding)
  = Ok (IpV4 src, IpV4 dst, (20 + length options)%nat).
Proof.
  intros (Hf & Hs & Hd & (k & Hk & Hk10) & Ht) Hseg Httl.
  assert (Hfirst : Z.land (69 + Z.of_nat (length options / 4)) 15 = 5 + Z.of_nat k).
  { rewrite Hk, (Nat.mul_comm 4 k), Nat.div_mul by done.
    change 15 with (Z.ones 4). rewrite Z.land_ones by done. change (2 ^ 4) with 16.
    replace (69 + Z.of_nat k) with (5 + Z.of_nat k + 4 * 16) by lia. rewrite Z.mod_add by done.
    apply Z.mod_small. lia. }
  assert (Hfrag : Z.land (from_be_bytes [flags * 32; 0]) 8191 = 0).
  { change 8191 with (Z.ones 13). rewrite Z.land_ones by done. unfold from_be_bytes. cbn [foldl].
    replace (256 * (256 * 0 + flags * 32) + 0) with (flags * 2 ^ 13) by lia. by apply Z.mod_mul. }
  unfold v4_packet, v4_segment.
  destruct (two_bytes (20 + len options + len seg)) as (t1 & t2 & -> & Et).
  assert (Htot : from_be_bytes [t1; t2] = 20 + len options + len seg).
  { apply Et. pose proof (len_nonneg options). pose proof (len_nonneg seg). unfold u16_max in Ht. lia. }
  clear Et.
  set (tail := options ++ seg ++ padding).
  assert (Hl4 : forall v, length (to_be_bytes 4 v) = 4%nat) by (intros; apply length_to_be_bytes).
  set (packet := _ ++ _).
  assert (Hlen : length packet = (20 + length tail)%nat).
  { unfold packet. rewrite !length_app, !Hl4. cbn. lia. }
  assert (Htail : (length tail = length options + length seg + length padding)%nat).
  { unfold tail. rewrite !length_app. lia. }
  assert (Hsrc : slice (E := unit) packet 12 16 = Ok (to_be_bytes 4 src)).
  { apply (slice_app ([69 + Z.of_nat (length options / 4); tos; t1; t2; i1; i2; flags * 32; 0; ttl; 6; s1; s2])
      (to_be_bytes 4 src) (to_be_bytes 4 dst ++ tail)); by rewrite ?Hl4. }
  assert (Hdst : slice (E := unit) packet 16 20 = Ok (to_be_bytes 4 dst)).
  { apply (slice_app ([69 + Z.of_nat (length options / 4); tos; t1; t2; i1; i2; flags * 32; 0; ttl; 6; s1; s2]
      ++ to_be_bytes 4 src) (to_be_bytes 4 dst) tail); by rewrite ?length_app, ?Hl4. }
  change (index packet 8) with (Ok (E := unit) ttl). change (index packet 9) with (Ok (E := unit) 6).
  change (be16 packet 2) with (Ok (E := unit) (from_be_bytes [t1; t2])).
  change (index packet 0) with (Ok (E := unit) (69 + Z.of_nat (length options / 4))).
  change (be16 packet 6) with (Ok (E := unit) (from_be_bytes [flags * 32; 0])).
  rewrite Hlen. cbn [mbind outcome_bind]. rewrite Htot, Hfirst, Hfrag.
  rewrite (proj2 (Nat.ltb_ge _ 20)) by lia. cbn [unless mbind outcome_bind].
  rewrite (proj2 (Z.eqb_neq _ _) Httl). cbn [unless mbind outcome_bind negb Z.eqb Pos.eqb].
  replace (Z.to_nat (5 + Z.of_nat k) * 4)%nat with (20 + length options)%nat by lia.
  rewrite (proj2 (Nat.ltb_ge _ 20)) by lia.
  rewrite (proj2 (Z.ltb_ge (20 + len options + len seg) _)) by (unfold len; lia).
  rewrite (proj2 (Z.ltb_ge (len packet) _)) by (unfold len; rewrite Hlen; lia).
  cbn [orb unless mbind outcome_bind]. rewrite Hsrc, Hdst. cbn [mbind outcome_bind].
  by rewrite !(from_to_be_bytes 4) by (cbn; lia).
Qed.

(** One extension header at the front of what is left. *)
Lemma extension_found e next rest :
  is_extension e ->
  extension_size (ext_kind e) (ext_bytes next e ++ rest) = Ok (length (ext_bytes next e))
  /\ (ext_bytes next e ++ rest) !! 0%nat = Some next /\ ext_kind e <> 6.
Proof.
  destruct e as [kind n body|n body|reserved flags ident]; cbn [ext_kind ext_bytes is_extension].
  - intros [Hk Hl]. unfold extension_size. cbn [app lookup list_lookup]. split_and!; [|done|lia].
    replace ((kind =? 0) || (kind =? 43) || (kind =? 60)) with true
      by (by destruct Hk as [->|[->| ->]]).
    cbn [found mbind outcome_bind length]. f_equal. lia.
  - intros (Hl & Hn & Hm). unfold extension_size. split_and!; [|done|done].
    change ((51 =? 0) || (51 =? 43) || (51 =? 60)) with false. cbv iota.
    change (51 =? 51) with true. cbv iota. cbn [app lookup list_lookup found mbind outcome_bind].
    rewrite Nat2Z.id. replace ((n + 2) * 4)%nat with (4 * (n + 2))%nat by lia.
    rewrite (proj2 (Nat.ltb_ge _ 12)) by lia. rewrite (proj2 (Nat.eqb_eq _ _) Hm).
    cbn [negb orb unless mbind outcome_bind length]. f_equal. lia.
  - intros [Hf Hi]. unfold extension_size. split_and!; [|done|done].
    change ((44 =? 0) || (44 =? 43) || (44 =? 60)) with false. cbv iota.
    change (44 =? 51) with false. change (44 =? 44) with true. cbv iota.
    cbn [app lookup list_lookup found mbind outcome_bind].
    assert (Hz : Z.land (from_be_bytes [0; flags]) 65528 = 0).
    { change (from_be_bytes [0; flags]) with (256 * (256 * 0 + 0) + flags).
      assert (H : flags ∈ [0; 1; 2; 3; 4; 5; 6; 7]) by (rewrite !elem_of_cons; lia).
      repeat (apply elem_of_cons in H as [->|H]; [done|]). set_solver. }
    rewrite Hz. cbn [negb Z.eqb unless mbind outcome_bind length app]. by rewrite Hi.
Qed.

Lemma chain_skipped l pre post fuel :
  Forall is_extension l -> (length l < fuel)%nat ->
  forall length' more, length' = (length pre + length (chain l).2 + length post)%nat ->
  skip_extensions fuel (pre ++ (chain l).2 ++ post ++ more) length' (chain l).1 (length pre)
  = Ok (length pre + length (chain l).2)%nat.
Proof.
  intros Hl. revert pre fuel. induction Hl as [|e l He Hl IH]; intros pre fuel Hf length' more ->;
    destruct fuel as [|fuel]; try (cbn in Hf; lia); cbn [chain].
  { cbn. f_equal. lia. }
  destruct (chain l) as [next rest] eqn:Ec. cbn [fst snd] in *.
  destruct (extension_found e next (rest ++ post) He) as (Hs & H0 & Hk).
  cbn [skip_extensions]. rewrite (proj2 (Z.eqb_neq _ _) Hk).
  rewrite <-app_assoc.
  assert (Hr : get_range (pre ++ ext_bytes next e ++ rest ++ post ++ more) (length pre)
     (length pre + length (ext_bytes next e ++ rest) + length post) = Some (ext_bytes next e ++ rest ++ post)).
  { replace (pre ++ ext_bytes next e ++ rest ++ post ++ more)
      with (pre ++ (ext_bytes next e ++ rest ++ post) ++ more) by (by rewrite <-!app_assoc).
    replace (length pre + length (ext_bytes next e ++ rest) + length post)%nat
      with (length pre + length (ext_bytes next e ++ rest ++ post))%nat by (rewrite !length_app; lia).
    apply get_range_app. }
  rewrite Hr. cbn [found mbind outcome_bind]. rewrite H0. cbn [found mbind outcome_bind].
  rewrite Hs. cbn [mbind outcome_bind].
  replace (length pre + length (ext_bytes next e))%nat with (length (pre ++ ext_bytes next e))
    by (by rewrite length_app).
  rewrite (app_assoc pre). rewrite (IH (pre ++ ext_bytes next e) fuel); [|cbn in Hf; lia|].
  - f_equal. rewrite !length_app. lia.
  - rewrite !length_app. lia.
Qed.

Lemma chain_length l : Forall is_extension l -> (length l <= length (chain l).2)%nat.
Proof.
  induction 1 as [|e l He Hl IH]; cbn; [lia|]. destruct (chain l) as [next rest]. cbn in *.
  rewrite length_app. assert (1 <= length (ext_bytes next e))%nat by (destruct e; cbn; lia). lia.
Qed.

Lemma v6_segment_found t0 t1 t2 t3 hops src dst exts seg padding :
  is_v6 t0 src dst exts seg -> (20 <= length seg)%nat -> hops <> 255 ->
  v6_segment (v6_packet t0 t1 t2 t3 hops src dst exts seg padding)
  = Ok (IpV6 src, IpV6 dst, (40 + length (chain exts).2)%nat).
Proof.
  intros (Ht0 & Hs & Hd & He & Hp) Hseg Hh. unfold v6_packet, v6_segment.
  pose proof (chain_length _ He) as Hcl. set (c := (chain exts).2) in *.
  destruct (two_bytes (len c + len seg)) as (p1 & p2 & -> & Ep).
  assert (Hpay : from_be_bytes [p1; p2] = len c + len seg).
  { apply Ep. pose proof (len_nonneg c). pose proof (len_nonneg seg). unfold u16_max in Hp. lia. }
  clear Ep. assert (Hl16 : forall v, length (to_be_bytes 16 v) = 16%nat) by (intros; apply length_to_be_bytes).
  set (head := [96 + t0; t1; t2; t3] ++ [p1; p2] ++ [(chain exts).1; hops]).
  set (packet := _ ++ _).
  assert (Epk : packet = (head ++ to_be_bytes 16 src ++ to_be_bytes 16 dst) ++ c ++ seg ++ padding)
    by reflexivity.
  assert (Hpre : length (head ++ to_be_bytes 16 src ++ to_be_bytes 16 dst) = 40%nat)
    by (rewrite !length_app, !Hl16; done).
  assert (Hlen : length packet = (40 + length c + length seg + length padding)%nat).
  { rewrite Epk, length_app, Hpre, !length_app. lia. }
  assert (Hsrc : slice (E := unit) packet 8 24 = Ok (to_be_bytes 16 src)).
  { apply (slice_app head (to_be_bytes 16 src) (to_be_bytes 16 dst ++ c ++ seg ++ padding));
      by rewrite ?Hl16. }
  assert (Hdst : slice (E := unit) packet 24 40 = Ok (to_be_bytes 16 dst)).
  { apply (slice_app (head ++ to_be_bytes 16 src) (to_be_bytes 16 dst) (c ++ seg ++ padding));
      by rewrite ?length_app, ?Hl16. }
  assert (Hskip : skip_extensions (S (length packet)) packet (40 + (length c + length seg)) (chain exts).1 40
    = Ok (40 + length c)%nat).
  { rewrite Epk at 2. rewrite <-Hpre.
    apply (chain_skipped exts (head ++ to_be_bytes 16 src ++ to_be_bytes 16 dst) seg); [done|lia|].
    fold c. lia. }
  change (index packet 7) with (Ok (E := unit) hops).
  change (be16 packet 4) with (Ok (E := unit) (from_be_bytes [p1; p2])).
  change (index packet 6) with (Ok (E := unit) (chain exts).1).
  cbn [mbind outcome_bind]. rewrite Hpay.
  replace (40 + Z.to_nat (len c + len seg))%nat with (40 + (length c + length seg))%nat by (unfold len; lia).
  rewrite (proj2 (Nat.ltb_ge _ 40)) by lia. cbn [unless mbind outcome_bind].
  rewrite (proj2 (Z.eqb_neq _ _) Hh). cbn [unless mbind outcome_bind].
  rewrite (proj2 (Nat.ltb_ge (length packet) _)) by lia. cbn [unless mbind outcome_bind].
  rewrite Hskip. cbn [mbind outcome_bind].
  rewrite (proj2 (Nat.ltb_ge (40 + (length c + length seg)) _)) by lia. cbn [unless mbind outcome_bind].
  rewrite Hsrc, Hdst. cbn [mbind outcome_bind]. by rewrite !(from_to_be_bytes 16) by (cbn; lia).
Qed.

(** ** Violations and conforming packets *)

(** TCP packets of the host, with their TTL and connection. *)
Inductive tcp_packet (interface : Z) : bytes -> Z -> Connection -> Prop :=
  | tcp_v4 tos i1 i2 flags ttl s1 s2 src dst options sport dport numbers offset rest padding :
      is_segment sport dport numbers offset rest ->
      is_v4 flags src dst options (segment sport dport numbers offset rest) ->
      tcp_packet interface
        (v4_packet tos i1 i2 flags ttl s1 s2 src dst options (segment sport dport numbers offset rest) padding)
        ttl (mkConnection (segment_addr interface (IpV4 dst) dport) (segment_addr interface (IpV4 src) sport))
  | tcp_v6 t0 t1 t2 t3 hops src dst exts sport dport numbers offset rest padding :
      is_segment sport dport numbers offset rest ->
      is_v6 t0 src dst exts (segment sport dport numbers offset rest) ->
      tcp_packet interface
        (v6_packet t0 t1 t2 t3 hops src dst exts (segment sport dport numbers offset rest) padding)
        hops (mkConnection (segment_addr interface (IpV6 dst) dport) (segment_addr interface (IpV6 src) sport)).

Lemma first_octet :
  Forall (fun b => (Z.land b 240 =? 64) = (Z.shiftr b 4 =? 4) /\ (Z.land b 240 =? 96) = (Z.shiftr b 4 =? 6))
    (seqZ 0 256).
Proof. apply (bool_decide_unpack _). by vm_compute. Qed.

Lemma version_octet b : is_u8 b ->
  (Z.land b 240 =? 64) = (Z.shiftr b 4 =? 4) /\ (Z.land b 240 =? 96) = (Z.shiftr b 4 =? 6).
Proof.
  intros H. pose proof first_octet as Hf. rewrite Forall_forall in Hf. apply Hf.
  apply elem_of_seqZ. unfold is_u8, u8_max in H. lia.
Qed.

Lemma segment_length sport dport numbers offset rest :
  is_segment sport dport numbers offset rest -> (20 <= length (segment sport dport numbers offset rest))%nat.
Proof.
  intros (_ & _ & Hn & _ & Hr). unfold segment. rewrite !length_app, !length_to_be_bytes.
  cbn [length]. lia.
Qed.

Lemma segment_parsed packet interface first pre src dst sport dport numbers offset rest padding :
  is_segment sport dport numbers offset rest ->
  packet !! 0%nat = Some first ->
  (if Z.shiftr first 4 =? 4 then v4_segment packet
   else if Z.shiftr first 4 =? 6 then v6_segment packet else Err tt) = Ok (src, dst, length pre) ->
  packet = pre ++ segment sport dport numbers offset rest ++ padding ->
  low_ttl_connection packet interface
  = Ok (mkConnection (segment_addr interface dst dport) (segment_addr interface src sport)).
Proof.
  intros Hs H0 Hseg Hp. unfold low_ttl_connection. rewrite H0. cbn [found mbind outcome_bind].
  rewrite Hseg. cbn [mbind outcome_bind].
  destruct (ports_found _ _ _ _ _ pre padding Hs) as (tcp & Hr & H12 & Hsp & Hdp).
  rewrite Hp, Hr. cbn [found mbind outcome_bind]. rewrite H12. cbn [mbind outcome_bind].
  destruct Hs as (_ & _ & _ & Ho & _).
  rewrite (proj2 (Z.ltb_ge (Z.shiftr offset 4) 5)); [cbn [unless mbind outcome_bind]; by rewrite Hsp, Hdp|].
  rewrite Z.shiftr_div_pow2 by done. change (2 ^ 4) with 16. apply Z.div_le_lower_bound; lia.
Qed.

(** The parser and the TTL of well-formed packets. *)
Lemma tcp_packet_parsed interface packet ttl c :
  tcp_packet interface packet ttl c ->
  packet_ttl packet = Some ttl /\ (ttl <> 255 -> low_ttl_connection packet interface = Ok c).
Proof.
  destruct 1 as [tos i1 i2 flags ttl s1 s2 src dst options sport dport numbers offset rest padding Hs H4
                |t0 t1 t2 t3 hops src dst exts sport dport numbers offset rest padding Hs H6].
  - destruct (version_octet (69 + Z.of_nat (length options / 4))) as [Ev _].
    { destruct H4 as (_ & _ & _ & (k & -> & Hk) & _). rewrite Nat.mul_comm, Nat.div_mul by done.
      unfold is_u8, u8_max. lia. }
    assert (E4 : Z.shiftr (69 + Z.of_nat (length options / 4)) 4 = 4).
    { destruct H4 as (_ & _ & _ & (k & -> & Hk) & _). rewrite Nat.mul_comm, Nat.div_mul by done.
      rewrite Z.shiftr_div_pow2 by done. change (2 ^ 4) with 16.
      replace (69 + Z.of_nat k) with (5 + Z.of_nat k + 4 * 16) by lia. rewrite Z.div_add by done.
      by rewrite Z.div_small by lia. }
    split.
    + unfold packet_ttl. cbn [v4_packet app lookup list_lookup]. by rewrite Ev, E4.
    + intros Ht. set (seg := segment _ _ _ _ _).
      eapply (segment_parsed _ _ _ ([69 + Z.of_nat (length options / 4); tos]
          ++ to_be_bytes 2 (20 + len options + len seg)
          ++ [i1; i2; flags * 32; 0; ttl; 6; s1; s2] ++ to_be_bytes 4 src ++ to_be_bytes 4 dst ++ options));
        [exact Hs|reflexivity| |].
      * rewrite E4. cbn [Z.eqb Pos.eqb].
        by rewrite v4_segment_found by (try done; by apply segment_length).
      * unfold v4_packet. by rewrite <-!app_assoc.
  - assert (E6 : Z.shiftr (96 + t0) 4 = 6).
    { destruct H6 as (Ht0 & _). rewrite Z.shiftr_div_pow2 by done. change (2 ^ 4) with 16.
      replace (96 + t0) with (t0 + 6 * 16) by lia. rewrite Z.div_add by done. by rewrite Z.div_small by lia. }
    destruct (version_octet (96 + t0)) as [Ev4 Ev6].
    { destruct H6 as (Ht0 & _). unfold is_u8, u8_max. lia. }
    split.
    + unfold packet_ttl. cbn [v6_packet app lookup list_lookup]. by rewrite Ev4, Ev6, E6.
    + intros Ht. set (seg := segment _ _ _ _ _).
      eapply (segment_parsed _ _ _ ([96 + t0; t1; t2; t3] ++ to_be_bytes 2 (len (chain exts).2 + len seg)
          ++ [(chain exts).1; hops] ++ to_be_bytes 16 src ++ to_be_bytes 16 dst ++ (chain exts).2));
        [exact Hs|reflexivity| |].
      * rewrite E6. cbn [Z.eqb Pos.eqb].
        by rewrite v6_segment_found by (try done; by apply segment_length).
      * unfold v6_packet. by rewrite <-!app_assoc.
Qed.

Lemma unless_bind {A} b (k : parse A) a : (_ ← unless b; k) = Ok a -> b = false /\ k = Ok a.
Proof. by destruct b. Qed.

Lemma index_bind {A} (p : bytes) i (k : Z -> parse A) a :
  (b ← index p i; k b) = Ok a -> exists b, p !! i = Some b /\ k b = Ok a.
Proof. unfold index. destruct (p !! i) as [b|]; [|done]. by exists b. Qed.

(** What the parser takes for a violation did not arrive with TTL 255. *)
Lemma parsed_ttl packet interface c :
  is_bytes packet -> low_ttl_connection packet interface = Ok c ->
  exists ttl, packet_ttl packet = Some ttl /\ ttl <> 255.
Proof.
  intros Hb. unfold low_ttl_connection, packet_ttl.
  destruct (packet !! 0%nat) as [first|] eqn:H0; [|done]. cbn [found mbind outcome_bind].
  assert (Hf : is_u8 first) by (eapply (proj1 (Forall_lookup _ _) Hb); exact H0).
  destruct (version_octet first Hf) as [-> ->].
  destruct (Z.shiftr first 4 =? 4).
  - destruct (v4_segment packet) as [s|[]|] eqn:E; [|done|done]. intros _.
    unfold v4_segment in E. apply unless_bind in E as [_ E].
    apply index_bind in E as (ttl & -> & E). apply unless_bind in E as [Ht _]. exists ttl. bprop. done.
  - destruct (Z.shiftr first 4 =? 6); [|done].
    destruct (v6_segment packet) as [s|[]|] eqn:E; [|done|done]. intros _.
    unfold v6_segment in E. apply unless_bind in E as [_ E].
    apply index_bind in E as (ttl & -> & E). apply unless_bind in E as [Ht _]. exists ttl. bprop. done.
Qed.

(** C25: Violations are acted on, and nothing else.  A TCP packet of a monitored connection
    that arrives with a TTL other than 255, over IPv4 with any options or over IPv6 behind
    any chain of extension headers, passes the filter in the kernel, and the monitor resets
    exactly the socket registered for its connection.  No octets make the monitor panic;
    and when it resets a socket, that socket is registered, the packet passed the filter
    and it did not have TTL 255. *)
Theorem violations_reset packet self :
  (forall interface ttl c, tcp_packet interface packet ttl c -> ttl <> 255 ->
     filter_low_ttl packet = 65536
     /\ on_packet (mkPacket true false interface) packet self = Ok (opt_list (sockets self !! c)))
  /\ (is_bytes packet -> forall info,
      exists resets, on_packet info packet self = Ok resets
        /\ (resets <> [] -> filter_low_ttl packet = 65536 /\ packet_ttl packet <> Some 255
            /\ Forall (fun s => exists c, sockets self !! c = Some s) resets)).
Proof.
  split.
  - intros interface ttl c Hp Ht. destruct (tcp_packet_parsed _ _ _ _ Hp) as [Et Hc]. split.
    + rewrite filter_exact, Et. by rewrite (proj2 (Z.eqb_neq _ _) Ht).
    + unfold on_packet. cbn. by rewrite Hc.
  - intros Hb info. pose proof (monitor_total info packet self) as Ht. unfold on_packet in *.
    destruct (_ || _); [by exists []|].
    destruct (low_ttl_connection packet (ifindex info)) as [c|[]|] eqn:E; [|by exists []|done].
    eexists. split; [done|]. intros Hr. destruct (parsed_ttl _ _ _ Hb E) as (ttl & Et & Hne).
    rewrite filter_exact, Et. rewrite (proj2 (Z.eqb_neq _ _) Hne). split_and!; [done|congruence|].
    destruct (sockets self !! c) as [s|] eqn:Es; [|done]. apply Forall_singleton. by exists c.
Qed.

(** ** Registrations *)

(** The registrations made so far, the newest first, and those dropped. *)
Record MonitorLog : Type := mkLog { made : list (Connection * SocketRef); dropped : gset SocketRef }.

Inductive monitor_step : MonitorState * MonitorLog -> MonitorState * MonitorLog -> Prop :=
  | mon_register self h local peer socket r self' :
      socket ∉ (made h).*2 -> register_stream local peer socket self = (Ok r, self') ->
      monitor_step (self, h) (self', mkLog (r :: made h) (dropped h))
  | mon_refused self h local peer socket e self' :
      register_stream local peer socket self = (Err e, self') -> monitor_step (self, h) (self', h)
  | mon_drop self h r :
      r ∈ made h -> r.2 ∉ dropped h ->
      monitor_step (self, h) (drop_registration r self, mkLog (made h) ({[r.2]} ∪ dropped h))
  | mon_failure self h : monitor_step (self, h) ((on_failure self).2, h).

(** The newest registration of a connection. *)
Definition newest (c : Connection) (h : MonitorLog) : option SocketRef :=
  find_map (fun r : Connection * SocketRef => if bool_decide (r.1 = c) then Some r.2 else None) (made h).

Definition monitored (h : MonitorLog) (c : Connection) : option SocketRef :=
  match newest c h with
  | Some s => if bool_decide (s ∈ dropped h) then None else Some s
  | None => None
  end.

Definition monitor_inv (st : MonitorState * MonitorLog) : Prop :=
  NoDup (made st.2).*2 /\ dropped st.2 ⊆ list_to_set (made st.2).*2
  /\ forall c, sockets st.1 !! c = monitored st.2 c.

Lemma newest_made c h s : newest c h = Some s -> (c, s) ∈ made h.
Proof.
  unfold newest. intros (r & Hr & E)%find_map_Some. case_bool_decide as Hc; [|done].
  injection E as <-. by destruct r as [c' s']; cbn in Hc; subst.
Qed.

Lemma monitor_step_inv st st' : monitor_inv st -> monitor_step st st' -> monitor_inv st'.
Proof.
  intros (Hnd & Hdr & Hs) Hstep. destruct Hstep as [self h local peer socket r self' Hf Hr
    |self h local peer socket e self' Hr|self h r Hm Hl|self h]; cbn [fst snd] in *.
  - unfold register_stream in Hr. destruct (failed self); [done|]. injection Hr as <- <-.
    split_and!; cbn [fst snd made dropped fmap list_fmap].
    + by apply NoDup_cons.
    + set_solver.
    + intros c. unfold monitored, newest. cbn [sockets made dropped find_map fst snd].
      case_bool_decide as Hc.
      * subst c. rewrite lookup_insert_eq, bool_decide_false; [done|]. set_solver.
      * rewrite lookup_insert_ne by done. apply Hs.
  - unfold register_stream in Hr. destruct (failed self); [|done]. by injection Hr as <- <-.
  - split_and!; cbn [fst snd made dropped]; [done| |].
    + apply union_subseteq. split; [|done]. apply singleton_subseteq_l, elem_of_list_to_set.
      apply list_elem_of_fmap. by exists r.
    + intros c. unfold drop_registration, monitored. change (newest c (mkLog (made h) _)) with (newest c h).
      cbn [dropped]. pose proof (Hs c) as Hc. unfold monitored in Hc.
      assert (Hother : forall s, newest c h = Some s -> s = r.2 -> c = r.1).
      { intros s Hn%newest_made ->.
        apply list_elem_of_lookup in Hn as [i Hi], Hm as [j Hj].
        assert (i = j).
        { eapply NoDup_lookup; [exact Hnd| |]; rewrite list_lookup_fmap; [rewrite Hi|rewrite Hj]; done. }
        subst j. rewrite Hi in Hj. by injection Hj as <-. }
      case_bool_decide as Hcur; cbn [sockets].
      * destruct (decide (c = r.1)) as [->|Hne].
        -- rewrite lookup_delete_eq. rewrite Hcur in Hc.
           destruct (newest r.1 h) as [s|]; [|done]. case_bool_decide; [done|]. injection Hc as ->.
           by rewrite bool_decide_true by set_solver.
        -- rewrite lookup_delete_ne, Hc by done. destruct (newest c h) as [s|] eqn:En; [|done].
           assert (s <> r.2) by (intros E; by apply Hne, (Hother s)).
           do 2 case_bool_decide; try done; set_solver.
      * rewrite Hc. destruct (newest c h) as [s|] eqn:En; [|done].
        destruct (decide (s = r.2)) as [->|Hne].
        -- pose proof (Hother _ eq_refl eq_refl) as ->. rewrite Hc in Hcur.
           rewrite bool_decide_false in Hcur by done. done.
        -- do 2 case_bool_decide; try done; set_solver.
  - by split_and!.
Qed.

(** The monitor watches the current connections.  In every run the socket that would be
    reset for a connection is the one registered last for it, until that registration
    is dropped: a registration dropped late does not stop the watch over a new
    connection between the same endpoints. *)
Theorem registrations_exact st :
  rtc monitor_step (MonitorState_default, mkLog [] ∅) st ->
  forall c, sockets st.1 !! c = monitored st.2 c.
Proof.
  intros Hr. assert (Hi : monitor_inv st); [|apply Hi].
  assert (H0 : monitor_inv (MonitorState_default, mkLog [] ∅)).
  { split_and!; [apply NoDup_nil_2|done|done]. }
  clear -Hr H0. induction Hr as [|x y z Hs _ IH]; [done|]. apply IH. by eapply monitor_step_inv.
Qed.

(** ** Examples *)

Definition sample_connection : Connection :=
  mkConnection (SocketV6 1 854 0 0) (SocketV6 2 40000 0 0).
Definition sample_extensions : list Extension :=
  [ExtOptions 0 0 [1; 4; 0; 0; 0; 0]; ExtAuth 4 (replicate 22 0); ExtFragment 0 1 [9; 9; 9; 9]].
Definition sample_packet (hops : Z) : bytes :=
  v6_packet 0 0 0 0 hops 2 1 sample_extensions (segment 40000 854 (replicate 8 0) 80 (replicate 9 0)) [].
Definition sample_state : MonitorState := mkMonitor {[sample_connection := 7]} false.

Lemma sample_packet_ok hops : tcp_packet 3 (sample_packet hops) hops sample_connection.
Proof.
  apply (tcp_v6 3 0 0 0 0 hops 2 1 sample_extensions 40000 854 (replicate 8 0) 80 (replicate 9 0) []).
  - split_and!; unfold is_u16, u16_max; cbn; lia.
  - split_and!; try lia.
    + repeat apply Forall_cons_2; [..|apply Forall_nil_2]; split_and!; cbn; lia || auto.
    + apply (bool_decide_unpack _). by vm_compute.
Qed.

Lemma violations_reset_witness :
  (filter_low_ttl (sample_packet 64) = 65536
   /\ on_packet (mkPacket true false 3) (sample_packet 64) sample_state = Ok [7])
  /\ exists resets, on_packet (mkPacket true false 3) (sample_packet 255) sample_state = Ok resets /\ resets = [].
Proof.
  split.
  - destruct (proj1 (violations_reset (sample_packet 64) sample_state) 3 64 sample_connection (sample_packet_ok 64)
      ltac:(lia)) as [Hf Ho].
    split; [exact Hf|]. rewrite Ho. vm_compute. reflexivity.
  - assert (Hb : is_bytes (sample_packet 255)) by (apply (bool_decide_unpack _); by vm_compute).
    destruct (proj2 (violations_reset (sample_packet 255) sample_state) Hb (mkPacket true false 3)) as (resets & E & Hr).
    exists resets. split; [exact E|]. destruct resets as [|s l]; [reflexivity|].
    exfalso. destruct (Hr ltac:(discriminate)) as (_ & Ht & _). apply Ht. vm_compute. reflexivity.
Defined.

(** A connection is registered again before its old registration is dropped. *)
Definition reused : MonitorState * MonitorLog :=
  (drop_registration (sample_connection, 1) (mkMonitor {[sample_connection := 2]} false),
   mkLog [(sample_connection, 2); (sample_connection, 1)] {[1]}).

Lemma reused_reached : rtc monitor_step (MonitorState_default, mkLog [] ∅) reused.
Proof.
  eapply rtc_l; [eapply (mon_register _ _ (SocketV6 1 854 0 0) (SocketV6 2 40000 0 0) 1); [|reflexivity]|].
  { cbn. set_solver. }
  eapply rtc_l; [eapply (mon_register _ _ (SocketV6 1 854 0 0) (SocketV6 2 40000 0 0) 2); [|reflexivity]|].
  { cbn. set_solver. }
  eapply rtc_l; [eapply (mon_drop _ _ (sample_connection, 1))|].
  - cbn. right. left.
  - cbn. set_solver.
  - match goal with |- rtc _ ?x _ => replace x with reused; [apply rtc_refl|] end.
    vm_compute. reflexivity.
Qed.

Lemma registrations_exact_witness : sockets reused.1 !! sample_connection = Some 2.
Proof.
  rewrite (registrations_exact reused reused_reached sample_connection). vm_compute. reflexivity.
Defined.
