(* ===== verification/DiscoveryTask.v ===== *)
(** * The discovery task

    [dlep-daemon/src/discovery.rs]: the task that owns a discovery socket and one of
    the discovery state machines of [Discovery].  Sends whose failure is only logged
    are recorded as attempted; the socket, the sleepers and the expiry channel are the
    step relation [discovery_step]. *)

From S2P Require Import Prelude Externs CoreTypes Codec CodecItem CodecMessage Addresses Events.
From S2P Require Import SessionCommon SessionWire Discovery Connections.
Import DataItem.

(** ** State *)

(** [trait DiscoveryFsm]. *)
Class DiscoveryFsm (F : Type) : Type := { dfsm_step : FsmEvent -> F -> F * list FsmAction }.

#[export] Instance router_discovery {crates : Crates} : DiscoveryFsm RouterDiscovery.RouterDiscoveryFsm :=
  {| dfsm_step := RouterDiscovery.step |}.
#[export] Instance modem_discovery {crates : Crates} : DiscoveryFsm ModemDiscovery.ModemDiscoveryFsm :=
  {| dfsm_step := ModemDiscovery.step |}.

(** What the task does to the outside. *)
Inductive DiscoveryOutput : Type :=
  | SentGroup (signal : Signal)
  | SentUnicast (signal : Signal) (dest : SocketAddr)
  | Announced (endpoints : list OfferEndpoint) (peer_description : option rstring).

(** A spawned sleeper: what it sends, and whether it goes on. *)
Record Sleeper : Type := mkSleeper { sl_id : TimerId; sl_kind : TimerKind; sl_periodic : bool }.

(** [DiscoveryTimers] with the sleepers that run, the expiry channel, and the rest of
    the task's state. *)
Record DiscoveryState (F : Type) : Type := mkDiscovery {
  d_fsm : F;
  d_handles : gmap TimerId nat;
  d_running : gmap nat Sleeper;
  d_spawned : nat;
  d_queue : list (TimerId * TimerKind);
  d_out : list DiscoveryOutput;
}.
Arguments mkDiscovery {F}.
Arguments d_fsm {F}.
Arguments d_handles {F}.
Arguments d_running {F}.
Arguments d_spawned {F}.
Arguments d_queue {F}.
Arguments d_out {F}.

(** ** Operations *)

Section Operations.
Context {F : Type}.
Implicit Type t : DiscoveryState F.

Definition set_dfsm (f : F) t : DiscoveryState F :=
  mkDiscovery f (d_handles t) (d_running t) (d_spawned t) (d_queue t) (d_out t).
Definition set_dqueue (q : list (TimerId * TimerKind)) t : DiscoveryState F :=
  mkDiscovery (d_fsm t) (d_handles t) (d_running t) (d_spawned t) q (d_out t).
Definition push_output (o : DiscoveryOutput) t : DiscoveryState F :=
  mkDiscovery (d_fsm t) (d_handles t) (d_running t) (d_spawned t) (d_queue t) (d_out t ++ [o]).

(** [abort()] of the task under a handle. *)
Definition abort (h : option nat) (running : gmap nat Sleeper) : gmap nat Sleeper :=
  match h with Some h => delete h running | None => running end.

(** [DiscoveryTimers::arm], for a sleeper spawned for it. *)
Definition arm_discovery (id : TimerId) (s : Sleeper) t : DiscoveryState F :=
  mkDiscovery (d_fsm t) (<[id := d_spawned t]> (d_handles t))
    (abort (d_handles t !! id) (<[d_spawned t := s]> (d_running t))) (S (d_spawned t))
    (d_queue t) (d_out t).

(** [DiscoveryTimers::cancel]. *)
Definition cancel_discovery (id : TimerId) t : DiscoveryState F :=
  mkDiscovery (d_fsm t) (delete id (d_handles t)) (abort (d_handles t !! id) (d_running t))
    (d_spawned t) (d_queue t) (d_out t).

(** [Drop for DiscoveryTimers]. *)
Definition drop_discovery t : DiscoveryState F :=
  mkDiscovery (d_fsm t) ∅
    (foldr (fun h running => delete h running) (d_running t) (map_to_list (d_handles t)).*2)
    (d_spawned t) (d_queue t) (d_out t).

(** A wildcard connection point becomes the address the request came in on. *)
Definition fill_connection_point (local : IpAddr) (item : DataItem) : DataItem :=
  match item, local with
  | Ipv4ConnectionPoint flags addr port, IpV4 l =>
      if addr =? 0 then Ipv4ConnectionPoint flags l port else item
  | Ipv6ConnectionPoint flags addr port, IpV6 l =>
      if addr =? 0 then Ipv6ConnectionPoint flags l port else item
  | _, _ => item
  end.

Definition fill_signal (local : option IpAddr) (signal : Signal) : Signal :=
  match local with
  | Some l => mkSignal (signal_type signal) (fill_connection_point l <$> sig_items signal)
  | None => signal
  end.

(** A link-local endpoint is reached over the interface the offer came in on. *)
Definition scope_endpoint (index : Z) (e : OfferEndpoint) : OfferEndpoint :=
  match ep_addr e with
  | SocketV6 ip port flow scope =>
      mkEndpoint (SocketV6 ip port flow (if is_unicast_link_local ip then index else scope)) (ep_use_tls e)
  | SocketV4 _ _ => e
  end.

Definition scope_endpoints (index : option Z) (l : list OfferEndpoint) : list OfferEndpoint :=
  match index with Some i => scope_endpoint i <$> l | None => l end.

Definition discovery_action (local : option IpAddr) (index : option Z) t (a : FsmAction)
    : DiscoveryState F :=
  match a with
  | SendSignal signal DiscoveryGroup => push_output (SentGroup signal) t
  | SendSignal signal (Unicast addr) => push_output (SentUnicast (fill_signal local signal) addr) t
  | StartTimer id kind _ periodic => arm_discovery id (mkSleeper id kind periodic) t
  | CancelTimer id => cancel_discovery id t
  | Emit (PeerDiscovered endpoints description) =>
      push_output (Announced (scope_endpoints index endpoints) description) t
  | _ => t
  end.

(** [process_actions]. *)
Definition discovery_actions (local : option IpAddr) (index : option Z) (actions : list FsmAction) t
    : DiscoveryState F :=
  foldl (discovery_action local index) t actions.

Context `{fsm : DiscoveryFsm F}.

Definition feed_discovery (local : option IpAddr) (index : option Z) (event : FsmEvent) t
    : DiscoveryState F :=
  let '(f, actions) := dfsm_step event (d_fsm t) in
  discovery_actions local index actions (set_dfsm f t).

(** A datagram: the peers connected already are not answered. *)
Definition on_datagram (connected : option RouterCounts) (signal : Signal) (from : SocketAddr)
    (local : IpAddr) (index : Z) t : DiscoveryState F :=
  if (signal_type signal =? SignalType.PEER_DISCOVERY)
     && match connected with Some peers => router_contains peers from | None => false end
  then t
  else feed_discovery (Some local) (Some index) (RecvSignal signal from) t.

Definition on_discovery_expiry (x : TimerId * TimerKind) t : DiscoveryState F :=
  feed_discovery None None (TimerExpired x.1 x.2) t.

(** The last branch, and the end of the function: the timers are dropped. *)
Definition on_discovery_shutdown t : DiscoveryState F :=
  drop_discovery (feed_discovery None None (AppShutdown StatusCode.SHUTTING_DOWN) t).

Definition start_discovery (f : F) (initial : option FsmEvent) : DiscoveryState F :=
  let t := mkDiscovery f ∅ ∅ 0 [] [] in
  match initial with Some event => feed_discovery None None event t | None => t end.

(** A sleeper wakes; the channel holds eight expiries. *)
Definition fire (h : nat) (s : Sleeper) t : DiscoveryState F :=
  mkDiscovery (d_fsm t) (d_handles t) (if sl_periodic s then d_running t else delete h (d_running t))
    (d_spawned t) (d_queue t ++ [(sl_id s, sl_kind s)]) (d_out t).

(** One step of the task and its sleepers; [true] when the task has ended.  The number
    counts the expiries the task took. *)
Inductive discovery_step : bool * nat * DiscoveryState F -> bool * nat * DiscoveryState F -> Prop :=
  | ds_datagram n t connected signal from local index :
      is_signal signal ->
      discovery_step (false, n, t) (false, n, on_datagram connected signal from local index t)
  | ds_error n t : discovery_step (false, n, t) (false, n, t)
  | ds_fire n t h s :
      d_running t !! h = Some s -> (length (d_queue t) < 8)%nat ->
      discovery_step (false, n, t) (false, n, fire h s t)
  | ds_expiry n t x q :
      d_queue t = x :: q ->
      discovery_step (false, n, t) (false, S n, on_discovery_expiry x (set_dqueue q t))
  | ds_shutdown n t : discovery_step (false, n, t) (true, n, on_discovery_shutdown t).

End Operations.

(** ** The router's task *)

Section Router.
Context {crates : Crates}.
Variable c : RouterDiscovery.RouterDiscoveryConfig.

Abbreviation task := (DiscoveryState RouterDiscovery.RouterDiscoveryFsm).

Definition probe_signal : Signal := build_peer_discovery (RouterDiscovery.peer_description c).

Definition group_signals (out : list DiscoveryOutput) : list Signal :=
  omap (fun o => match o with SentGroup s => Some s | _ => None end) out.

(** Endpoints to dial: usable, and link-local ones with the interface of the offer. *)
Definition dialable (index : Z) (e : OfferEndpoint) : Prop :=
  usable e = true
  /\ match ep_addr e with
     | SocketV6 ip _ _ scope => is_unicast_link_local ip = true -> scope = index
     | SocketV4 _ _ => True
     end.

Definition output_ok (o : DiscoveryOutput) : Prop :=
  match o with
  | SentGroup s => s = probe_signal
  | SentUnicast _ _ => False
  | Announced es _ => es <> [] /\ exists index, Forall (dialable index) es
  end.

Definition probe_sleeper : Sleeper := mkSleeper RouterDiscovery.TIMER_DISCOVERY TDiscovery true.

(** A task that probes: one sleeper, the expiries are its, and one probe was sent at
    the start and one for each expiry. *)
Definition probes (n : nat) (t : task) : Prop :=
  d_fsm t = RouterDiscovery.mkRouterDiscovery RouterDiscovery.Probing c
  /\ (exists h, d_handles t = {[RouterDiscovery.TIMER_DISCOVERY := h]}
        /\ d_running t = {[h := probe_sleeper]})
  /\ Forall (fun x => x = (RouterDiscovery.TIMER_DISCOVERY, TDiscovery)) (d_queue t)
  /\ group_signals (d_out t) = replicate (S n) probe_signal /\ Forall output_ok (d_out t).

(** A task that ended. *)
Definition stopped (n : nat) (t : task) : Prop :=
  d_running t = ∅ /\ group_signals (d_out t) = replicate (S n) probe_signal
  /\ Forall output_ok (d_out t).

Lemma group_signals_app l l' : group_signals (l ++ l') = group_signals l ++ group_signals l'.
Proof. apply omap_app. Qed.

Lemma usable_scoped index e : usable (scope_endpoint index e) = usable e.
Proof. by destruct e as [[]]. Qed.

Lemma scope_dialable index e : usable e = true -> dialable index (scope_endpoint index e).
Proof.
  intros Hu. split; [by rewrite usable_scoped|]. destruct e as [[|ip port flow scope] tls]; [done|].
  cbn. by intros ->.
Qed.

Lemma on_offer_cases signal from :
  RouterDiscovery.on_offer signal from = []
  \/ exists es d, RouterDiscovery.on_offer signal from = [Emit (PeerDiscovered es d)]
       /\ es <> [] /\ Forall (fun e => usable e = true) es.
Proof.
  unfold RouterDiscovery.on_offer. destruct (negb _); [by left|].
  destruct (offer_endpoints signal from) as [|e es] eqn:E; [by left|]. right.
  exists (e :: es). eexists. split; [done|]. split; [done|]. rewrite <-E. apply Forall_forall. intros x.
  unfold offer_endpoints. rewrite elem_of_dedup, elem_of_sort_by_key, elem_of_retain. tauto.
Qed.

Lemma replicate_snoc {A} n (x : A) : replicate n x ++ [x] = replicate (S n) x.
Proof. by rewrite <-replicate_cons_app. Qed.

Lemma probes_datagram n t connected signal from local index :
  probes n t -> probes n (on_datagram connected signal from local index t).
Proof.
  intros (Hf & Hs & Hq & Hg & Ho). unfold on_datagram. destruct (_ && _); [done|].
  unfold feed_discovery. rewrite Hf. cbn [dfsm_step router_discovery RouterDiscovery.step RouterDiscovery.state].
  destruct (_ =? _); [|by split_and!].
  destruct (on_offer_cases signal from) as [->|(es & d & -> & Hne & Hu)]; [by split_and!|].
  split_and!; try done; cbn.
  - rewrite group_signals_app. cbn. by rewrite app_nil_r.
  - apply Forall_app. split; [done|]. apply Forall_singleton. split; [by destruct es|].
    exists index. apply Forall_fmap. eapply Forall_impl; [exact Hu|]. intros e. apply scope_dialable.
Qed.

Lemma probes_fire n t h s : probes n t -> d_running t !! h = Some s -> probes n (fire h s t).
Proof.
  intros (Hf & (h' & Hh & Hr) & Hq & Hg & Ho) Hs. rewrite Hr in Hs.
  apply lookup_singleton_Some in Hs as [<- <-]. split_and!; try done.
  - by exists h'.
  - apply Forall_app. split; [done|]. by apply Forall_singleton.
Qed.

Lemma probes_expiry n t x q :
  probes n t -> d_queue t = x :: q -> probes (S n) (on_discovery_expiry x (set_dqueue q t)).
Proof.
  intros (Hf & Hs & Hq & Hg & Ho) Ex. rewrite Ex in Hq. apply Forall_cons in Hq as [-> Hq].
  unfold on_discovery_expiry, feed_discovery. cbn [d_fsm set_dqueue]. rewrite Hf.
  cbn. split_and!; try done; cbn.
  - rewrite group_signals_app, Hg. cbn. apply (replicate_snoc (S n)).
  - apply Forall_app. split; [done|]. by apply Forall_singleton.
Qed.

Lemma probes_shutdown n t : probes n t -> stopped n (on_discovery_shutdown t).
Proof.
  intros (Hf & (h & Hh & Hr) & Hq & Hg & Ho).
  unfold on_discovery_shutdown, feed_discovery. rewrite Hf. cbn [dfsm_step router_discovery
    RouterDiscovery.step RouterDiscovery.state RouterDiscovery.config].
  unfold discovery_actions. cbn [foldl discovery_action]. unfold stopped, drop_discovery, cancel_discovery.
  cbn [d_handles d_running d_out set_dfsm]. rewrite Hh, Hr, lookup_singleton_eq. cbn [abort].
  split_and!; try done.
  assert (Hd : delete RouterDiscovery.TIMER_DISCOVERY
    ({[RouterDiscovery.TIMER_DISCOVERY := h]} : gmap TimerId nat) = ∅)
    by (apply delete_singleton_eq).
  rewrite Hd, map_to_list_empty. cbn. apply delete_singleton_eq.
Qed.

(** The router's probing, by the clock.  At every point of every run of the router's
    discovery task exactly one sleeper runs, and one probe has been sent at the start
    and one for each expiry taken; everything sent goes to the group, and what is
    announced are usable endpoints, link-local ones with the interface of the offer.
    When the task ends no sleeper is left. *)
Theorem discovery_task_probes ended n t :
  rtc (discovery_step (fsm := router_discovery))
    (false, 0%nat, start_discovery (fsm := router_discovery) (RouterDiscovery.with_config c)
       (Some AppStartDiscovery)) (ended, n, t) ->
  if ended then stopped n t else probes n t.
Proof.
  intros Hr.
  assert (Hinv : forall st st', rtc (discovery_step (fsm := router_discovery)) st st' ->
    (if st.1.1 then stopped st.1.2 st.2 else probes st.1.2 st.2) ->
    if st'.1.1 then stopped st'.1.2 st'.2 else probes st'.1.2 st'.2).
  { induction 1 as [|x y z Hs _ IH]; [done|]. intros Hx. apply IH. clear IH.
    destruct Hs; cbn [fst snd] in *; auto using probes_datagram, probes_fire, probes_expiry, probes_shutdown. }
  apply (Hinv _ _ Hr). cbn [fst snd]. split_and!; [done| |apply Forall_nil_2|done|].
  - exists 0%nat. by split.
  - by apply Forall_singleton.
Qed.
End Router.

(** ** Both tasks *)

(** The endpoint a modem offers that listens on [ep] and was asked at [local]. *)
Definition fill_endpoint (local : IpAddr) (ep : SocketAddr) : SocketAddr :=
  match ep, local with
  | SocketV4 ip port, IpV4 l => if ip =? 0 then SocketV4 l port else ep
  | SocketV6 ip port flow scope, IpV6 l => if ip =? 0 then SocketV6 l port flow scope else ep
  | _, _ => ep
  end.

Lemma fill_offer local desc ep tls :
  fill_signal (Some local) (build_peer_offer desc ep tls) = build_peer_offer desc (fill_endpoint local ep) tls.
Proof.
  destruct ep as [ip port|ip port flow scope], local as [l|l]; try done; cbn; by destruct (ip =? 0).
Qed.

Section EndToEnd.
Context {crates : Crates}.

(** Discovery reaches the modem.  A modem's discovery task that gets a router's probe
    at its address [local] answers with one offer, unicast to the router; over the
    wire, the router's task announces exactly one endpoint: the modem's listener, with
    a wildcard replaced by [local], and the router's interface for a link-local one.
    A router that is connected already is not answered. *)
Theorem discovery_reaches_modem c state ep desc tls local router_addr modem_addr router_local
    modem_index index peers n
    (mt : DiscoveryState ModemDiscovery.ModemDiscoveryFsm)
    (rt : DiscoveryState RouterDiscovery.RouterDiscoveryFsm) :
  utf8_valid (RouterDiscovery.peer_description c) = true -> utf8_valid desc = true ->
  is_socket (fill_endpoint local ep) -> usable (mkEndpoint (fill_endpoint local ep) tls) = true ->
  sig_fits (probe_signal c) -> sig_fits (build_peer_offer desc (fill_endpoint local ep) tls) ->
  d_fsm mt = ModemDiscovery.mkModemDiscovery state ep desc tls -> probes c n rt ->
  let asked := on_datagram (fsm := modem_discovery) (Some peers) (probe_signal c) router_addr local
                 modem_index mt in
  sig_deliver (probe_signal c) (probe_signal c)
  /\ if router_contains peers router_addr then asked = mt
     else
       let offer := build_peer_offer desc (fill_endpoint local ep) tls in
       d_out asked = d_out mt ++ [SentUnicast offer router_addr]
       /\ sig_deliver offer offer
       /\ d_out (on_datagram (fsm := router_discovery) None offer modem_addr router_local index rt)
          = d_out rt
            ++ [Announced [scope_endpoint index (mkEndpoint (as_seen modem_addr (fill_endpoint local ep)) tls)]
                  (Some desc)].
Proof.
  intros Hu Hud Hep Hus Hfp Hfo Hm (Hf & _). cbv zeta.
  destruct (probe_valid _ Hu Hfp) as [Hdp Hvp]. destruct (offer_valid _ _ _ Hud Hep Hfo) as [Hdo Hvo].
  split; [exact Hdp|]. unfold on_datagram.
  change (signal_type (probe_signal c) =? SignalType.PEER_DISCOVERY) with true. cbn [andb].
  destruct (router_contains peers router_addr); [done|].
  unfold feed_discovery at 1. rewrite Hm. cbn [dfsm_step modem_discovery ModemDiscovery.step].
  change (signal_type (probe_signal c) =? SignalType.PEER_DISCOVERY) with true. cbv iota.
  fold (probe_signal c) in Hvp. rewrite Hvp. cbn [negb].
  cbv zeta. split; [by rewrite <-fill_offer|]. split; [exact Hdo|].
  set (ep' := fill_endpoint local ep) in *.
  assert (Ht : signal_type (build_peer_offer desc ep' tls) = SignalType.PEER_OFFER) by by destruct ep'.
  rewrite Ht. change (SignalType.PEER_OFFER =? SignalType.PEER_DISCOVERY) with false. cbn [andb].
  unfold feed_discovery. rewrite Hf.
  cbn [dfsm_step router_discovery RouterDiscovery.step RouterDiscovery.state].
  rewrite Ht, Z.eqb_refl. unfold RouterDiscovery.on_offer. rewrite Hvo. cbn [negb].
  assert (Hoff : offer_endpoints (build_peer_offer desc ep' tls) modem_addr
    = [mkEndpoint (as_seen modem_addr ep') tls]).
  { assert (Hu' : usable (mkEndpoint (as_seen modem_addr ep') tls) = true) by by destruct ep'.
    unfold offer_endpoints. destruct ep'; cbn -[usable] in *; by rewrite Hu'. }
  rewrite Hoff. by destruct ep'.
Qed.
End EndToEnd.

(** ** Witnesses *)

#[local] Existing Instance reference_crates.

Definition probing_start : DiscoveryState RouterDiscovery.RouterDiscoveryFsm :=
  start_discovery (fsm := router_discovery) (RouterDiscovery.with_config discovery_config)
    (Some AppStartDiscovery).
Definition probing_once : DiscoveryState RouterDiscovery.RouterDiscoveryFsm :=
  on_discovery_expiry (fsm := router_discovery) (RouterDiscovery.TIMER_DISCOVERY, TDiscovery)
    (set_dqueue [] (fire 0 probe_sleeper probing_start)).

Lemma probing_once_reached :
  rtc (discovery_step (fsm := router_discovery)) (false, 0%nat, probing_start) (false, 1%nat, probing_once).
Proof.
  eapply rtc_l; [apply (ds_fire 0 probing_start 0 probe_sleeper); [reflexivity|cbn; lia]|].
  eapply rtc_l; [by apply (ds_expiry 0 (fire 0 probe_sleeper probing_start)
    (RouterDiscovery.TIMER_DISCOVERY, TDiscovery) [])|]. apply rtc_refl.
Qed.

Lemma discovery_task_probes_witness :
  group_signals (d_out probing_once) = replicate 2 (probe_signal discovery_config).
Proof.
  exact (proj1 (proj2 (proj2 (proj2
    (discovery_task_probes discovery_config false 1 probing_once probing_once_reached))))).
Defined.

(** A modem that listens on every address. *)
Definition wildcard_modem : DiscoveryState ModemDiscovery.ModemDiscoveryFsm :=
  start_discovery (fsm := modem_discovery) (ModemDiscovery.new (SocketV4 0 854) (str "modem") true) None.

Lemma discovery_reaches_modem_witness :
  exists offer, d_out (on_datagram (fsm := router_discovery) None offer (SocketV4 3232235777 854)
      (IpV4 3232235778) 2 probing_once)
    = d_out probing_once ++ [Announced [mkEndpoint (SocketV4 3232235777 854) true] (Some (str "modem"))].
Proof.
  destruct (discovery_reaches_modem discovery_config ModemDiscovery.Listening (SocketV4 0 854) (str "modem")
    true (IpV4 3232235777) (SocketV4 3232235778 40000) (SocketV4 3232235777 854) (IpV4 3232235778) 3 2 ∅ 1
    wildcard_modem probing_once) as [_ H].
  - vm_compute. reflexivity.
  - vm_compute. reflexivity.
  - by split_and!.
  - vm_compute. reflexivity.
  - vm_compute. reflexivity.
  - vm_compute. reflexivity.
  - reflexivity.
  - split_and!; [reflexivity|by exists 0%nat|apply Forall_nil_2|reflexivity|].
    repeat apply Forall_cons_2; [done|done|apply Forall_nil_2].
  - destruct H as (_ & _ & H). by eexists.
Defined.
