(* ===== verification/Accept.v ===== *)
(** * Accepting and shutting down

    The modem daemon of [dlep-daemon/src/modem.rs]: the listener that accepts
    connections and spawns a task for each, the life of such a task around the session
    it runs, and [ModemDaemon::shutdown].  They run at the same time and share the
    session senders, the task handles, a semaphore, the connected routers and the
    [stopping] flag.  A step is what happens between two suspension points. *)

From S2P Require Import Prelude CoreTypes Addresses Events Connections.

(** ** State *)

(** A connection task, by the point it waits at. *)
Inductive ConnPhase : Type :=
  | Starting
  | Handshaking
  | Connected
  | Serving
  | Closing.

Record ConnTask : Type := mkConnTask {
  ct_peer : SocketAddr;
  ct_phase : ConnPhase;
}.

(** The listener waits for a connection, for the lock of [tasks] with a permit and a
    registration in hand, or has ended. *)
Inductive Listener : Type :=
  | Accepting
  | Holding (peer : SocketAddr)
  | Gone.

(** Where [shutdown] is. *)
Inductive ShutdownPoint : Type :=
  | NotStarted
  | AskDiscovery
  | JoinDiscovery
  | AbortListener
  | AwaitListener
  | TakeSenders
  | Telling (rest : list nat)
  | Joining (rest : list nat)
  | Down.

#[global] Instance ConnPhase_eq_dec : EqDecision ConnPhase.
Proof. solve_decision. Defined.
#[global] Instance Listener_eq_dec : EqDecision Listener.
Proof. solve_decision. Defined.
#[global] Instance ShutdownPoint_eq_dec : EqDecision ShutdownPoint.
Proof. solve_decision. Defined.

(** Tasks are numbered as they are spawned; [a_conns] are those that have not ended.
    A task's number also stands for its handle and for its session's sender.
    [a_told] are the sessions that were sent the shutdown command. *)
Record AcceptState : Type := mkAccept {
  a_stopping : bool;
  a_listener : Listener;
  a_permits : Z;
  a_routers : RouterCounts;
  a_conns : gmap nat ConnTask;
  a_spawned : nat;
  a_tasks : list nat;
  a_senders : list nat;
  a_told : list nat;
  a_discovery : bool;
  a_point : ShutdownPoint;
}.

Definition MAX_CONNECTIONS : Z := 64.

(** [ModemBuilder::spawn], from the point the tasks are started. *)
Definition spawn_daemon (discovery : bool) : AcceptState :=
  mkAccept false Accepting MAX_CONNECTIONS ∅ ∅ 0 [] [] [] discovery NotStarted.

Definition set_listener (l : Listener) (d : AcceptState) : AcceptState :=
  mkAccept (a_stopping d) l (a_permits d) (a_routers d) (a_conns d) (a_spawned d) (a_tasks d)
    (a_senders d) (a_told d) (a_discovery d) (a_point d).
Definition set_guards (permits : Z) (routers : RouterCounts) (d : AcceptState) : AcceptState :=
  mkAccept (a_stopping d) (a_listener d) permits routers (a_conns d) (a_spawned d) (a_tasks d)
    (a_senders d) (a_told d) (a_discovery d) (a_point d).
Definition set_conns (c : gmap nat ConnTask) (d : AcceptState) : AcceptState :=
  mkAccept (a_stopping d) (a_listener d) (a_permits d) (a_routers d) c (a_spawned d) (a_tasks d)
    (a_senders d) (a_told d) (a_discovery d) (a_point d).
Definition set_senders (l : list nat) (d : AcceptState) : AcceptState :=
  mkAccept (a_stopping d) (a_listener d) (a_permits d) (a_routers d) (a_conns d) (a_spawned d)
    (a_tasks d) l (a_told d) (a_discovery d) (a_point d).
Definition set_discovery (b : bool) (d : AcceptState) : AcceptState :=
  mkAccept (a_stopping d) (a_listener d) (a_permits d) (a_routers d) (a_conns d) (a_spawned d)
    (a_tasks d) (a_senders d) (a_told d) b (a_point d).
Definition set_point (p : ShutdownPoint) (d : AcceptState) : AcceptState :=
  mkAccept (a_stopping d) (a_listener d) (a_permits d) (a_routers d) (a_conns d) (a_spawned d)
    (a_tasks d) (a_senders d) (a_told d) (a_discovery d) p.

(** ** The connection task *)

(** [Sender::is_closed]: the session, which owns the receiver, is over. *)
Definition sender_closed (d : AcceptState) (k : nat) : bool :=
  match a_conns d !! k with
  | Some c => bool_decide (ct_phase c = Closing)
  | None => true
  end.

(** [retain(|s| !s.is_closed())] on the senders, also in [ModemDaemon::dispatch]. *)
Definition retain_senders (d : AcceptState) : AcceptState :=
  set_senders (retain (fun k => negb (sender_closed d k)) (a_senders d)) d.

(** The permit and the registration of a connection are dropped. *)
Definition drop_guards (peer : SocketAddr) (d : AcceptState) : panics AcceptState :=
  routers ← drop_router (router_address peer) (a_routers d);
  Ok (set_guards (a_permits d + 1) routers d).

(** The task ends. *)
Definition end_conn (k : nat) (c : ConnTask) (d : AcceptState) : panics AcceptState :=
  drop_guards (ct_peer c) (set_conns (delete k (a_conns d)) d).

Definition enter (k : nat) (c : ConnTask) (p : ConnPhase) (d : AcceptState) : AcceptState :=
  set_conns (<[k := mkConnTask (ct_peer c) p]> (a_conns d)) d.

(** The first poll. *)
Definition conn_start (k : nat) (c : ConnTask) (d : AcceptState) : panics AcceptState :=
  if a_stopping d then end_conn k c d else Ok (enter k c Handshaking d).

(** The biased [select!] and what follows it; [done] when handshake and peer address
    succeed. *)
Definition conn_handshake (k : nat) (c : ConnTask) (done : bool) (d : AcceptState)
    : panics AcceptState :=
  if a_stopping d then end_conn k c d
  else if done then Ok (enter k c Connected d) else end_conn k c d.

(** With the senders locked: the flag is read again before the sender is added. *)
Definition conn_register (k : nat) (c : ConnTask) (d : AcceptState) : panics AcceptState :=
  if a_stopping d then end_conn k c d
  else
    let d := retain_senders d in
    Ok (enter k c Serving (set_senders (a_senders d ++ [k]) d)).

(** [run_session_tracked] returns. *)
Definition session_over (k : nat) (c : ConnTask) (d : AcceptState) : panics AcceptState :=
  Ok (enter k c Closing d).

(** The last line of the task. *)
Definition conn_cleanup (k : nat) (c : ConnTask) (d : AcceptState) : panics AcceptState :=
  end_conn k c (retain_senders d).

(** ** The listener *)

(** A result of [accept_pending], and the connection's peer address if it has one. *)
Definition on_accept (peer : option SocketAddr) (d : AcceptState) : panics AcceptState :=
  if a_permits d =? 0 then Ok d
  else
    match peer with
    | None => Ok d
    | Some peer =>
        x ← register_router peer (a_routers d);
        Ok (set_listener (Holding peer) (set_guards (a_permits d - 1) x.2 d))
    end.

(** With the tasks locked: the task is spawned and its handle added. *)
Definition spawn_conn (peer : SocketAddr) (d : AcceptState) : AcceptState :=
  let conns := <[a_spawned d := mkConnTask peer Starting]> (a_conns d) in
  mkAccept (a_stopping d) Accepting (a_permits d) (a_routers d) conns (S (a_spawned d))
    (retain (fun h => is_some (conns !! h)) (a_tasks d) ++ [a_spawned d])
    (a_senders d) (a_told d) (a_discovery d) (a_point d).

(** The listener is cancelled where it waits; what it holds is dropped. *)
Definition cancel_listener (d : AcceptState) : panics AcceptState :=
  match a_listener d with
  | Holding peer => drop_guards peer (set_listener Gone d)
  | _ => Ok (set_listener Gone d)
  end.

(** ** [ModemDaemon::shutdown] *)

Definition shutdown_step (d : AcceptState) : option AcceptState :=
  match a_point d with
  | NotStarted =>
      Some (mkAccept true (a_listener d) (a_permits d) (a_routers d) (a_conns d) (a_spawned d)
              (a_tasks d) (a_senders d) (a_told d) (a_discovery d) AskDiscovery)
  | AskDiscovery => Some (set_point JoinDiscovery d)
  | JoinDiscovery => if a_discovery d then None else Some (set_point AbortListener d)
  | AbortListener => Some (set_point AwaitListener d)
  | AwaitListener =>
      if bool_decide (a_listener d = Gone) then Some (set_point TakeSenders d) else None
  | TakeSenders => Some (set_point (Telling (a_senders d)) (set_senders [] d))
  | Telling (k :: rest) =>
      Some (mkAccept (a_stopping d) (a_listener d) (a_permits d) (a_routers d) (a_conns d) (a_spawned d)
              (a_tasks d) (a_senders d) (if sender_closed d k then a_told d else k :: a_told d)
              (a_discovery d) (Telling rest))
  | Telling [] =>
      Some (mkAccept (a_stopping d) (a_listener d) (a_permits d) (a_routers d) (a_conns d) (a_spawned d)
              [] (a_senders d) (a_told d) (a_discovery d) (Joining (a_tasks d)))
  | Joining (h :: rest) =>
      if is_some (a_conns d !! h) then None else Some (set_point (Joining rest) d)
  | Joining [] => Some (set_point Down d)
  | Down => None
  end.

(** ** Steps *)

Inductive DaemonAction : Type :=
  | Accepted (peer : option SocketAddr)
  | AcceptFailed
  | SpawnConn
  | CancelListener
  | ConnStart (k : nat)
  | ConnHandshake (k : nat) (done : bool)
  | ConnRegister (k : nat)
  | SessionOver (k : nat)
  | ConnCleanup (k : nat)
  | ConnPanics (k : nat)
  | Dispatch
  | DiscoveryEnds
  | Shutdown.

(** A step of task [k] at phase [p]. *)
Definition at_phase (p : ConnPhase) (k : nat) (f : ConnTask -> panics AcceptState) (d : AcceptState)
    : option (panics AcceptState) :=
  match a_conns d !! k with
  | Some c => if bool_decide (ct_phase c = p) then Some (f c) else None
  | None => None
  end.

(** What an action makes of the daemon, where it can happen. *)
Definition daemon_act (a : DaemonAction) (d : AcceptState) : option (panics AcceptState) :=
  match a with
  | Accepted peer =>
      match a_listener d with Accepting => Some (on_accept peer d) | _ => None end
  | AcceptFailed => match a_listener d with Accepting => Some (Ok d) | _ => None end
  | SpawnConn => match a_listener d with Holding peer => Some (Ok (spawn_conn peer d)) | _ => None end
  | CancelListener =>
      match a_listener d, a_point d with
      | Gone, _ => None
      | _, AwaitListener => Some (cancel_listener d)
      | _, _ => None
      end
  | ConnStart k => at_phase Starting k (fun c => conn_start k c d) d
  | ConnHandshake k done => at_phase Handshaking k (fun c => conn_handshake k c done d) d
  | ConnRegister k => at_phase Connected k (fun c => conn_register k c d) d
  | SessionOver k => at_phase Serving k (fun c => session_over k c d) d
  | ConnCleanup k => at_phase Closing k (fun c => conn_cleanup k c d) d
  | ConnPanics k => at_phase Serving k (fun c => end_conn k c d) d
  | Dispatch => match a_point d with NotStarted => Some (Ok (retain_senders d)) | _ => None end
  | DiscoveryEnds => if a_discovery d then Some (Ok (set_discovery false d)) else None
  | Shutdown => Ok <$> shutdown_step d
  end.

Definition daemon_step (d d' : AcceptState) : Prop := exists a, daemon_act a d = Some (Ok d').

(** ** The invariant *)

Definition conn_addresses (m : gmap nat ConnTask) : list RouterAddress :=
  (fun kc : nat * ConnTask => router_address (ct_peer kc.2)) <$> map_to_list m.

(** The connections that count: those of the tasks, and the one the listener holds. *)
Definition live_addresses (d : AcceptState) : list RouterAddress :=
  match a_listener d with
  | Holding peer => router_address peer :: conn_addresses (a_conns d)
  | _ => conn_addresses (a_conns d)
  end.

(** The handles [shutdown] will still wait for. *)
Definition handles (d : AcceptState) : list nat :=
  match a_point d with
  | Joining rest => rest
  | Down => []
  | _ => a_tasks d
  end.

(** A session that [shutdown] will tell to end, or has told. *)
Definition addressed (d : AcceptState) (k : nat) : Prop :=
  match a_point d with
  | Telling rest => k ∈ rest \/ k ∈ a_told d
  | Joining _ | Down => k ∈ a_told d
  | _ => k ∈ a_senders d
  end.

Definition past_discovery (p : ShutdownPoint) : bool :=
  match p with NotStarted | AskDiscovery | JoinDiscovery => false | _ => true end.
Definition past_listener (p : ShutdownPoint) : bool :=
  match p with TakeSenders | Telling _ | Joining _ | Down => true | _ => false end.

Record accept_inv (d : AcceptState) : Prop := {
  ai_counts : counts (a_routers d) (live_addresses d);
  ai_permits : a_permits d + len (live_addresses d) = MAX_CONNECTIONS /\ 0 <= a_permits d;
  ai_handles : forall k c, a_conns d !! k = Some c -> (k < a_spawned d)%nat /\ k ∈ handles d;
  ai_serving : forall k c, a_conns d !! k = Some c -> ct_phase c = Serving -> addressed d k;
  ai_stopping : a_stopping d = bool_decide (a_point d <> NotStarted);
  ai_listener : past_listener (a_point d) = true -> a_listener d = Gone;
  ai_discovery : past_discovery (a_point d) = true -> a_discovery d = false;
}.

Lemma counts_perm r l l' : l ≡ₚ l' -> counts r l -> counts r l'.
Proof.
  intros Hp Hc a. rewrite Hc. cbv zeta.
  by replace (length (filter (a =.) l')) with (length (filter (a =.) l)) by (by rewrite Hp).
Qed.

Lemma conn_addresses_insert m k c :
  m !! k = None -> conn_addresses (<[k := c]> m) ≡ₚ router_address (ct_peer c) :: conn_addresses m.
Proof. intros Hk. unfold conn_addresses. by rewrite map_to_list_insert. Qed.

Lemma conn_addresses_delete m k c :
  m !! k = Some c -> conn_addresses m ≡ₚ router_address (ct_peer c) :: conn_addresses (delete k m).
Proof.
  intros Hk. rewrite <-(conn_addresses_insert (delete k m) k c) by apply lookup_delete_eq.
  by rewrite insert_delete_id.
Qed.

Lemma conn_addresses_update m k c p :
  m !! k = Some c -> conn_addresses (<[k := mkConnTask (ct_peer c) p]> m) ≡ₚ conn_addresses m.
Proof.
  intros Hk. rewrite (conn_addresses_delete m k c Hk), <-insert_delete_eq.
  by rewrite conn_addresses_insert by apply lookup_delete_eq.
Qed.

(** The invariant depends on the connections that count only up to their order. *)
Lemma live_update d k c p :
  a_conns d !! k = Some c -> live_addresses (enter k c p d) ≡ₚ live_addresses d.
Proof.
  intros Hk. unfold live_addresses. cbn. pose proof (conn_addresses_update _ _ _ p Hk) as Hp.
  destruct (a_listener d); [done|by rewrite Hp|done].
Qed.

Lemma live_delete d k c :
  a_conns d !! k = Some c ->
  live_addresses d ≡ₚ router_address (ct_peer c) :: live_addresses (set_conns (delete k (a_conns d)) d).
Proof.
  intros Hk. unfold live_addresses. cbn. pose proof (conn_addresses_delete _ _ _ Hk) as Hp.
  destruct (a_listener d); [done| |done]. rewrite Hp. apply perm_swap.
Qed.

Lemma enter_inv d k c p :
  accept_inv d -> a_conns d !! k = Some c -> (p = Serving -> addressed d k) ->
  accept_inv (enter k c p d).
Proof.
  intros [Hc Hp Hh Hs Hst Hl Hd] Hk Hserv. pose proof (live_update d k c p Hk) as Hlive.
  split; try done.
  - by eapply counts_perm.
  - unfold len in *. by rewrite Hlive.
  - intros k' c' Hk'. cbn in Hk'. apply lookup_insert_Some in Hk' as [[<- _]|[_ Hk']]; [by eapply Hh|].
    by eapply Hh.
  - intros k' c' Hk' E. cbn in Hk'. apply lookup_insert_Some in Hk' as [[<- <-]|[_ Hk']].
    + by apply Hserv.
    + by eapply Hs.
Qed.

Lemma retain_senders_inv d : accept_inv d -> accept_inv (retain_senders d).
Proof.
  intros [Hc Hp Hh Hs Hst Hl Hd]. split; try done.
  intros k c Hk E. change (a_conns d !! k = Some c) in Hk. specialize (Hs k c Hk E).
  unfold addressed in *. cbn.
  assert (Hin : k ∈ a_senders d -> k ∈ retain (fun k => negb (sender_closed d k)) (a_senders d)).
  { intros Hin. apply elem_of_retain. split; [|done]. unfold sender_closed. by rewrite Hk, E. }
  destruct (a_point d); auto.
Qed.

(** The guards of a connection are dropped where they are counted. *)
Lemma drop_guards_ok peer d l :
  counts (a_routers d) (router_address peer :: l) ->
  exists routers, drop_guards peer d = Ok (set_guards (a_permits d + 1) routers d) /\ counts routers l.
Proof.
  intros Hc. destruct (drop_router_ok (router_address peer) (a_routers d) [] l Hc) as (r & Hr & Hc').
  exists r. split; [|done]. unfold drop_guards. by rewrite Hr.
Qed.

Lemma end_conn_inv d k c :
  accept_inv d -> a_conns d !! k = Some c ->
  exists d', end_conn k c d = Ok d' /\ accept_inv d' /\ a_conns d' = delete k (a_conns d)
    /\ a_point d' = a_point d /\ a_told d' = a_told d.
Proof.
  intros [Hc Hp Hh Hs Hst Hl Hd] Hk. pose proof (live_delete d k c Hk) as Hlive.
  destruct (drop_guards_ok (ct_peer c) (set_conns (delete k (a_conns d)) d)
    (live_addresses (set_conns (delete k (a_conns d)) d))) as (r & Hr & Hcr).
  { by eapply counts_perm. }
  eexists. split; [exact Hr|]. split; [|done]. split; try done.
  - cbn [a_permits set_guards set_conns]. unfold len in *. rewrite Hlive in Hp. cbn [length] in Hp.
    unfold live_addresses in *. cbn in *. lia.
  - intros k' c' Hk'. cbn in Hk'. apply lookup_delete_Some in Hk' as [_ Hk']. by eapply Hh.
  - intros k' c' Hk' E. cbn in Hk'. apply lookup_delete_Some in Hk' as [_ Hk']. by eapply Hs.
Qed.

Lemma at_phase_Some p k f d r :
  at_phase p k f d = Some r -> exists c, a_conns d !! k = Some c /\ ct_phase c = p /\ r = f c.
Proof.
  unfold at_phase. destruct (a_conns d !! k) as [c|]; [|done]. case_bool_decide; [|done].
  intros [= <-]. by exists c.
Qed.

Lemma conn_register_inv d k c :
  accept_inv d -> a_conns d !! k = Some c ->
  exists d', conn_register k c d = Ok d' /\ accept_inv d'.
Proof.
  intros Hi Hk. unfold conn_register. destruct (a_stopping d) eqn:Es.
  { destruct (end_conn_inv d k c Hi Hk) as (d' & ? & ? & _). by exists d'. }
  eexists. split; [done|]. set (d1 := retain_senders d).
  assert (Hi1 : accept_inv d1) by by apply retain_senders_inv.
  set (d2 := set_senders (a_senders d1 ++ [k]) d1).
  assert (Hmem : forall k', k' ∈ a_senders d2 <-> k' ∈ a_senders d1 \/ k' = k).
  { intros k'. cbn. by rewrite elem_of_app, list_elem_of_singleton. }
  assert (Hpt : a_point d1 = NotStarted).
  { pose proof (ai_stopping d Hi) as H. rewrite Es in H. symmetry in H.
    apply bool_decide_eq_false, dec_stable in H. exact H. }
  assert (Hi2 : accept_inv d2).
  { destruct Hi1 as [Hc Hp Hh Hs Hst Hl Hd]. split; try done. intros k' c' Hk' E.
    specialize (Hs k' c' Hk' E). unfold addressed in *. change (a_point d2) with (a_point d1).
    rewrite Hpt in *. apply Hmem. by left. }
  apply enter_inv; [done|done|]. intros _. unfold addressed. change (a_point d2) with (a_point d1).
  rewrite Hpt. apply Hmem. by right.
Qed.

Lemma on_accept_inv d peer :
  accept_inv d -> a_listener d = Accepting -> exists d', on_accept peer d = Ok d' /\ accept_inv d'.
Proof.
  intros Hi Hl. unfold on_accept. destruct (Z.eqb_spec (a_permits d) 0) as [|Hp]; [by exists d|].
  destruct peer as [peer|]; [|by exists d].
  destruct Hi as [Hc [Hn H0] Hh Hs Hst Hli Hd].
  destruct (register_router_ok peer (a_routers d) (live_addresses d) Hc) as (r & Hr & Hcr).
  { unfold usize_max, u64_max, MAX_CONNECTIONS in *. lia. }
  rewrite Hr. cbn. eexists. split; [done|].
  assert (Hlive : forall d', a_listener d' = Holding peer -> a_conns d' = a_conns d ->
    live_addresses d' = router_address peer :: live_addresses d).
  { intros d' E E'. unfold live_addresses. by rewrite E, E', Hl. }
  split; try done.
  - by rewrite Hlive.
  - rewrite Hlive by done. unfold len in *. cbn [length a_permits set_listener set_guards]. lia.
  - cbn. intros Hpast. specialize (Hli Hpast). congruence.
Qed.

Lemma spawn_conn_inv d peer :
  accept_inv d -> a_listener d = Holding peer -> accept_inv (spawn_conn peer d).
Proof.
  intros [Hc Hp Hh Hs Hst Hl Hd] El.
  assert (Hnone : a_conns d !! a_spawned d = None).
  { destruct (a_conns d !! a_spawned d) as [c|] eqn:E; [|done]. destruct (Hh _ _ E). lia. }
  assert (Hpast : past_listener (a_point d) = false).
  { destruct (past_listener (a_point d)); [|done]. rewrite Hl in El; done. }
  assert (Hlive : live_addresses (spawn_conn peer d) ≡ₚ live_addresses d).
  { unfold live_addresses. rewrite El. cbn. by rewrite conn_addresses_insert. }
  assert (Hhd : handles (spawn_conn peer d) = a_tasks (spawn_conn peer d) /\ handles d = a_tasks d).
  { unfold handles. cbn. by destruct (a_point d). }
  destruct Hhd as [Hhd Hhd']. split.
  - by eapply counts_perm.
  - unfold len in *. by rewrite Hlive.
  - intros k c Hk. rewrite Hhd. cbn in *. apply lookup_insert_Some in Hk as [[<- _]|[Hne Hk]].
    + split; [lia|]. apply elem_of_app. right. by apply list_elem_of_singleton.
    + destruct (Hh k c Hk) as [Hlt Hin]. split; [lia|]. apply elem_of_app. left. apply elem_of_retain.
      rewrite lookup_insert_ne, Hk by done. rewrite Hhd' in Hin. done.
  - intros k c Hk E. cbn in Hk. apply lookup_insert_Some in Hk as [[_ <-]|[_ Hk]]; [done|].
    by apply (Hs k c).
  - done.
  - cbn. congruence.
  - done.
Qed.

Lemma cancel_listener_inv d :
  accept_inv d -> exists d', cancel_listener d = Ok d' /\ accept_inv d' /\ a_listener d' = Gone
    /\ a_conns d' = a_conns d /\ a_point d' = a_point d /\ a_discovery d' = a_discovery d.
Proof.
  intros [Hc Hp Hh Hs Hst Hl Hd]. unfold cancel_listener, live_addresses in *.
  destruct (a_listener d) as [|peer|] eqn:E.
  - eexists. split; [done|]. split_and!; try done.
  - destruct (drop_guards_ok peer (set_listener Gone d) (conn_addresses (a_conns d)) Hc) as (r & Hr & Hcr).
    eexists. split; [exact Hr|]. split_and!; try done. split; try done.
    unfold len in *. cbn in *. lia.
  - eexists. split; [done|]. split_and!; try done.
Qed.

Lemma shutdown_step_inv d d' : accept_inv d -> shutdown_step d = Some d' -> accept_inv d'.
Proof.
  intros [Hc Hp Hh Hs Hst Hl Hd]. unfold shutdown_step, addressed, handles in *.
  destruct (a_point d) as [| | | | | |[|k rest]|[|h rest]|] eqn:Ep; intros E; cbn in Hl, Hd.
  - injection E as <-. by split.
  - injection E as <-. by split.
  - destruct (a_discovery d) eqn:Ed; [done|]. injection E as <-. by split.
  - injection E as <-. by split.
  - case_bool_decide; [|done]. injection E as <-. by split.
  - injection E as <-. split; try done. intros k c Hk Es. left. by apply (Hs k c).
  - injection E as <-. split; try done. intros k c Hk Es.
    by destruct (Hs k c Hk Es) as [?%elem_of_nil|].
  - injection E as <-. split; try done. intros k' c Hk Es. unfold addressed. cbn in Hk |- *.
    destruct (Hs k' c Hk Es) as [[->|Hin]%elem_of_cons|Hin].
    + right. unfold sender_closed. rewrite Hk, Es. left.
    + by left.
    + right. destruct (sender_closed d k); [done|by right].
  - injection E as <-. by split.
  - destruct (a_conns d !! h) as [c|] eqn:Eh; [done|]. injection E as <-. split; try done.
    intros k c Hk. destruct (Hh k c Hk) as [Hlt [->|Hin]%elem_of_cons]; [|done].
    change (a_conns d !! h = Some c) in Hk. by rewrite Hk in Eh.
  - done.
Qed.

Lemma daemon_act_inv a d r :
  accept_inv d -> daemon_act a d = Some r -> exists d', r = Ok d' /\ accept_inv d'.
Proof.
  intros Hi. assert (Hend : forall k c, a_conns d !! k = Some c ->
    exists d', end_conn k c d = Ok d' /\ accept_inv d').
  { intros k c Hk. destruct (end_conn_inv d k c Hi Hk) as (d' & ? & ? & _). by exists d'. }
  destruct a as [peer| | | |k|k done'|k|k|k|k| | |]; cbn [daemon_act]; intros E.
  - destruct (a_listener d) eqn:El; try done. injection E as <-. by apply on_accept_inv.
  - destruct (a_listener d); try done. injection E as <-. by exists d.
  - destruct (a_listener d) eqn:El; try done. injection E as <-. eexists. split; [done|].
    by apply spawn_conn_inv.
  - assert (r = cancel_listener d) as -> by (destruct (a_listener d), (a_point d); by simplify_eq).
    destruct (cancel_listener_inv d Hi) as (d' & ? & ? & _). by exists d'.
  - apply at_phase_Some in E as (c & Hk & Hph & ->). unfold conn_start. destruct (a_stopping d); [by apply Hend|].
    eexists. split; [done|]. by apply enter_inv.
  - apply at_phase_Some in E as (c & Hk & Hph & ->). unfold conn_handshake.
    destruct (a_stopping d); [by apply Hend|]. destruct done'; [|by apply Hend].
    eexists. split; [done|]. by apply enter_inv.
  - apply at_phase_Some in E as (c & Hk & Hph & ->). by apply conn_register_inv.
  - apply at_phase_Some in E as (c & Hk & Hph & ->). eexists. split; [done|]. by apply enter_inv.
  - apply at_phase_Some in E as (c & Hk & Hph & ->).
    destruct (end_conn_inv (retain_senders d) k c) as (d' & ? & ? & _); [by apply retain_senders_inv|done|].
    by exists d'.
  - apply at_phase_Some in E as (c & Hk & Hph & ->). by apply Hend.
  - destruct (a_point d); try done. injection E as <-. eexists. split; [done|]. by apply retain_senders_inv.
  - destruct (a_discovery d); try done. injection E as <-. eexists. split; [done|].
    destruct Hi as [Hc Hp Hh Hs Hst Hl Hd]. by split.
  - destruct (shutdown_step d) as [d'|] eqn:Es; [|done]. injection E as <-. exists d'. split; [done|].
    by eapply shutdown_step_inv.
Qed.

Lemma spawn_daemon_inv b : accept_inv (spawn_daemon b).
Proof. by split. Qed.

Lemma reachable_inv b d : rtc daemon_step (spawn_daemon b) d -> accept_inv d.
Proof.
  assert (H : forall x y, rtc daemon_step x y -> accept_inv x -> accept_inv y).
  { induction 1 as [|x y z [a Ha] _ IH]; [done|]. intros Hx. apply IH.
    destruct (daemon_act_inv _ _ _ Hx Ha) as (? & [= ->] & ?). done. }
  intros Hr. eapply H; [exact Hr|]. apply spawn_daemon_inv.
Qed.

(** ** A connection that is served *)

Lemma conn_steps k c p q d d' :
  a_conns d !! k = Some c -> ct_phase c = p -> a_stopping d = false ->
  match p, q with
  | Starting, Handshaking | Handshaking, Connected => d' = enter k c q d
  | Connected, Serving =>
      d' = enter k c Serving (set_senders (a_senders (retain_senders d) ++ [k]) (retain_senders d))
  | _, _ => False
  end ->
  daemon_step d d'.
Proof.
  intros Hk Hp Hs. destruct p, q; try done; intros ->.
  - exists (ConnStart k). cbn. unfold at_phase. rewrite Hk, bool_decide_eq_true_2 by done. unfold conn_start. by rewrite Hs.
  - exists (ConnHandshake k true). cbn. unfold at_phase. rewrite Hk, bool_decide_eq_true_2 by done.
    unfold conn_handshake. by rewrite Hs.
  - exists (ConnRegister k). cbn. unfold at_phase. rewrite Hk, bool_decide_eq_true_2 by done.
    unfold conn_register. by rewrite Hs.
Qed.

(** A listener with a permit takes a connection to a session whose sender [dispatch] and
    [shutdown] reach. *)
Lemma accept_serves d peer :
  accept_inv d -> a_listener d = Accepting -> a_stopping d = false -> 0 < a_permits d ->
  exists d' k, rtc daemon_step d d' /\ accept_inv d' /\ a_conns d' !! k = Some (mkConnTask peer Serving)
    /\ k ∈ a_senders d'.
Proof.
  intros Hi Hl Hs Hp. pose proof (ai_permits _ Hi) as [Hn _]. unfold MAX_CONNECTIONS in Hn.
  destruct (register_router_ok peer _ _ (ai_counts _ Hi)) as (routers & Hr & _); [unfold usize_max, u64_max; lia|].
  set (d1 := set_listener (Holding peer) (set_guards (a_permits d - 1) routers d)).
  assert (S1 : daemon_step d d1).
  { exists (Accepted (Some peer)). cbn. rewrite Hl. unfold on_accept. rewrite (proj2 (Z.eqb_neq _ _)), Hr by lia. done. }
  set (d2 := spawn_conn peer d1). assert (S2 : daemon_step d1 d2) by by exists SpawnConn.
  set (k := a_spawned d1). set (c := mkConnTask peer Starting).
  set (d3 := enter k c Handshaking d2). set (d4 := enter k c Connected d3). set (d5 := retain_senders d4).
  set (d6 := enter k c Serving (set_senders (a_senders d5 ++ [k]) d5)).
  assert (Hr6 : rtc daemon_step d d6).
  { eapply rtc_l; [exact S1|]. eapply rtc_l; [exact S2|].
    eapply rtc_l; [eapply (conn_steps k c Starting Handshaking d2 d3); [apply lookup_insert_eq|done|exact Hs|done]|].
    eapply rtc_l; [eapply (conn_steps k _ Handshaking Connected d3 d4); [apply lookup_insert_eq|done|exact Hs|done]|].
    eapply rtc_l; [eapply (conn_steps k _ Connected Serving d4 d6); [apply lookup_insert_eq|done|exact Hs|done]|].
    apply rtc_refl. }
  exists d6, k. split; [done|]. split; [|split; [apply lookup_insert_eq|apply elem_of_app; right; left]].
  clear -Hi Hr6. revert Hi. induction Hr6 as [|x y z [a Ha] _ IH]; [done|]. intros Hx. apply IH.
  by destruct (daemon_act_inv _ _ _ Hx Ha) as (? & [= ->] & ?).
Qed.

(** ** Theorems *)

Lemma elem_of_conn_addresses m a :
  a ∈ conn_addresses m <-> exists k c, m !! k = Some c /\ a = router_address (ct_peer c).
Proof.
  unfold conn_addresses. rewrite list_elem_of_fmap. split.
  - intros ([k c] & -> & Hk%elem_of_map_to_list). by exists k, c.
  - intros (k & c & Hk & ->). exists (k, c). by rewrite elem_of_map_to_list.
Qed.

Lemma counts_contains r live peer :
  counts r live -> router_contains r peer = true <-> router_address peer ∈ live.
Proof.
  intros Hc. unfold router_contains. rewrite Hc. cbv zeta.
  assert (Hf : filter (router_address peer =.) live = [] <-> router_address peer ∉ live).
  { split.
    - intros E Hin. assert (H : router_address peer ∈ filter (router_address peer =.) live)
        by by apply list_elem_of_filter. rewrite E in H. by apply elem_of_nil in H.
    - intros Hn. apply elem_of_nil_inv. by intros x [<- Hx]%list_elem_of_filter. }
  destruct (filter (router_address peer =.) live) as [|x l].
  - split; [done|]. intros Hin. by destruct (proj1 Hf eq_refl).
  - split; [|done]. intros _. apply dec_stable. intros Hn. by apply Hf in Hn.
Qed.

(** C28: Admission.  In every run of the modem daemon, whatever the peers, the sessions and
    the application do and wherever the listener is cancelled: nothing panics; at most
    64 connections are handled at once, and the semaphore has exactly the permits they
    leave; and discovery regards a peer as connected exactly when a connection from its
    address is being handled, from the accept on until its task has ended. *)
Theorem accept_accounts b d :
  rtc daemon_step (spawn_daemon b) d ->
  (forall a, daemon_act a d <> Some Panic)
  /\ a_permits d = MAX_CONNECTIONS - len (live_addresses d) /\ len (live_addresses d) <= MAX_CONNECTIONS
  /\ (forall peer, router_contains (a_routers d) peer = true
        <-> (exists k c, a_conns d !! k = Some c /\ router_address (ct_peer c) = router_address peer)
            \/ exists p, a_listener d = Holding p /\ router_address p = router_address peer).
Proof.
  intros Hi%reachable_inv. split_and!.
  - intros a Ha. by destruct (daemon_act_inv _ _ _ Hi Ha) as (? & ? & _).
  - destruct (ai_permits d Hi). lia.
  - destruct (ai_permits d Hi). lia.
  - intros peer. rewrite (counts_contains _ _ _ (ai_counts d Hi)).
    unfold live_addresses. destruct (a_listener d) as [|p|].
    + rewrite elem_of_conn_addresses. naive_solver.
    + rewrite elem_of_cons, elem_of_conn_addresses. naive_solver.
    + rewrite elem_of_conn_addresses. naive_solver.
Qed.

(** The action that ends a task without its peer, once the daemon stops. *)
Definition own_step (k : nat) (p : ConnPhase) : DaemonAction :=
  match p with
  | Starting => ConnStart k
  | Handshaking => ConnHandshake k false
  | Connected => ConnRegister k
  | Serving => SessionOver k
  | Closing => ConnCleanup k
  end.

Lemma own_step_ends d k c :
  accept_inv d -> a_stopping d = true -> a_conns d !! k = Some c -> ct_phase c <> Serving ->
  exists d', daemon_act (own_step k (ct_phase c)) d = Some (Ok d') /\ accept_inv d'
    /\ a_conns d' = delete k (a_conns d) /\ a_point d' = a_point d.
Proof.
  intros Hi Hs Hk Hne.
  destruct (end_conn_inv d k c Hi Hk) as (d1 & H1 & Hi1 & Hc1 & Hp1 & _).
  destruct (end_conn_inv (retain_senders d) k c) as (d2 & H2 & Hi2 & Hc2 & Hp2 & _);
    [by apply retain_senders_inv|done|].
  assert (Hat : forall p f, ct_phase c = p -> at_phase p k f d = Some (f c)).
  { intros p f E. unfold at_phase. rewrite Hk. by rewrite bool_decide_true. }
  destruct (ct_phase c) eqn:E; try done; cbn [own_step daemon_act]; rewrite Hat by done;
    unfold conn_start, conn_handshake, conn_register, conn_cleanup; rewrite ?Hs.
  - by exists d1; rewrite H1.
  - by exists d1; rewrite H1.
  - by exists d1; rewrite H1.
  - by exists d2; rewrite H2.
Qed.

Lemma down_complete d :
  accept_inv d -> a_point d = Down ->
  a_listener d = Gone /\ a_conns d = ∅ /\ a_permits d = MAX_CONNECTIONS /\ a_routers d = ∅
  /\ a_discovery d = false.
Proof.
  intros Hi Ep. assert (Hl : a_listener d = Gone) by (apply (ai_listener d Hi); by rewrite Ep).
  assert (Hc : a_conns d = ∅).
  { apply map_empty. intros k. destruct (a_conns d !! k) as [c|] eqn:Hk; [|done].
    destruct (ai_handles d Hi k c Hk) as [_ Hin]. unfold handles in Hin. rewrite Ep in Hin.
    by apply elem_of_nil in Hin. }
  assert (Hlive : live_addresses d = []) by (unfold live_addresses; rewrite Hl, Hc; done).
  pose proof (ai_counts d Hi) as Hn. destruct (ai_permits d Hi) as [Hp _]. rewrite Hlive in Hn, Hp.
  split_and!; [done|done|change (len []) with 0 in Hp; lia| |apply (ai_discovery d Hi); by rewrite Ep].
  apply map_empty. intros a. by rewrite Hn.
Qed.

(** Shutdown leaves nothing out.  Once [shutdown] waits for the tasks, no connection is
    accepted any more and each task that is left is either in a session that was sent
    the shutdown command, or its next own step, which waits for no peer, ends it; and
    when [shutdown] has returned, no task is left, all permits are free, no router is
    registered and the discovery task has ended. *)
Theorem shutdown_complete b d :
  rtc daemon_step (spawn_daemon b) d ->
  match a_point d with
  | Joining rest =>
      a_listener d = Gone
      /\ forall k c, a_conns d !! k = Some c ->
           k ∈ rest
           /\ (ct_phase c = Serving /\ k ∈ a_told d
               \/ exists d', daemon_act (own_step k (ct_phase c)) d = Some (Ok d') /\ a_conns d' !! k = None)
  | Down =>
      a_listener d = Gone /\ a_conns d = ∅ /\ a_permits d = MAX_CONNECTIONS /\ a_routers d = ∅
      /\ a_discovery d = false
  | _ => True
  end.
Proof.
  intros Hi%reachable_inv. destruct (a_point d) as [| | | | | |rest|rest|] eqn:Ep; try done.
  - split; [apply (ai_listener d Hi); by rewrite Ep|]. intros k c Hk.
    destruct (ai_handles d Hi k c Hk) as [_ Hin]. unfold handles in Hin. rewrite Ep in Hin.
    split; [done|]. destruct (decide (ct_phase c = Serving)) as [E|E].
    + left. split; [done|]. pose proof (ai_serving d Hi k c Hk E) as Ha. unfold addressed in Ha.
      by rewrite Ep in Ha.
    + right. assert (Hs : a_stopping d = true) by (rewrite (ai_stopping d Hi), Ep; done).
      destruct (own_step_ends d k c Hi Hs Hk E) as (d' & Hd' & _ & Hcd & _). exists d'.
      split; [done|]. rewrite Hcd. apply lookup_delete_eq.
  - by apply down_complete.
Qed.

(** ** Shutdown returns *)

(** What is left to do once the listener is gone: the points of [shutdown], and one step
    for each task, two for a session. *)
Definition serving (m : gmap nat ConnTask) : gmap nat ConnTask :=
  filter (fun kc : nat * ConnTask => ct_phase kc.2 = Serving) m.

Definition point_work (d : AcceptState) : nat :=
  match a_point d with
  | TakeSenders => 4 + length (a_senders d) + length (a_tasks d)
  | Telling rest => 3 + length rest + length (a_tasks d)
  | Joining rest => 2 + length rest
  | _ => 0
  end.

Definition shutdown_work (d : AcceptState) : nat :=
  point_work d + size (a_conns d) + size (serving (a_conns d)).

(** Steps of the daemon itself, and the end of a session that was told to end. *)
Definition unaided (d : AcceptState) (a : DaemonAction) : Prop :=
  match a with
  | ConnStart _ | ConnHandshake _ false | ConnRegister _ | ConnCleanup _ | Shutdown
  | CancelListener | DiscoveryEnds => True
  | SessionOver k => k ∈ a_told d
  | _ => False
  end.

Lemma serving_delete m k : (size (serving (delete k m)) <= size (serving m))%nat.
Proof.
  unfold serving. rewrite map_filter_delete. apply map_subseteq_size, delete_subseteq.
Qed.

Lemma size_delete_conn (m : gmap nat ConnTask) k c : m !! k = Some c -> S (size (delete k m)) = size m.
Proof.
  intros Hk. rewrite <-(insert_delete_id m k c) at 2 by done.
  by rewrite map_size_insert_None by apply lookup_delete_eq.
Qed.

Lemma retain_length {A} (f : A -> bool) l : (length (retain f l) <= length l)%nat.
Proof. unfold retain. induction l as [|x l IH]; cbn; [done|]. destruct (f x); cbn; lia. Qed.

Lemma end_conn_work d k c d' :
  past_listener (a_point d) = true -> a_conns d !! k = Some c -> end_conn k c d = Ok d' ->
  (shutdown_work d' < shutdown_work d)%nat.
Proof.
  intros Hp Hk. unfold end_conn, drop_guards. destruct (drop_router _ _) as [r|[]|]; cbn; [|done].
  intros [= <-]. unfold shutdown_work, point_work. cbn.
  pose proof (serving_delete (a_conns d) k). pose proof (size_delete_conn _ _ _ Hk).
  destruct (a_point d); lia.
Qed.

Lemma retain_senders_work d : (shutdown_work (retain_senders d) <= shutdown_work d)%nat.
Proof.
  unfold shutdown_work, point_work. cbn.
  pose proof (retain_length (fun k => negb (sender_closed d k)) (a_senders d)). destruct (a_point d); lia.
Qed.

Lemma session_over_work d k c :
  a_conns d !! k = Some c -> ct_phase c = Serving ->
  (shutdown_work (enter k c Closing d) < shutdown_work d)%nat.
Proof.
  intros Hk Hs. unfold shutdown_work, serving. change (point_work (enter k c Closing d)) with (point_work d).
  cbn. rewrite map_size_insert_Some by by exists c.
  rewrite map_filter_insert_False, map_filter_delete by done.
  assert (Hf : filter (fun kc : nat * ConnTask => ct_phase kc.2 = Serving) (a_conns d) !! k = Some c)
    by by apply map_lookup_filter_Some.
  pose proof (size_delete_conn _ _ _ Hf). lia.
Qed.

Lemma shutdown_step_work d d' :
  past_listener (a_point d) = true -> shutdown_step d = Some d' ->
  (shutdown_work d' < shutdown_work d)%nat.
Proof.
  unfold shutdown_step, shutdown_work, point_work.
  destruct (a_point d) as [| | | | | |[|k rest]|[|h rest]|] eqn:Ep; try done; intros _ E.
  - injection E as <-. cbn. lia.
  - injection E as <-. cbn. lia.
  - injection E as <-. cbn. lia.
  - injection E as <-. cbn. lia.
  - destruct (is_some _); [done|]. injection E as <-. cbn. lia.
Qed.

Lemma end_conn_point d k c d' : end_conn k c d = Ok d' -> a_point d' = a_point d.
Proof.
  unfold end_conn, drop_guards. destruct (drop_router _ _) as [r|[]|]; cbn; [|done]. by intros [= <-].
Qed.

Lemma shutdown_step_past d d' :
  past_listener (a_point d) = true -> shutdown_step d = Some d' -> past_listener (a_point d') = true.
Proof.
  unfold shutdown_step. destruct (a_point d) as [| | | | | |[|k rest]|[|h rest]|]; try done; intros _ E;
    try by injection E as <-.
  destruct (is_some _); [done|]. by injection E as <-.
Qed.

Lemma daemon_act_work a d d' :
  accept_inv d -> past_listener (a_point d) = true -> daemon_act a d = Some (Ok d') ->
  (shutdown_work d' < shutdown_work d)%nat /\ past_listener (a_point d') = true.
Proof.
  intros Hi Hp. assert (Hg : a_listener d = Gone) by by apply (ai_listener d Hi).
  assert (Hst : a_stopping d = true).
  { rewrite (ai_stopping d Hi). apply bool_decide_true. intros E. by rewrite E in Hp. }
  assert (Hend : forall k c, a_conns d !! k = Some c -> end_conn k c d = Ok d' ->
    (shutdown_work d' < shutdown_work d)%nat /\ past_listener (a_point d') = true).
  { intros k c Hk E. split; [by eapply end_conn_work|]. by rewrite (end_conn_point _ _ _ _ E). }
  destruct a as [peer| | | |k|k done'|k|k|k|k| | |]; cbn [daemon_act]; rewrite ?Hg; try done; intros E;
    try (apply at_phase_Some in E as (c & Hk & Hph & E); symmetry in E;
         unfold conn_start, conn_handshake, conn_register in E; rewrite ?Hst in E);
    try by apply (Hend k c).
  - injection E as <-. split; [by apply session_over_work|done].
  - pose proof (end_conn_point _ _ _ _ E) as Hpt.
    apply end_conn_work in E; [|done|done]. pose proof (retain_senders_work d). split; [lia|by rewrite Hpt].
  - by destruct (a_point d).
  - assert (Hd : a_discovery d = false); [|by rewrite Hd in E].
    apply (ai_discovery d Hi). by destruct (a_point d).
  - destruct (shutdown_step d) as [d1|] eqn:Es; [|done]. injection E as <-.
    split; [by apply shutdown_step_work|by eapply shutdown_step_past].
Qed.

Lemma shutdown_bounded n d d' :
  accept_inv d -> past_listener (a_point d) = true -> nsteps daemon_step n d d' ->
  (n <= shutdown_work d)%nat.
Proof.
  intros Hi Hp Hn. revert Hi Hp. induction Hn as [d|n d d1 d' [a Ha] _ IH]; intros Hi Hp; [lia|].
  destruct (daemon_act_work _ _ _ Hi Hp Ha) as [Hw Hp1].
  destruct (daemon_act_inv _ _ _ Hi Ha) as (? & [= <-] & Hi1). specialize (IH Hi1 Hp1). lia.
Qed.

(** Something can always be done about a task. *)
Lemma conn_progress d k c :
  accept_inv d -> a_stopping d = true -> a_conns d !! k = Some c ->
  (ct_phase c = Serving -> k ∈ a_told d) ->
  exists a d', unaided d a /\ daemon_act a d = Some (Ok d').
Proof.
  intros Hi Hs Hk Ht. destruct (decide (ct_phase c = Serving)) as [E|E].
  - exists (SessionOver k), (enter k c Closing d). split; [by apply Ht|]. cbn. unfold at_phase.
    by rewrite Hk, bool_decide_true.
  - destruct (own_step_ends d k c Hi Hs Hk E) as (d' & Hd' & _). exists (own_step k (ct_phase c)), d'.
    split; [|done]. by destruct (ct_phase c).
Qed.

Lemma shutdown_progress d :
  accept_inv d -> a_stopping d = true ->
  a_point d = Down \/ exists a d', unaided d a /\ daemon_act a d = Some (Ok d').
Proof.
  intros Hi Hs.
  assert (Hsd : forall d', shutdown_step d = Some d' ->
    a_point d = Down \/ exists a d', unaided d a /\ daemon_act a d = Some (Ok d')).
  { intros d' E. right. exists Shutdown, d'. split; [done|]. cbn. by rewrite E. }
  unfold shutdown_step in Hsd.
  destruct (a_point d) as [| | | | | |[|k rest]|[|h rest]|] eqn:Ep; try (by eapply Hsd); [| | |by left].
  - destruct (a_discovery d) eqn:Ed; [|by eapply Hsd].
    right. exists DiscoveryEnds. eexists. split; [done|]. cbn. by rewrite Ed.
  - case_bool_decide as Hl; [by eapply Hsd|].
    destruct (cancel_listener_inv d Hi) as (d' & Hd' & _).
    right. exists CancelListener, d'. split; [done|]. cbn. rewrite Ep, Hd'. by destruct (a_listener d).
  - destruct (a_conns d !! h) as [c|] eqn:Eh; [|by eapply Hsd].
    right. apply (conn_progress d h c Hi Hs Eh). intros E.
    pose proof (ai_serving d Hi h c Eh E) as Ha. unfold addressed in Ha. by rewrite Ep in Ha.
Qed.

(** Shutdown returns.  After [shutdown] was called, until it has returned there is
    always a step of the daemon itself to take, the end of a session that was told to
    end included: it waits for no peer in a handshake and for no session that was
    passed over.  Once the listener has ended, every run has at most [shutdown_work]
    steps, so nothing can hold it up for ever. *)
Theorem shutdown_returns b d :
  rtc daemon_step (spawn_daemon b) d -> a_stopping d = true ->
  (a_point d = Down \/ exists a d', unaided d a /\ daemon_act a d = Some (Ok d'))
  /\ (past_listener (a_point d) = true ->
      forall n d', nsteps daemon_step n d d' -> (n <= shutdown_work d)%nat).
Proof.
  intros Hi%reachable_inv Hs. split; [by apply shutdown_progress|].
  intros Hp n d'. by apply shutdown_bounded.
Qed.

(** ** A run *)

Fixpoint run_daemon (l : list DaemonAction) (d : AcceptState) : option AcceptState :=
  match l with
  | [] => Some d
  | a :: l =>
      match daemon_act a d with
      | Some (Ok d') => run_daemon l d'
      | _ => None
      end
  end.

Lemma run_daemon_steps l d d' : run_daemon l d = Some d' -> rtc daemon_step d d'.
Proof.
  revert d. induction l as [|a l IH]; intros d; cbn; [by intros [= ->]; apply rtc_refl|].
  destruct (daemon_act a d) as [[d1|[]|]|] eqn:E; try done. intros H. eapply rtc_l; [by exists a|by apply IH].
Qed.

(** Two connections from one router, the first in session, the second in its handshake,
    and a third that the listener holds when it is cancelled. *)
Definition three_connections : list DaemonAction :=
  [Accepted (Some (SocketV4 3232235778 40000)); SpawnConn; ConnStart 0; ConnHandshake 0 true;
   ConnRegister 0; AcceptFailed; Accepted (Some (SocketV4 3232235778 40001)); SpawnConn; ConnStart 1;
   Accepted (Some (SocketV4 3232235779 40000))].
Definition stop_daemon : list DaemonAction :=
  [Shutdown; Shutdown; DiscoveryEnds; Shutdown; Shutdown; CancelListener; Shutdown; Shutdown; Shutdown; Shutdown].

Definition daemon_after (l : list DaemonAction) : AcceptState :=
  default (spawn_daemon true) (run_daemon l (spawn_daemon true)).

Lemma after_reached l :
  is_some (run_daemon l (spawn_daemon true)) = true -> rtc daemon_step (spawn_daemon true) (daemon_after l).
Proof.
  unfold daemon_after. destruct (run_daemon l (spawn_daemon true)) as [d|] eqn:E; [|done]. intros _. cbn.
  by eapply run_daemon_steps.
Qed.

Definition busy_daemon : AcceptState := daemon_after three_connections.
Definition stopping_daemon : AcceptState := daemon_after (three_connections ++ stop_daemon).

Lemma busy_reached : rtc daemon_step (spawn_daemon true) busy_daemon.
Proof. apply (after_reached three_connections). vm_compute. reflexivity. Qed.

Lemma stopping_reached : rtc daemon_step (spawn_daemon true) stopping_daemon.
Proof. apply (after_reached (three_connections ++ stop_daemon)). vm_compute. reflexivity. Qed.

Lemma accept_accounts_witness :
  a_permits busy_daemon = 61
  /\ router_contains (a_routers busy_daemon) (SocketV6 281473913979139 1 0 0) = true.
Proof.
  destruct (accept_accounts true busy_daemon busy_reached) as (_ & Hp & _ & Hr).
  split; [rewrite Hp; vm_compute; reflexivity|]. apply Hr. right.
  exists (SocketV4 3232235779 40000). split; vm_compute; reflexivity.
Defined.

Lemma stopping_point : a_point stopping_daemon = Joining [0%nat; 1%nat].
Proof. vm_compute. reflexivity. Qed.

Lemma shutdown_complete_witness :
  a_told stopping_daemon = [0%nat] /\ a_listener stopping_daemon = Gone.
Proof.
  split; [vm_compute; reflexivity|].
  pose proof (shutdown_complete true stopping_daemon stopping_reached) as H.
  rewrite stopping_point in H. exact (proj1 H).
Defined.

Lemma shutdown_returns_witness :
  exists a d', unaided stopping_daemon a /\ daemon_act a stopping_daemon = Some (Ok d').
Proof.
  assert (Hs : a_stopping stopping_daemon = true) by (vm_compute; reflexivity).
  destruct (proj1 (shutdown_returns true stopping_daemon stopping_reached Hs)) as [H|H]; [|exact H].
  exfalso. rewrite stopping_point in H. discriminate H.
Defined.
