(* ===== verification/Interfaces.v ===== *)
(** * Interfaces of discovery

    [dlep-net/src/addr.rs] chooses the interface and the local address of discovery.
    The interface list and the index of a name are the operating system's answers: an
    argument, about which nothing is assumed. *)

From S2P Require Import Prelude Externs CoreTypes Codec CodecItem CodecMessage Addresses Events.
From S2P Require Import Connections.

(** ** Choosing an interface *)

Inductive InterfaceSpec : Type :=
  | ByName (name : rstring)
  | ByIndex (index : Z)
  | AnyInterface.

#[global] Instance InterfaceSpec_eq_dec : EqDecision InterfaceSpec.
Proof. solve_decision. Defined.

(** An entry of [getifaddrs], with the flags the code reads. *)
Record IfEntry : Type := mkIfEntry {
  if_name : rstring;
  if_address : option IpAddr;
  if_up : bool;
  if_multicast : bool;
  if_loopback : bool;
}.

(** [Ipv4Interface] and [Ipv6Interface]. *)
Record NetInterface : Type := mkInterface {
  i_index : Z;
  i_address : Z;
}.

#[global] Instance NetInterface_eq_dec : EqDecision NetInterface.
Proof. solve_decision. Defined.

Inductive NetError : Type :=
  | InvalidInterface (name : rstring)
  | ZeroIndex
  | WildcardNeedsInterface
  | NoUsableAddress
  | AmbiguousAddress
  | FamilyMismatch
  | Encoding (e : CodecError)
  | ShortSend (n : Z)
  | Truncated
  | NoSender
  | NoIngressIndex
  | NoTtl
  | Malformed (e : CodecError)
  | NoLocalAddress
  | Os.

(** What the system answers about its interfaces. *)
Record System : Type := mkSystem {
  getifaddrs : option (list IfEntry);
  if_nametoindex : rstring -> option Z;
}.

(** [as_sockaddr_in] and [as_sockaddr_in6]. *)
Definition v4_of (a : option IpAddr) : option Z := match a with Some (IpV4 a) => Some a | _ => None end.
Definition v6_of (a : option IpAddr) : option Z := match a with Some (IpV6 a) => Some a | _ => None end.

(** [is_multicast] and [is_broadcast] of the two address types. *)
Definition v4_is_multicast (a : Z) : bool := Z.shiftr a 28 =? 14.
Definition v4_is_broadcast (a : Z) : bool := a =? u32_max.
Definition v6_is_multicast (a : Z) : bool := Z.shiftr a 120 =? 255.

Definition os {A} (o : option A) : outcome NetError A := match o with Some a => Ok a | None => Err Os end.

(** Conditions common to both families, after the index was looked up. *)
Definition if_selected (requested : option Z) (preferred address index : Z) (e : IfEntry) : bool :=
  negb (match requested with Some wanted => negb (wanted =? index) | None => false end)
  && negb (negb (preferred =? 0) && negb (address =? preferred))
  && negb (address =? 0).
Definition if_running (e : IfEntry) : bool := if_up e && (if_multicast e || if_loopback e).

Definition usable_v4 (requested : option Z) (preferred address index : Z) (e : IfEntry) : bool :=
  if_selected requested preferred address index e
  && negb (v4_is_multicast address) && negb (v4_is_broadcast address) && if_running e.
Definition usable_v6 (requested : option Z) (preferred address index : Z) (e : IfEntry) : bool :=
  if_selected requested preferred address index e
  && negb (v6_is_multicast address) && negb (is_some (to_ipv4_mapped address)) && if_running e.

(** [sort_by_key]: a stable sort by keys compared lexicographically. *)
Fixpoint insert_on {A} (key : A -> list Z) (x : A) (l : list A) : list A :=
  match l with
  | [] => [x]
  | y :: l' => if lex_le (key x) (key y) then x :: l else y :: insert_on key x l'
  end.
Definition sort_on {A} (key : A -> list Z) (l : list A) : list A := foldr (insert_on key) [] l.

Definition key_v4 (i : NetInterface) : list Z := [i_index i; i_address i].
Definition key_v6 (i : NetInterface) : list Z :=
  [if is_unicast_link_local (i_address i) then 0 else 1; i_index i; i_address i].

Section Resolve.
Variable sys : System.

(** The loop over the entries; [family] reads the family's address. *)
Fixpoint collect (family : option IpAddr -> option Z) (usable : Z -> Z -> IfEntry -> bool) (l : list IfEntry)
    : outcome NetError (list NetInterface) :=
  match l with
  | [] => Ok []
  | e :: l' =>
      match family (if_address e) with
      | None => collect family usable l'
      | Some address =>
          index ← os (if_nametoindex sys (if_name e));
          rest ← collect family usable l';
          Ok (if usable address index e then mkInterface index address :: rest else rest)
      end
  end.

Definition named (name : rstring) : outcome NetError (option Z) :=
  match if_nametoindex sys name with Some i => Ok (Some i) | None => Err (InvalidInterface name) end.

Definition requested_v4 (spec : InterfaceSpec) : outcome NetError (option Z) :=
  match spec with
  | ByName name => named name
  | ByIndex index => if index =? 0 then Err ZeroIndex else Ok (Some index)
  | AnyInterface => Ok None
  end.

Definition requested_v6 (spec : InterfaceSpec) (preferred : Z) : outcome NetError (option Z) :=
  match spec with
  | AnyInterface => if preferred =? 0 then Err WildcardNeedsInterface else Ok None
  | _ => requested_v4 spec
  end.

Definition candidates_v4 (requested : option Z) (preferred : Z) : outcome NetError (list NetInterface) :=
  entries ← os (getifaddrs sys); collect v4_of (usable_v4 requested preferred) entries.
Definition candidates_v6 (requested : option Z) (preferred : Z) : outcome NetError (list NetInterface) :=
  entries ← os (getifaddrs sys); collect v6_of (usable_v6 requested preferred) entries.

Definition first_of (l : list NetInterface) : outcome NetError NetInterface :=
  match l with i :: _ => Ok i | [] => Err NoUsableAddress end.

Definition resolve_v4 (spec : InterfaceSpec) (preferred : Z) : outcome NetError (option NetInterface) :=
  match spec, preferred with
  | AnyInterface, 0 => Ok None
  | _, _ =>
      requested ← requested_v4 spec;
      candidates ← candidates_v4 requested preferred;
      i ← first_of (sort_on key_v4 candidates);
      Ok (Some i)
  end.

Definition resolve_v6 (spec : InterfaceSpec) (preferred : Z) : outcome NetError NetInterface :=
  requested ← requested_v6 spec preferred;
  candidates ← candidates_v6 requested preferred;
  let candidates := sort_on key_v6 candidates in
  chosen ← first_of candidates;
  if negb (is_some requested) && existsb (fun i => negb (i_index i =? i_index chosen)) candidates
  then Err AmbiguousAddress else Ok chosen.

End Resolve.

(** ** The choice, specified

    Address blocks by their bounds, admission and preference as relations: none of the
    operations above occurs in what follows, up to the lemmas. *)

(** [ff00::/8], [::ffff:0:0/96], [fe80::/10] and [224.0.0.0/4]. *)
Definition v6_multicast_block (a : Z) : Prop := 255 * 2 ^ 120 <= a < 256 * 2 ^ 120.
Definition v6_mapped_block (a : Z) : Prop := 65535 * 2 ^ 32 <= a < 65536 * 2 ^ 32.
Definition v6_link_local_block (a : Z) : Prop := 65152 * 2 ^ 112 <= a < 65216 * 2 ^ 112.
Definition v4_multicast_block (a : Z) : Prop := 224 * 2 ^ 24 <= a < 240 * 2 ^ 24.

(** The addresses discovery can bind. *)
Definition unicast_v4 (a : Z) : Prop := a <> 0 /\ ~ v4_multicast_block a /\ a <> 2 ^ 32 - 1.
Definition unicast_v6 (a : Z) : Prop := a <> 0 /\ ~ v6_multicast_block a /\ ~ v6_mapped_block a.

(** An interface the request admits: an address of the family ([mk] builds it) of an
    interface of the list that is up and carries multicast or is the loopback. *)
Inductive admitted (sys : System) (mk : Z -> IpAddr) (unicast : Z -> Prop) (entries : list IfEntry)
    (requested : option Z) (preferred : Z) : NetInterface -> Prop :=
  | Admits e index address :
      e ∈ entries -> if_address e = Some (mk address) -> if_nametoindex sys (if_name e) = Some index ->
      (forall wanted, requested = Some wanted -> index = wanted) ->
      preferred = 0 \/ address = preferred ->
      unicast address -> if_up e = true -> if_multicast e = true \/ if_loopback e = true ->
      admitted sys mk unicast entries requested preferred (mkInterface index address).

(** The preference: by interface index, then by address; in IPv6 link-local first. *)
Definition before_v4 (i j : NetInterface) : Prop :=
  i_index i < i_index j \/ i_index i = i_index j /\ i_address i <= i_address j.
Definition before_v6 (i j : NetInterface) : Prop :=
  (v6_link_local_block (i_address i) /\ ~ v6_link_local_block (i_address j))
  \/ (v6_link_local_block (i_address i) <-> v6_link_local_block (i_address j)) /\ before_v4 i j.

Definition least_of (before : NetInterface -> NetInterface -> Prop) (P : NetInterface -> Prop)
    (i : NetInterface) : Prop :=
  P i /\ forall j, P j -> before i j.

(** The interface index a request asks for. *)
Inductive asks (sys : System) : InterfaceSpec -> option Z -> Prop :=
  | asks_name name index : if_nametoindex sys name = Some index -> asks sys (ByName name) (Some index)
  | asks_index index : index <> 0 -> asks sys (ByIndex index) (Some index)
  | asks_any : asks sys AnyInterface None.

(** No interface and no address asked for. *)
Definition wildcard (spec : InterfaceSpec) (preferred : Z) : Prop := spec = AnyInterface /\ preferred = 0.

(** An address of the family whose interface the system cannot number. *)
Definition unnumbered (sys : System) (mk : Z -> IpAddr) (entries : list IfEntry) : Prop :=
  exists e address, e ∈ entries /\ if_address e = Some (mk address) /\ if_nametoindex sys (if_name e) = None.

(** A request that gets no answer, and the error it gets. *)
Inductive fails (sys : System) (mk : Z -> IpAddr) (spec : InterfaceSpec) (preferred : Z) : NetError -> Prop :=
  | fails_name name : spec = ByName name -> if_nametoindex sys name = None ->
      fails sys mk spec preferred (InvalidInterface name)
  | fails_zero : spec = ByIndex 0 -> fails sys mk spec preferred ZeroIndex
  | fails_list requested : asks sys spec requested -> ~ wildcard spec preferred ->
      getifaddrs sys = None -> fails sys mk spec preferred Os
  | fails_index requested entries : asks sys spec requested -> ~ wildcard spec preferred ->
      getifaddrs sys = Some entries -> unnumbered sys mk entries -> fails sys mk spec preferred Os.

(** A request that gets one: the index it asks for and the list it is answered from. *)
Definition answerable (sys : System) (mk : Z -> IpAddr) (spec : InterfaceSpec) (preferred : Z)
    (requested : option Z) (entries : list IfEntry) : Prop :=
  asks sys spec requested /\ ~ wildcard spec preferred
  /\ getifaddrs sys = Some entries /\ ~ unnumbered sys mk entries.

Inductive answer_v4 (sys : System) (spec : InterfaceSpec) (preferred : Z)
    : outcome NetError (option NetInterface) -> Prop :=
  | v4_fails e : fails sys IpV4 spec preferred e -> answer_v4 sys spec preferred (Err e)
  | v4_wildcard : wildcard spec preferred -> answer_v4 sys spec preferred (Ok None)
  | v4_none requested entries : answerable sys IpV4 spec preferred requested entries ->
      (forall i, ~ admitted sys IpV4 unicast_v4 entries requested preferred i) ->
      answer_v4 sys spec preferred (Err NoUsableAddress)
  | v4_chosen requested entries i : answerable sys IpV4 spec preferred requested entries ->
      least_of before_v4 (admitted sys IpV4 unicast_v4 entries requested preferred) i ->
      answer_v4 sys spec preferred (Ok (Some i)).

Inductive answer_v6 (sys : System) (spec : InterfaceSpec) (preferred : Z)
    : outcome NetError NetInterface -> Prop :=
  | v6_fails e : fails sys IpV6 spec preferred e -> answer_v6 sys spec preferred (Err e)
  | v6_wildcard : wildcard spec preferred -> answer_v6 sys spec preferred (Err WildcardNeedsInterface)
  | v6_none requested entries : answerable sys IpV6 spec preferred requested entries ->
      (forall i, ~ admitted sys IpV6 unicast_v6 entries requested preferred i) ->
      answer_v6 sys spec preferred (Err NoUsableAddress)
  | v6_ambiguous entries i j : answerable sys IpV6 spec preferred None entries ->
      admitted sys IpV6 unicast_v6 entries None preferred i ->
      admitted sys IpV6 unicast_v6 entries None preferred j -> i_index i <> i_index j ->
      answer_v6 sys spec preferred (Err AmbiguousAddress)
  | v6_chosen requested entries i : answerable sys IpV6 spec preferred requested entries ->
      least_of before_v6 (admitted sys IpV6 unicast_v6 entries requested preferred) i ->
      (requested = None ->
       forall j, admitted sys IpV6 unicast_v6 entries None preferred j -> i_index j = i_index i) ->
      answer_v6 sys spec preferred (Ok i).

Lemma lex_le_total a b : lex_le a b = true \/ lex_le b a = true.
Proof.
  revert b. induction a as [|x a IH]; intros [|y b]; cbn; try by auto.
  destruct (Z.lt_total x y) as [H|[->|H]].
  - left. by rewrite (proj2 (Z.ltb_lt _ _) H).
  - rewrite Z.ltb_irrefl, Z.eqb_refl. cbn. apply IH.
  - right. by rewrite (proj2 (Z.ltb_lt _ _) H).
Qed.

Lemma lex_le_trans a b c : lex_le a b = true -> lex_le b c = true -> lex_le a c = true.
Proof.
  revert b c. induction a as [|x a IH]; intros [|y b] [|z c]; cbn; try done.
  intros H1 H2. apply orb_true_iff in H1 as [H1|[H1 H1']%andb_true_iff],
    H2 as [H2|[H2 H2']%andb_true_iff]; bprop.
  - by rewrite (proj2 (Z.ltb_lt x z)) by lia.
  - by rewrite (proj2 (Z.ltb_lt x z)) by lia.
  - by rewrite (proj2 (Z.ltb_lt x z)) by lia.
  - assert (x = z) as -> by lia. rewrite Z.eqb_refl, (IH b c) by done. by rewrite orb_true_r.
Qed.

Section SortOn.
Context {A : Type} (key : A -> list Z).

Lemma insert_on_perm x l : insert_on key x l ≡ₚ x :: l.
Proof.
  induction l as [|y l IH]; cbn; [done|]. destruct (lex_le _ _); [done|]. rewrite IH. apply perm_swap.
Qed.

Lemma sort_on_perm l : sort_on key l ≡ₚ l.
Proof.
  induction l as [|x l IH]; cbn; [done|]. fold (sort_on key l). by rewrite insert_on_perm, IH.
Qed.

Lemma insert_on_head x l :
  exists y l', insert_on key x l = y :: l'
    /\ lex_le (key y) (key x) = true
    /\ match l with [] => y = x | z :: _ => (y = x \/ y = z) /\ lex_le (key y) (key z) = true end.
Proof.
  destruct l as [|z l]; cbn.
  - exists x, []. by rewrite lex_le_refl.
  - destruct (lex_le (key x) (key z)) eqn:E.
    + exists x, (z :: l). rewrite lex_le_refl. auto.
    + exists z, (insert_on key x l). rewrite lex_le_refl.
      destruct (lex_le_total (key x) (key z)); [congruence|auto].
Qed.

(** The first element of a sorted list is below all. *)
Lemma sort_on_head l x l' : sort_on key l = x :: l' -> forall y, y ∈ l -> lex_le (key x) (key y) = true.
Proof.
  revert x l'. induction l as [|z l IH]; intros x l' E; [done|].
  cbn in E. fold (sort_on key l) in E.
  destruct (insert_on_head z (sort_on key l)) as (y & k & Ey & Hyz & Hh). rewrite Ey in E.
  injection E as -> ->. intros y [->|Hin]%elem_of_cons; [done|].
  destruct (sort_on key l) as [|w k] eqn:Es.
  - pose proof (sort_on_perm l) as Hp. rewrite Es in Hp. apply Permutation_nil_l in Hp. subst l. set_solver.
  - destruct Hh as [_ Hw]. eapply lex_le_trans; [exact Hw|]. by eapply IH.
Qed.
End SortOn.

Lemma elem_of_collect sys family usable l cs :
  collect sys family usable l = Ok cs ->
  forall i, i ∈ cs <-> exists e, e ∈ l /\ family (if_address e) = Some (i_address i)
    /\ if_nametoindex sys (if_name e) = Some (i_index i) /\ usable (i_address i) (i_index i) e = true.
Proof.
  revert cs. induction l as [|e l IH]; intros cs E i; cbn in E.
  { injection E as <-. set_solver. }
  destruct (family (if_address e)) as [a|] eqn:Ea.
  - destruct (if_nametoindex sys (if_name e)) as [n|] eqn:En; cbn in E; [|done].
    destruct (collect sys family usable l) as [rest| |]; cbn in E; [|done|done]. injection E as <-.
    specialize (IH rest eq_refl i). destruct (usable a n e) eqn:Eu.
    + rewrite elem_of_cons, IH. split.
      * intros [->|(e' & ? & ?)]; [exists e|exists e']; set_solver.
      * intros (e' & [->|Hin]%elem_of_cons & H1 & H2 & H3); [left|right; naive_solver].
        destruct i; cbn in *. congruence.
    + rewrite IH. split; [intros (e' & ? & ?); exists e'; set_solver|].
      intros (e' & [->|Hin]%elem_of_cons & H1 & H2 & H3); [|naive_solver]. congruence.
  - rewrite (IH cs E i). split; [intros (e' & ? & ?); exists e'; set_solver|].
    intros (e' & [->|Hin]%elem_of_cons & H1 & H2 & H3); [congruence|naive_solver].
Qed.

Lemma collect_result sys family usable l :
  match collect sys family usable l with
  | Ok _ => forall e a, e ∈ l -> family (if_address e) = Some a -> if_nametoindex sys (if_name e) <> None
  | Err err => err = Os
      /\ exists e a, e ∈ l /\ family (if_address e) = Some a /\ if_nametoindex sys (if_name e) = None
  | Panic => False
  end.
Proof.
  induction l as [|e l IH]; cbn; [set_solver|]. destruct (family (if_address e)) as [a|] eqn:Ea.
  - destruct (if_nametoindex sys (if_name e)) as [n|] eqn:En; cbn.
    2: { split; [done|]. exists e, a. set_solver. }
    destruct (collect sys family usable l) as [cs|err|]; cbn; [|naive_solver set_solver|done].
    intros e' a' [->|Hin]%elem_of_cons; [congruence|eauto].
  - destruct (collect sys family usable l) as [cs|err|]; [|naive_solver set_solver|done].
    intros e' a' [->|Hin]%elem_of_cons; [congruence|eauto].
Qed.

(** *** The blocks and the keys *)

Lemma shiftr_block a n k : 0 <= n -> (Z.shiftr a n =? k) = true <-> k * 2 ^ n <= a < (k + 1) * 2 ^ n.
Proof.
  intros Hn. rewrite Z.eqb_eq, Z.shiftr_div_pow2 by done.
  assert (0 < 2 ^ n) by lia. split; [intros <-|intros ?; symmetry].
  - pose proof (Z.div_mod a (2 ^ n)). pose proof (Z.mod_pos_bound a (2 ^ n)). nia.
  - apply (Z.div_unique_pos _ _ _ (a - k * 2 ^ n)); lia.
Qed.

Lemma link_local_spec a : is_unicast_link_local a = true <-> v6_link_local_block a.
Proof.
  unfold is_unicast_link_local, v6_link_local_block. rewrite shiftr_block by lia.
  by replace (65152 * 2 ^ 112) with (1018 * 2 ^ 118) by done.
Qed.

Lemma running_spec e :
  if_running e = true <-> if_up e = true /\ (if_multicast e = true \/ if_loopback e = true).
Proof. unfold if_running. by rewrite andb_true_iff, orb_true_iff. Qed.

Lemma selected_spec requested preferred a n e :
  if_selected requested preferred a n e = true <->
  (forall wanted, requested = Some wanted -> n = wanted) /\ (preferred = 0 \/ a = preferred) /\ a <> 0.
Proof.
  unfold if_selected. rewrite !andb_true_iff, !negb_true_iff, andb_false_iff, !negb_false_iff, !Z.eqb_eq, Z.eqb_neq.
  destruct requested as [w|]; [rewrite negb_false_iff, Z.eqb_eq|]; naive_solver.
Qed.

Lemma usable_v4_spec requested preferred a n e :
  usable_v4 requested preferred a n e = true <->
  (forall wanted, requested = Some wanted -> n = wanted) /\ (preferred = 0 \/ a = preferred)
  /\ unicast_v4 a /\ if_up e = true /\ (if_multicast e = true \/ if_loopback e = true).
Proof.
  unfold usable_v4, unicast_v4, v4_multicast_block, v4_is_multicast, v4_is_broadcast.
  rewrite !andb_true_iff, selected_spec, running_spec, !negb_true_iff, <-!not_true_iff_false,
    shiftr_block, Z.eqb_eq by lia.
  replace (224 * 2 ^ 24) with (14 * 2 ^ 28) by done. replace (240 * 2 ^ 24) with ((14 + 1) * 2 ^ 28) by done.
  replace u32_max with (2 ^ 32 - 1) by done. tauto.
Qed.

Lemma usable_v6_spec requested preferred a n e :
  usable_v6 requested preferred a n e = true <->
  (forall wanted, requested = Some wanted -> n = wanted) /\ (preferred = 0 \/ a = preferred)
  /\ unicast_v6 a /\ if_up e = true /\ (if_multicast e = true \/ if_loopback e = true).
Proof.
  assert (Hm : is_some (to_ipv4_mapped a) = true <-> v6_mapped_block a).
  { unfold to_ipv4_mapped, v6_mapped_block. change 65536 with (65535 + 1).
    rewrite <-shiftr_block by lia. by destruct (_ =? _). }
  unfold usable_v6, unicast_v6, v6_multicast_block, v6_is_multicast. change 256 with (255 + 1).
  rewrite !andb_true_iff, selected_spec, running_spec, !negb_true_iff, <-!not_true_iff_false,
    shiftr_block, Hm by lia. tauto.
Qed.

Lemma lex_le_cons x y a b : lex_le (x :: a) (y :: b) = true <-> x < y \/ x = y /\ lex_le a b = true.
Proof. cbn. by rewrite orb_true_iff, andb_true_iff, Z.ltb_lt, Z.eqb_eq. Qed.

Lemma key_v4_before i j : lex_le (key_v4 i) (key_v4 j) = true <-> before_v4 i j.
Proof.
  unfold key_v4, before_v4. rewrite !lex_le_cons. cbn. lia.
Qed.

Lemma key_v6_before i j : lex_le (key_v6 i) (key_v6 j) = true <-> before_v6 i j.
Proof.
  assert (E : lex_le (key_v6 i) (key_v6 j) = true <->
    (is_unicast_link_local (i_address i) = true /\ is_unicast_link_local (i_address j) = false)
    \/ is_unicast_link_local (i_address i) = is_unicast_link_local (i_address j)
       /\ lex_le (key_v4 i) (key_v4 j) = true).
  { unfold key_v6. fold (key_v4 i) (key_v4 j). rewrite lex_le_cons.
    destruct (is_unicast_link_local (i_address i)), (is_unicast_link_local (i_address j)); intuition (congruence || lia). }
  unfold before_v6. rewrite E, key_v4_before, <-!link_local_spec. clear E. generalize (before_v4 i j).
  destruct (is_unicast_link_local (i_address i)), (is_unicast_link_local (i_address j)); intuition congruence.
Qed.

Lemma before_v4_antisym i j : before_v4 i j -> before_v4 j i -> i = j.
Proof. destruct i, j. unfold before_v4. cbn. intros. f_equal; lia. Qed.
Lemma before_v6_antisym i j : before_v6 i j -> before_v6 j i -> i = j.
Proof. intros [[]|[? ?]] [[]|[? ?]]; try tauto. by apply before_v4_antisym. Qed.

Lemma least_unique before P i j :
  (forall i j, before i j -> before j i -> i = j) -> least_of before P i -> least_of before P j -> i = j.
Proof. intros Ha [Hi Hi'] [Hj Hj']. apply Ha; auto. Qed.

(** *** Requests *)

Lemma asks_unique sys spec q q' : asks sys spec q -> asks sys spec q' -> q = q'.
Proof. destruct 1; inversion 1; congruence. Qed.

Lemma requested_v4_spec sys mk spec preferred :
  match requested_v4 sys spec with
  | Ok q => asks sys spec q
  | Err e => fails sys mk spec preferred e
  | Panic => False
  end.
Proof.
  destruct spec as [name|index|]; cbn.
  - unfold named. destruct (if_nametoindex sys name) eqn:E; [by constructor|by apply fails_name].
  - destruct (Z.eqb_spec index 0) as [->|]; [by apply fails_zero|by constructor].
  - constructor.
Qed.

Lemma requested_v6_v4 sys spec preferred :
  ~ wildcard spec preferred -> requested_v6 sys spec preferred = requested_v4 sys spec.
Proof. destruct spec; try done. cbn. destruct (Z.eqb_spec preferred 0) as [->|]; [|done]. by intros []. Qed.

Lemma fails_answerable sys mk spec preferred e q entries :
  fails sys mk spec preferred e -> answerable sys mk spec preferred q entries -> False.
Proof. intros Hf (Ha & Hw & He & Hu). destruct Hf; subst; inversion Ha; congruence. Qed.

Lemma fails_wildcard sys mk spec preferred e : fails sys mk spec preferred e -> ~ wildcard spec preferred.
Proof. intros Hf Hw. destruct Hf; try done; destruct Hw; congruence. Qed.

Lemma fails_unique sys mk spec preferred e e' :
  fails sys mk spec preferred e -> fails sys mk spec preferred e' -> e = e'.
Proof.
  destruct 1, 1; simplify_eq; try done;
    match goal with H : asks _ _ _ |- _ => inversion H; congruence end.
Qed.

Lemma answerable_unique sys mk spec preferred q q' es es' :
  answerable sys mk spec preferred q es -> answerable sys mk spec preferred q' es' -> q = q' /\ es = es'.
Proof.
  intros (Ha & _ & He & _) (Ha' & _ & He' & _). split; [by eapply asks_unique|congruence].
Qed.

(** *** Candidates *)

Section Candidates.
Context (sys : System) (mk : Z -> IpAddr) (unicast : Z -> Prop).
Context (family : option IpAddr -> option Z) (usable : option Z -> Z -> Z -> Z -> IfEntry -> bool).
Hypothesis Hfamily : forall a x, family a = Some x <-> a = Some (mk x).
Hypothesis Husable : forall requested preferred a n e,
  usable requested preferred a n e = true <->
  (forall wanted, requested = Some wanted -> n = wanted) /\ (preferred = 0 \/ a = preferred)
  /\ unicast a /\ if_up e = true /\ (if_multicast e = true \/ if_loopback e = true).

(** What is collected, or why nothing is. *)
Lemma candidates_spec spec preferred requested :
  asks sys spec requested -> ~ wildcard spec preferred ->
  match entries ← os (getifaddrs sys); collect sys family (usable requested preferred) entries with
  | Ok cs => exists entries, answerable sys mk spec preferred requested entries
      /\ forall i, i ∈ cs <-> admitted sys mk unicast entries requested preferred i
  | Err e => fails sys mk spec preferred e
  | Panic => False
  end.
Proof.
  intros Ha Hw. destruct (getifaddrs sys) as [entries|] eqn:He; cbn; [|by eapply fails_list].
  pose proof (collect_result sys family (usable requested preferred) entries) as Hr.
  destruct (collect _ _ _ _) as [cs|err|] eqn:Ec; [| |done].
  - exists entries. split.
    + split_and!; try done. intros (e & a & Hin & Hea%Hfamily & Hn). by apply (Hr e a).
    + intros i. rewrite (elem_of_collect _ _ _ _ _ Ec i). split.
      * intros (e & Hin & Hf%Hfamily & Hn & (? & ? & ? & ? & ?)%Husable). destruct i. by econstructor.
      * intros [e index address ? Hf ? ? ? ? ? ?]. exists e. cbn. split_and!; [done|by apply Hfamily|done|].
        by apply Husable.
  - destruct Hr as [-> (e & a & Hin & Hf%Hfamily & Hn)]. eapply fails_index; try done. by exists e, a.
Qed.
End Candidates.

Lemma v4_of_mk a x : v4_of a = Some x <-> a = Some (IpV4 x).
Proof. destruct a as [[]|]; cbn; naive_solver. Qed.
Lemma v6_of_mk a x : v6_of a = Some x <-> a = Some (IpV6 x).
Proof. destruct a as [[]|]; cbn; naive_solver. Qed.

(** The first of the sorted candidates. *)
Lemma first_sorted key before cs (P : NetInterface -> Prop) :
  (forall i j, lex_le (key i) (key j) = true <-> before i j) -> (forall i, i ∈ cs <-> P i) ->
  match first_of (sort_on key cs) with
  | Ok i => least_of before P i
  | Err e => e = NoUsableAddress /\ forall i, ~ P i
  | Panic => False
  end.
Proof.
  intros Hk HP. pose proof (sort_on_perm key cs) as Hp. destruct (sort_on key cs) as [|i l] eqn:E; cbn.
  - split; [done|]. apply Permutation_nil_l in Hp. subst cs. intros i Hi%HP. set_solver.
  - split.
    + apply HP. rewrite <-Hp. left.
    + intros j Hj%HP. apply Hk. by eapply sort_on_head.
Qed.

(** *** What the operations answer *)

Lemma resolve_v4_answer sys spec preferred : answer_v4 sys spec preferred (resolve_v4 sys spec preferred).
Proof.
  destruct (decide (spec = AnyInterface /\ preferred = 0)) as [[-> ->]|Hw]; [by apply v4_wildcard|].
  assert (E : resolve_v4 sys spec preferred
    = (requested ← requested_v4 sys spec; candidates ← candidates_v4 sys requested preferred;
       i ← first_of (sort_on key_v4 candidates); Ok (Some i))).
  { unfold resolve_v4. destruct spec, preferred; try done. by destruct Hw. }
  rewrite E. pose proof (requested_v4_spec sys IpV4 spec preferred) as Hq.
  destruct (requested_v4 sys spec) as [q|e|]; cbn [mbind outcome_bind]; [|by apply v4_fails|done].
  pose proof (candidates_spec sys IpV4 unicast_v4 v4_of usable_v4 v4_of_mk usable_v4_spec _ _ _ Hq Hw) as Hc.
  fold (candidates_v4 sys q preferred) in Hc.
  destruct (candidates_v4 sys q preferred) as [cs|e|]; cbn [mbind outcome_bind]; [|by apply v4_fails|done].
  destruct Hc as (entries & Ha & HP). pose proof (first_sorted key_v4 _ cs _ key_v4_before HP) as Hf.
  destruct (first_of _) as [i|e|]; cbn; [by eapply v4_chosen| |done].
  destruct Hf as [-> Hf]. by eapply v4_none.
Qed.

Lemma resolve_v6_answer sys spec preferred : answer_v6 sys spec preferred (resolve_v6 sys spec preferred).
Proof.
  destruct (decide (spec = AnyInterface /\ preferred = 0)) as [[-> ->]|Hw]; [by apply v6_wildcard|].
  unfold resolve_v6. rewrite requested_v6_v4 by done.
  pose proof (requested_v4_spec sys IpV6 spec preferred) as Hq.
  destruct (requested_v4 sys spec) as [q|e|]; cbn [mbind outcome_bind]; [|by apply v6_fails|done].
  pose proof (candidates_spec sys IpV6 unicast_v6 v6_of usable_v6 v6_of_mk usable_v6_spec _ _ _ Hq Hw) as Hc.
  fold (candidates_v6 sys q preferred) in Hc.
  destruct (candidates_v6 sys q preferred) as [cs|e|]; cbn [mbind outcome_bind]; [|by apply v6_fails|done].
  destruct Hc as (entries & Ha & HP). pose proof (first_sorted key_v6 _ cs _ key_v6_before HP) as Hf.
  pose proof (sort_on_perm key_v6 cs) as Hp.
  destruct (first_of _) as [i|e|] eqn:Ei; cbn [mbind outcome_bind]; [| |done].
  2: { destruct Hf as [-> Hf]. by eapply v6_none. }
  assert (HP' : forall j, j ∈ sort_on key_v6 cs <-> admitted sys IpV6 unicast_v6 entries q preferred j)
    by (intros j; by rewrite Hp).
  destruct (negb (is_some q)) eqn:Eq; cbn [andb].
  2: { eapply v6_chosen; [done..|]. intros ->. done. }
  destruct q; [done|]. destruct (existsb _ _) eqn:Ex.
  - apply existsb_elem in Ex as (j & Hj%HP' & Hne). bprop. eapply v6_ambiguous; [done|done|apply Hf|done].
  - eapply v6_chosen; [done..|]. intros _ j Hj%HP'. rewrite existsb_elem_false in Ex.
    specialize (Ex j Hj). by bprop.
Qed.

(** There is one answer. *)
Lemma answer_v4_unique sys spec preferred r r' :
  answer_v4 sys spec preferred r -> answer_v4 sys spec preferred r' -> r = r'.
Proof.
  destruct 1 as [e Hf|Hw|q es Ha Hn|q es i Ha Hl], 1 as [e' Hf'|Hw'|q' es' Ha' Hn'|q' es' i' Ha' Hl'];
    try done;
    try (by exfalso; eapply fails_answerable); try (by exfalso; eapply fails_wildcard);
    try (by destruct Ha as (_ & [] & _)); try (by destruct Ha' as (_ & [] & _)).
  - f_equal. by eapply fails_unique.
  - destruct (answerable_unique _ _ _ _ _ _ _ _ Ha Ha') as [<- <-]. by destruct (Hn i'), Hl'.
  - destruct (answerable_unique _ _ _ _ _ _ _ _ Ha Ha') as [<- <-]. by destruct (Hn' i), Hl.
  - destruct (answerable_unique _ _ _ _ _ _ _ _ Ha Ha') as [<- <-]. do 2 f_equal.
    by eapply least_unique; [apply before_v4_antisym|..].
Qed.

Lemma answer_v6_unique sys spec preferred r r' :
  answer_v6 sys spec preferred r -> answer_v6 sys spec preferred r' -> r = r'.
Proof.
  destruct 1 as [e Hf|Hw|q es Ha Hn|es i j Ha Hi Hj Hne|q es i Ha Hl Hs],
    1 as [e' Hf'|Hw'|q' es' Ha' Hn'|es' i' j' Ha' Hi' Hj' Hne'|q' es' i' Ha' Hl' Hs'];
    try done;
    try (by exfalso; eapply fails_answerable); try (by exfalso; eapply fails_wildcard);
    try (by destruct Ha as (_ & [] & _)); try (by destruct Ha' as (_ & [] & _));
    try (destruct (answerable_unique _ _ _ _ _ _ _ _ Ha Ha'); subst).
  - f_equal. by eapply fails_unique.
  - by destruct (Hn i').
  - by destruct (Hn i'), Hl'.
  - by destruct (Hn' i).
  - by rewrite (Hs' eq_refl i Hi), (Hs' eq_refl j Hj) in Hne.
  - by destruct (Hn' i), Hl.
  - by rewrite (Hs eq_refl i' Hi'), (Hs eq_refl j' Hj') in Hne'.
  - f_equal. by eapply least_unique; [apply before_v6_antisym|..].
Qed.

(** *** The order of the list *)

(** The system with its interfaces listed otherwise. *)
Definition relist (sys : System) (entries : list IfEntry) : System :=
  mkSystem (Some entries) (if_nametoindex sys).

Section Relist.
Context (sys : System) (entries entries' : list IfEntry) (spec : InterfaceSpec) (preferred : Z).
Hypothesis Hlist : getifaddrs sys = Some entries.
Hypothesis Hperm : entries' ≡ₚ entries.

Lemma relist_asks q : asks (relist sys entries') spec q <-> asks sys spec q.
Proof. split; destruct 1; by constructor. Qed.

Lemma relist_unnumbered mk : unnumbered (relist sys entries') mk entries' <-> unnumbered sys mk entries.
Proof. unfold unnumbered. cbn. by setoid_rewrite Hperm. Qed.

Lemma relist_answerable mk q es :
  answerable sys mk spec preferred q es ->
  es = entries /\ answerable (relist sys entries') mk spec preferred q entries'.
Proof.
  intros (Ha & Hw & He & Hu). split; [congruence|]. assert (es = entries) as -> by congruence.
  split_and!; [by apply relist_asks|done|done|by rewrite relist_unnumbered].
Qed.

Lemma relist_fails mk e :
  fails sys mk spec preferred e -> fails (relist sys entries') mk spec preferred e.
Proof.
  destruct 1 as [| |q|q es ? ? He Hu]; [by apply fails_name|by apply fails_zero|congruence|].
  assert (es = entries) as -> by congruence.
  eapply fails_index; [by apply relist_asks|done|done|by apply relist_unnumbered].
Qed.

Lemma relist_admitted mk unicast q i :
  admitted (relist sys entries') mk unicast entries' q preferred i
  <-> admitted sys mk unicast entries q preferred i.
Proof. split; intros [e index address Hin]; econstructor; try done; [by rewrite <-Hperm|by rewrite Hperm]. Qed.

Lemma relist_answer_v4 r : answer_v4 sys spec preferred r -> answer_v4 (relist sys entries') spec preferred r.
Proof.
  destruct 1 as [e Hf|Hw|q es Ha Hn|q es i Ha [Hi Hl]];
    [by apply v4_fails, relist_fails|by apply v4_wildcard| |]; apply relist_answerable in Ha as [-> Ha].
  - eapply v4_none; [done|]. intros i. by rewrite relist_admitted.
  - eapply v4_chosen; [done|]. split; [by apply relist_admitted|]. intros j Hj%relist_admitted. auto.
Qed.

Lemma relist_answer_v6 r : answer_v6 sys spec preferred r -> answer_v6 (relist sys entries') spec preferred r.
Proof.
  destruct 1 as [e Hf|Hw|q es Ha Hn|es i j Ha Hi Hj Hne|q es i Ha [Hi Hl] Hs];
    [by apply v6_fails, relist_fails|by apply v6_wildcard| | |]; apply relist_answerable in Ha as [-> Ha].
  - eapply v6_none; [done|]. intros i. by rewrite relist_admitted.
  - eapply v6_ambiguous; [done|apply relist_admitted, Hi|apply relist_admitted, Hj|done].
  - eapply v6_chosen; [done| |].
    + split; [by apply relist_admitted|]. intros j Hj%relist_admitted. auto.
    + intros E j Hj%relist_admitted. auto.
Qed.
End Relist.

(** C31: The interface of discovery.  [resolve_v6] and [resolve_v4] answer exactly as
    specified: an unknown name, index zero and, in IPv6, a request for neither interface
    nor address are refused with their errors; the system's failures are passed on;
    otherwise the answer is the first, by interface index and then by address, and in
    IPv6 link-local before other addresses, of the unicast addresses that are up, carry
    multicast or are the loopback, and match the request.  [resolve_v6] reports an
    address found on two interfaces as ambiguous exactly when no interface was asked
    for, and both a missing one exactly when none is admitted.  So neither depends on
    the order in which the system lists its interfaces. *)
Theorem interface_choice sys spec preferred :
  (forall r, resolve_v6 sys spec preferred = r <-> answer_v6 sys spec preferred r)
  /\ (forall r, resolve_v4 sys spec preferred = r <-> answer_v4 sys spec preferred r)
  /\ (forall entries entries', getifaddrs sys = Some entries -> entries' ≡ₚ entries ->
       resolve_v6 (relist sys entries') spec preferred = resolve_v6 sys spec preferred
       /\ resolve_v4 (relist sys entries') spec preferred = resolve_v4 sys spec preferred).
Proof.
  split_and!.
  - intros r. split; [intros <-; apply resolve_v6_answer|].
    by apply answer_v6_unique, resolve_v6_answer.
  - intros r. split; [intros <-; apply resolve_v4_answer|].
    by apply answer_v4_unique, resolve_v4_answer.
  - intros entries entries' He Hp. split.
    + eapply answer_v6_unique; [apply resolve_v6_answer|].
      eapply relist_answer_v6; [done|done|apply resolve_v6_answer].
    + eapply answer_v4_unique; [apply resolve_v4_answer|].
      eapply relist_answer_v4; [done|done|apply resolve_v4_answer].
Qed.

(** ** Examples *)

Definition eth (name : rstring) (address : IpAddr) : IfEntry := mkIfEntry name (Some address) true true false.
Definition sample_entries : list IfEntry :=
  [eth (str "eth1") (IpV6 (fe80_1 + 2)); eth (str "eth0") (IpV4 167772161);
   eth (str "eth0") (IpV6 (fe80_1 + 1)); eth (str "eth0") (IpV6 fe80_1)].
Definition sample_system : System :=
  mkSystem (Some sample_entries)
    (fun name => if bool_decide (name = str "eth0") then Some 2
                 else if bool_decide (name = str "eth1") then Some 3 else None).

(** The lowest link-local address of the interface asked for, however they are listed. *)
Lemma interface_choice_witness :
  answer_v6 sample_system (ByName (str "eth0")) 0 (Ok (mkInterface 2 fe80_1))
  /\ resolve_v6 (relist sample_system (rev sample_entries)) (ByName (str "eth0")) 0 = Ok (mkInterface 2 fe80_1).
Proof.
  destruct (interface_choice sample_system (ByName (str "eth0")) 0) as (H6 & _ & H). split.
  - apply H6. vm_compute. reflexivity.
  - destruct (H sample_entries (rev sample_entries)) as [E _]; [done|symmetry; apply Permutation_rev|].
    rewrite E. vm_compute. reflexivity.
Defined.
