(* ===== verification/DiscoverySockets.v ===== *)
(** * Discovery sockets

    [dlep-net/src/discovery.rs] binds the socket of discovery, sends signals and receives
    them with the metadata the kernel gives; [gtsm.rs] sets and checks TTLs, and
    [NetworkConfig] of [dlep-daemon/src/config.rs] says how to bind.  Which calls succeed
    and what arrives is the operating system's: arguments of the definitions. *)

From S2P Require Import Prelude Externs CoreTypes Codec CodecItem CodecMessage Addresses Events.
From S2P Require Import Discovery Connections Interfaces.

(** ** Socket options ([dlep-net/src/gtsm.rs]) *)

Definition REQUIRED_TTL : Z := 255.

(** Calls made on a socket before it is used. *)
Inductive SockCall : Type :=
  | NewDatagram (v6 : bool)
  | OnlyV6
  | ReuseAddress
  | ReusePort
  | Nonblocking
  | SetTtl (ttl : Z)
  | SetHops (ttl : Z)
  | SetMulticastTtl (ttl : Z)
  | SetMulticastHops (ttl : Z)
  | RecvTtl
  | RecvHops
  | MinTtl (ttl : Z)
  | MinHops (ttl : Z)
  | PacketInfo (v6 : bool)
  | MulticastLoop (on : bool)
  | MulticastIfV4 (address : Z)
  | MulticastIfV6 (index : Z)
  | MulticastAllOff (v6 : bool)
  | BindPort (port : Z)
  | JoinIndex (group index : Z)
  | JoinAddress (group address : Z).

#[global] Instance SockCall_eq_dec : EqDecision SockCall.
Proof. solve_decision. Defined.

Definition set_minimum_ttl (is_v6 : bool) : list SockCall :=
  if is_v6 then [MinHops REQUIRED_TTL; MinTtl REQUIRED_TTL] else [MinTtl REQUIRED_TTL].

Definition configure_tcp (is_v6 enforce : bool) : list SockCall :=
  (if is_v6 then [SetHops REQUIRED_TTL; SetTtl REQUIRED_TTL] else [SetTtl REQUIRED_TTL])
  ++ if enforce then set_minimum_ttl is_v6 else [].

Definition set_send_ttl (is_v6 : bool) : list SockCall :=
  if is_v6 then [SetHops REQUIRED_TTL; SetMulticastHops REQUIRED_TTL]
  else [SetTtl REQUIRED_TTL; SetMulticastTtl REQUIRED_TTL].

Definition enable_recv_ttl (is_v6 : bool) : list SockCall := if is_v6 then [RecvHops] else [RecvTtl].

Definition is_gtsm_valid (ttl : Z) : bool := ttl =? REQUIRED_TTL.

(** ** Binding *)

(** [DiscoveryParams] and [DiscoveryParamsV6], which have the same fields. *)
Record DiscoveryParams : Type := mkParams {
  dp_group : Z;
  dp_local : Z;
  dp_port : Z;
  dp_group_port : option Z;
  dp_multicast_loop : bool;
  dp_join_group : bool;
}.

(** A bound socket, with the calls that were made on it. *)
Record DiscoverySocket : Type := mkSocket {
  ds_group : SocketAddr;
  ds_port : Z;
  ds_interface : option NetInterface;
  ds_interface_v6 : option NetInterface;
  ds_calls : list SockCall;
}.

(** How the system answers the calls: which fail, and the port a socket gets. *)
Record Sockets : Type := mkSockets {
  call_ok : SockCall -> bool;
  port_of : Z -> Z;
}.

Definition perform (net : Sockets) (calls : list SockCall) : outcome NetError unit :=
  if forallb (call_ok net) calls then Ok tt else Err Os.

Definition calls_v4 (params : DiscoveryParams) (interface : option NetInterface) (address : Z)
    : list SockCall :=
  [NewDatagram false; ReuseAddress; ReusePort; Nonblocking]
  ++ set_send_ttl false ++ enable_recv_ttl false
  ++ [PacketInfo false; MulticastLoop (dp_multicast_loop params); MulticastIfV4 address;
      MulticastAllOff false; BindPort (dp_port params)]
  ++ if dp_join_group params then
       [match interface with
        | Some i => JoinIndex (dp_group params) (i_index i)
        | None => JoinAddress (dp_group params) address
        end]
     else [].

Definition bind_on_interface (sys : System) (net : Sockets) (params : DiscoveryParams) (spec : InterfaceSpec)
    : outcome NetError DiscoverySocket :=
  interface ← resolve_v4 sys spec (dp_local params);
  let address := match interface with Some i => i_address i | None => dp_local params end in
  let calls := calls_v4 params interface address in
  _ ← perform net calls;
  let resolved_port := port_of net (dp_port params) in
  Ok (mkSocket (SocketV4 (dp_group params) (default resolved_port (dp_group_port params)))
        resolved_port interface None calls).

Definition calls_v6 (params : DiscoveryParams) (interface : NetInterface) : list SockCall :=
  [NewDatagram true; OnlyV6; ReuseAddress; ReusePort; Nonblocking]
  ++ set_send_ttl true ++ enable_recv_ttl true
  ++ [PacketInfo true; MulticastLoop (dp_multicast_loop params); MulticastIfV6 (i_index interface);
      MulticastAllOff true; BindPort (dp_port params)]
  ++ if dp_join_group params then [JoinIndex (dp_group params) (i_index interface)] else [].

Definition bind_v6 (sys : System) (net : Sockets) (params : DiscoveryParams) (spec : InterfaceSpec)
    : outcome NetError DiscoverySocket :=
  interface ← resolve_v6 sys spec (dp_local params);
  let calls := calls_v6 params interface in
  _ ← perform net calls;
  let port := port_of net (dp_port params) in
  Ok (mkSocket (SocketV6 (dp_group params) (default port (dp_group_port params)) 0 (i_index interface))
        port None (Some interface) calls).

(** [DiscoverySocket::interface_index]. *)
Definition interface_index (self : DiscoverySocket) : option Z :=
  match ds_interface self with
  | Some i => Some (i_index i)
  | None => i_index <$> ds_interface_v6 self
  end.

(** ** The network section of the configuration ([dlep-daemon/src/config.rs]) *)

Record NetworkConfig : Type := mkNetwork {
  nc_mac_address_format : MacAddressFormat;
  nc_interface : option rstring;
  nc_discovery_v4_group : Z;
  nc_discovery_v6_group : Z;
  nc_discovery_port : Z;
  nc_tcp_port : Z;
  nc_bind_addr : IpAddr;
  nc_use_tls : bool;
  nc_gtsm_enforce : bool;
}.

(** 224.0.0.117 and ff02::1:7 ([dlep-core/src/lib.rs]). *)
Definition DISCOVERY_IPV4_GROUP : Z := 3758096501.
Definition DISCOVERY_IPV6_GROUP : Z := Z.shiftl 65282 112 + 65543.

Definition NetworkConfig_default : NetworkConfig :=
  mkNetwork FormatEui48 None DISCOVERY_IPV4_GROUP DISCOVERY_IPV6_GROUP DEFAULT_PORT DEFAULT_PORT
    (IpV4 0) true true.

Definition discovery_interface (self : NetworkConfig) : InterfaceSpec :=
  match nc_interface self with Some name => ByName name | None => AnyInterface end.

Definition validate_discovery_interface (sys : System) (self : NetworkConfig) : outcome NetError unit :=
  match nc_bind_addr self with
  | IpV4 preferred =>
      if is_some (nc_interface self) then
        _ ← resolve_v4 sys (discovery_interface self) preferred; Ok tt
      else Ok tt
  | IpV6 preferred => _ ← resolve_v6 sys (discovery_interface self) preferred; Ok tt
  end.

Definition bind_discovery (sys : System) (net : Sockets) (self : NetworkConfig) (modem : bool)
    : outcome NetError DiscoverySocket :=
  let port := if modem then nc_discovery_port self else 0 in
  match nc_bind_addr self with
  | IpV4 local =>
      bind_on_interface sys net
        (mkParams (nc_discovery_v4_group self) local port (Some (nc_discovery_port self)) true modem)
        (discovery_interface self)
  | IpV6 local =>
      bind_v6 sys net
        (mkParams (nc_discovery_v6_group self) local port (Some (nc_discovery_port self)) true modem)
        (discovery_interface self)
  end.

Definition tcp_bind_addr (sys : System) (self : NetworkConfig) : outcome NetError SocketAddr :=
  match nc_bind_addr self with
  | IpV4 ip => Ok (SocketV4 ip (nc_tcp_port self))
  | IpV6 ip =>
      if is_unicast_link_local ip then
        i ← resolve_v6 sys (discovery_interface self) ip;
        Ok (SocketV6 ip (nc_tcp_port self) 0 (i_index i))
      else Ok (SocketV6 ip (nc_tcp_port self) 0 0)
  end.

Lemma collect_no_panic sys family usable l : collect sys family usable l <> Panic.
Proof.
  induction l as [|e l IH]; cbn; [done|]. destruct (family (if_address e)); [|done].
  destruct (if_nametoindex sys (if_name e)); cbn; [|done]. by destruct (collect sys family usable l).
Qed.

Lemma resolve_no_panic sys spec preferred :
  resolve_v4 sys spec preferred <> Panic /\ resolve_v6 sys spec preferred <> Panic.
Proof.
  assert (Hr : requested_v4 sys spec <> Panic).
  { destruct spec as [n|i|]; cbn; [unfold named; by destruct (if_nametoindex sys n)|by destruct (i =? 0)|done]. }
  assert (Hr6 : requested_v6 sys spec preferred <> Panic)
    by (destruct spec; cbn in *; [done|done|by destruct (preferred =? 0)]).
  split.
  - assert (H : (requested ← requested_v4 sys spec; candidates ← candidates_v4 sys requested preferred;
        i ← first_of (sort_on key_v4 candidates); Ok (Some i)) <> Panic).
    { destruct (requested_v4 sys spec) as [req| |]; cbn; [|done|done]. unfold candidates_v4.
      destruct (getifaddrs sys) as [l|]; cbn; [|done].
      pose proof (collect_no_panic sys v4_of (usable_v4 req preferred) l) as Hc.
      destruct (collect sys v4_of (usable_v4 req preferred) l) as [cs| |]; cbn; [|done|done].
      by destruct (sort_on key_v4 cs). }
    unfold resolve_v4. by destruct spec, preferred.
  - unfold resolve_v6. destruct (requested_v6 sys spec preferred) as [req| |]; cbn [mbind outcome_bind]; [|done|done].
    unfold candidates_v6. destruct (getifaddrs sys) as [l|]; cbn [os mbind outcome_bind]; [|done].
    pose proof (collect_no_panic sys v6_of (usable_v6 req preferred) l) as Hc.
    destruct (collect sys v6_of (usable_v6 req preferred) l) as [cs| |]; cbn [mbind outcome_bind]; [|done|done].
    destruct (sort_on key_v6 cs); cbn [first_of mbind outcome_bind]; [done|]. by destruct (_ && _).
Qed.

Lemma bind_discovery_no_panic sys net cfg modem : bind_discovery sys net cfg modem <> Panic.
Proof.
  unfold bind_discovery. destruct (nc_bind_addr cfg) as [l|l].
  - unfold bind_on_interface. cbn [dp_local].
    destruct (resolve_no_panic sys (discovery_interface cfg) l) as [H _].
    destruct (resolve_v4 sys (discovery_interface cfg) l); cbn [mbind outcome_bind]; [|done|done].
    unfold perform. by destruct (forallb _ _).
  - unfold bind_v6. cbn [dp_local].
    destruct (resolve_no_panic sys (discovery_interface cfg) l) as [_ H].
    destruct (resolve_v6 sys (discovery_interface cfg) l); cbn [mbind outcome_bind]; [|done|done].
    unfold perform. by destruct (forallb _ _).
Qed.

(** ** Sending and receiving *)

(** Ancillary data; an index is a [c_int] for IPv4. *)
Inductive Control : Type :=
  | Ipv4PacketInfo (spec_dst ifindex : Z)
  | Ipv6PacketInfo (address ifindex : Z)
  | TtlControl (ttl : Z)
  | OtherControl.

(** [as u32], [as u8] and [u32::try_from]. *)
Definition as_u32 (z : Z) : Z := z mod 2 ^ 32.
Definition as_u8 (z : Z) : Z := z mod 2 ^ 8.
Definition ifindex_from_pktinfo (raw : Z) : option Z :=
  if (0 <=? raw) && (raw <=? u32_max) then Some raw else None.
(** The field of [in6_pktinfo] is a [u32] on Linux, where every index fits. *)
Definition ifindex_to_pktinfo (index : Z) : option Z :=
  if (0 <=? index) && (index <=? u32_max) then Some index else None.

(** One result of [sendmsg] on a writable socket. *)
Inductive SendResult : Type :=
  | SendWouldBlock
  | SentOctets (n : Z)
  | SendFails.

(** [send_datagram]: [None] while the socket is not writable. *)
Fixpoint send_datagram (bytes : bytes) (results : list SendResult) : option (outcome NetError unit) :=
  match results with
  | [] => None
  | SendWouldBlock :: rest => send_datagram bytes rest
  | SentOctets n :: _ => Some (if n =? len bytes then Ok tt else Err (ShortSend n))
  | SendFails :: _ => Some (Err Os)
  end.

Section SendReceive.
Context {crates : Crates}.

(** The control messages of an outgoing datagram: interface and source address. *)
Definition outgoing_controls (self : DiscoverySocket) : list Control :=
  match ds_interface self with
  | Some i => [Ipv4PacketInfo (i_address i) (i_index i)]
  | None => []
  end
  ++ match ds_interface_v6 self with
     | Some i => match ifindex_to_pktinfo (i_index i) with
                 | Some n => [Ipv6PacketInfo (i_address i) n]
                 | None => []
                 end
     | None => []
     end.

(** [send_unicast], with the octets and control messages that are sent. *)
Definition send_unicast (self : DiscoverySocket) (signal : Signal) (dest : SocketAddr)
    (results : list SendResult) : option (outcome NetError (bytes * list Control)) :=
  if negb (Bool.eqb (is_ipv6 dest) (is_some (ds_interface_v6 self))) then Some (Err FamilyMismatch)
  else
    match Signal_encode signal with
    | Ok bytes =>
        match send_datagram bytes results with
        | Some (Ok _) => Some (Ok (bytes, outgoing_controls self))
        | Some (Err e) => Some (Err e)
        | Some Panic => Some Panic
        | None => None
        end
    | Err e => Some (Err (Encoding e))
    | Panic => Some Panic
    end.

Definition send_to_group (self : DiscoverySocket) (signal : Signal) (results : list SendResult)
    : option (outcome NetError (bytes * list Control)) := send_unicast self signal (ds_group self) results.

(** A datagram as [recvmsg] gives it; a missing list of control messages stands for
    ones that cannot be read. *)
Record Datagram : Type := mkDatagram {
  dg_body : bytes;
  dg_controls_cut : bool;
  dg_from : option SocketAddr;
  dg_controls : option (list Control);
}.

Record ReceivedSignal : Type := mkReceived {
  r_signal : Signal;
  r_from : SocketAddr;
  r_ttl : Z;
  r_local_addr : IpAddr;
  r_interface_index : Z;
}.

(** The size of the receive buffer. *)
Definition PAYLOAD : Z := 1500.

(** Sender, TTL, local address and interface as the control messages are read. *)
Record Metadata : Type := mkMetadata {
  md_from : SocketAddr;
  md_ttl : option Z;
  md_local : option IpAddr;
  md_index : option Z;
}.

(** [set_scope_id] on a link-local IPv6 address. *)
Definition scope_sender (index : option Z) (from : SocketAddr) : SocketAddr :=
  match from, index with
  | SocketV6 ip port flow scope, Some i =>
      SocketV6 ip port flow (if is_unicast_link_local ip then i else scope)
  | _, _ => from
  end.

Definition read_control (self : DiscoverySocket) (md : Metadata) (c : Control) : Metadata :=
  match c with
  | Ipv4PacketInfo spec_dst ifindex =>
      mkMetadata (md_from md) (md_ttl md) (Some (IpV4 spec_dst)) (Some (as_u32 ifindex))
  | Ipv6PacketInfo _ ifindex =>
      let index := ifindex_from_pktinfo ifindex in
      mkMetadata (scope_sender index (md_from md)) (md_ttl md)
        ((fun i => IpV6 (i_address i)) <$> ds_interface_v6 self) index
  | TtlControl t => mkMetadata (md_from md) (Some (as_u8 t)) (md_local md) (md_index md)
  | OtherControl => md
  end.

Definition ok_or {A} (e : NetError) (o : option A) : outcome NetError A :=
  match o with Some a => Ok a | None => Err e end.

(** The closure of [try_io]. *)
Definition read_metadata (self : DiscoverySocket) (d : Datagram) : outcome NetError Metadata :=
  if (PAYLOAD <? len (dg_body d)) || dg_controls_cut d then Err Truncated
  else
    from ← ok_or NoSender (dg_from d);
    controls ← ok_or Os (dg_controls d);
    Ok (foldl (read_control self) (mkMetadata from None None None) controls).

(** What becomes of one datagram; [Ok None] goes on to the next. *)
Definition receive_one (self : DiscoverySocket) (d : Datagram) : outcome NetError (option ReceivedSignal) :=
  md ← read_metadata self d;
  index ← ok_or NoIngressIndex
            (match md_index md with Some i => if i =? 0 then None else Some i | None => None end);
  if match interface_index self with Some wanted => negb (wanted =? index) | None => false end
  then Ok None
  else
    ttl ← ok_or NoTtl (md_ttl md);
    if negb (is_gtsm_valid ttl) then Ok None
    else
      signal ← map_err Malformed (decode_datagram (dg_body d));
      local ← ok_or NoLocalAddress (md_local md);
      Ok (Some (mkReceived signal (md_from md) ttl local index)).

(** What the socket meets, in order. *)
Inductive Arrival : Type :=
  | NotReady
  | ReceiveFails
  | Arrived (d : Datagram).

(** [recv_with_metadata]: the result and what is left, [None] while it waits. *)
Fixpoint recv_with_metadata (self : DiscoverySocket) (l : list Arrival)
    : option (outcome NetError ReceivedSignal * list Arrival) :=
  match l with
  | [] => None
  | NotReady :: rest => recv_with_metadata self rest
  | ReceiveFails :: rest => Some (Err Os, rest)
  | Arrived d :: rest =>
      match receive_one self d with
      | Ok (Some r) => Some (Ok r, rest)
      | Ok None => recv_with_metadata self rest
      | Err e => Some (Err e, rest)
      | Panic => Some (Panic, rest)
      end
  end.

(** ** What is received, specified

    How the metadata of a datagram is to be read and what is to become of it, as
    relations over its control messages. *)

Definition is_info (c : Control) : Prop :=
  match c with Ipv4PacketInfo _ _ | Ipv6PacketInfo _ _ => True | _ => False end.
Definition is_ttl (c : Control) : Prop := match c with TtlControl _ => True | _ => False end.
(** Packet information of IPv6 whose index is one. *)
Definition is_scope (c : Control) : Prop :=
  match c with Ipv6PacketInfo _ n => 0 <= n < 2 ^ 32 | _ => False end.

(** The last control message of a kind counts. *)
Definition lacks (K : Control -> Prop) (cs : list Control) : Prop := Forall (fun c => ~ K c) cs.
Definition last_of (K : Control -> Prop) (cs : list Control) (c : Control) : Prop :=
  K c /\ exists before after, cs = before ++ c :: after /\ lacks K after.

(** The TTL or hop limit, an octet. *)
Definition hop_limit (cs : list Control) (ttl : Z) : Prop :=
  exists raw, last_of is_ttl cs (TtlControl raw) /\ ttl = raw mod 256.

(** The interface a datagram came in on, which is never zero. *)
Inductive ingress (cs : list Control) : Z -> Prop :=
  | ingress_v4 dst raw : last_of is_info cs (Ipv4PacketInfo dst raw) -> raw mod 2 ^ 32 <> 0 ->
      ingress cs (raw mod 2 ^ 32)
  | ingress_v6 dst raw : last_of is_info cs (Ipv6PacketInfo dst raw) -> 0 < raw < 2 ^ 32 -> ingress cs raw.

(** The address to answer from: the kernel's in IPv4, the socket's own in IPv6. *)
Inductive local_address (self : DiscoverySocket) (cs : list Control) : IpAddr -> Prop :=
  | local_v4 dst raw : last_of is_info cs (Ipv4PacketInfo dst raw) -> local_address self cs (IpV4 dst)
  | local_v6 dst raw i : last_of is_info cs (Ipv6PacketInfo dst raw) -> ds_interface_v6 self = Some i ->
      local_address self cs (IpV6 (i_address i)).

(** The sender; a link-local one is scoped to the interface. *)
Inductive sender (cs : list Control) : SocketAddr -> SocketAddr -> Prop :=
  | sender_v4 ip port : sender cs (SocketV4 ip port) (SocketV4 ip port)
  | sender_global ip port flow scope : ~ v6_link_local_block ip ->
      sender cs (SocketV6 ip port flow scope) (SocketV6 ip port flow scope)
  | sender_unscoped ip port flow scope : v6_link_local_block ip -> lacks is_scope cs ->
      sender cs (SocketV6 ip port flow scope) (SocketV6 ip port flow scope)
  | sender_scoped ip port flow scope dst index : v6_link_local_block ip ->
      last_of is_scope cs (Ipv6PacketInfo dst index) ->
      sender cs (SocketV6 ip port flow scope) (SocketV6 ip port flow index).

(** A datagram that came in whole, and its readable parts. *)
Definition cut_short (d : Datagram) : Prop := 1500 < len (dg_body d) \/ dg_controls_cut d = true.
Definition readable (d : Datagram) (from : SocketAddr) (cs : list Control) : Prop :=
  ~ cut_short d /\ dg_from d = Some from /\ dg_controls d = Some cs.

(** The interface the socket was bound to, if any. *)
Definition bound_to (self : DiscoverySocket) (index : Z) : Prop :=
  (exists i, ds_interface self = Some i /\ index = i_index i)
  \/ ds_interface self = None /\ exists i, ds_interface_v6 self = Some i /\ index = i_index i.
Definition on_interface (self : DiscoverySocket) (cs : list Control) (index : Z) : Prop :=
  ingress cs index /\ forall wanted, bound_to self wanted -> index = wanted.

(** What becomes of a datagram: an error, [None] when it is passed over, or a signal. *)
Inductive fate (self : DiscoverySocket) (d : Datagram) : outcome NetError (option ReceivedSignal) -> Prop :=
  | fate_truncated : cut_short d -> fate self d (Err Truncated)
  | fate_no_sender : ~ cut_short d -> dg_from d = None -> fate self d (Err NoSender)
  | fate_no_controls from : ~ cut_short d -> dg_from d = Some from -> dg_controls d = None ->
      fate self d (Err Os)
  | fate_no_index from cs : readable d from cs -> (forall index, ~ ingress cs index) ->
      fate self d (Err NoIngressIndex)
  | fate_foreign from cs index wanted : readable d from cs -> ingress cs index ->
      bound_to self wanted -> index <> wanted -> fate self d (Ok None)
  | fate_no_ttl from cs index : readable d from cs -> on_interface self cs index -> lacks is_ttl cs ->
      fate self d (Err NoTtl)
  | fate_off_link from cs index ttl : readable d from cs -> on_interface self cs index ->
      hop_limit cs ttl -> ttl <> 255 -> fate self d (Ok None)
  | fate_malformed from cs index e : readable d from cs -> on_interface self cs index -> hop_limit cs 255 ->
      Signal_decode (dg_body d) = Err e -> fate self d (Err (Malformed e))
  | fate_no_local from cs index signal : readable d from cs -> on_interface self cs index ->
      hop_limit cs 255 -> Signal_decode (dg_body d) = Ok signal ->
      (forall a, ~ local_address self cs a) -> fate self d (Err NoLocalAddress)
  | fate_carried from cs index signal local from' : readable d from cs -> on_interface self cs index ->
      hop_limit cs 255 -> Signal_decode (dg_body d) = Ok signal -> local_address self cs local ->
      sender cs from from' -> fate self d (Ok (Some (mkReceived signal from' 255 local index))).

(** *** The last control message of a kind *)

Lemma last_of_snoc (K : Control -> Prop) cs c x :
  last_of K (cs ++ [c]) x <-> (K c /\ x = c) \/ (~ K c /\ last_of K cs x).
Proof.
  unfold last_of, lacks. split.
  - intros (Hx & before & after & E & Ha). destruct after as [|y after _] using rev_ind.
    + apply app_inj_tail in E as [-> ->]. by left.
    + rewrite app_comm_cons, app_assoc in E. apply app_inj_tail in E as [-> ->].
      apply Forall_app in Ha as [Ha [Hy _]%Forall_cons]. right. split; [done|]. split; [done|]. by exists before, after.
  - intros [[Hc ->]|(Hc & Hx & before & after & -> & Ha)].
    + split; [done|]. by exists cs, [].
    + split; [done|]. exists before, (after ++ [c]). split; [by rewrite <-app_assoc|].
      apply Forall_app. split; [done|]. by apply Forall_singleton.
Qed.

Lemma last_of_nil K x : ~ last_of K [] x.
Proof. intros (_ & [|] & after & E & _); done. Qed.

Lemma lacks_snoc K cs c : lacks K (cs ++ [c]) <-> lacks K cs /\ ~ K c.
Proof. unfold lacks. by rewrite Forall_app, Forall_singleton. Qed.

Lemma last_of_lacks K cs c : lacks K cs -> ~ last_of K cs c.
Proof. intros Hl (Hc & before & after & -> & _). apply Forall_app in Hl as [_ [H _]%Forall_cons]. done. Qed.

Lemma last_of_unique K cs c c' : last_of K cs c -> last_of K cs c' -> c = c'.
Proof.
  induction cs as [|x cs IH] using rev_ind; [by intros ?%last_of_nil|]. rewrite !last_of_snoc. naive_solver.
Qed.

(** *** How the code reads the metadata *)

(** The fields that a run of [read_control] over [cs] fills in. *)
Record reads (self : DiscoverySocket) (from : SocketAddr) (cs : list Control) (md : Metadata) : Prop := {
  rd_ttl : forall t, md_ttl md = Some t <-> hop_limit cs t;
  rd_no_ttl : md_ttl md = None <-> lacks is_ttl cs;
  rd_index : forall n, n <> 0 -> md_index md = Some n <-> ingress cs n;
  rd_local : forall a, md_local md = Some a <-> local_address self cs a;
  rd_from : sender cs from (md_from md);
}.

Lemma sender_stays cs c from x : sender cs from x -> ~ is_scope c -> sender (cs ++ [c]) from x.
Proof.
  intros Hs Hc. destruct Hs; [by apply sender_v4|by apply sender_global| |].
  - apply sender_unscoped; [done|]. by apply lacks_snoc.
  - eapply sender_scoped; [done|]. apply last_of_snoc. by right.
Qed.

Lemma sender_scopes cs from x dst n :
  sender cs from x -> 0 <= n < 2 ^ 32 ->
  sender (cs ++ [Ipv6PacketInfo dst n]) from (scope_sender (Some n) x).
Proof.
  intros Hs Hn. destruct Hs as [|ip port flow scope Hl|ip port flow scope Hl|ip port flow scope dst' i Hl]; cbn;
    [by apply sender_v4|..]; destruct (is_unicast_link_local ip) eqn:El;
    try apply link_local_spec in El; try done;
    try (by eapply sender_scoped; [done|]; apply last_of_snoc; left);
    try (exfalso; apply link_local_spec in Hl; congruence).
  by apply sender_global.
Qed.

Lemma hop_limit_snoc cs c t :
  hop_limit (cs ++ [c]) t <-> (exists raw, c = TtlControl raw /\ t = raw mod 256) \/ (~ is_ttl c /\ hop_limit cs t).
Proof.
  unfold hop_limit. setoid_rewrite last_of_snoc. split.
  - intros (raw & [[_ <-]|[Hc Hl]] & ->); eauto 6.
  - intros [(raw & -> & ->)|(Hc & raw & Hl & ->)]; eauto 6. exists raw. split; [|done]. by left.
Qed.

Lemma ingress_snoc cs c n :
  ingress (cs ++ [c]) n <->
  match c with
  | Ipv4PacketInfo _ raw => n = raw mod 2 ^ 32 /\ n <> 0
  | Ipv6PacketInfo _ raw => n = raw /\ 0 < raw < 2 ^ 32
  | _ => ingress cs n
  end.
Proof.
  split.
  - intros [dst raw [[_ <-]|[Hc Hl]]%last_of_snoc Hn|dst raw [[_ <-]|[Hc Hl]]%last_of_snoc Hn]; try done.
    + destruct c; try done; try (by eapply ingress_v4); by destruct Hc.
    + destruct c; try done; try (by eapply ingress_v6); by destruct Hc.
  - destruct c as [dst raw|dst raw| |].
    + intros [-> Hn]. eapply ingress_v4; [|done]. apply last_of_snoc. by left.
    + intros [-> Hn]. eapply ingress_v6; [|done]. apply last_of_snoc. by left.
    + intros [dst raw Hl Hn|dst raw Hl Hn]; [eapply ingress_v4|eapply ingress_v6]; try done;
        apply last_of_snoc; right; (split; [by intros []|done]).
    + intros [dst raw Hl Hn|dst raw Hl Hn]; [eapply ingress_v4|eapply ingress_v6]; try done;
        apply last_of_snoc; right; (split; [by intros []|done]).
Qed.

Lemma local_address_snoc self cs c a :
  local_address self (cs ++ [c]) a <->
  match c with
  | Ipv4PacketInfo dst _ => a = IpV4 dst
  | Ipv6PacketInfo _ _ => exists i, ds_interface_v6 self = Some i /\ a = IpV6 (i_address i)
  | _ => local_address self cs a
  end.
Proof.
  split.
  - intros [dst raw [[_ <-]|[Hc Hl]]%last_of_snoc|dst raw i [[_ <-]|[Hc Hl]]%last_of_snoc Hi]; try done.
    + destruct c; try done; try (by eapply local_v4); by destruct Hc.
    + by exists i.
    + destruct c; try done; try (by eapply local_v6); by destruct Hc.
  - destruct c as [dst raw|dst raw| |].
    + intros ->. eapply local_v4, last_of_snoc. by left.
    + intros (i & Hi & ->). eapply local_v6; [|done]. apply last_of_snoc. by left.
    + intros [dst raw Hl|dst raw i Hl Hi]; [eapply local_v4|eapply local_v6]; try done;
        apply last_of_snoc; right; (split; [by intros []|done]).
    + intros [dst raw Hl|dst raw i Hl Hi]; [eapply local_v4|eapply local_v6]; try done;
        apply last_of_snoc; right; (split; [by intros []|done]).
Qed.

Lemma read_controls_spec self from cs :
  reads self from cs (foldl (read_control self) (mkMetadata from None None None) cs).
Proof.
  induction cs as [|c cs [Ht Hn Hi Hl Hf]] using rev_ind.
  { split; cbn.
    - intros t. split; [done|]. by intros (raw & []%last_of_nil & _).
    - split; [intros _; apply Forall_nil_2|done].
    - intros n H0. split; [done|]. by intros [dst raw []%last_of_nil _|dst raw []%last_of_nil _].
    - intros a. split; [done|]. by intros [dst raw []%last_of_nil|dst raw i []%last_of_nil _].
    - destruct from as [|ip port flow scope]; [apply sender_v4|].
      destruct (is_unicast_link_local ip) eqn:El; [apply link_local_spec in El|].
      + apply sender_unscoped; [done|]. apply Forall_nil_2.
      + apply sender_global. rewrite <-link_local_spec. congruence. }
  rewrite foldl_app. cbn [foldl]. set (md := foldl _ _ cs) in *.
  destruct c as [dst raw|dst raw|raw|]; cbn [read_control].
  - split; cbn [md_ttl md_index md_local md_from].
    + intros t. rewrite Ht, hop_limit_snoc. naive_solver.
    + rewrite Hn, lacks_snoc. naive_solver.
    + intros n H0. rewrite ingress_snoc. unfold as_u32. naive_solver.
    + intros a. rewrite local_address_snoc. naive_solver.
    + by apply sender_stays; [|intros []].
  - split; cbn [md_ttl md_index md_local md_from].
    + intros t. rewrite Ht, hop_limit_snoc. naive_solver.
    + rewrite Hn, lacks_snoc. naive_solver.
    + intros n H0. rewrite ingress_snoc. unfold ifindex_from_pktinfo, u32_max.
      destruct (_ && _) eqn:E; [bprop; split; [intros [= ->]; lia|by intros [-> _]]|].
      apply andb_false_iff in E. split; [done|]. intros [-> ?]. destruct E; bprop; lia.
    + intros a. rewrite local_address_snoc. destruct (ds_interface_v6 self); naive_solver.
    + unfold ifindex_from_pktinfo, u32_max. destruct (_ && _) eqn:E.
      * bprop. apply sender_scopes; [done|lia].
      * assert (Hsc : ~ is_scope (Ipv6PacketInfo dst raw)).
        { cbn. apply andb_false_iff in E as [E|E]; bprop; lia. }
        pose proof (sender_stays _ _ _ _ Hf Hsc). by destruct (md_from md).
  - split; cbn [md_ttl md_index md_local md_from].
    + intros t. rewrite hop_limit_snoc. unfold as_u8. naive_solver.
    + rewrite lacks_snoc. naive_solver.
    + intros n H0. by rewrite ingress_snoc, Hi.
    + intros a. by rewrite local_address_snoc, Hl.
    + by apply sender_stays; [|intros []].
  - split.
    + intros t. rewrite Ht, hop_limit_snoc. naive_solver.
    + rewrite Hn, lacks_snoc. naive_solver.
    + intros n H0. by rewrite ingress_snoc, Hi.
    + intros a. by rewrite local_address_snoc, Hl.
    + by apply sender_stays; [|intros []].
Qed.

Lemma bound_to_spec self w : interface_index self = Some w <-> bound_to self w.
Proof.
  unfold interface_index, bound_to. destruct (ds_interface self) as [i|]; [naive_solver|].
  destruct (ds_interface_v6 self); cbn; naive_solver.
Qed.

Lemma cut_short_spec d : (PAYLOAD <? len (dg_body d)) || dg_controls_cut d = true <-> cut_short d.
Proof. by rewrite orb_true_iff, Z.ltb_lt. Qed.

Lemma ingress_nonzero cs n : ingress cs n -> n <> 0.
Proof. destruct 1; [done|lia]. Qed.

Lemma receive_one_fate self d : Signal_decode (dg_body d) <> Panic -> fate self d (receive_one self d).
Proof.
  intros Hd. unfold receive_one, read_metadata.
  destruct (_ || _) eqn:Ec; [by apply fate_truncated, cut_short_spec|].
  assert (Hw : ~ cut_short d) by (rewrite <-cut_short_spec; congruence).
  destruct (dg_from d) as [from|] eqn:Ef; cbn [ok_or mbind outcome_bind]; [|by apply fate_no_sender].
  destruct (dg_controls d) as [cs|] eqn:Ecs; cbn [ok_or mbind outcome_bind]; [|by eapply fate_no_controls].
  assert (Hr : readable d from cs) by done.
  destruct (read_controls_spec self from cs) as [Ht Hnt Hi Hl Hf]. set (md := foldl _ _ cs) in *. clearbody md.
  destruct (match md_index md with Some i => if i =? 0 then None else Some i | None => None end) as [n|] eqn:En; cbn.
  2: { eapply fate_no_index; [done|]. intros n Hn. pose proof (ingress_nonzero _ _ Hn) as H0.
       apply (Hi n H0) in Hn. rewrite Hn, (proj2 (Z.eqb_neq _ _) H0) in En. done. }
  assert (Hin : ingress cs n).
  { destruct (md_index md) as [i|]; [|done]. destruct (Z.eqb_spec i 0); [done|]. injection En as <-. by apply Hi. }
  destruct (match interface_index self with Some wanted => negb (wanted =? n) | None => false end) eqn:Ew.
  { destruct (interface_index self) as [w|] eqn:Es; [|done]. bprop.
    eapply fate_foreign; [done|done|by apply bound_to_spec|congruence]. }
  assert (Hon : on_interface self cs n).
  { split; [done|]. intros w Hw'%bound_to_spec. rewrite Hw' in Ew. by bprop. }
  destruct (md_ttl md) as [t|] eqn:Et; cbn [ok_or mbind outcome_bind]; [|by eapply fate_no_ttl; try apply Hnt].
  assert (Hh : hop_limit cs t) by by apply Ht.
  unfold is_gtsm_valid, REQUIRED_TTL. destruct (Z.eqb_spec t 255) as [->|Hne]; cbn [negb]; [|by eapply fate_off_link].
  unfold decode_datagram. destruct (Signal_decode (dg_body d)) as [sg|e|] eqn:Ed; cbn; [|by eapply fate_malformed|done].
  destruct (md_local md) as [a|] eqn:Ea; cbn; [by eapply fate_carried; try apply Hl|].
  eapply fate_no_local; [done..|]. intros a Ha%Hl. congruence.
Qed.

(** A datagram the socket passes over. *)
Definition passed_over (self : DiscoverySocket) (a : Arrival) : Prop :=
  match a with NotReady => True | ReceiveFails => False | Arrived d => fate self d (Ok None) end.

(** How a receive that ends with an arrival ends. *)
Inductive ends_with (self : DiscoverySocket) : Arrival -> outcome NetError ReceivedSignal -> Prop :=
  | ends_socket : ends_with self ReceiveFails (Err Os)
  | ends_error d e : fate self d (Err e) -> ends_with self (Arrived d) (Err e)
  | ends_signal d r : fate self d (Ok (Some r)) -> is_signal (r_signal r) -> ends_with self (Arrived d) (Ok r).

Lemma fate_typed self d r : is_bytes (dg_body d) -> fate self d (Ok (Some r)) -> is_signal (r_signal r).
Proof. intros Hb H. inversion H; subst. cbn. by destruct (Signal_decode_typed (dg_body d) signal Hb). Qed.

Lemma receive_spec self l :
  Forall (fun a => match a with Arrived d => is_bytes (dg_body d) | _ => True end) l ->
  match recv_with_metadata self l with
  | None => Forall (passed_over self) l
  | Some (res, rest) =>
      exists skipped a, l = skipped ++ a :: rest /\ Forall (passed_over self) skipped /\ ends_with self a res
  end.
Proof.
  induction 1 as [|a l Ha Hl IH]; [apply Forall_nil_2|]. cbn [recv_with_metadata].
  assert (Hskip : passed_over self a ->
    match recv_with_metadata self l with
    | None => Forall (passed_over self) (a :: l)
    | Some (res, rest) =>
        exists skipped b, a :: l = skipped ++ b :: rest /\ Forall (passed_over self) skipped /\ ends_with self b res
    end).
  { intros Hp. destruct (recv_with_metadata self l) as [[res rest]|]; [|by apply Forall_cons].
    destruct IH as (skipped & b & -> & Hs & Hr). exists (a :: skipped), b. split_and!; [done| |done].
    by apply Forall_cons. }
  destruct a as [| |d].
  - by apply Hskip.
  - exists [], ReceiveFails. split_and!; [done|done|constructor].
  - pose proof (receive_one_fate self d (Signal_decode_no_panic _ Ha)) as Hc.
    destruct (receive_one self d) as [[r|]|e|].
    + exists [], (Arrived d). split_and!; [done|done|]. constructor; [done|]. by eapply fate_typed.
    + by apply Hskip.
    + exists [], (Arrived d). split_and!; [done|done|by constructor].
    + inversion Hc.
Qed.

(** *** Fates exclude each other *)

Lemma hop_limit_unique cs t t' : hop_limit cs t -> hop_limit cs t' -> t = t'.
Proof. intros (r & H & ->) (r' & H' & ->). pose proof (last_of_unique _ _ _ _ H H'). congruence. Qed.
Lemma hop_limit_lacks cs t : lacks is_ttl cs -> ~ hop_limit cs t.
Proof. intros Hl (r & H & _). by eapply last_of_lacks. Qed.
Lemma ingress_unique cs n n' : ingress cs n -> ingress cs n' -> n = n'.
Proof. destruct 1 as [? ? H|? ? H], 1 as [? ? H'|? ? H']; pose proof (last_of_unique _ _ _ _ H H'); congruence. Qed.
Lemma local_address_unique self cs a a' : local_address self cs a -> local_address self cs a' -> a = a'.
Proof. destruct 1 as [? ? H|? ? ? H], 1 as [? ? H'|? ? ? H']; pose proof (last_of_unique _ _ _ _ H H'); congruence. Qed.
Lemma sender_unique cs from x x' : sender cs from x -> sender cs from x' -> x = x'.
Proof.
  destruct 1; inversion 1; subst; try done; try (by exfalso; eapply last_of_lacks).
  f_equal. match goal with H : last_of _ _ _, H' : last_of _ _ _ |- _ => pose proof (last_of_unique _ _ _ _ H H') end.
  congruence.
Qed.

Lemma fate_unique self d r r' : fate self d r -> fate self d r' -> r = r'.
Proof.
  destruct 1, 1; try done;
    repeat match goal with
    | H : readable _ _ _ |- _ => destruct H as (? & ? & ?)
    | H : on_interface _ _ _ |- _ => destruct H as [? ?]
    end; simplify_eq; try done;
    repeat match goal with
    | H : ingress ?cs ?n, H' : ingress ?cs ?m |- _ => rewrite (ingress_unique _ _ _ H' H) in *; clear H'
    | H : hop_limit ?cs ?n, H' : hop_limit ?cs ?m |- _ => pose proof (hop_limit_unique _ _ _ H H'); subst; clear H'
    | H : local_address ?s ?cs ?n, H' : local_address ?s ?cs ?m |- _ =>
        pose proof (local_address_unique _ _ _ _ H H'); subst; clear H'
    | H : sender ?cs ?n ?x, H' : sender ?cs ?n ?m |- _ => pose proof (sender_unique _ _ _ _ H H'); subst; clear H'
    | H : lacks is_ttl ?cs, H' : hop_limit ?cs _ |- _ => destruct (hop_limit_lacks _ _ H H')
    end; solve [done|congruence|naive_solver].
Qed.

(** C30: What discovery receives.  Whatever arrives at a discovery socket, receiving does not
    panic.  It ends with the first arrival it does not pass over, and passes over exactly
    the datagrams that came in over another interface than the socket's or with a hop
    limit other than 255.  A datagram that is cut short or has no sender, interface index
    or hop limit is an error, a missing hop limit never being taken for a valid one; a
    malformed one is an error only once it is known to be from the link.  A signal it
    returns was carried whole, in at most 1500 octets, with hop limit 255, over the
    socket's interface; its sender, if link-local, is scoped to that interface, and it is
    within its types.  No datagram has two fates. *)
Theorem receive_exact self l :
  Forall (fun a => match a with Arrived d => is_bytes (dg_body d) | _ => True end) l ->
  match recv_with_metadata self l with
  | None => Forall (passed_over self) l
  | Some (res, rest) =>
      exists skipped a, l = skipped ++ a :: rest /\ Forall (passed_over self) skipped /\ ends_with self a res
  end
  /\ forall d x y, fate self d x -> fate self d y -> x = y.
Proof. intros Hl. split; [by apply receive_spec|]. intros d x y. apply fate_unique. Qed.

(** ** Two sockets *)

(** A datagram as the kernel hands it to a socket of its family: sender, local address
    or destination, interface and TTL. *)
Definition kernel_datagram (v6 : bool) (body : bytes) (from : SocketAddr) (local index : Z) : Datagram :=
  mkDatagram body false (Some from)
    (Some [if v6 then Ipv6PacketInfo local index else Ipv4PacketInfo local index;
           TtlControl REQUIRED_TTL]).

(** The local address a socket reports. *)
Definition reported_local (self : DiscoverySocket) (local : Z) : IpAddr :=
  match ds_interface_v6 self with Some i => IpV6 (i_address i) | None => IpV4 local end.
Definition reported_sender (self : DiscoverySocket) (index : Z) (from : SocketAddr) : SocketAddr :=
  if is_some (ds_interface_v6 self) then scope_sender (Some index) from else from.

Lemma as_u32_id z : is_u32 z -> as_u32 z = z.
Proof. unfold is_u32, u32_max, as_u32. intros H. apply Z.mod_small. lia. Qed.

Lemma received_decoded self signal bs from local index rest :
  Signal_decode bs = Ok signal ->
  len bs <= PAYLOAD -> is_u32 index -> index <> 0 ->
  (forall i, interface_index self = Some i -> index = i) ->
  recv_with_metadata self
    (Arrived (kernel_datagram (is_some (ds_interface_v6 self)) bs from local index) :: rest)
  = Some (Ok (mkReceived signal (reported_sender self index from) REQUIRED_TTL
                (reported_local self local) index), rest).
Proof.
  intros Hd Hl Hu H0 Hi.
  assert (Hm : read_metadata self (kernel_datagram (is_some (ds_interface_v6 self)) bs from local index)
    = Ok (mkMetadata (reported_sender self index from) (Some REQUIRED_TTL)
            (Some (reported_local self local)) (Some index))).
  { unfold read_metadata, kernel_datagram, reported_local, reported_sender.
    cbn [dg_body dg_controls_cut dg_from dg_controls]. rewrite (proj2 (Z.ltb_ge _ _)) by done.
    cbn [orb ok_or mbind outcome_bind foldl]. change (as_u8 REQUIRED_TTL) with REQUIRED_TTL.
    destruct (ds_interface_v6 self) as [i|] eqn:Ei; cbn -[scope_sender as_u32 as_u8 ifindex_from_pktinfo].
    - rewrite Ei. unfold ifindex_from_pktinfo. unfold is_u32 in Hu.
      by rewrite (proj2 (Z.leb_le _ _)), (proj2 (Z.leb_le _ _)) by lia.
    - by rewrite as_u32_id. }
  cbn [recv_with_metadata]. unfold receive_one. rewrite Hm. cbn [mbind outcome_bind md_index].
  rewrite (proj2 (Z.eqb_neq _ _) H0). cbn [ok_or mbind outcome_bind].
  destruct (interface_index self) as [i|].
  - rewrite (Hi i eq_refl), Z.eqb_refl. cbn -[decode_datagram]. unfold decode_datagram. by rewrite Hd.
  - cbn -[decode_datagram]. unfold decode_datagram. by rewrite Hd.
Qed.

Lemma received_whole self signal bs from local index rest :
  is_signal signal -> Forall faithful_item (sig_items signal) -> Signal_encode signal = Ok bs ->
  len bs <= PAYLOAD -> is_u32 index -> index <> 0 ->
  (forall i, interface_index self = Some i -> index = i) ->
  recv_with_metadata self
    (Arrived (kernel_datagram (is_some (ds_interface_v6 self)) bs from local index) :: rest)
  = Some (Ok (mkReceived (canonical_signal signal) (reported_sender self index from) REQUIRED_TTL
                (reported_local self local) index), rest).
Proof. intros Hs Hf He. by apply received_decoded, (Signal_decode_encoded signal bs Hs Hf He). Qed.

(** Listening for a group: bound to its port and a member. *)
Definition socket_ip (a : SocketAddr) : Z := match a with SocketV4 ip _ | SocketV6 ip _ _ _ => ip end.
Definition listens (m : DiscoverySocket) (a : SocketAddr) : Prop :=
  BindPort (socket_port a) ∈ ds_calls m
  /\ exists x, JoinIndex (socket_ip a) x ∈ ds_calls m \/ JoinAddress (socket_ip a) x ∈ ds_calls m.
Definition sends_with_ttl (r : DiscoverySocket) : Prop :=
  if is_ipv6 (ds_group r) then SetMulticastHops REQUIRED_TTL ∈ ds_calls r /\ SetHops REQUIRED_TTL ∈ ds_calls r
  else SetMulticastTtl REQUIRED_TTL ∈ ds_calls r /\ SetTtl REQUIRED_TTL ∈ ds_calls r.

(** Configurations that name the same discovery group. *)
Definition same_discovery (a b : NetworkConfig) : Prop :=
  nc_discovery_v4_group a = nc_discovery_v4_group b /\ nc_discovery_v6_group a = nc_discovery_v6_group b
  /\ nc_discovery_port a = nc_discovery_port b
  /\ match nc_bind_addr a, nc_bind_addr b with
     | IpV4 _, IpV4 _ | IpV6 _, IpV6 _ => True
     | _, _ => False
     end.

Lemma bind_discovery_inv sys net cfg modem s :
  bind_discovery sys net cfg modem = Ok s ->
  let port := if modem then nc_discovery_port cfg else 0 in
  match nc_bind_addr cfg with
  | IpV4 local =>
      exists interface address, ds_interface s = interface /\ ds_interface_v6 s = None
        /\ ds_group s = SocketV4 (nc_discovery_v4_group cfg) (nc_discovery_port cfg)
        /\ ds_calls s = calls_v4 (mkParams (nc_discovery_v4_group cfg) local port
                                    (Some (nc_discovery_port cfg)) true modem) interface address
  | IpV6 local =>
      exists interface, ds_interface s = None /\ ds_interface_v6 s = Some interface
        /\ ds_group s = SocketV6 (nc_discovery_v6_group cfg) (nc_discovery_port cfg) 0 (i_index interface)
        /\ ds_calls s = calls_v6 (mkParams (nc_discovery_v6_group cfg) local port
                                    (Some (nc_discovery_port cfg)) true modem) interface
  end.
Proof.
  unfold bind_discovery. destruct (nc_bind_addr cfg) as [local|local].
  - unfold bind_on_interface. cbn [dp_local dp_port dp_group dp_group_port].
    destruct (resolve_v4 _ _ _) as [i|e|]; cbn [mbind outcome_bind]; [|done|done].
    unfold perform. destruct (forallb _ _); [|done]. cbn [mbind outcome_bind]. intros [= <-]. eauto 6.
  - unfold bind_v6. cbn [dp_local dp_port dp_group dp_group_port].
    destruct (resolve_v6 _ _ _) as [i|e|]; cbn [mbind outcome_bind]; [|done|done].
    unfold perform. destruct (forallb _ _); [|done]. cbn [mbind outcome_bind]. intros [= <-]. eauto 6.
Qed.

Lemma send_whole self signal bs dest :
  is_ipv6 dest = is_some (ds_interface_v6 self) -> Signal_encode signal = Ok bs ->
  send_unicast self signal dest [SentOctets (len bs)] = Some (Ok (bs, outgoing_controls self)).
Proof.
  intros Hf He. unfold send_unicast. rewrite Hf, eqb_reflx, He. cbn. by rewrite Z.eqb_refl.
Qed.

(** Probes cross the link.  A router and a modem that bound their discovery sockets for
    the same group: the router's signals to the group go out with TTL 255 to the address
    and port the modem's socket is bound to and a member of, and the modem receives the
    signal, its sender scoped to the interface, with the address to answer from. *)
Theorem probe_crosses sysR netR cfgR r sysM netM cfgM m signal bs from local index rest :
  bind_discovery sysR netR cfgR false = Ok r -> bind_discovery sysM netM cfgM true = Ok m ->
  same_discovery cfgR cfgM ->
  is_signal signal -> Forall faithful_item (sig_items signal) -> Signal_encode signal = Ok bs ->
  len bs <= PAYLOAD -> is_u32 index -> index <> 0 ->
  (forall i, interface_index m = Some i -> index = i) ->
  send_to_group r signal [SentOctets (len bs)] = Some (Ok (bs, outgoing_controls r))
  /\ sends_with_ttl r /\ listens m (ds_group r)
  /\ recv_with_metadata m
       (Arrived (kernel_datagram (is_some (ds_interface_v6 m)) bs from local index) :: rest)
     = Some (Ok (mkReceived (canonical_signal signal) (reported_sender m index from) REQUIRED_TTL
                   (reported_local m local) index), rest).
Proof.
  intros Hr%bind_discovery_inv Hm%bind_discovery_inv (Hg4 & Hg6 & Hport & Hfam) Hs Hf He Hl Hu H0 Hi.
  cbv zeta in Hr, Hm. unfold sends_with_ttl, send_to_group.
  destruct (nc_bind_addr cfgR) as [lr|lr], (nc_bind_addr cfgM) as [lm|lm]; try done.
  - destruct Hr as (ir & ar & _ & Hr6 & Hrg & Hrc), Hm as (im & am & _ & Hm6 & Hmg & Hmc).
    split_and!.
    + apply send_whole; [|done]. by rewrite Hrg, Hr6.
    + rewrite Hrg, Hrc. cbn. set_solver.
    + unfold listens. rewrite Hrg, Hmc, Hport, Hg4. cbn. split; [set_solver|].
      destruct im as [im|]; [exists (i_index im)|exists am]; set_solver.
    + by apply received_whole.
  - destruct Hr as (ir & _ & Hr6 & Hrg & Hrc), Hm as (im & _ & Hm6 & Hmg & Hmc).
    split_and!.
    + apply send_whole; [|done]. by rewrite Hrg, Hr6.
    + rewrite Hrg, Hrc. cbn. set_solver.
    + unfold listens. rewrite Hrg, Hmc, Hport, Hg6. cbn. split; [set_solver|]. exists (i_index im). set_solver.
    + by apply received_whole.
Qed.
End SendReceive.

(** ** Examples *)

#[local] Existing Instance reference_crates.

Definition sample_sockets : Sockets := mkSockets (fun _ => true) (fun p => if p =? 0 then 50000 else p).
Definition sample_network : NetworkConfig :=
  mkNetwork FormatEui48 (Some (str "eth0")) DISCOVERY_IPV4_GROUP DISCOVERY_IPV6_GROUP 854 854 (IpV6 0) true true.

Definition socket_of (o : outcome NetError DiscoverySocket) : DiscoverySocket :=
  match o with Ok s => s | _ => mkSocket (SocketV4 0 0) 0 None None [] end.
Definition router_socket : DiscoverySocket :=
  socket_of (bind_discovery sample_system sample_sockets sample_network false).
Definition modem_socket : DiscoverySocket :=
  socket_of (bind_discovery sample_system sample_sockets sample_network true).
Definition sample_probe : Signal := build_peer_discovery (str "router").
Definition octets_of (o : outcome CodecError bytes) : bytes := match o with Ok bs => bs | _ => [] end.
Definition probe_octets : bytes := octets_of (Signal_encode sample_probe).
Definition probe_arrival : Arrival :=
  Arrived (kernel_datagram true probe_octets (SocketV6 (fe80_1 + 2) 50000 0 0) DISCOVERY_IPV6_GROUP 2).
Definition stray_arrival : Arrival :=
  Arrived (mkDatagram [1; 2] false (Some (SocketV6 1 50000 0 0))
             (Some [Ipv6PacketInfo DISCOVERY_IPV6_GROUP 2; TtlControl 64])).

Lemma sample_probe_ok : is_signal sample_probe.
Proof. split; [by vm_compute|]. apply Forall_singleton. by split. Qed.

Lemma receive_exact_witness :
  exists r, recv_with_metadata modem_socket [NotReady; stray_arrival; probe_arrival] = Some (Ok r, [])
    /\ is_signal (r_signal r).
Proof.
  assert (Hb : Forall (fun a => match a with Arrived d => is_bytes (dg_body d) | _ => True end)
    [NotReady; stray_arrival; probe_arrival]).
  { repeat apply Forall_cons_2; [exact I|..|apply Forall_nil_2];
      apply (bool_decide_unpack _); vm_compute; exact I. }
  destruct (receive_exact modem_socket [NotReady; stray_arrival; probe_arrival] Hb) as [H _].
  destruct (recv_with_metadata modem_socket [NotReady; stray_arrival; probe_arrival])
    as [[[r| |] rest]|] eqn:E.
  - exists r. assert (Er : rest = []).
    { assert (E' := f_equal (fun o => from_option snd [] o) E). vm_compute in E'. symmetry. exact E'. }
    subst rest. split; [reflexivity|]. destruct H as (sk & a & _ & _ & H). inversion H; subst. assumption.
  - exfalso. assert (E' := f_equal (fun o => from_option (fun x => is_ok x.1) false o) E).
    vm_compute in E'. discriminate E'.
  - exfalso. destruct H as (sk & a & _ & _ & H). inversion H.
  - exfalso. assert (E' := f_equal (fun o => is_some o) E). vm_compute in E'. discriminate E'.
Defined.

Lemma probe_crosses_witness :
  listens modem_socket (ds_group router_socket)
  /\ recv_with_metadata modem_socket [probe_arrival]
     = Some (Ok (mkReceived (canonical_signal sample_probe) (SocketV6 (fe80_1 + 2) 50000 0 2) 255
                   (IpV6 fe80_1) 2), []).
Proof.
  destruct (probe_crosses sample_system sample_sockets sample_network router_socket
    sample_system sample_sockets sample_network modem_socket sample_probe probe_octets
    (SocketV6 (fe80_1 + 2) 50000 0 0) DISCOVERY_IPV6_GROUP 2 []) as (_ & _ & Hl & Hr).
  - vm_compute. reflexivity.
  - vm_compute. reflexivity.
  - by split_and!.
  - exact sample_probe_ok.
  - apply Forall_singleton. exact I.
  - vm_compute. reflexivity.
  - vm_compute. discriminate.
  - unfold is_u32, u32_max. lia.
  - lia.
  - vm_compute. intros i [= <-]. reflexivity.
  - split; [exact Hl|].
    assert (Ev : is_some (ds_interface_v6 modem_socket) = true) by (vm_compute; reflexivity).
    rewrite Ev in Hr. unfold probe_arrival. rewrite Hr. vm_compute. reflexivity.
Defined.
