(* ===== verification/DiscoveryLoop.v ===== *)
(** * The discovery task over its socket

    The loop of [run_discovery_io] ([dlep-daemon/src/discovery.rs]) with what
    [DiscoveryTask] leaves to a step relation: the socket of [DiscoverySockets], the clock
    and the delay after a socket failure.  What has arrived and was not returned is a list;
    a datagram that is passed over stays in it until one behind it is returned. *)

From S2P Require Import Prelude Externs CoreTypes Codec CodecItem CodecMessage Addresses Events SessionCommon.
From S2P Require Import Discovery Connections DiscoveryTask Interfaces DiscoverySockets.

(** [ErrorKind::InvalidData]: what a peer's datagram can cause. *)
Definition is_invalid_data (e : NetError) : bool :=
  match e with Truncated | Malformed _ => true | _ => false end.

(** 100 milliseconds. *)
Definition RECEIVE_RETRY : Duration := 100 * 10 ^ 6.

Record LoopState (F : Type) : Type := mkLoopState {
  lo_task : DiscoveryState F;
  lo_now : Instant;
  lo_receive_after : Instant;
  lo_arrivals : list Arrival;
}.
Arguments mkLoopState {F}.
Arguments lo_task {F}.
Arguments lo_now {F}.
Arguments lo_receive_after {F}.
Arguments lo_arrivals {F}.

Section Loop.
Context {crates : Crates} {F : Type} `{fsm : DiscoveryFsm F}.
Variable sock : DiscoverySocket.

Definition loop_started (f : F) (initial : option FsmEvent) (now : Instant) : LoopState F :=
  mkLoopState (start_discovery f initial) now now [].

Definition set_task (t : DiscoveryState F) (l : LoopState F) : LoopState F :=
  mkLoopState t (lo_now l) (lo_receive_after l) (lo_arrivals l).

(** The first branch of [select!]: it sleeps until [receive_after], then receives. *)
Definition receive_branch (connected : option RouterCounts) (l : LoopState F) : option (panics (LoopState F)) :=
  if lo_receive_after l <=? lo_now l then
    match recv_with_metadata sock (lo_arrivals l) with
    | Some (Ok got, rest) =>
        Some (Ok (mkLoopState
          (on_datagram connected (r_signal got) (r_from got) (r_local_addr got) (r_interface_index got) (lo_task l))
          (lo_now l) (lo_receive_after l) rest))
    | Some (Err e, rest) =>
        Some (Ok (mkLoopState (lo_task l) (lo_now l)
          (if is_invalid_data e then lo_receive_after l else lo_now l + RECEIVE_RETRY) rest))
    | Some (Panic, _) => Some Panic
    | None => None
    end
  else None.

(** Arrivals, the clock, the sleepers and the branches; [true] when the task has ended. *)
Inductive loop_step : bool * LoopState F -> bool * LoopState F -> Prop :=
  | lo_receive l connected l' :
      receive_branch connected l = Some (Ok l') -> loop_step (false, l) (false, l')
  | lo_arrive l a :
      match a with Arrived d => is_bytes (dg_body d) | _ => True end ->
      loop_step (false, l) (false, mkLoopState (lo_task l) (lo_now l) (lo_receive_after l) (lo_arrivals l ++ [a]))
  | lo_clock l n :
      loop_step (false, l) (false, mkLoopState (lo_task l) (lo_now l + Z.of_nat n) (lo_receive_after l) (lo_arrivals l))
  | lo_fire l h s :
      d_running (lo_task l) !! h = Some s -> (length (d_queue (lo_task l)) < 8)%nat ->
      loop_step (false, l) (false, set_task (fire h s (lo_task l)) l)
  | lo_expiry l x q :
      d_queue (lo_task l) = x :: q ->
      loop_step (false, l) (false, set_task (on_discovery_expiry x (set_dqueue q (lo_task l))) l)
  | lo_shutdown l : loop_step (false, l) (true, set_task (on_discovery_shutdown (lo_task l)) l).

(** *** Runs *)

Definition bytes_arrive (l : list Arrival) : Prop :=
  Forall (fun a => match a with Arrived d => is_bytes (dg_body d) | _ => True end) l.

Record loop_inv (l : LoopState F) : Prop := {
  li_bytes : bytes_arrive (lo_arrivals l);
  li_retry : lo_receive_after l <= lo_now l + RECEIVE_RETRY;
}.

Lemma received_rest l res rest : recv_with_metadata sock l = Some (res, rest) -> bytes_arrive l -> bytes_arrive rest.
Proof.
  induction l as [|a l IH]; cbn; [done|]. intros E [_ Hl]%Forall_cons. destruct a as [| |d]; [by apply IH|by injection E as _ <-|].
  destruct (receive_one sock d) as [[r|]|e|]; [by injection E as _ <-|by apply IH|by injection E as _ <-..].
Qed.

Lemma loop_step_inv b l b' l' : loop_step (b, l) (b', l') -> loop_inv l -> loop_inv l'.
Proof.
  intros Hs. inversion Hs; subst; intros [Hb Hr]; try by split.
  - match goal with H : receive_branch _ _ = _ |- _ => rename H into E end. unfold receive_branch in E.
    destruct (Z.leb_spec (lo_receive_after l) (lo_now l)); [|done].
    destruct (recv_with_metadata sock (lo_arrivals l)) as [[[got|e|] rest]|] eqn:Er; try done; injection E as <-;
      pose proof (received_rest _ _ _ Er Hb); split; cbn; try done. destruct (is_invalid_data e); [done|lia].
  - split; cbn; [|done]. apply Forall_app. split; [done|]. by apply Forall_singleton.
  - split; cbn; [done|lia].
Qed.

Lemma loop_run_inv f initial now b l :
  rtc loop_step (false, loop_started f initial now) (b, l) -> loop_inv l.
Proof.
  assert (H : forall x y, rtc loop_step x y -> loop_inv x.2 -> loop_inv y.2).
  { induction 1 as [|[b1 x] [b2 y] z Hs _ IH]; [done|]. intros Hx. apply IH. by eapply loop_step_inv. }
  intros Hr. apply (H _ _ Hr). split; cbn; [apply Forall_nil_2|]. unfold RECEIVE_RETRY. lia.
Qed.

(** The loop makes the steps of [DiscoveryTask]. *)
Lemma loop_refines f initial now b l :
  rtc loop_step (false, loop_started f initial now) (b, l) ->
  exists n, rtc discovery_step (false, 0%nat, start_discovery f initial) (b, n, lo_task l).
Proof.
  intros Hr. assert (H : forall x y, rtc loop_step x y -> loop_inv x.2 -> forall n, exists m,
    rtc discovery_step (x.1, n, lo_task x.2) (y.1, m, lo_task y.2)).
  { clear Hr. induction 1 as [x|[b1 x] [b2 y] z Hs _ IH]; intros Hx n; [by exists n; apply rtc_refl|].
    pose proof (loop_step_inv _ _ _ _ Hs Hx) as Hy. cbn [fst snd] in *.
    assert (Hone : exists n', rtc discovery_step (b1, n, lo_task x) (b2, n', lo_task y)).
    { inversion Hs; subst; try (exists n; apply rtc_refl).
      - match goal with H : receive_branch _ _ = _ |- _ => rename H into E end. unfold receive_branch in E.
        destruct (_ <=? _); [|done]. pose proof (receive_spec sock (lo_arrivals x) (li_bytes _ Hx)) as Hrs.
        destruct (recv_with_metadata sock (lo_arrivals x)) as [[[got|e|] rest]|]; try done; injection E as <-;
          exists n; cbn; [|apply rtc_refl].
        destruct Hrs as (skipped & a & _ & _ & He). inversion He; subst. apply rtc_once. by constructor.
      - exists n. apply rtc_once. by constructor.
      - exists (S n). apply rtc_once. by constructor.
      - exists n. apply rtc_once. by constructor. }
    destruct Hone as [n' H1]. destruct (IH Hy n') as [m H2]. exists m. by etrans. }
  apply (H _ _ Hr); [|exact 0%nat..]. split; cbn; [apply Forall_nil_2|]. unfold RECEIVE_RETRY. lia.
Qed.
End Loop.

(** ** The modem *)

Section Modem.
Context {crates : Crates}.
Variable sock : DiscoverySocket.
Abbreviation loop := (LoopState ModemDiscovery.ModemDiscoveryFsm).

(** *** What a modem makes of an arrival, specified *)

(** A well-formed Peer Discovery: nothing, or one Peer Type. *)
Definition probe (s : Signal) : Prop :=
  signal_type s = 1 /\ (sig_items s = [] \/ exists flags description, sig_items s = [DataItem.PeerType flags description]).

(** The router an address stands for: IPv4 behind mapped addresses, the scope of
    link-local ones, no port. *)
Inductive names_router : SocketAddr -> RouterAddress -> Prop :=
  | names_v4 ip port : names_router (SocketV4 ip port) (IpV4 ip, 0)
  | names_mapped v4 port flow scope : 0 <= v4 < 2 ^ 32 ->
      names_router (SocketV6 (65535 * 2 ^ 32 + v4) port flow scope) (IpV4 v4, 0)
  | names_link_local ip port flow scope : v6_link_local_block ip ->
      names_router (SocketV6 ip port flow scope) (IpV6 ip, scope)
  | names_v6 ip port flow scope : ~ v6_mapped_block ip -> ~ v6_link_local_block ip ->
      names_router (SocketV6 ip port flow scope) (IpV6 ip, 0).
Definition connected_router (peers : RouterCounts) (from : SocketAddr) : Prop :=
  exists router, names_router from router /\ is_Some (peers !! router).

(** The offer of a modem: its description and its listener, at the address the request
    came in on when it listens on all. *)
Definition offer (description : rstring) (listener : SocketAddr) (tls : bool) (local : IpAddr) : Signal :=
  let at_ip ip l := if decide (ip = 0) then l else ip in
  mkSignal 2
    [DataItem.PeerType (mkPeerFlags false) description;
     match listener, local with
     | SocketV4 ip port, IpV4 l => DataItem.Ipv4ConnectionPoint (mkConnectionPointFlags tls) (at_ip ip l) (Some port)
     | SocketV4 ip port, IpV6 _ => DataItem.Ipv4ConnectionPoint (mkConnectionPointFlags tls) ip (Some port)
     | SocketV6 ip port _ _, IpV6 l => DataItem.Ipv6ConnectionPoint (mkConnectionPointFlags tls) (at_ip ip l) (Some port)
     | SocketV6 ip port _ _, IpV4 _ => DataItem.Ipv6ConnectionPoint (mkConnectionPointFlags tls) ip (Some port)
     end].

(** One offer to the sender of a probe that came over the link from a router that is not
    connected, and nothing else. *)
Inductive answers (f : ModemDiscovery.ModemDiscoveryFsm) (peers : RouterCounts)
    : Arrival -> list DiscoveryOutput -> Prop :=
  | ans_probe d got : fate sock d (Ok (Some got)) -> probe (r_signal got) ->
      ~ connected_router peers (r_from got) ->
      answers f peers (Arrived d)
        [SentUnicast (offer (ModemDiscovery.peer_description f) (ModemDiscovery.tcp_endpoint f)
                        (ModemDiscovery.use_tls f) (r_local_addr got)) (r_from got)]
  | ans_connected d got : fate sock d (Ok (Some got)) -> connected_router peers (r_from got) ->
      answers f peers (Arrived d) []
  | ans_other d got : fate sock d (Ok (Some got)) -> ~ probe (r_signal got) -> answers f peers (Arrived d) []
  | ans_passed d : fate sock d (Ok None) -> answers f peers (Arrived d) []
  | ans_error d e : fate sock d (Err e) -> answers f peers (Arrived d) []
  | ans_not_ready : answers f peers NotReady []
  | ans_failure : answers f peers ReceiveFails [].

(** Anything but a failure of the socket: a datagram with any octets, however many, to
    which the kernel gave its metadata, or that does not fit the buffers. *)
Definition benign (a : Arrival) : Prop :=
  match a with
  | NotReady => True
  | ReceiveFails => False
  | Arrived d =>
      is_bytes (dg_body d)
      /\ (cut_short d
          \/ exists from cs index ttl local, readable d from cs /\ ingress cs index /\ hop_limit cs ttl
               /\ local_address sock cs local)
  end.

(** *** The answers of the code *)

Definition answer (f : ModemDiscovery.ModemDiscoveryFsm) (peers : RouterCounts) (a : Arrival) : list DiscoveryOutput :=
  match a with
  | Arrived d =>
      match receive_one sock d with
      | Ok (Some got) =>
          if (signal_type (r_signal got) =? SignalType.PEER_DISCOVERY) && valid_signal (r_signal got)
             && negb (router_contains peers (r_from got))
          then [SentUnicast
                  (fill_signal (Some (r_local_addr got))
                     (build_peer_offer (ModemDiscovery.peer_description f) (ModemDiscovery.tcp_endpoint f)
                        (ModemDiscovery.use_tls f)))
                  (r_from got)]
          else []
      | _ => []
      end
  | _ => []
  end.

Lemma names_router_spec from router : names_router from router <-> router_address from = router.
Proof.
  assert (Hm : forall ip, to_ipv4_mapped ip = if decide (v6_mapped_block ip) then Some (ip - 65535 * 2 ^ 32) else None).
  { intros ip. unfold to_ipv4_mapped, v6_mapped_block. destruct (Z.eqb (Z.shiftr ip 32) 65535) eqn:E.
    - apply shiftr_block in E; [|lia]. rewrite decide_True by lia. f_equal. rewrite Z.land_ones by lia.
      symmetry. apply (Z.mod_unique_pos _ _ 65535); lia.
    - rewrite decide_False; [done|]. intros H. assert (Z.shiftr ip 32 =? 65535 = true); [|congruence].
      apply shiftr_block; lia. }
  split.
  - destruct 1 as [|v4 port flow scope Hv|ip port flow scope Hl|ip port flow scope Hn Hl]; cbn; [done|..]; rewrite Hm.
    + rewrite decide_True by (unfold v6_mapped_block; lia). by replace (_ - _) with v4 by lia.
    + rewrite decide_False; [|unfold v6_mapped_block, v6_link_local_block in *; lia].
      by rewrite (proj2 (link_local_spec ip) Hl).
    + rewrite decide_False by done. destruct (is_unicast_link_local ip) eqn:E; [by apply link_local_spec in E|done].
  - intros <-. destruct from as [ip port|ip port flow scope]; cbn; [constructor|]. rewrite Hm. case_decide as Hd.
    + replace ip with (65535 * 2 ^ 32 + (ip - 65535 * 2 ^ 32)) at 1 by lia. constructor.
      unfold v6_mapped_block in Hd. lia.
    + destruct (is_unicast_link_local ip) eqn:E; [apply link_local_spec in E; by constructor|].
      apply names_v6; [done|]. rewrite <-link_local_spec. congruence.
Qed.

Lemma connected_router_spec peers from : router_contains peers from = true <-> connected_router peers from.
Proof.
  unfold router_contains, connected_router. setoid_rewrite names_router_spec.
  destruct (peers !! router_address from) eqn:E; cbn; split; try done.
  - intros _. eexists. split; [done|]. by rewrite E.
  - intros (? & <- & [? ?]). congruence.
Qed.

Lemma probe_spec s :
  is_signal s -> all encodable (sig_items s) = true ->
  (signal_type s =? SignalType.PEER_DISCOVERY) && valid_signal s = true <-> probe s.
Proof.
  intros [_ Hs] He. unfold probe. rewrite andb_true_iff, Z.eqb_eq. change SignalType.PEER_DISCOVERY with 1.
  split; intros [Ht Hv]; (split; [done|]).
  - unfold valid_signal in Hv. rewrite Ht in Hv. destruct (sig_items s) as [|i items]; [by left|right].
    apply valid_items_spec in Hv as (Hf & Hn & _); [|done].
    apply Forall_cons in Hf as [[Hi _] Hf]. destruct i; try done. do 2 eexists. f_equal.
    destruct items as [|j items]; [done|]. apply Forall_cons in Hf as [[Hj _] _]. destruct j; try done. cbn in Hn. lia.
  - unfold valid_signal. rewrite Ht. apply valid_items_spec; [done|].
    destruct Hv as [->|(fl & dd & E)]; [split_and!; [constructor|cbn; lia|constructor|set_solver]|].
    rewrite E in *. rewrite forallb_elem in He.
    split_and!; [|cbn; lia|apply NoDup_singleton|set_solver].
    apply Forall_singleton. split; [done|]. apply He. by left.
Qed.

Lemma offer_spec description listener tls local :
  fill_signal (Some local) (build_peer_offer description listener tls) = offer description listener tls local.
Proof.
  unfold offer. destruct listener as [ip port|ip port flow scope], local as [l|l]; cbn; try done;
    (destruct (Z.eqb_spec ip 0); [rewrite decide_True by done|rewrite decide_False by done]); done.
Qed.

Lemma answer_spec f peers a : match a with Arrived d => is_bytes (dg_body d) | _ => True end -> answers f peers a (answer f peers a).
Proof.
  destruct a as [| |d]; [constructor|constructor|]. intros Hb. unfold answer.
  pose proof (receive_one_fate sock d (Signal_decode_no_panic _ Hb)) as Hf.
  destruct (receive_one sock d) as [[got|]|e|]; [|by constructor|by eapply ans_error|inversion Hf].
  assert (Hd : is_signal (r_signal got) /\ all encodable (sig_items (r_signal got)) = true).
  { inversion Hf; subst. cbn. match goal with H : Signal_decode _ = _ |- _ => by destruct (Signal_decode_typed _ _ Hb H) as (? & ? & _) end. }
  pose proof (probe_spec (r_signal got) (proj1 Hd) (proj2 Hd)) as Hp.
  pose proof (connected_router_spec peers (r_from got)) as Hc.
  destruct (_ && valid_signal _) eqn:E; cbn [andb].
  - destruct (router_contains peers (r_from got)); cbn [negb].
    + eapply ans_connected; [done|by apply Hc].
    + rewrite offer_spec. apply ans_probe; [done|by apply Hp|]. by intros ?%Hc.
  - eapply ans_other; [done|]. by intros ?%Hp.
Qed.

(** Only what a peer can cause is an error on a benign arrival. *)
Lemma benign_errors d e : benign (Arrived d) -> receive_one sock d = Err e -> is_invalid_data e = true.
Proof.
  intros [Hb Hm] E. pose proof (receive_one_fate sock d (Signal_decode_no_panic _ Hb)) as Hf. rewrite E in Hf.
  assert (Hr : forall from cs, readable d from cs -> exists index ttl local,
    ingress cs index /\ hop_limit cs ttl /\ local_address sock cs local).
  { intros from cs (Hw & Hfrom & Hcs). destruct Hm as [|(from' & cs' & i & t & l & (_ & _ & Hcs') & ?)]; [done|].
    assert (cs' = cs) as -> by congruence. by exists i, t, l. }
  assert (Hreads : ~ cut_short d -> is_Some (dg_from d) /\ is_Some (dg_controls d)).
  { intros Hw. destruct Hm as [|(from' & cs' & i & t & l & (_ & -> & ->) & _)]; [done|]. split; by eexists. }
  inversion Hf; subst; try done; exfalso;
    try match goal with H : readable _ _ _ |- _ => destruct (Hr _ _ H) as (i & t & l & Hi & Ht & Hl) end.
  - destruct Hreads as [[? ?] _]; [done|congruence].
  - destruct Hreads as [_ [? ?]]; [done|congruence].
  - naive_solver.
  - by eapply hop_limit_lacks.
  - naive_solver.
Qed.

Definition same_modem (f f' : ModemDiscovery.ModemDiscoveryFsm) : Prop :=
  ModemDiscovery.peer_description f' = ModemDiscovery.peer_description f
  /\ ModemDiscovery.tcp_endpoint f' = ModemDiscovery.tcp_endpoint f
  /\ ModemDiscovery.use_tls f' = ModemDiscovery.use_tls f.

Lemma answer_same f f' peers a : same_modem f f' -> answer f' peers a = answer f peers a.
Proof. intros (E1 & E2 & E3). unfold answer. by rewrite E1, E2, E3. Qed.

Lemma answers_concat f f' peers arrivals :
  same_modem f f' -> arrivals ≫= answer f' peers = concat (answer f peers <$> arrivals).
Proof.
  intros Hs. induction arrivals as [|a arrivals IH]; [done|].
  rewrite bind_cons, IH, fmap_cons. cbn [concat]. by rewrite (answer_same f).
Qed.

Lemma datagram_answered d got peers (t : DiscoveryState ModemDiscovery.ModemDiscoveryFsm) :
  receive_one sock d = Ok (Some got) ->
  let t' := on_datagram (Some peers) (r_signal got) (r_from got) (r_local_addr got) (r_interface_index got) t in
  d_out t' = d_out t ++ answer (d_fsm t) peers (Arrived d) /\ same_modem (d_fsm t) (d_fsm t').
Proof.
  intros E. cbv zeta. unfold answer, on_datagram. rewrite E.
  destruct (signal_type (r_signal got) =? SignalType.PEER_DISCOVERY) eqn:Et; cbn [andb].
  - destruct (router_contains peers (r_from got)); cbn [negb]; [rewrite andb_false_r, app_nil_r; by split|].
    unfold feed_discovery. cbn. unfold ModemDiscovery.step. rewrite Et.
    destruct (valid_signal (r_signal got)); cbn; [by split|rewrite app_nil_r; by split].
  - unfold feed_discovery. cbn. unfold ModemDiscovery.step. rewrite Et. cbn. rewrite app_nil_r. by split.
Qed.

(** The receive branch, again and again. *)
Definition receives (peers : RouterCounts) (l l' : loop) : Prop := receive_branch sock (Some peers) l = Some (Ok l').

Lemma received_drained peers (l : loop) :
  Forall benign (lo_arrivals l) -> lo_receive_after l <= lo_now l ->
  exists l', rtc (receives peers) l l' /\ recv_with_metadata sock (lo_arrivals l') = None
    /\ lo_now l' = lo_now l /\ lo_receive_after l' = lo_receive_after l
    /\ d_out (lo_task l') = d_out (lo_task l) ++ (lo_arrivals l ≫= answer (d_fsm (lo_task l)) peers).
Proof.
  destruct l as [t now after arrivals]. cbn. intros Hb Ha. revert t. induction Hb as [|a arrivals Hba Hb IH]; intros t.
  { exists (mkLoopState t now after []). split_and!; [apply rtc_refl|done|done|done|cbn; by rewrite app_nil_r]. }
  assert (Hskip : recv_with_metadata sock (a :: arrivals) = recv_with_metadata sock arrivals ->
    answer (d_fsm t) peers a = [] -> exists l', rtc (receives peers) (mkLoopState t now after (a :: arrivals)) l'
      /\ recv_with_metadata sock (lo_arrivals l') = None /\ lo_now l' = now /\ lo_receive_after l' = after
      /\ d_out (lo_task l') = d_out t ++ ((a :: arrivals) ≫= answer (d_fsm t) peers)).
  { intros Er En. rewrite bind_cons, En. cbn [app]. destruct (IH t) as (l' & Hr & Hn & ? & ? & Ho).
    apply rtc_inv in Hr as [<-|(l1 & H1 & Hr)].
    - exists (mkLoopState t now after (a :: arrivals)). split_and!; [apply rtc_refl| |done|done|done]. cbn in *. by rewrite Er.
    - exists l'. split_and!; [|done..]. eapply rtc_l; [|exact Hr]. unfold receives, receive_branch in *. cbn in *. by rewrite Er. }
  assert (Hgo : forall t1, receive_branch sock (Some peers) (mkLoopState t now after (a :: arrivals))
      = Some (Ok (mkLoopState t1 now after arrivals)) ->
    d_out t1 = d_out t ++ answer (d_fsm t) peers a -> same_modem (d_fsm t) (d_fsm t1) ->
    exists l', rtc (receives peers) (mkLoopState t now after (a :: arrivals)) l'
      /\ recv_with_metadata sock (lo_arrivals l') = None /\ lo_now l' = now /\ lo_receive_after l' = after
      /\ d_out (lo_task l') = d_out t ++ ((a :: arrivals) ≫= answer (d_fsm t) peers)).
  { intros t1 Hs Ho Hsame. destruct (IH t1) as (l' & Hr & Hn & ? & ? & Ho'). exists l'.
    split_and!; [by eapply rtc_l; [exact Hs|]|done|done|done|]. rewrite Ho', Ho, bind_cons, app_assoc. f_equal.
    apply list_bind_ext; [|done]. intros b. by apply answer_same. }
  destruct a as [| |d]; [by apply Hskip|done|]. pose proof (benign_errors d) as Herr. pose proof (proj1 Hba) as Hbytes. unfold receive_branch in Hgo. cbn in Hgo, Hskip |- *.
  rewrite (proj2 (Z.leb_le _ _) Ha) in Hgo.
  pose proof (datagram_answered d) as Hans. unfold answer in Hgo, Hskip.
  destruct (receive_one sock d) as [[got|]|e|] eqn:E.
  - destruct (Hans got peers t eq_refl) as [H1 H2]. unfold answer in H1. rewrite E in H1. by eapply Hgo.
  - by apply Hskip.
  - eapply (Hgo t); [by rewrite (Herr e Hba eq_refl)|by rewrite app_nil_r|done].
  - pose proof (receive_one_fate sock d (Signal_decode_no_panic _ Hbytes)) as Hc. rewrite E in Hc. inversion Hc.
Qed.

(** The description and the listener of a modem do not change. *)
Lemma feed_same local index event (t : DiscoveryState ModemDiscovery.ModemDiscoveryFsm) :
  same_modem (d_fsm t) (d_fsm (feed_discovery local index event t)).
Proof.
  assert (Ha : forall actions (u : DiscoveryState ModemDiscovery.ModemDiscoveryFsm),
    d_fsm (discovery_actions local index actions u) = d_fsm u).
  { induction actions as [|a actions IH]; intros u; [done|]. cbn. unfold discovery_actions in IH. rewrite IH.
    destruct a as [|sig []| | | | |[]]; done. }
  unfold feed_discovery. cbn. destruct (ModemDiscovery.step event (d_fsm t)) as [f' actions] eqn:E. rewrite Ha. cbn.
  unfold ModemDiscovery.step in E. destruct event; try by injection E as <- _.
  destruct (_ =? _); [|by injection E as <- _]. by destruct (negb _); injection E as <- _.
Qed.

Lemma loop_run_same f initial now b l :
  rtc (loop_step sock) (false, loop_started f initial now) (b, l) -> same_modem f (d_fsm (lo_task l)).
Proof.
  assert (Htrans : forall f g h, same_modem f g -> same_modem g h -> same_modem f h)
    by (unfold same_modem; intuition congruence).
  assert (H : forall x y, rtc (loop_step sock) x y -> same_modem f (d_fsm (lo_task x.2)) -> same_modem f (d_fsm (lo_task y.2))).
  { induction 1 as [|x y z Hs _ IH]; [done|]. intros Hx. apply IH. eapply Htrans; [exact Hx|].
    destruct Hs as [l0 c l' E| | |l0 h sl|l0 x q|]; cbn [snd lo_task set_task]; try done; try apply feed_same.
    unfold receive_branch in E. destruct (_ <=? _); [|done].
    destruct (recv_with_metadata sock (lo_arrivals l0)) as [[[got|e|] rest]|]; try done; injection E as <-; [|done].
    cbn. unfold on_datagram. destruct (_ && _); [done|apply feed_same]. }
  intros Hr. apply (H _ _ Hr). cbn. unfold start_discovery. destruct initial; [apply (feed_same None None)|done].
Qed.

(** C26: Discovery is not disturbed.  At every point of every run of a modem's discovery task
    the next receive is at most 100 milliseconds away.  From then on, if the socket does
    not fail, all that has arrived is received at once, without the clock: each
    well-formed probe from a router on the link that is not connected is answered, in
    order, by one offer to its sender that names the modem's listener, at the address
    the probe came in on where it listens on all; and malformed, truncated or foreign
    datagrams, before, between or after them, however many, cost no delay and bring
    about nothing. *)
Theorem discovery_undisturbed f now0 (l : loop) peers now :
  rtc (loop_step sock) (false, loop_started f None now0) (false, l) -> Forall benign (lo_arrivals l) ->
  lo_receive_after l <= lo_now l + 100 * 10 ^ 6
  /\ (lo_now l <= now -> lo_receive_after l <= now ->
      exists l' outs, rtc (receives peers) (mkLoopState (lo_task l) now (lo_receive_after l) (lo_arrivals l)) l'
        /\ recv_with_metadata sock (lo_arrivals l') = None
        /\ lo_now l' = now /\ lo_receive_after l' = lo_receive_after l
        /\ Forall2 (answers f peers) (lo_arrivals l) outs
        /\ d_out (lo_task l') = d_out (lo_task l) ++ concat outs).
Proof.
  intros Hrun Hb. pose proof (loop_run_inv _ _ _ _ _ _ Hrun) as Hi. pose proof (loop_run_same _ _ _ _ _ Hrun) as Hsame.
  split; [apply Hi|]. intros _ Ha.
  destruct (received_drained peers (mkLoopState (lo_task l) now (lo_receive_after l) (lo_arrivals l)) Hb Ha)
    as (l' & Hr & Hn & Hnow & Haft & Ho).
  exists l', (answer f peers <$> lo_arrivals l). split_and!; try done.
  - apply Forall2_fmap_r, Forall_Forall2_diag. eapply Forall_impl; [exact (li_bytes _ Hi)|]. intros a. apply answer_spec.
  - rewrite Ho. cbn. by rewrite (answers_concat f).
Qed.
End Modem.

(** ** An example *)

#[local] Existing Instance reference_crates.

Definition sample_modem : ModemDiscovery.ModemDiscoveryFsm := ModemDiscovery.new (SocketV6 0 854 0 0) (str "modem") true.
(** Octets that are no signal, with the metadata of the link. *)
Definition garbage_arrival : Arrival :=
  Arrived (kernel_datagram true [1; 2; 3] (SocketV6 (fe80_1 + 3) 50000 0 0) DISCOVERY_IPV6_GROUP 2).
Definition noisy : list Arrival := [garbage_arrival; stray_arrival; probe_arrival; garbage_arrival].
Definition noisy_loop : LoopState ModemDiscovery.ModemDiscoveryFsm :=
  mkLoopState (start_discovery sample_modem None) 5 (5 + RECEIVE_RETRY) noisy.

(** The socket has failed, then four datagrams arrive. *)
Lemma noisy_reached :
  rtc (loop_step modem_socket) (false, loop_started sample_modem None 5) (false, noisy_loop).
Proof.
  eapply rtc_l; [apply (lo_arrive modem_socket _ ReceiveFails); exact I|].
  eapply rtc_l; [eapply (lo_receive modem_socket _ None); vm_compute; reflexivity|].
  eapply rtc_l; [apply (lo_arrive modem_socket _ garbage_arrival); apply (bool_decide_unpack _); vm_compute; exact I|].
  eapply rtc_l; [apply (lo_arrive modem_socket _ stray_arrival); apply (bool_decide_unpack _); vm_compute; exact I|].
  eapply rtc_l; [apply (lo_arrive modem_socket _ probe_arrival); apply (bool_decide_unpack _); vm_compute; exact I|].
  eapply rtc_l; [apply (lo_arrive modem_socket _ garbage_arrival); apply (bool_decide_unpack _); vm_compute; exact I|].
  match goal with |- rtc _ ?x ?y => replace x with y; [apply rtc_refl|vm_compute; reflexivity] end.
Qed.

(** Metadata as the kernel gives it, with a hop limit. *)
Lemma link_arrival_benign sock body from dst raw ttl i :
  ds_interface_v6 sock = Some i -> is_bytes body -> 0 < raw < 2 ^ 32 -> len body <= 1500 ->
  benign sock (Arrived (mkDatagram body false (Some from) (Some [Ipv6PacketInfo dst raw; TtlControl ttl]))).
Proof.
  intros Hi Hb Hr Hl. split; [done|right].
  assert (Hinfo : last_of is_info [Ipv6PacketInfo dst raw; TtlControl ttl] (Ipv6PacketInfo dst raw)).
  { split; [done|]. exists [], [TtlControl ttl]. split; [done|]. apply Forall_singleton. by intros []. }
  exists from, [Ipv6PacketInfo dst raw; TtlControl ttl], raw, (ttl mod 256), (IpV6 (i_address i)). split_and!.
  - split_and!; [|done|done]. intros [H|H]; [cbn in H; lia|done].
  - by eapply ingress_v6.
  - exists ttl. split; [|done]. split; [done|]. exists [Ipv6PacketInfo dst raw], []. split; [done|apply Forall_nil_2].
  - by eapply local_v6.
Qed.

Lemma noisy_benign : Forall (benign modem_socket) noisy.
Proof.
  repeat apply Forall_cons_2; [..|apply Forall_nil_2]; (eapply link_arrival_benign;
    [vm_compute; reflexivity|apply (bool_decide_unpack _); vm_compute; exact I|lia|vm_compute; discriminate]).
Qed.

Lemma discovery_undisturbed_witness :
  exists l' outs, rtc (receives modem_socket ∅) (mkLoopState (lo_task noisy_loop) (5 + RECEIVE_RETRY) (5 + RECEIVE_RETRY) noisy) l'
    /\ Forall2 (answers modem_socket sample_modem ∅) noisy outs /\ d_out (lo_task l') = concat outs.
Proof.
  destruct (discovery_undisturbed modem_socket sample_modem 5 noisy_loop ∅ (5 + RECEIVE_RETRY) noisy_reached noisy_benign) as [_ H].
  destruct H as (l' & outs & Hr & _ & _ & _ & Ha & Ho); [vm_compute; discriminate|vm_compute; discriminate|].
  exists l', outs. split; [exact Hr|]. split; [exact Ha|]. rewrite Ho. reflexivity.
Defined.
