(* ===== verification/Config.v ===== *)
(** * Configuration of the daemons

    The configuration of [dlep-daemon/src/config.rs] as the binaries read it, their
    command-line overrides ([dlep-router/src/lib.rs], [dlep-modem/src/lib.rs]), the TLS
    settings built from it ([dlep-daemon/src/tls.rs], [dlep-net/src/tls.rs]) and the
    checks of [--check-config] ([dlep-daemon/src/cli.rs]).  The file system, the PEM
    reader and rustls are the record [Material]. *)

From S2P Require Import Prelude Externs CoreTypes Codec Addresses Events SessionCommon.
From S2P Require Import Connections DaemonApi Interfaces DiscoverySockets.

(** ** Data *)

Abbreviation Path := rstring.

Record TlsConfig : Type := mkTls {
  tls_cert : option Path;
  tls_key : option Path;
  tls_ca_bundle : option Path;
  tls_require_client_cert : bool;
}.
Definition TlsConfig_default : TlsConfig := mkTls None None None false.

Record SharedConfig : Type := mkShared {
  sh_network : NetworkConfig;
  sh_tls : TlsConfig;
  sh_timers : TimersConfig;
}.
Definition SharedConfig_default : SharedConfig :=
  mkShared NetworkConfig_default TlsConfig_default TimersConfig_default.

Inductive DiscoveryMode : Type := ModeDiscovery | ModeStatic.

Record RouterConfig : Type := mkRouterConfig {
  rc_limits : RouterLimits;
  rc_shared : SharedConfig;
  rc_mode : DiscoveryMode;
  rc_static_peers : list SocketAddr;
  rc_peer_description : rstring;
}.
Definition RouterConfig_default : RouterConfig :=
  mkRouterConfig RouterLimits_default SharedConfig_default ModeDiscovery [] (str "dlep-router").

Record RadioConfig : Type := mkRadio {
  rd_command : Path;
  rd_args : list rstring;
  rd_link_request_timeout_ms : Z;
}.
Definition RadioConfig_new (command : Path) : RadioConfig := mkRadio command [] 30000.

Record ModemConfig : Type := mkModemConfig {
  mo_metrics : MetricsConfig;
  mo_radio : option RadioConfig;
  mo_shared : SharedConfig;
  mo_peer_description : rstring;
}.
Definition MetricsConfig_default : MetricsConfig := mkMetricsConfig 0 0 0 0 0 None None None None.
Definition ModemConfig_default : ModemConfig :=
  mkModemConfig MetricsConfig_default None SharedConfig_default (str "dlep-modem").

(** ** Configuration files *)

(** The flat layout of the files, and the configuration one is turned into. *)
Record RouterConfigFile : Type := mkRouterFile {
  rf_limits : RouterLimits;
  rf_network : NetworkConfig;
  rf_tls : TlsConfig;
  rf_timers : TimersConfig;
  rf_mode : DiscoveryMode;
  rf_static_peers : list SocketAddr;
  rf_peer_description : rstring;
}.
Definition RouterConfig_from (file : RouterConfigFile) : RouterConfig :=
  mkRouterConfig (rf_limits file) (mkShared (rf_network file) (rf_tls file) (rf_timers file)) (rf_mode file)
    (rf_static_peers file) (rf_peer_description file).

Record ModemConfigFile : Type := mkModemFile {
  mf_network : NetworkConfig;
  mf_tls : TlsConfig;
  mf_timers : TimersConfig;
  mf_metrics : MetricsConfig;
  mf_radio : option RadioConfig;
  mf_peer_description : rstring;
}.
Definition ModemConfig_from (file : ModemConfigFile) : ModemConfig :=
  mkModemConfig (mf_metrics file) (mf_radio file) (mkShared (mf_network file) (mf_tls file) (mf_timers file))
    (mf_peer_description file).

(** Reading a file as text, and what the TOML parser makes of the text. *)
Record ConfigFiles : Type := mkFiles {
  read_to_string : Path -> option rstring;
  toml_router : rstring -> option RouterConfigFile;
  toml_modem : rstring -> option ModemConfigFile;
}.

Inductive ConfigLoadError : Type :=
  | LoadRead (path : Path)
  | LoadParse (path : Path).

Definition load_toml_config {A} (read : Path -> option rstring) (from_str : rstring -> option A) (default : A)
    (path : option Path) : outcome ConfigLoadError A :=
  match path with
  | None => Ok default
  | Some p =>
      match read p with
      | None => Err (LoadRead p)
      | Some text => match from_str text with None => Err (LoadParse p) | Some a => Ok a end
      end
  end.

(** ** Command line *)

(** The options of [Cli] but the log level; a modem has no peers. *)
Record Cli : Type := mkCli {
  cli_config : option Path;
  cli_check_config : bool;
  cli_interface : option rstring;
  cli_no_tls : bool;
  cli_ca_bundle : option Path;
  cli_cert : option Path;
  cli_key : option Path;
  cli_peer : list SocketAddr;
}.

(** [if let Some(x) = &cli.x { cfg.x = Some(x.clone()) }]. *)
Definition override {A} (new old : option A) : option A := match new with Some a => Some a | None => old end.

(** The part both binaries have. *)
Definition override_shared (c : SharedConfig) (cli : Cli) : SharedConfig :=
  let n := sh_network c in
  let t := sh_tls c in
  mkShared
    (mkNetwork (nc_mac_address_format n) (override (cli_interface cli) (nc_interface n))
       (nc_discovery_v4_group n) (nc_discovery_v6_group n) (nc_discovery_port n) (nc_tcp_port n)
       (nc_bind_addr n) (if cli_no_tls cli then false else nc_use_tls n) (nc_gtsm_enforce n))
    (mkTls (override (cli_cert cli) (tls_cert t)) (override (cli_key cli) (tls_key t))
       (override (cli_ca_bundle cli) (tls_ca_bundle t)) (tls_require_client_cert t))
    (sh_timers c).

Definition router_overrides (cfg : RouterConfig) (cli : Cli) : RouterConfig :=
  mkRouterConfig (rc_limits cfg) (override_shared (rc_shared cfg) cli)
    (if bool_decide (cli_peer cli = []) then rc_mode cfg else ModeStatic)
    (rc_static_peers cfg ++ cli_peer cli) (rc_peer_description cfg).

Definition modem_overrides (cfg : ModemConfig) (cli : Cli) : ModemConfig :=
  mkModemConfig (mo_metrics cfg) (mo_radio cfg) (override_shared (mo_shared cfg) cli)
    (mo_peer_description cfg).

(** ** TLS settings *)

Abbreviation Cert := bytes.
Abbreviation Key := bytes.

(** The PEM reader's failures, as far as [pem_error] tells them apart. *)
Inductive PemFault : Type := PemIo | PemNoItems | PemOther.
Inductive FileFault : Type := FileIo | NoKeyFound | BadPem.

(** Files, the PEM reader, and what rustls accepts. *)
Record Material : Type := mkMaterial {
  open_file : Path -> option bytes;
  is_file : Path -> bool;
  pem_certs : bytes -> PemFault + list Cert;
  pem_key : bytes -> PemFault + Key;
  root_ok : Cert -> bool;
  identity_ok : list Cert -> Key -> bool;
  verifier_ok : list Cert -> bool;
}.

Inductive TlsSetupError : Type :=
  | MissingCaBundle
  | MissingCert
  | MissingKey
  | IncompleteClientIdentity (key_only : bool)
  | MissingClientCaBundle
  | TlsIo (path : Path) (e : FileFault)
  | EmptyPem (path : Path)
  | RustlsRejected (path : Path)
  | VerifierFailed.

(** [rustls::ClientConfig] and [rustls::ServerConfig], by what they were built from. *)
Record ClientConfig : Type := mkClient {
  cc_roots : list Cert;
  cc_identity : option (list Cert * Key);
}.
Record ServerConfig : Type := mkServer {
  sc_identity : list Cert * Key;
  sc_client_roots : option (list Cert);
}.

Definition some_or {E A} (e : E) (o : option A) : outcome E A :=
  match o with Some a => Ok a | None => Err e end.

Section Tls.
Variable env : Material.

Definition pem_error (e : PemFault) : FileFault :=
  match e with PemIo => FileIo | PemNoItems => NoKeyFound | PemOther => BadPem end.

(** [map_err(pem_error)] of what the reader returns. *)
Definition read_pem {A} (r : PemFault + A) : outcome FileFault A :=
  match r with inl e => Err (pem_error e) | inr a => Ok a end.

Definition load_certs (path : Path) : outcome FileFault (list Cert) :=
  file ← some_or FileIo (open_file env path); read_pem (pem_certs env file).

Definition load_private_key (path : Path) : outcome FileFault Key :=
  file ← some_or FileIo (open_file env path); read_pem (pem_key env file).

Definition certs_from (path : Path) : outcome TlsSetupError (list Cert) :=
  certs ← map_err (TlsIo path) (load_certs path);
  if bool_decide (certs = []) then Err (EmptyPem path) else Ok certs.

Definition key_from (path : Path) : outcome TlsSetupError Key := map_err (TlsIo path) (load_private_key path).

Fixpoint add_roots (path : Path) (roots certs : list Cert) : outcome TlsSetupError (list Cert) :=
  match certs with
  | [] => Ok roots
  | c :: certs' => if root_ok env c then add_roots path (roots ++ [c]) certs' else Err (RustlsRejected path)
  end.

Definition root_store_from (path : Path) : outcome TlsSetupError (list Cert) :=
  certs ← certs_from path; add_roots path [] certs.

Definition client_config (tls : TlsConfig) : outcome TlsSetupError ClientConfig :=
  ca ← some_or MissingCaBundle (tls_ca_bundle tls);
  roots ← root_store_from ca;
  match tls_cert tls, tls_key tls with
  | Some cert_path, Some key_path =>
      certs ← certs_from cert_path;
      key ← key_from key_path;
      if identity_ok env certs key then Ok (mkClient roots (Some (certs, key)))
      else Err (RustlsRejected cert_path)
  | None, None => Ok (mkClient roots None)
  | Some _, None => Err (IncompleteClientIdentity false)
  | None, Some _ => Err (IncompleteClientIdentity true)
  end.

Definition server_config (tls : TlsConfig) : outcome TlsSetupError ServerConfig :=
  cert_path ← some_or MissingCert (tls_cert tls);
  key_path ← some_or MissingKey (tls_key tls);
  certs ← certs_from cert_path;
  key ← key_from key_path;
  clients ← (if tls_require_client_cert tls then
               ca ← some_or MissingClientCaBundle (tls_ca_bundle tls);
               roots ← root_store_from ca;
               if verifier_ok env roots then Ok (Some roots) else Err VerifierFailed
             else Ok None);
  if identity_ok env certs key then Ok (mkServer (certs, key) clients) else Err (RustlsRejected cert_path).

(** *** No setting makes the set-up panic *)

Lemma certs_from_no_panic path : certs_from path <> Panic.
Proof.
  unfold certs_from, load_certs. destruct (open_file env path) as [f|]; cbn; [|done].
  destruct (pem_certs env f) as [|certs]; cbn; [done|]. by case_bool_decide.
Qed.

Lemma key_from_no_panic path : key_from path <> Panic.
Proof.
  unfold key_from, load_private_key. destruct (open_file env path) as [f|]; cbn; [|done].
  by destruct (pem_key env f).
Qed.

Lemma root_store_no_panic path : root_store_from path <> Panic.
Proof.
  unfold root_store_from. pose proof (certs_from_no_panic path).
  destruct (certs_from path) as [certs| |]; cbn; [|done|done]. clear. generalize (@nil Cert).
  induction certs as [|c certs IH]; intros roots; cbn; [done|]. by destruct (root_ok env c).
Qed.

Lemma client_config_no_panic tls : client_config tls <> Panic.
Proof.
  unfold client_config. destruct (tls_ca_bundle tls) as [ca|]; cbn; [|done].
  pose proof (root_store_no_panic ca). destruct (root_store_from ca); cbn; [|done|done].
  destruct (tls_cert tls) as [cp|], (tls_key tls) as [kp|]; try done.
  pose proof (certs_from_no_panic cp). destruct (certs_from cp); cbn; [|done|done].
  pose proof (key_from_no_panic kp). destruct (key_from kp); cbn; [|done|done]. by destruct (identity_ok env _ _).
Qed.

Lemma server_config_no_panic tls : server_config tls <> Panic.
Proof.
  unfold server_config. destruct (tls_cert tls) as [cp|]; cbn; [|done].
  destruct (tls_key tls) as [kp|]; cbn; [|done].
  pose proof (certs_from_no_panic cp). destruct (certs_from cp) as [certs| |]; cbn; [|done|done].
  pose proof (key_from_no_panic kp). destruct (key_from kp) as [key| |]; cbn; [|done|done].
  assert (Hlast : forall clients : option (list Cert),
    (if identity_ok env certs key then Ok (mkServer (certs, key) clients) else Err (RustlsRejected cp)) <> Panic)
    by (intros; by destruct (identity_ok env certs key)).
  destruct (tls_require_client_cert tls); cbn; [|apply Hlast].
  destruct (tls_ca_bundle tls) as [ca|]; cbn; [|done].
  pose proof (root_store_no_panic ca). destruct (root_store_from ca); cbn; [|done|done].
  destruct (verifier_ok env _); cbn; [apply Hlast|done].
Qed.
End Tls.

Lemma limits_validate_no_panic l : limits_validate l <> Panic.
Proof. unfold limits_validate. destruct (_ || _); [done|]. by destruct (_ || _). Qed.

Lemma timers_validate_no_panic t : timers_validate t <> Panic.
Proof.
  unfold timers_validate. cbn. destruct (_ <? _); cbn; [done|]. destruct (_ <? _); cbn; [done|].
  destruct (_ <? _); cbn; [done|]. by case_bool_decide.
Qed.

Lemma validate_interface_no_panic sys cfg : validate_discovery_interface sys cfg <> Panic.
Proof.
  unfold validate_discovery_interface. destruct (nc_bind_addr cfg) as [ip|ip].
  - destruct (is_some _); [|done]. destruct (resolve_no_panic sys (discovery_interface cfg) ip) as [H _].
    by destruct (resolve_v4 sys (discovery_interface cfg) ip).
  - destruct (resolve_no_panic sys (discovery_interface cfg) ip) as [_ H].
    by destruct (resolve_v6 sys (discovery_interface cfg) ip).
Qed.

(** ** The checks of [--check-config] *)

Inductive ConfigCheckError : Type :=
  | CheckLimits (e : ConfigFault)
  | CheckTimers (e : ConfigFault)
  | CheckInterface (e : NetError)
  | CheckMetrics (e : ConfigFault)
  | CheckRadio (e : option ConfigFault)
  | CheckTls (e : TlsSetupError)
  | StaticModeWithoutPeers.

(** [Path::is_absolute] on Unix. *)
Definition is_absolute (path : Path) : bool := match path with c :: _ => c =? 47 | [] => false end.

Definition radio_config_validate (self : RadioConfig) : outcome ConfigFault unit :=
  radio_validate (is_absolute (rd_command self)) (rd_link_request_timeout_ms self).

Section Checks.
Context {crates : Crates} (sys : System) (env : Material).

Definition check_router_config (cfg : RouterConfig) : outcome ConfigCheckError unit :=
  _ ← map_err CheckLimits (limits_validate (rc_limits cfg));
  _ ← map_err CheckTimers (timers_validate (sh_timers (rc_shared cfg)));
  _ ← map_err CheckInterface (validate_discovery_interface sys (sh_network (rc_shared cfg)));
  if match rc_mode cfg with ModeStatic => bool_decide (rc_static_peers cfg = []) | _ => false end
  then Err StaticModeWithoutPeers
  else if nc_use_tls (sh_network (rc_shared cfg)) then
    _ ← map_err CheckTls (client_config env (sh_tls (rc_shared cfg))); Ok tt
  else Ok tt.

(** The [radio] section of a modem. *)
Definition check_radio (radio : option RadioConfig) : outcome ConfigCheckError unit :=
  match radio with
  | Some radio =>
      _ ← map_err (fun e => CheckRadio (Some e)) (radio_config_validate radio);
      if is_file env (rd_command radio) then Ok tt else Err (CheckRadio None)
  | None => Ok tt
  end.

Definition check_modem_config (cfg : ModemConfig) : outcome ConfigCheckError unit :=
  _ ← map_err CheckTimers (timers_validate (sh_timers (mo_shared cfg)));
  _ ← map_err CheckInterface (validate_discovery_interface sys (sh_network (mo_shared cfg)));
  _ ← map_err CheckMetrics (metrics_validate (mo_metrics cfg));
  _ ← check_radio (mo_radio cfg);
  if nc_use_tls (sh_network (mo_shared cfg)) then
    _ ← map_err CheckTls (server_config env (sh_tls (mo_shared cfg))); Ok tt
  else Ok tt.
End Checks.
