(* ===== verification/RouterDaemon.v ===== *)
(** * The router daemon

    [dlep-daemon/src/router.rs]: the daemon a router application holds.  Connection
    attempts, sessions, discovery and [shutdown] run at the same time and share the
    session slots, the connection registry of [Connections], the session senders and
    the task handles.  A step is what happens between two suspension points. *)

From S2P Require Import Prelude Externs CoreTypes Codec Addresses Events SessionCommon.
From S2P Require Import DaemonTypes Connections DaemonApi Interfaces DiscoverySockets Config.

(** ** State *)

(** What [RouterBuilder::spawn] fixes. *)
Record RouterSettings : Type := mkSettings {
  rs_timers : TimersConfig;
  rs_network : NetworkConfig;
  rs_description : rstring;
  rs_client_tls : option ClientConfig;
  rs_limits : RouterLimits;
}.

(** A connection attempt waits for the transport, or for the locks with the transport's
    peer address; [at_tls] is the connector's kind.  It holds a session slot. *)
Inductive AttemptPhase : Type :=
  | Dialling (peer : SocketAddr)
  | Locking (addr : SocketAddr).
Record DialTask : Type := mkDialTask {
  att_phase : AttemptPhase;
  at_tls : bool;
}.

(** A session task, which holds a slot and the tracker of its peer. *)
Record SessionTask : Type := mkSessionTask {
  st_peer : SocketAddr;
  st_tls : bool;
}.

Inductive RouterPoint : Type :=
  | NotCalled
  | AskTask
  | JoinTask
  | TakeCommands
  | TellSessions (rest : list nat)
  | JoinSessions (rest : list nat)
  | Returned.

(** Attempts and sessions are numbered; those that have ended are not in the maps. *)
Record RouterState : Type := mkRouterState {
  r_slots : Z;
  r_registry : ConnectionRegistry;
  r_attempts : gmap nat DialTask;
  r_sessions : gmap nat SessionTask;
  r_next : nat;
  r_tasks : list nat;
  r_senders : list nat;
  r_told : list nat;
  r_discovery_slot : bool;
  r_discovery : bool;
  r_point : RouterPoint;
}.

Section Daemon.
Variable self : RouterSettings.

(** The state [RouterBuilder::spawn] returns. *)
Definition spawn_router (static_peers : list SocketAddr) : RouterState :=
  mkRouterState (max_sessions (rs_limits self)) (ConnectionRegistry_new (rs_limits self) static_peers)
    ∅ ∅ 0 [] [] [] false false NotCalled.

Definition set_slots (slots : Z) (d : RouterState) : RouterState :=
  mkRouterState slots (r_registry d) (r_attempts d) (r_sessions d) (r_next d) (r_tasks d) (r_senders d)
    (r_told d) (r_discovery_slot d) (r_discovery d) (r_point d).
Definition set_registry (r : ConnectionRegistry) (d : RouterState) : RouterState :=
  mkRouterState (r_slots d) r (r_attempts d) (r_sessions d) (r_next d) (r_tasks d) (r_senders d)
    (r_told d) (r_discovery_slot d) (r_discovery d) (r_point d).
Definition set_dials (a : gmap nat DialTask) (d : RouterState) : RouterState :=
  mkRouterState (r_slots d) (r_registry d) a (r_sessions d) (r_next d) (r_tasks d) (r_senders d)
    (r_told d) (r_discovery_slot d) (r_discovery d) (r_point d).
Definition set_commands (l : list nat) (d : RouterState) : RouterState :=
  mkRouterState (r_slots d) (r_registry d) (r_attempts d) (r_sessions d) (r_next d) (r_tasks d) l
    (r_told d) (r_discovery_slot d) (r_discovery d) (r_point d).
Definition set_router_point (p : RouterPoint) (d : RouterState) : RouterState :=
  mkRouterState (r_slots d) (r_registry d) (r_attempts d) (r_sessions d) (r_next d) (r_tasks d)
    (r_senders d) (r_told d) (r_discovery_slot d) (r_discovery d) p.
Definition set_discovery_task (slot running : bool) (d : RouterState) : RouterState :=
  mkRouterState (r_slots d) (r_registry d) (r_attempts d) (r_sessions d) (r_next d) (r_tasks d)
    (r_senders d) (r_told d) slot running (r_point d).

(** [connection_capacity]. *)
Definition connection_capacity (d : RouterState) : Z := r_slots d.

(** ** [connect_static] *)

(** Up to the wait for the transport. *)
Definition connect_begin (peer : SocketAddr) : stm RouterState DaemonError nat := fun d =>
  if r_slots d =? 0 then (Err SessionLimitReached, d)
  else
    let tls := nc_use_tls (rs_network self) in
    if tls && negb (is_some (rs_client_tls self)) then
      (Err (ConfigError (str "use_tls = true requires RouterBuilder::with_rustls_client(...)")), d)
    else
      (Ok (r_next d),
       mkRouterState (r_slots d - 1) (r_registry d)
         (<[r_next d := mkDialTask (Dialling peer) tls]> (r_attempts d)) (r_sessions d) (S (r_next d))
         (r_tasks d) (r_senders d) (r_told d) (r_discovery_slot d) (r_discovery d) (r_point d)).

(** The attempt is over without a session: its slot is free again. *)
Definition release (k : nat) (d : RouterState) : RouterState :=
  set_slots (r_slots d + 1) (set_dials (delete k (r_attempts d)) d).

(** The transport, with its peer address, or an error. *)
Definition connect_transport (k : nat) (a : DialTask) (result : outcome DaemonError SocketAddr)
    : stm RouterState DaemonError unit := fun d =>
  match result with
  | Ok addr => (Ok tt, set_dials (<[k := mkDialTask (Locking addr) (at_tls a)]> (r_attempts d)) d)
  | Err e => (Err e, release k d)
  | Panic => (Panic, d)
  end.

(** With the locks held: the peer is registered, and the session spawned. *)
Definition connect_register (k : nat) (a : DialTask) (addr : SocketAddr) (now : Instant)
    : stm RouterState DaemonError unit := fun d =>
  match register_peer addr now (r_registry d) with
  | (Ok peer, registry) =>
      let sessions := <[k := mkSessionTask peer (at_tls a)]> (r_sessions d) in
      (Ok tt,
       mkRouterState (r_slots d) registry (delete k (r_attempts d)) sessions (r_next d)
         (retain (fun h => is_some (sessions !! h)) (r_tasks d) ++ [k])
         (retain (fun h => is_some (sessions !! h)) (r_senders d) ++ [k])
         (r_told d) (r_discovery_slot d) (r_discovery d) (r_point d))
  | (Err e, registry) => (Err e, release k (set_registry registry d))
  | (Panic, registry) => (Panic, set_registry registry d)
  end.

(** ** [connect_discovered] *)

(** The loop over the endpoints of an offer; [connects] are the results of
    [connect_static], in the order of the calls.  With the endpoints dialled. *)
Fixpoint connect_endpoints (endpoints : list OfferEndpoint) (connects : list (outcome DaemonError unit))
    (error : DaemonError) : option (outcome DaemonError SocketAddr) * list SocketAddr :=
  match endpoints with
  | [] => (Some (Err error), [])
  | e :: rest =>
      if negb (Bool.eqb (ep_use_tls e) (nc_use_tls (rs_network self))) then connect_endpoints rest connects error
      else
        match connects with
        | [] => (None, [ep_addr e])
        | Ok _ :: _ => (Some (Ok (ep_addr e)), [ep_addr e])
        | Err e' :: connects' =>
            let '(result, dialled) := connect_endpoints rest connects' e' in (result, ep_addr e :: dialled)
        | Panic :: _ => (Some Panic, [ep_addr e])
        end
  end.

Definition connect_discovered (endpoints : list OfferEndpoint) (connects : list (outcome DaemonError unit))
    : option (outcome DaemonError SocketAddr) * list SocketAddr :=
  connect_endpoints endpoints connects (ConfigError (str "offer has no compatible connection points")).

(** ** Sessions *)

(** The session is initialised ([ConnectionTracker::established]). *)
Definition session_established (s : SessionTask) (d : RouterState) : panics RouterState :=
  registry ← established (st_peer s) (r_registry d); Ok (set_registry registry d).

(** The task ends: tracker and slot are dropped. *)
Definition session_task_ends (k : nat) (s : SessionTask) (now : Instant) (d : RouterState) : panics RouterState :=
  registry ← drop_tracker (st_peer s) now (r_registry d);
  Ok (mkRouterState (r_slots d + 1) registry (r_attempts d) (delete k (r_sessions d)) (r_next d) (r_tasks d)
        (r_senders d) (r_told d) (r_discovery_slot d) (r_discovery d) (r_point d)).

(** [dispatch] drops the senders of sessions that are over. *)
Definition retain_commands (d : RouterState) : RouterState :=
  set_commands (retain (fun h => is_some (r_sessions d !! h)) (r_senders d)) d.

(** ** Discovery *)

(** [start_discovery]; the socket is [bind_discovery]'s. *)
Definition router_start_discovery (sys : System) (net : Sockets) : stm RouterState DaemonError unit := fun d =>
  if r_discovery_slot d then (Err (ConfigError (str "discovery already running")), d)
  else
    match bind_discovery sys net (rs_network self) false with
    | Ok _ => (Ok tt, set_discovery_task true true d)
    | Err _ => (Err IoError, d)
    | Panic => (Panic, d)
    end.

(** ** [shutdown] *)

Definition router_shutdown_step (d : RouterState) : option RouterState :=
  match r_point d with
  | NotCalled => Some (set_router_point AskTask d)
  | AskTask => Some (set_router_point JoinTask (set_discovery_task false (r_discovery d) d))
  | JoinTask => if r_discovery d then None else Some (set_router_point TakeCommands d)
  | TakeCommands => Some (set_router_point (TellSessions (r_senders d)) (set_commands [] d))
  | TellSessions (k :: rest) =>
      Some (mkRouterState (r_slots d) (r_registry d) (r_attempts d) (r_sessions d) (r_next d) (r_tasks d)
              (r_senders d) (if is_some (r_sessions d !! k) then k :: r_told d else r_told d)
              (r_discovery_slot d) (r_discovery d) (TellSessions rest))
  | TellSessions [] =>
      Some (mkRouterState (r_slots d) (r_registry d) (r_attempts d) (r_sessions d) (r_next d) []
              (r_senders d) (r_told d) (r_discovery_slot d) (r_discovery d) (JoinSessions (r_tasks d)))
  | JoinSessions (h :: rest) =>
      if is_some (r_sessions d !! h) then None else Some (set_router_point (JoinSessions rest) d)
  | JoinSessions [] => Some (set_router_point Returned d)
  | Returned => None
  end.

(** ** Steps *)

(** [shutdown] takes the daemon by value: it starts when no attempt borrows the daemon,
    and none starts after it. *)
Inductive RouterAction : Type :=
  | Connect (peer : SocketAddr)
  | TransportResult (k : nat) (result : option SocketAddr)
  | Register (k : nat) (now : Instant)
  | CancelAttempt (k : nat)
  | Establish (k : nat)
  | EndSession (k : nat) (now : Instant)
  | Reap (now : Instant)
  | RouterDispatch
  | StartDiscovery (sys : System) (net : Sockets)
  | DiscoveryStops
  | RouterShutdown.

(** The step of an operation that answers its caller; a panic is kept. *)
Definition answered {A} (r : outcome DaemonError A * RouterState) : panics RouterState :=
  match r with (Panic, _) => Panic | (_, d) => Ok d end.

Definition before_shutdown (d : RouterState) : bool :=
  match r_point d with NotCalled => true | _ => false end.

Definition router_act (a : RouterAction) (d : RouterState) : option (panics RouterState) :=
  match a with
  | Connect peer => if before_shutdown d then Some (answered (connect_begin peer d)) else None
  | TransportResult k result =>
      match r_attempts d !! k with
      | Some (mkDialTask (Dialling peer) tls) =>
          Some (answered (connect_transport k (mkDialTask (Dialling peer) tls)
                            (match result with Some addr => Ok addr | None => Err IoError end) d))
      | _ => None
      end
  | Register k now =>
      match r_attempts d !! k with
      | Some (mkDialTask (Locking addr) tls) =>
          Some (answered (connect_register k (mkDialTask (Locking addr) tls) addr now d))
      | _ => None
      end
  | CancelAttempt k => if is_some (r_attempts d !! k) then Some (Ok (release k d)) else None
  | Establish k =>
      match r_sessions d !! k with
      | Some s =>
          if next_establishment (history (r_registry d)) <? u64_max then Some (session_established s d)
          else None
      | None => None
      end
  | EndSession k now =>
      match r_sessions d !! k with Some s => Some (session_task_ends k s now d) | None => None end
  | Reap now => Some (Ok (set_registry (prune now (r_registry d)) d))
  | RouterDispatch => if before_shutdown d then Some (Ok (retain_commands d)) else None
  | StartDiscovery sys net => if before_shutdown d then Some (answered (router_start_discovery sys net d)) else None
  | DiscoveryStops =>
      if r_discovery d then Some (Ok (set_discovery_task (r_discovery_slot d) false d)) else None
  | RouterShutdown =>
      if before_shutdown d && negb (bool_decide (r_attempts d = ∅)) then None else Ok <$> router_shutdown_step d
  end.

Definition router_step (d d' : RouterState) : Prop := exists a, router_act a d = Some (Ok d').
End Daemon.

(** ** The invariant *)

Definition session_peers (m : gmap nat SessionTask) : list SocketAddr :=
  (fun ks : nat * SessionTask => st_peer ks.2) <$> map_to_list m.

(** The handles [shutdown] will still wait for, and the sessions it tells to end. *)
Definition router_handles (d : RouterState) : list nat :=
  match r_point d with
  | JoinSessions rest => rest
  | Returned => []
  | _ => r_tasks d
  end.
Definition router_addressed (d : RouterState) (k : nat) : Prop :=
  match r_point d with
  | TellSessions rest => k ∈ rest \/ k ∈ r_told d
  | JoinSessions _ | Returned => k ∈ r_told d
  | _ => k ∈ r_senders d
  end.
Definition discovery_over (p : RouterPoint) : bool :=
  match p with NotCalled | AskTask | JoinTask => false | _ => true end.

(** The kind of a transport: what the configuration says, with a TLS setting to use. *)
Definition tls_as_configured (self : RouterSettings) (tls : bool) : Prop :=
  tls = nc_use_tls (rs_network self) /\ (tls = true -> is_Some (rs_client_tls self)).

Record router_inv (self : RouterSettings) (d : RouterState) : Prop := {
  ri_registry : registry_inv (r_registry d) (session_peers (r_sessions d));
  ri_slots : r_slots d + Z.of_nat (size (r_attempts d)) + Z.of_nat (size (r_sessions d))
             = max_sessions (rs_limits self) /\ 0 <= r_slots d;
  ri_attempts : forall k a, r_attempts d !! k = Some a ->
    (k < r_next d)%nat /\ r_sessions d !! k = None /\ tls_as_configured self (at_tls a)
    /\ r_point d = NotCalled;
  ri_sessions : forall k s, r_sessions d !! k = Some s ->
    (k < r_next d)%nat /\ k ∈ router_handles d /\ router_addressed d k /\ tls_as_configured self (st_tls s);
  ri_discovery : discovery_over (r_point d) = true -> r_discovery d = false;
}.

Lemma occ_perm p l l' : l ≡ₚ l' -> occ p l = occ p l'.
Proof. induction 1; cbn; lia. Qed.

Lemma registry_inv_perm r l l' : l ≡ₚ l' -> registry_inv r l -> registry_inv r l'.
Proof.
  intros Hp [[] Hs]. split; [|done]. split; try done. intros p. rewrite <-(occ_perm p l l' Hp). auto.
Qed.

Lemma session_peers_insert m k s : m !! k = None -> session_peers (<[k := s]> m) ≡ₚ st_peer s :: session_peers m.
Proof. intros Hk. unfold session_peers. by rewrite map_to_list_insert. Qed.

Lemma session_peers_delete m k s :
  m !! k = Some s -> session_peers m ≡ₚ st_peer s :: session_peers (delete k m).
Proof.
  intros Hk. rewrite <-(session_peers_insert (delete k m) k s) by apply lookup_delete_eq.
  by rewrite insert_delete_id.
Qed.

Lemma elem_of_session_peers m k s : m !! k = Some s -> st_peer s ∈ session_peers m.
Proof. intros Hk. rewrite (session_peers_delete m k s Hk). left. Qed.

Lemma len_session_peers m : len (session_peers m) = Z.of_nat (size m).
Proof. unfold session_peers, len. rewrite length_fmap. by rewrite length_map_to_list. Qed.

Lemma size_delete_Some {A} (m : gmap nat A) k x : m !! k = Some x -> S (size (delete k m)) = size m.
Proof.
  intros Hk. rewrite <-(insert_delete_id m k x) at 2 by done.
  by rewrite map_size_insert_None by apply lookup_delete_eq.
Qed.

Section Preserved.
Context (self : RouterSettings).
Hypothesis Hlimit : max_sessions (rs_limits self) < usize_max.

Lemma spawn_router_inv static_peers :
  0 <= max_sessions (rs_limits self) -> router_inv self (spawn_router self static_peers).
Proof.
  intros H0. split; try done.
  - apply registry_inv_new.
  - cbn. rewrite !map_size_empty. lia.
Qed.

Lemma connect_begin_inv peer d :
  router_inv self d -> before_shutdown d = true ->
  exists d', answered (connect_begin self peer d) = Ok d' /\ router_inv self d'.
Proof.
  intros Hi Hb. unfold connect_begin. destruct (Z.eqb_spec (r_slots d) 0) as [|Hs]; [by exists d|].
  destruct (_ && _) eqn:Et; [by exists d|]. eexists. split; [done|].
  destruct Hi as [Hr [Hn H0] Ha Hse Hd].
  assert (Hnone : r_attempts d !! r_next d = None).
  { destruct (r_attempts d !! r_next d) as [a|] eqn:E; [|done]. destruct (Ha _ _ E). lia. }
  split; try done; cbn.
  - rewrite map_size_insert_None by done. lia.
  - intros k a Hk. apply lookup_insert_Some in Hk as [[<- <-]|[Hne Hk]].
    + split_and!; [lia| |split; [done|]|].
      * destruct (r_sessions d !! r_next d) as [s|] eqn:E; [|done]. destruct (Hse _ _ E). lia.
      * cbn. intros E. rewrite E in Et. by destruct (rs_client_tls self).
      * unfold before_shutdown in Hb. by destruct (r_point d).
    + destruct (Ha k a Hk) as (? & ? & ? & ?). split_and!; [lia|done..].
  - intros k s Hk. destruct (Hse k s Hk) as (? & ? & ? & ?). split_and!; [lia|done..].
Qed.

Lemma release_inv k a d : router_inv self d -> r_attempts d !! k = Some a -> router_inv self (release k d).
Proof.
  intros [Hr [Hn H0] Ha Hse Hd] Hk. pose proof (size_delete_Some _ _ _ Hk). split; try done; cbn.
  - lia.
  - intros k' a' [_ Hk']%lookup_delete_Some. by apply Ha.
Qed.

Lemma set_registry_inv r d :
  router_inv self d -> registry_inv r (session_peers (r_sessions d)) -> router_inv self (set_registry r d).
Proof. intros [Hr Hn Ha Hse Hd] Hr'. by split. Qed.

Lemma connect_register_inv k a addr now d :
  router_inv self d -> r_attempts d !! k = Some a ->
  exists d', answered (connect_register k a addr now d) = Ok d' /\ router_inv self d'.
Proof.
  intros Hi Hk. pose proof Hi as [Hr [Hn H0] Ha Hse Hd].
  destruct (Ha k a Hk) as (Hlt & Hsk & Htls & Hpt).
  unfold connect_register.
  destruct (register_ok (r_registry d) (session_peers (r_sessions d)) addr now Hr) as (res & r' & -> & Hres).
  { rewrite len_session_peers. lia. }
  destruct Hres as [(-> & Hr' & _)|(-> & Hr' & _)].
  - eexists. split; [done|]. apply (release_inv k a); [by apply set_registry_inv|done].
  - eexists. split; [done|]. pose proof (size_delete_Some _ _ _ Hk).
    assert (Hin : forall h s l, r_sessions d !! h = Some s -> h ∈ l ->
      h ∈ retain (fun h => is_some (<[k := mkSessionTask addr (at_tls a)]> (r_sessions d) !! h)) l).
    { intros h s l Hh Hl. apply elem_of_retain. split; [|done].
      destruct (decide (h = k)) as [->|]; [congruence|]. by rewrite lookup_insert_ne, Hh. }
    split; cbn.
    + eapply registry_inv_perm; [|exact Hr']. symmetry. by apply session_peers_insert.
    + rewrite map_size_insert_None by done. lia.
    + intros k' a' [Hne Hk']%lookup_delete_Some. destruct (Ha k' a' Hk') as (? & ? & ? & ?).
      split_and!; [done|by rewrite lookup_insert_ne|done|done].
    + intros k' s' Hk'. unfold router_handles, router_addressed. cbn. rewrite Hpt.
      apply lookup_insert_Some in Hk' as [[<- <-]|[Hne Hk']].
      * split_and!; [done|apply elem_of_app; right; left|apply elem_of_app; right; left|done].
      * destruct (Hse k' s' Hk') as (? & Hh & Had & ?). unfold router_handles, router_addressed in Hh, Had.
        rewrite Hpt in Hh, Had. split_and!; [done|apply elem_of_app; left; eauto|apply elem_of_app; left; eauto|done].
    + done.
Qed.

Lemma session_ends_inv k s now d :
  router_inv self d -> r_sessions d !! k = Some s ->
  exists d', session_task_ends k s now d = Ok d' /\ router_inv self d' /\ r_sessions d' = delete k (r_sessions d).
Proof.
  intros [Hr [Hn H0] Ha Hse Hd] Hk.
  destruct (drop_ok (r_registry d) [] (session_peers (delete k (r_sessions d))) (st_peer s) now) as (r' & Hr' & Hi').
  { eapply registry_inv_perm; [|exact Hr]. cbn. by apply session_peers_delete. }
  unfold session_task_ends. rewrite Hr'. cbn. eexists. split; [done|]. split; [|done].
  pose proof (size_delete_Some _ _ _ Hk). split; try done; cbn.
  - lia.
  - intros k' a Hk'. destruct (Ha k' a Hk') as (? & ? & ? & ?). split_and!; [done| |done|done].
    apply lookup_delete_None. by right.
  - intros k' s' [_ Hk']%lookup_delete_Some. by apply (Hse k' s').
Qed.

Lemma router_shutdown_step_inv d d' :
  router_inv self d -> (before_shutdown d = true -> r_attempts d = ∅) ->
  router_shutdown_step d = Some d' -> router_inv self d'.
Proof.
  intros [Hr Hn Ha Hse Hd] Hb. unfold router_shutdown_step, router_handles, router_addressed in *.
  assert (Hna : r_attempts d = ∅).
  { destruct (r_point d) eqn:Ep; try (apply map_empty; intros k;
      destruct (r_attempts d !! k) as [a|] eqn:E; [|done]; by destruct (Ha k a E) as (_ & _ & _ & ?)).
    apply Hb. unfold before_shutdown. by rewrite Ep. }
  assert (Hatt : forall (d0 : RouterState) k a, r_attempts d0 = ∅ -> r_attempts d0 !! k = Some a -> False).
  { intros d0 k a -> H. by rewrite lookup_empty in H. }
  destruct (r_point d) as [| | | |[|k rest]|[|h rest]|] eqn:Ep; intros E; cbn in Hd.
  - injection E as <-. split; try done. intros k a Hk. by destruct (Hatt _ _ _ Hna Hk).
  - injection E as <-. split; try done. intros k a Hk. by destruct (Hatt _ _ _ Hna Hk).
  - destruct (r_discovery d) eqn:Ed; [done|]. injection E as <-. split; try done.
    intros k a Hk. by destruct (Hatt _ _ _ Hna Hk).
  - injection E as <-. split; try done.
    + intros k a Hk. by destruct (Hatt _ _ _ Hna Hk).
    + intros k s Hk. destruct (Hse k s Hk) as (? & ? & ? & ?). split_and!; try done. by left.
  - injection E as <-. split; try done.
    + intros k a Hk. by destruct (Hatt _ _ _ Hna Hk).
    + intros k s Hk. destruct (Hse k s Hk) as (? & ? & Hin & ?). split_and!; try done.
      by destruct Hin as [?%elem_of_nil|].
  - injection E as <-. split; try done.
    + intros k' a Hk. by destruct (Hatt _ _ _ Hna Hk).
    + intros k' s Hk. change (r_sessions d !! k' = Some s) in Hk.
      destruct (Hse k' s Hk) as (? & ? & Hin & ?). split_and!; try done. unfold router_addressed. cbn.
      destruct Hin as [[->|Hin]%elem_of_cons|Hin].
      * right. rewrite Hk. left.
      * by left.
      * right. destruct (is_some _); [by right|done].
  - injection E as <-. split; try done. intros k a Hk. by destruct (Hatt _ _ _ Hna Hk).
  - destruct (r_sessions d !! h) as [s|] eqn:Eh; [done|]. injection E as <-. split; try done.
    + intros k a Hk. by destruct (Hatt _ _ _ Hna Hk).
    + intros k s Hk. change (r_sessions d !! k = Some s) in Hk.
      destruct (Hse k s Hk) as (? & [->|Hin]%elem_of_cons & ? & ?); [congruence|]. by split_and!.
  - done.
Qed.

Lemma router_act_inv a d r :
  router_inv self d -> router_act self a d = Some r -> exists d', r = Ok d' /\ router_inv self d'.
Proof.
  intros Hi. destruct a as [peer|k result|k now|k|k|k now|now| |sys net| |]; cbn [router_act]; intros E.
  - destruct (before_shutdown d) eqn:Eb; [|done]. injection E as <-. by apply connect_begin_inv.
  - destruct (r_attempts d !! k) as [[[peer|addr] tls]|] eqn:Ek; try done. injection E as <-.
    destruct result as [addr|]; cbn.
    + eexists. split; [done|]. destruct Hi as [Hr [Hn H0] Ha Hse Hd]. split; try done; cbn.
      * by rewrite map_size_insert_Some by (by eexists).
      * intros k' a Hk'. apply lookup_insert_Some in Hk' as [[<- <-]|[_ Hk']]; [|by apply Ha].
        exact (Ha k _ Ek).
    + eexists. split; [done|]. by eapply release_inv.
  - destruct (r_attempts d !! k) as [[[peer|addr] tls]|] eqn:Ek; try done. injection E as <-.
    by apply connect_register_inv.
  - destruct (r_attempts d !! k) as [a|] eqn:Ek; [|done]. injection E as <-. eexists. split; [done|].
    by eapply release_inv.
  - destruct (r_sessions d !! k) as [s|] eqn:Ek; [|done]. destruct (Z.ltb_spec
      (next_establishment (history (r_registry d))) u64_max) as [Hlt|]; [|done]. injection E as <-.
    destruct (established_ok (r_registry d) (session_peers (r_sessions d)) (st_peer s)
      (ri_registry _ _ Hi) (elem_of_session_peers _ _ _ Ek) Hlt) as (r' & Hr' & Hi' & _).
    unfold session_established. rewrite Hr'. cbn. eexists. split; [done|]. by apply set_registry_inv.
  - destruct (r_sessions d !! k) as [s|] eqn:Ek; [|done]. injection E as <-.
    destruct (session_ends_inv k s now d Hi Ek) as (d' & -> & ? & _). by exists d'.
  - injection E as <-. eexists. split; [done|]. apply set_registry_inv; [done|]. apply prune_ok, Hi.
  - destruct (before_shutdown d) eqn:Eb; [|done]. injection E as <-. eexists. split; [done|].
    destruct Hi as [Hr Hn Ha Hse Hd]. split; try done. intros k s Hk.
    change (r_sessions d !! k = Some s) in Hk.
    destruct (Hse k s Hk) as (? & ? & Hin & ?). split_and!; try done. unfold router_addressed in *. cbn.
    unfold before_shutdown in Eb. destruct (r_point d); try done. apply elem_of_retain. by rewrite Hk.
  - destruct (before_shutdown d) eqn:Eb; [|done]. injection E as <-. unfold router_start_discovery.
    destruct (r_discovery_slot d); [by exists d|].
    pose proof (bind_discovery_no_panic sys net (rs_network self) false) as Hnp.
    destruct (bind_discovery sys net (rs_network self) false) as [sock|e|]; [|by exists d|done].
    eexists. split; [done|]. destruct Hi as [Hr Hn Ha Hse Hd]. split; try done.
    cbn. intros Hp. unfold before_shutdown in Eb. by destruct (r_point d).
  - destruct (r_discovery d); [|done]. injection E as <-. eexists. split; [done|].
    destruct Hi as [Hr Hn Ha Hse Hd]. by split.
  - destruct (before_shutdown d && negb (bool_decide (r_attempts d = ∅))) eqn:Eb; [done|].
    destruct (router_shutdown_step d) as [d'|] eqn:Es; [|done]. injection E as <-. exists d'. split; [done|].
    eapply router_shutdown_step_inv; [done| |exact Es]. intros Hb. rewrite Hb in Eb. by apply negb_false_iff, bool_decide_eq_true in Eb.
Qed.

Lemma router_reachable_inv static_peers d :
  0 <= max_sessions (rs_limits self) -> rtc (router_step self) (spawn_router self static_peers) d ->
  router_inv self d.
Proof.
  intros H0 Hr. assert (H : forall x y, rtc (router_step self) x y -> router_inv self x -> router_inv self y).
  { induction 1 as [|x y z [a Ha] _ IH]; [done|]. intros Hx. apply IH.
    destruct (router_act_inv _ _ _ Hx Ha) as (? & [= ->] & ?). done. }
  eapply H; [exact Hr|]. by apply spawn_router_inv.
Qed.
End Preserved.

(** ** Theorems *)

Lemma validated_limits l : limits_validate l = Ok tt -> max_sessions l < usize_max.
Proof.
  unfold limits_validate. destruct ((max_sessions l =? 0) || (MAX_PERMITS <? max_sessions l)) eqn:E; [done|].
  intros _. bprop. change MAX_PERMITS with 2305843009213693951 in *. unfold usize_max, u64_max. lia.
Qed.

Lemma shutdown_points self d :
  router_inv self d ->
  match r_point d with
  | JoinSessions rest =>
      r_attempts d = ∅ /\ forall k s, r_sessions d !! k = Some s -> k ∈ rest /\ k ∈ r_told d
  | Returned =>
      r_attempts d = ∅ /\ r_sessions d = ∅ /\ r_slots d = max_sessions (rs_limits self)
      /\ (forall peer, default 0 (active_sessions <$> snapshot (r_registry d) !! peer) = 0)
      /\ r_discovery d = false
  | _ => True
  end.
Proof.
  intros Hi.
  assert (Hatt : r_point d <> NotCalled -> r_attempts d = ∅).
  { intros Hp. apply map_empty. intros k. destruct (r_attempts d !! k) as [a|] eqn:E; [|done].
    destruct (ri_attempts _ _ Hi k a E) as (_ & _ & _ & ?). done. }
  destruct (r_point d) as [| | | |rest|rest|] eqn:Ep; try done.
  - split; [by apply Hatt|]. intros k s Hk. destruct (ri_sessions _ _ Hi k s Hk) as (_ & Hh & Ha & _).
    unfold router_handles, router_addressed in *. by rewrite Ep in Hh, Ha.
  - specialize (Hatt ltac:(done)). assert (Hs : r_sessions d = ∅).
    { apply map_empty. intros k. destruct (r_sessions d !! k) as [s|] eqn:E; [|done].
      destruct (ri_sessions _ _ Hi k s E) as (_ & Hh & _). unfold router_handles in Hh. rewrite Ep in Hh.
      by apply elem_of_nil in Hh. }
    pose proof (ri_slots _ _ Hi) as [Hn _]. pose proof (ri_registry _ _ Hi) as [Hk Hsn].
    rewrite Hatt, Hs, !map_size_empty in Hn. rewrite Hs in Hk.
    split_and!; [done|done|lia| |].
    + intros peer. rewrite Hsn. apply Hk.
    + apply (ri_discovery _ _ Hi). by rewrite Ep.
Qed.

(** C29: The router's accounts.  In every run of a router daemon with valid limits, whatever
    the peers, the application and the clock do: nothing panics; attempts and sessions
    together use exactly the session slots that are not free, at most [max_sessions];
    the connection states the driver reads count each peer's sessions exactly; and
    every attempt and every session has the transport the configuration asks for, TLS
    with the client settings or plain TCP, never the other.  While [shutdown] waits for
    the sessions, each one left was sent the shutdown command and no attempt is under
    way; when it has returned, no session is left, every slot is free, no peer counts a
    session and the discovery task has ended. *)
Theorem router_accounts self static_peers d :
  limits_validate (rs_limits self) = Ok tt -> 0 <= max_sessions (rs_limits self) ->
  rtc (router_step self) (spawn_router self static_peers) d ->
  (forall a, router_act self a d <> Some Panic)
  /\ r_slots d + Z.of_nat (size (r_attempts d)) + Z.of_nat (size (r_sessions d))
     = max_sessions (rs_limits self) /\ 0 <= r_slots d
  /\ (forall peer, default 0 (active_sessions <$> snapshot (r_registry d) !! peer)
                   = occ peer (session_peers (r_sessions d)))
  /\ (forall k a, r_attempts d !! k = Some a -> tls_as_configured self (at_tls a))
  /\ (forall k s, r_sessions d !! k = Some s -> tls_as_configured self (st_tls s))
  /\ match r_point d with
     | JoinSessions rest =>
         r_attempts d = ∅ /\ forall k s, r_sessions d !! k = Some s -> k ∈ rest /\ k ∈ r_told d
     | Returned =>
         r_attempts d = ∅ /\ r_sessions d = ∅ /\ r_slots d = max_sessions (rs_limits self)
         /\ (forall peer, default 0 (active_sessions <$> snapshot (r_registry d) !! peer) = 0)
         /\ r_discovery d = false
     | _ => True
     end.
Proof.
  intros Hl%validated_limits H0 Hr. pose proof (router_reachable_inv self Hl _ _ H0 Hr) as Hi.
  pose proof (ri_slots _ _ Hi) as [Hs H0'].
  split; [|split; [done|split; [done|split; [|split; [|split]]]]].
  - intros a Ha. by destruct (router_act_inv self Hl _ _ _ Hi Ha) as (? & ? & _).
  - intros peer. destruct (ri_registry _ _ Hi) as [Hk ->]. apply Hk.
  - intros k a Hk. apply (ri_attempts _ _ Hi k a Hk).
  - intros k s Hk. apply (ri_sessions _ _ Hi k s Hk).
  - by apply shutdown_points.
Qed.

(** The endpoints of an offer that the configuration allows. *)
Definition compatible (self : RouterSettings) (endpoints : list OfferEndpoint) : list OfferEndpoint :=
  retain (fun e => Bool.eqb (ep_use_tls e) (nc_use_tls (rs_network self))) endpoints.

Definition is_err (r : outcome DaemonError unit) : Prop := exists e, r = Err e.

Lemma connect_endpoints_exact self endpoints connects error :
  let l := compatible self endpoints in
  match connect_endpoints self endpoints connects error with
  | (Some (Ok addr), dialled) =>
      exists tried e rest, l = tried ++ e :: rest /\ addr = ep_addr e
        /\ dialled = ep_addr <$> tried ++ [e]
        /\ connects !! length tried = Some (Ok tt) /\ Forall is_err (take (length tried) connects)
  | (Some (Err e), dialled) =>
      dialled = ep_addr <$> l /\ Forall is_err (take (length l) connects) /\ (length l <= length connects)%nat
      /\ last (take (length l) connects) = (if bool_decide (l = []) then None else Some (Err e))
      /\ (l = [] -> e = error)
  | (Some Panic, dialled) => Panic ∈ connects
  | (None, dialled) =>
      dialled = ep_addr <$> take (S (length connects)) l /\ Forall is_err connects
      /\ (length connects < length l)%nat
  end.
Proof.
  cbv zeta. unfold compatible, retain. revert connects error. induction endpoints as [|e es IH]; intros connects error.
  { cbn. split_and!; [done|apply Forall_nil_2|lia|done|done]. }
  cbn [connect_endpoints List.filter]. destruct (Bool.eqb (ep_use_tls e) (nc_use_tls (rs_network self))) eqn:Ee;
    cbn [negb]; [|apply IH].
  set (l := List.filter _ es) in *. destruct connects as [|[[]|e'|] connects].
  - split_and!; [done|apply Forall_nil_2|cbn; lia].
  - exists [], e, l. split_and!; done || apply Forall_nil_2.
  - specialize (IH connects e'). destruct (connect_endpoints self es connects e') as [[[addr|e2|]|] dialled].
    + destruct IH as (tried & x & rest & Hl & -> & -> & Hc & Hf). exists (e :: tried), x, rest.
      rewrite Hl. split_and!; try done. cbn. apply Forall_cons. split; [by eexists|done].
    + destruct IH as (-> & Hf & Hlen & Hlast & Herr). split_and!; try done.
      * cbn. apply Forall_cons. split; [by eexists|done].
      * cbn. lia.
      * rewrite bool_decide_false by done. cbn [length take]. destruct l as [|x l'].
        -- cbn. by rewrite Herr.
        -- rewrite bool_decide_false in Hlast by done. destruct connects as [|c connects]; [cbn in Hlen; lia|].
           cbn [length take] in *. exact Hlast.
    + by right.
    + destruct IH as (-> & Hf & Hlen). split_and!; [done| |cbn; lia]. apply Forall_cons. split; [by eexists|done].
  - left.
Qed.

(** Dialling an offer.  [connect_discovered] dials only endpoints whose TLS requirement
    is the configuration's, in the order of the offer, until one connects; it answers
    that one, or, when all failed, the error of the last. *)
Theorem offer_dialled self endpoints connects :
  let l := compatible self endpoints in
  match connect_discovered self endpoints connects with
  | (Some (Ok addr), dialled) =>
      exists tried e rest, l = tried ++ e :: rest /\ addr = ep_addr e
        /\ dialled = ep_addr <$> tried ++ [e]
        /\ connects !! length tried = Some (Ok tt) /\ Forall is_err (take (length tried) connects)
  | (Some (Err e), dialled) =>
      dialled = ep_addr <$> l /\ Forall is_err (take (length l) connects) /\ (length l <= length connects)%nat
      /\ last (take (length l) connects) = (if bool_decide (l = []) then None else Some (Err e))
      /\ (l = [] -> e = ConfigError (str "offer has no compatible connection points"))
  | (Some Panic, dialled) => Panic ∈ connects
  | (None, dialled) =>
      dialled = ep_addr <$> take (S (length connects)) l /\ Forall is_err connects
      /\ (length connects < length l)%nat
  end.
Proof. apply connect_endpoints_exact. Qed.

(** ** A run *)

Definition sample_settings : RouterSettings :=
  mkSettings TimersConfig_default NetworkConfig_default (str "router") (Some (mkClient [[1]] None))
    (mkLimits 2 1 300).

Fixpoint run_router (self : RouterSettings) (l : list RouterAction) (d : RouterState) : option RouterState :=
  match l with
  | [] => Some d
  | a :: l =>
      match router_act self a d with
      | Some (Ok d') => run_router self l d'
      | _ => None
      end
  end.

Lemma run_router_steps self l d d' : run_router self l d = Some d' -> rtc (router_step self) d d'.
Proof.
  revert d. induction l as [|a l IH]; intros d; cbn; [by intros [= ->]; apply rtc_refl|].
  destruct (router_act self a d) as [[d1|[]|]|] eqn:E; try done. intros H. eapply rtc_l; [by exists a|by apply IH].
Qed.

(** One session, one attempt that fails. *)
Definition router_actions : list RouterAction :=
  [Connect (endpoint 1); TransportResult 0 (Some (endpoint 1)); Register 0 5; Establish 0;
   Connect (endpoint 2); TransportResult 1 None].
Definition router_stop : list RouterAction :=
  [RouterShutdown; RouterShutdown; RouterShutdown; RouterShutdown; RouterShutdown; RouterShutdown].

Definition router_state_after (l : list RouterAction) : RouterState :=
  default (spawn_router sample_settings []) (run_router sample_settings l (spawn_router sample_settings [])).
Definition busy_router : RouterState := router_state_after router_actions.
Definition stopping_router : RouterState := router_state_after (router_actions ++ router_stop).

Lemma router_after_reached l :
  is_some (run_router sample_settings l (spawn_router sample_settings [])) = true ->
  rtc (router_step sample_settings) (spawn_router sample_settings []) (router_state_after l).
Proof.
  unfold router_state_after. destruct (run_router sample_settings l _) as [d|] eqn:E; [|done]. intros _. cbn.
  by eapply run_router_steps.
Qed.

Lemma busy_router_reached :
  rtc (router_step sample_settings) (spawn_router sample_settings []) busy_router.
Proof. apply (router_after_reached router_actions). vm_compute. reflexivity. Qed.

Lemma stopping_router_reached :
  rtc (router_step sample_settings) (spawn_router sample_settings []) stopping_router.
Proof. apply (router_after_reached (router_actions ++ router_stop)). vm_compute. reflexivity. Qed.

Lemma stopping_router_point : r_point stopping_router = JoinSessions [0%nat].
Proof. vm_compute. reflexivity. Qed.

Lemma router_accounts_witness :
  r_slots busy_router = 1
  /\ default 0 (active_sessions <$> snapshot (r_registry busy_router) !! endpoint 1) = 1
  /\ r_attempts stopping_router = ∅ /\ r_told stopping_router = [0%nat].
Proof.
  assert (Hl : limits_validate (rs_limits sample_settings) = Ok tt) by (vm_compute; reflexivity).
  assert (H0 : 0 <= max_sessions (rs_limits sample_settings)) by (vm_compute; discriminate).
  destruct (router_accounts sample_settings [] busy_router Hl H0 busy_router_reached) as (_ & _ & _ & Hr & _).
  destruct (router_accounts sample_settings [] stopping_router Hl H0 stopping_router_reached)
    as (_ & _ & _ & _ & _ & _ & Hp).
  rewrite stopping_router_point in Hp.
  split; [vm_compute; reflexivity|]. split; [rewrite Hr; vm_compute; reflexivity|].
  split; [exact (proj1 Hp)|vm_compute; reflexivity].
Defined.
