(* ===== verification/Startup.v ===== *)
(** * Starting the daemons

    [RouterBuilder::spawn] and [ModemBuilder::spawn] ([dlep-daemon/src/router.rs],
    [modem.rs]) and what the binaries do before their loops ([run_from] of
    [dlep-router/src/lib.rs] and [dlep-modem/src/lib.rs]), against the checks of
    [--check-config] in [Config]. *)

From S2P Require Import Prelude Externs CoreTypes Codec CodecItem CodecMessage Addresses Events SessionCommon.
From S2P Require Import DaemonTypes Connections DaemonApi Discovery Interfaces DiscoverySockets Config.
From S2P Require Import RouterDaemon.

(** Why a start fails: for the configuration, for TLS settings that were not supplied,
    or for what the operating system answers. *)
Inductive BootError : Type :=
  | BootConfig (e : ConfigCheckError)
  | ConfigRequired
  | TlsRequired
  | BootSystem.

(** The answers of the operating system to a program that starts: its files, interfaces
    and sockets, the address its listener gets, whether the packet monitor starts,
    whether the adapter does. *)
Record BootHost : Type := mkHost {
  h_files : ConfigFiles;
  h_system : System;
  h_sockets : Sockets;
  h_material : Material;
  h_listen : SocketAddr -> option SocketAddr;
  h_monitor : bool;
  h_adapter : RadioConfig -> bool;
}.

(** Why a program ends before its loop, and how it gets to the end of [run_from]'s
    start: with the check done, or with a daemon. *)
Inductive RunError : Type :=
  | RunLoad (e : ConfigLoadError)
  | RunCheck (e : ConfigCheckError)
  | RunBoot (e : BootError).
Inductive Run (A : Type) : Type :=
  | ConfigurationOk
  | Running (a : A).
Arguments ConfigurationOk {A}.
Arguments Running {A} a.

Definition with_check (check : bool) (cli : Cli) : Cli :=
  mkCli (cli_config cli) check (cli_interface cli) (cli_no_tls cli) (cli_ca_bundle cli) (cli_cert cli)
    (cli_key cli) (cli_peer cli).

(** What [ModemBuilder::spawn] leaves. *)
Record ModemStarted : Type := mkStarted {
  ms_local_addr : SocketAddr;
  ms_metrics : LinkMetrics;
  ms_tls : option ServerConfig;
  ms_discovery : option (DiscoverySocket * ModemDiscovery.ModemDiscoveryFsm);
  ms_link_control : bool;
}.

Section Start.
Context {crates : Crates} (host : BootHost).
Let sys := h_system host.
Let env := h_material host.
Let files := h_files host.

(** ** The router *)

Definition RouterBuilder_spawn (config : option RouterConfig) (tls : option ClientConfig)
    : outcome BootError RouterSettings :=
  cfg ← some_or ConfigRequired config;
  _ ← map_err (fun e => BootConfig (CheckTimers e)) (timers_validate (sh_timers (rc_shared cfg)));
  _ ← map_err (fun e => BootConfig (CheckInterface e))
        (validate_discovery_interface sys (sh_network (rc_shared cfg)));
  _ ← map_err (fun e => BootConfig (CheckLimits e)) (limits_validate (rc_limits cfg));
  Ok (mkSettings (sh_timers (rc_shared cfg)) (sh_network (rc_shared cfg)) (rc_peer_description cfg) tls
        (rc_limits cfg)).

(** The part of [run_from] and [run] after [--check-config], up to the driver's loop or
    [start_discovery]. *)
Definition router_boot (cfg : RouterConfig) : outcome BootError RouterSettings :=
  tls ← (if nc_use_tls (sh_network (rc_shared cfg)) then
           c ← map_err (fun e => BootConfig (CheckTls e)) (client_config env (sh_tls (rc_shared cfg)));
           Ok (Some c)
         else Ok None);
  settings ← RouterBuilder_spawn (Some cfg) tls;
  match rc_mode cfg with
  | ModeStatic =>
      if bool_decide (rc_static_peers cfg = []) then Err (BootConfig StaticModeWithoutPeers) else Ok settings
  | ModeDiscovery => Ok settings
  end.

(** [run_from] of the router. *)
Definition router_run_from (cli : Cli) : outcome RunError (Run RouterSettings) :=
  cfg ← map_err RunLoad
          (load_toml_config (read_to_string files) (fun text => RouterConfig_from <$> toml_router files text)
             RouterConfig_default (cli_config cli));
  let cfg := router_overrides cfg cli in
  if cli_check_config cli then
    _ ← map_err RunCheck (check_router_config sys env cfg); Ok ConfigurationOk
  else
    settings ← map_err RunBoot (router_boot cfg); Ok (Running settings).

(** ** The modem *)

(** [spawn_modem_discovery]. *)
Definition spawn_modem_discovery (cfg : ModemConfig) (local_addr : SocketAddr)
    : outcome BootError (option (DiscoverySocket * ModemDiscovery.ModemDiscoveryFsm)) :=
  let net := sh_network (mo_shared cfg) in
  match bind_discovery sys (h_sockets host) net true with
  | Ok socket =>
      Ok (Some (socket, ModemDiscovery.new local_addr (mo_peer_description cfg) (nc_use_tls net)))
  | Err _ => if is_some (nc_interface net) then Err BootSystem else Ok None
  | Panic => Panic
  end.

Definition ModemBuilder_spawn (config : option ModemConfig) (server_tls : option ServerConfig)
    (link_control : bool) : outcome BootError ModemStarted :=
  cfg ← some_or ConfigRequired config;
  let net := sh_network (mo_shared cfg) in
  _ ← map_err (fun e => BootConfig (CheckTimers e)) (timers_validate (sh_timers (mo_shared cfg)));
  _ ← map_err (fun e => BootConfig (CheckInterface e)) (validate_discovery_interface sys net);
  _ ← map_err (fun e => BootConfig (CheckMetrics e)) (metrics_validate (mo_metrics cfg));
  bind_addr ← map_err (fun e => BootConfig (CheckInterface e)) (tcp_bind_addr sys net);
  _ ← map_err (fun _ => BootSystem)
        (perform (h_sockets host) (configure_tcp (is_ipv6 bind_addr) (nc_gtsm_enforce net)));
  local_addr ← some_or BootSystem (h_listen host bind_addr);
  tls ← (if nc_use_tls net then c ← some_or TlsRequired server_tls; Ok (Some c) else Ok None);
  _ ← map_err (fun _ => BootSystem)
        (perform (h_sockets host) (configure_tcp (is_ipv6 local_addr) (nc_gtsm_enforce net)));
  _ ← (if nc_gtsm_enforce net && negb (h_monitor host) then Err BootSystem else Ok tt);
  discovery ← spawn_modem_discovery cfg local_addr;
  Ok (mkStarted local_addr (config_link_metrics (mo_metrics cfg)) tls discovery link_control).

(** [Adapter::spawn], as far as it can fail. *)
Definition adapter_spawn (radio : RadioConfig) : outcome BootError unit :=
  _ ← map_err (fun e => BootConfig (CheckRadio (Some e))) (radio_config_validate radio);
  if h_adapter host radio then Ok tt else Err BootSystem.

Definition start_radio (radio : option RadioConfig) : outcome BootError unit :=
  match radio with Some radio => adapter_spawn radio | None => Ok tt end.

Definition server_settings (cfg : ModemConfig) : outcome BootError (option ServerConfig) :=
  if nc_use_tls (sh_network (mo_shared cfg)) then
    c ← map_err (fun e => BootConfig (CheckTls e)) (server_config env (sh_tls (mo_shared cfg))); Ok (Some c)
  else Ok None.

(** The part of [run_from] after [--check-config], up to its wait for a signal or the
    adapter. *)
Definition modem_boot (cfg : ModemConfig) : outcome BootError ModemStarted :=
  tls ← server_settings cfg;
  _ ← start_radio (mo_radio cfg);
  ModemBuilder_spawn (Some cfg) tls (is_some (mo_radio cfg)).

(** [run_from] of the modem. *)
Definition modem_run_from (cli : Cli) : outcome RunError (Run ModemStarted) :=
  cfg ← map_err RunLoad
          (load_toml_config (read_to_string files) (fun text => ModemConfig_from <$> toml_modem files text)
             ModemConfig_default (cli_config cli));
  let cfg := modem_overrides cfg cli in
  if cli_check_config cli then
    _ ← map_err RunCheck (check_modem_config sys env cfg); Ok ConfigurationOk
  else
    started ← map_err RunBoot (modem_boot cfg); Ok (Running started).

(** ** Theorems *)

Lemma load_no_panic {A} read from_str (default : A) path : load_toml_config read from_str default path <> Panic.
Proof. destruct path as [p|]; cbn; [|done]. destruct (read p) as [text|]; [|done]. by destruct (from_str text). Qed.

(** A validated interface resolves again where the listener needs its index. *)
Lemma tcp_bind_addr_validated cfg :
  validate_discovery_interface sys cfg = Ok tt -> exists a, tcp_bind_addr sys cfg = Ok a.
Proof.
  unfold validate_discovery_interface, tcp_bind_addr. destruct (nc_bind_addr cfg) as [ip|ip]; [by eexists|].
  destruct (is_unicast_link_local ip); [|by eexists].
  destruct (resolve_v6 sys (discovery_interface cfg) ip) as [i|e|]; [|done|done]. intros _. by eexists.
Qed.

(** What the start of a router makes of a configuration, against the check. *)
Lemma router_boot_checked cfg :
  match router_boot cfg with
  | Ok settings =>
      check_router_config sys env cfg = Ok tt
      /\ rs_network settings = sh_network (rc_shared cfg)
      /\ limits_validate (rs_limits settings) = Ok tt
      /\ is_some (rs_client_tls settings) = nc_use_tls (rs_network settings)
      /\ forall peer d, (connect_begin settings peer d).1 = Err SessionLimitReached
           \/ exists k, (connect_begin settings peer d).1 = Ok k
  | Err _ => exists e, check_router_config sys env cfg = Err e
  | Panic => False
  end.
Proof.
  unfold router_boot, check_router_config, RouterBuilder_spawn. cbn [some_or mbind outcome_bind].
  destruct cfg as [limits [net tls timers] mode peers desc]. cbn [rc_shared sh_network sh_tls sh_timers
    rc_limits rc_mode rc_static_peers rc_peer_description].
  assert (Hbegin : forall c peer d, is_some c = nc_use_tls net ->
    (connect_begin (mkSettings timers net desc c limits) peer d).1 = Err SessionLimitReached
    \/ exists k, (connect_begin (mkSettings timers net desc c limits) peer d).1 = Ok k).
  { intros c peer d Hc. unfold connect_begin. cbn [rs_network rs_client_tls].
    destruct (r_slots d =? 0); [by left|]. right. rewrite <-Hc. destruct c; cbn; by eexists. }
  pose proof (limits_validate_no_panic limits). pose proof (timers_validate_no_panic timers).
  pose proof (validate_interface_no_panic sys net). pose proof (client_config_no_panic env tls).
  destruct (limits_validate limits) as [[]|el|] eqn:El, (timers_validate timers) as [[]|et|] eqn:Et,
    (validate_discovery_interface sys net) as [[]|ei|] eqn:Ei; try done;
    destruct (nc_use_tls net) eqn:Eu; try (destruct (client_config env tls) as [c|ec|]; [| |done]);
    cbn [map_err mbind outcome_bind]; destruct mode; cbn [map_err mbind outcome_bind];
    try case_bool_decide; cbn [rs_limits rs_client_tls rs_network]; rewrite ?Eu; eauto 10.
Qed.

Lemma router_start_checked cli :
  match router_run_from (with_check false cli) with
  | Ok (Running settings) =>
      router_run_from (with_check true cli) = Ok ConfigurationOk
      /\ limits_validate (rs_limits settings) = Ok tt
      /\ (cli_no_tls cli = true -> nc_use_tls (rs_network settings) = false)
      /\ (forall name, cli_interface cli = Some name -> nc_interface (rs_network settings) = Some name)
      /\ is_some (rs_client_tls settings) = nc_use_tls (rs_network settings)
      /\ forall peer d, (connect_begin settings peer d).1 = Err SessionLimitReached
           \/ exists k, (connect_begin settings peer d).1 = Ok k
  | Ok ConfigurationOk => False
  | Err _ => exists e, router_run_from (with_check true cli) = Err e
  | Panic => False
  end.
Proof.
  unfold router_run_from. change (cli_config (with_check _ cli)) with (cli_config cli).
  destruct (load_toml_config _ _ _ _) as [cfg|e|] eqn:El; cbn [map_err mbind outcome_bind];
    [|by eexists|by apply load_no_panic in El].
  change (router_overrides cfg (with_check _ cli)) with (router_overrides cfg cli). cbn [with_check cli_check_config].
  pose proof (router_boot_checked (router_overrides cfg cli)) as H.
  destruct (router_boot (router_overrides cfg cli)) as [settings|e|]; cbn [map_err mbind outcome_bind]; [| |done].
  - destruct H as (-> & Hn & Hl & Ht & Hc). rewrite Hn. split_and!; [done|done| | |by rewrite <-Hn|done].
    + cbn. by intros ->.
    + cbn. by intros name ->.
  - destruct H as [e' ->]. by eexists.
Qed.

Lemma metrics_validate_no_panic m : metrics_validate m <> Panic.
Proof.
  unfold metrics_validate. destruct (_ || _); [done|].
  pose proof (Message_encode_no_panic (build_session_update (config_link_metrics m))).
  by destruct (Message_encode (build_session_update (config_link_metrics m))).
Qed.

Lemma spawn_discovery_cases cfg local_addr :
  match spawn_modem_discovery cfg local_addr with
  | Ok _ => True
  | Err e => e = BootSystem
  | Panic => False
  end.
Proof.
  unfold spawn_modem_discovery.
  pose proof (bind_discovery_no_panic sys (h_sockets host) (sh_network (mo_shared cfg)) true).
  destruct (bind_discovery _ _ _ _); [done| |done]. by destruct (is_some _).
Qed.

(** After the checks of the configuration, the modem's start fails for the system only. *)
Lemma modem_spawn_checked cfg tls link_control :
  timers_validate (sh_timers (mo_shared cfg)) = Ok tt ->
  validate_discovery_interface sys (sh_network (mo_shared cfg)) = Ok tt ->
  metrics_validate (mo_metrics cfg) = Ok tt -> is_some tls = nc_use_tls (sh_network (mo_shared cfg)) ->
  match ModemBuilder_spawn (Some cfg) tls link_control with
  | Ok m => ms_tls m = tls /\ ms_metrics m = config_link_metrics (mo_metrics cfg)
  | Err e => e = BootSystem
  | Panic => False
  end.
Proof.
  intros Ht Hi Hm Hs. unfold ModemBuilder_spawn. cbn [some_or mbind outcome_bind].
  rewrite Ht, Hi, Hm. cbn [map_err mbind outcome_bind].
  destruct (tcp_bind_addr_validated _ Hi) as [a ->]. cbn [map_err mbind outcome_bind].
  unfold perform. destruct (forallb _ _); cbn [map_err mbind outcome_bind]; [|done].
  destruct (h_listen host a) as [local|]; cbn [some_or mbind outcome_bind]; [|done].
  assert (E : (if nc_use_tls (sh_network (mo_shared cfg)) then c ← some_or TlsRequired tls; Ok (Some c)
               else Ok None) = Ok tls) by (rewrite <-Hs; by destruct tls).
  rewrite E. cbn [mbind outcome_bind].
  destruct (forallb _ _); cbn [map_err mbind outcome_bind]; [|done].
  destruct (_ && _); cbn [mbind outcome_bind]; [done|].
  pose proof (spawn_discovery_cases cfg local). by destruct (spawn_modem_discovery cfg local).
Qed.

Lemma modem_spawn_unchecked cfg tls link_control :
  (exists e, timers_validate (sh_timers (mo_shared cfg)) = Err e)
  \/ (exists e, validate_discovery_interface sys (sh_network (mo_shared cfg)) = Err e)
  \/ (exists e, metrics_validate (mo_metrics cfg) = Err e) ->
  exists e, ModemBuilder_spawn (Some cfg) tls link_control = Err e.
Proof.
  intros H. unfold ModemBuilder_spawn. cbn [some_or mbind outcome_bind].
  pose proof (timers_validate_no_panic (sh_timers (mo_shared cfg))).
  destruct (timers_validate _) as [[]|e|]; [|by eexists|done]. cbn [map_err mbind outcome_bind].
  pose proof (validate_interface_no_panic sys (sh_network (mo_shared cfg))).
  destruct (validate_discovery_interface _ _) as [[]|e|]; [|by eexists|done]. cbn [map_err mbind outcome_bind].
  destruct H as [[? ?]|[[? ?]|[e ->]]]; [done|done|]. by eexists.
Qed.

(** The checks of the adapter's section against its start. *)
Lemma radio_check radio :
  (forall radio, h_adapter host radio = true -> is_file env (rd_command radio) = true) ->
  match check_radio env radio with
  | Ok _ => start_radio radio = Ok tt \/ start_radio radio = Err BootSystem
  | Err _ => exists e, start_radio radio = Err e
  | Panic => False
  end.
Proof.
  intros Hfile. destruct radio as [r|]; [|by left].
  unfold check_radio, start_radio, adapter_spawn, radio_config_validate, radio_validate.
  destruct (negb _); [by eexists|]. destruct (_ =? 0); [by eexists|]. cbn [map_err mbind outcome_bind].
  pose proof (Hfile r) as Hf. destruct (is_file env (rd_command r)), (h_adapter host r); eauto.
  by specialize (Hf eq_refl).
Qed.

(** The TLS settings against their check. *)
Lemma server_settings_cases cfg :
  (exists t, server_settings cfg = Ok t /\ is_some t = nc_use_tls (sh_network (mo_shared cfg))
     /\ (if nc_use_tls (sh_network (mo_shared cfg)) then
           _ ← map_err CheckTls (server_config env (sh_tls (mo_shared cfg))); Ok tt else Ok tt) = Ok tt)
  \/ (exists e e', server_settings cfg = Err e
     /\ (if nc_use_tls (sh_network (mo_shared cfg)) then
           _ ← map_err CheckTls (server_config env (sh_tls (mo_shared cfg))); Ok tt else Ok tt) = Err e').
Proof.
  unfold server_settings. pose proof (server_config_no_panic env (sh_tls (mo_shared cfg))).
  destruct (nc_use_tls _); [|by left; eexists].
  destruct (server_config env (sh_tls (mo_shared cfg))) as [c|e|]; [by left; eexists|by right; do 2 eexists|done].
Qed.

(** What the start of a modem makes of a configuration, against the check. *)
Lemma modem_boot_checked cfg :
  (forall radio, h_adapter host radio = true -> is_file env (rd_command radio) = true) ->
  match check_modem_config sys env cfg with
  | Ok _ =>
      match modem_boot cfg with
      | Ok m => is_some (ms_tls m) = nc_use_tls (sh_network (mo_shared cfg))
                /\ ms_metrics m = config_link_metrics (mo_metrics cfg)
      | Err e => e = BootSystem
      | Panic => False
      end
  | Err _ => exists e, modem_boot cfg = Err e
  | Panic => False
  end.
Proof.
  intros Hfile. unfold check_modem_config, modem_boot.
  pose proof (radio_check (mo_radio cfg) Hfile) as Hrad.
  pose proof (timers_validate_no_panic (sh_timers (mo_shared cfg))).
  pose proof (validate_interface_no_panic sys (sh_network (mo_shared cfg))).
  pose proof (metrics_validate_no_panic (mo_metrics cfg)).
  pose proof (server_settings_cases cfg) as Htls.
  assert (Hbad : (exists e, timers_validate (sh_timers (mo_shared cfg)) = Err e)
    \/ (exists e, validate_discovery_interface sys (sh_network (mo_shared cfg)) = Err e)
    \/ (exists e, metrics_validate (mo_metrics cfg) = Err e) ->
    exists e, (tls ← server_settings cfg; _ ← start_radio (mo_radio cfg);
               ModemBuilder_spawn (Some cfg) tls (is_some (mo_radio cfg))) = Err e).
  { intros Hb. destruct Htls as [(t & -> & _)|(e & e' & -> & _)]; [|by eexists]. cbn [mbind outcome_bind].
    destruct (check_radio env (mo_radio cfg)) as [[]|e|]; [|by destruct Hrad as [e' ->]; eexists|done].
    destruct Hrad as [->| ->]; [|by eexists]. by apply modem_spawn_unchecked. }
  destruct (timers_validate (sh_timers (mo_shared cfg))) as [[]|e|] eqn:Et; cbn [map_err mbind outcome_bind];
    [|apply Hbad; left; by eexists|done].
  destruct (validate_discovery_interface sys (sh_network (mo_shared cfg))) as [[]|e|] eqn:Ei;
    cbn [map_err mbind outcome_bind]; [|apply Hbad; right; left; by eexists|done].
  destruct (metrics_validate (mo_metrics cfg)) as [[]|e|] eqn:Em; cbn [map_err mbind outcome_bind];
    [|apply Hbad; right; right; by eexists|done].
  destruct (check_radio env (mo_radio cfg)) as [[]|e|]; cbn [mbind outcome_bind]; [| |done].
  2: { destruct Hrad as [e' ->]. destruct Htls as [(t & -> & _)|(e2 & e3 & -> & _)]; by eexists. }
  destruct Htls as [(t & -> & Hs & ->)|(e & e' & -> & ->)]; cbn [mbind outcome_bind]; [|by eexists].
  destruct Hrad as [->| ->]; cbn [mbind outcome_bind]; [|done].
  pose proof (modem_spawn_checked cfg t (is_some (mo_radio cfg)) Et Ei Em Hs) as Hc.
  destruct (ModemBuilder_spawn _ _ _); [|done|done]. by destruct Hc as [-> ->].
Qed.

Lemma modem_start_checked cli :
  (forall radio, h_adapter host radio = true -> is_file env (rd_command radio) = true) ->
  match modem_run_from (with_check true cli) with
  | Ok ConfigurationOk =>
      match modem_run_from (with_check false cli) with
      | Ok (Running m) => cli_no_tls cli = true -> ms_tls m = None
      | Err e => e = RunBoot BootSystem
      | _ => False
      end
  | Ok (Running _) => False
  | Err _ => exists e, modem_run_from (with_check false cli) = Err e
  | Panic => False
  end.
Proof.
  intros Hfile. unfold modem_run_from. change (cli_config (with_check _ cli)) with (cli_config cli).
  destruct (load_toml_config _ _ _ _) as [cfg|e|] eqn:El; cbn [map_err mbind outcome_bind];
    [|by eexists|by apply load_no_panic in El].
  change (modem_overrides cfg (with_check _ cli)) with (modem_overrides cfg cli). cbn [with_check cli_check_config].
  pose proof (modem_boot_checked (modem_overrides cfg cli) Hfile) as H.
  destruct (check_modem_config sys env (modem_overrides cfg cli)) as [[]|e|]; cbn [map_err mbind outcome_bind]; [| |done].
  - destruct (modem_boot (modem_overrides cfg cli)) as [m|e|]; cbn [map_err mbind outcome_bind]; [|by subst|done].
    destruct H as [Ht _]. cbn in Ht. intros Hno. rewrite Hno in Ht. by destruct (ms_tls m).
  - destruct H as [e' ->]. by eexists.
Qed.
(** C32: The check is the start.  Run with [--check-config] the router accepts a command line
    and its configuration file exactly if the start without the option gets through with
    them to its connection loop, or to the socket of discovery; the daemon then has valid
    limits, no TLS if the command line forbids it, the interface the command line names,
    and client TLS settings exactly if TLS is asked for, so that no connection fails for
    want of them.  What the modem accepts with [--check-config] is never refused at the
    start: what can fail then are the sockets, the packet monitor or the adapter process;
    and what it rejects does not start. *)
Theorem check_faithful cli :
  (forall radio, h_adapter host radio = true -> is_file env (rd_command radio) = true) ->
  (match router_run_from (with_check false cli) with
     | Ok (Running settings) =>
         router_run_from (with_check true cli) = Ok ConfigurationOk
         /\ limits_validate (rs_limits settings) = Ok tt
         /\ (cli_no_tls cli = true -> nc_use_tls (rs_network settings) = false)
         /\ (forall name, cli_interface cli = Some name -> nc_interface (rs_network settings) = Some name)
         /\ is_some (rs_client_tls settings) = nc_use_tls (rs_network settings)
         /\ forall peer d, (connect_begin settings peer d).1 = Err SessionLimitReached
              \/ exists k, (connect_begin settings peer d).1 = Ok k
     | Ok ConfigurationOk => False
     | Err _ => exists e, router_run_from (with_check true cli) = Err e
     | Panic => False
     end)
  /\ (match modem_run_from (with_check true cli) with
     | Ok ConfigurationOk =>
         match modem_run_from (with_check false cli) with
         | Ok (Running m) => cli_no_tls cli = true -> ms_tls m = None
         | Err e => e = RunBoot BootSystem
         | _ => False
         end
     | Ok (Running _) => False
     | Err _ => exists e, modem_run_from (with_check false cli) = Err e
     | Panic => False
     end).
Proof. intros Hfile. split; [apply router_start_checked|by apply modem_start_checked]. Qed.
End Start.

(** ** An example *)

#[local] Existing Instance reference_crates.

Definition sample_material : Material :=
  mkMaterial (fun _ => Some [1]) (fun _ => true) (fun f => inr [f]) (fun f => inr f) (fun _ => true)
    (fun _ _ => true) (fun _ => true).
Definition sample_modem_file : ModemConfigFile :=
  mkModemFile sample_network (mkTls (Some (str "cert")) (Some (str "key")) None false) TimersConfig_default
    MetricsConfig_default (Some (RadioConfig_new (str "/usr/lib/adapter"))) (str "modem").
Definition sample_files : ConfigFiles :=
  mkFiles (fun path => Some path) (fun _ => None) (fun _ => Some sample_modem_file).
Definition sample_host : BootHost :=
  mkHost sample_files sample_system sample_sockets sample_material (fun a => Some a) true (fun _ => true).
Definition sample_cli : Cli := mkCli (Some (str "modem.toml")) false None true None None None [].

Lemma check_faithful_witness :
  modem_run_from sample_host (with_check true sample_cli) = Ok ConfigurationOk
  /\ exists m, modem_run_from sample_host (with_check false sample_cli) = Ok (Running m) /\ ms_tls m = None.
Proof.
  destruct (check_faithful sample_host sample_cli (fun _ _ => eq_refl)) as [_ H].
  assert (E : modem_run_from sample_host (with_check true sample_cli) = Ok ConfigurationOk)
    by (vm_compute; reflexivity).
  split; [exact E|]. rewrite E in H.
  assert (Eb : is_ok (modem_run_from sample_host (with_check false sample_cli)) = true)
    by (vm_compute; reflexivity).
  destruct (modem_run_from sample_host (with_check false sample_cli)) as [[|m]|e|];
    [destruct H| |discriminate Eb|discriminate Eb].
  exists m. split; [reflexivity|]. apply H. reflexivity.
Defined.
