(* ===== verification/RouterProcess.v ===== *)
(** * The life of the router process

    What [run_from] of [dlep-router/src/lib.rs] does with a started daemon: it runs the
    connection driver ([Reconnect]) on the daemon ([RouterDaemon]) until a signal arrives,
    drops the driver with its pending attempts, and shuts the daemon down.  The driver
    and its attempts are one task, which is suspended only inside [select!]; the session
    tasks, the discovery task and the reaper run beside it.  Peers, transports, signals
    and clock are the environment's steps. *)

From S2P Require Import Prelude Externs CoreTypes Codec Addresses Events SessionCommon DaemonTypes Connections.
From S2P Require Import Reconnect DriverInv DaemonApi Interfaces DiscoverySockets Config RouterDaemon.

(** ** The futures of the attempts *)

(** The future of an attempt: the connection it has begun, and the endpoints left to dial.
    [connect_static] has one endpoint, [connect_discovered] those of the offer that fit
    the configuration. *)
Record Future : Type := mkFuture {
  fu_dial : option nat;
  fu_targets : list SocketAddr;
}.

(** The futures by the first endpoint of their attempt; no two attempts share it. *)
Abbreviation Futures := (gmap SocketAddr Future).

Definition attempt_key (x : Attempt) : option SocketAddr := head (at_endpoints x).

(** Attempts without a future have just been made; [offer] are the endpoints to dial of the
    offer accepted last. *)
Definition add_future (offer : list SocketAddr) (m : Futures) (x : Attempt) : Futures :=
  match attempt_key x with
  | Some h =>
      if is_some (m !! h) then m
      else <[h := mkFuture None (match retry_peer x with Some p => [p] | None => offer end)]> m
  | None => m
  end.
Definition add_futures (offer : list SocketAddr) (l : list Attempt) (m : Futures) : Futures :=
  foldl (add_future offer) m l.

(** Dropping futures releases the session slots of their connections. *)
Definition drop_future (d : RouterState) (f : Future) : RouterState :=
  match fu_dial f with Some k => release k d | None => d end.
Definition drop_futures (l : list Future) (d : RouterState) : RouterState := foldl drop_future d l.

(** ** The process *)

(** Where [run_from] is: before [run], at the top of the loop with the local variable
    [refresh], inside [select!] with the deadline it sleeps until, inside [shutdown], or
    over; [failed] that [run] returned an error, which is the result. *)
Inductive RouterMain : Type :=
  | Launching
  | AtTop (refresh : bool)
  | Selecting (deadline : option Instant)
  | RouterStopping (failed : bool)
  | RouterOver (failed : bool).

(** [rp_seen] is the snapshot the driver read last. *)
Record RouterProcess : Type := mkRouterProcess {
  rp_main : RouterMain;
  rp_driver : Driver;
  rp_seen : Snapshot;
  rp_futures : Futures;
  rp_daemon : RouterState;
}.

(** What can happen.  The channels the loop reads stay open while the daemon lives, so the
    loop does not return by itself; [OtherWake] is a slot that has become free or an event
    that is only logged. *)
Inductive RouterEvent : Type :=
  | OnRouter (a : RouterAction)
  | Launch (sys : System) (net : Sockets)
  | TopOfLoop (now : Instant) (changed : bool)
  | StatesChanged
  | OtherWake
  | RetryTick (now : Instant)
  | OfferArrives (endpoints : list OfferEndpoint)
  | PollAttempt (h : SocketAddr)
  | TransportDone (h : SocketAddr) (ok : bool)
  | RegisterAttempt (h : SocketAddr) (now : Instant)
  | AttemptFails (h : SocketAddr) (now : Instant)
  | RouterSignal
  | ShutdownReturns.

Section Process.
Variable self : RouterSettings.
Variable mode : DiscoveryMode.
Variable static_peers : list SocketAddr.
(** [getpeername] on a connection to an address. *)
Variable peer_addr : SocketAddr -> SocketAddr.

Definition router_launched : RouterProcess :=
  mkRouterProcess Launching (driver_start []) ∅ ∅ (spawn_router self static_peers).

(** The peers [run] gives the loop, and [pinned]. *)
Definition loop_peers : list SocketAddr := match mode with ModeStatic => static_peers | ModeDiscovery => [] end.
Definition loop_pins : gset SocketAddr := list_to_set loop_peers.

(** The driver is dropped, then [shutdown] is called. *)
Definition leave (failed : bool) (p : RouterProcess) : RouterProcess :=
  mkRouterProcess (RouterStopping failed) (rp_driver p) (rp_seen p) ∅
    (drop_futures (map_to_list (rp_futures p)).*2 (rp_daemon p)).

(** [run], up to the loop. *)
Definition launch (sys : System) (net : Sockets) (p : RouterProcess) : panics RouterProcess :=
  let begin d := mkRouterProcess (AtTop true) (driver_start loop_peers) ∅ ∅ d in
  match mode with
  | ModeStatic => Ok (if bool_decide (static_peers = []) then leave true p else begin (rp_daemon p))
  | ModeDiscovery =>
      match router_start_discovery self sys net (rp_daemon p) with
      | (Ok _, d) => Ok (begin d)
      | (Err _, d) => Ok (leave true (mkRouterProcess (rp_main p) (rp_driver p) (rp_seen p) (rp_futures p) d))
      | (Panic, _) => Panic
      end
  end.

(** From the top of the loop to [select!].  [changed] tells that the watched value was
    replaced since it was read, which it was in any case if it differs. *)
Definition top_of_loop (refresh : bool) (now : Instant) (changed : bool) (p : RouterProcess)
    : panics RouterProcess :=
  let snap := snapshot (r_registry (rp_daemon p)) in
  let read := refresh || changed || negb (bool_decide (snap = rp_seen p)) in
  let r := if read then Some (snap, now) else None in
  let left := reserved (dr_attempts (refreshed r loop_pins (rp_driver p))) in
  let kept := filter (fun hf => hf.1 ∈ left) (rp_futures p) in
  let gone := filter (fun hf => hf.1 ∉ left) (rp_futures p) in
  let d := drop_futures (map_to_list gone).*2 (rp_daemon p) in
  driver ← loop_top r loop_pins (connection_capacity d) (rp_driver p);
  deadline ← retry_deadline (connection_capacity d) driver;
  Ok (mkRouterProcess (Selecting deadline) driver (if read then snap else rp_seen p)
        (add_futures [] (attempts (dr_attempts driver)) kept) d).

(** A branch of [select!] that changes the driver. *)
Definition after_branch (offer : list SocketAddr) (driver : Driver) (p : RouterProcess) : RouterProcess :=
  mkRouterProcess (AtTop false) driver (rp_seen p)
    (add_futures offer (attempts (dr_attempts driver)) (rp_futures p)) (rp_daemon p).

(** The endpoints of the offer that [connect_discovered] will dial. *)
Definition offer_targets (driver : Driver) (endpoints : list OfferEndpoint) : list SocketAddr :=
  ep_addr <$> compatible self (retain (fun e => negb (queued (dr_reconnect driver) (ep_addr e))) endpoints).

Definition set_future (h : SocketAddr) (f : Future) (d : RouterState) (p : RouterProcess) : RouterProcess :=
  mkRouterProcess (rp_main p) (rp_driver p) (rp_seen p) (<[h := f]> (rp_futures p)) d.

(** The future begins the next connection, or, if that fails at once, is left with the
    endpoints behind it. *)
Definition poll_attempt (h : SocketAddr) (peer : SocketAddr) (rest : list SocketAddr) (p : RouterProcess)
    : panics RouterProcess :=
  match connect_begin self peer (rp_daemon p) with
  | (Ok k, d) => Ok (set_future h (mkFuture (Some k) rest) d p)
  | (Err _, d) => Ok (set_future h (mkFuture None rest) d p)
  | (Panic, _) => Panic
  end.

Definition transport_done (h : SocketAddr) (k : nat) (a : DialTask) (peer : SocketAddr) (rest : list SocketAddr)
    (ok : bool) (p : RouterProcess) : panics RouterProcess :=
  match connect_transport k a (if ok then Ok (peer_addr peer) else Err IoError) (rp_daemon p) with
  | (Ok _, d) => Ok (set_future h (mkFuture (Some k) rest) d p)
  | (Err _, d) => Ok (set_future h (mkFuture None rest) d p)
  | (Panic, _) => Panic
  end.

(** [attempts.next()] returns the attempt. *)
Definition attempt_over (h : SocketAddr) (ok : bool) (now : Instant) (d : RouterState) (p : RouterProcess)
    : panics RouterProcess :=
  i ← expect (fst <$> list_find (fun x => attempt_key x = Some h) (attempts (dr_attempts (rp_driver p))));
  driver ← on_completion i ok now (rp_driver p);
  Ok (mkRouterProcess (AtTop ok) driver (rp_seen p) (delete h (rp_futures p)) d).

Definition register_attempt (h : SocketAddr) (k : nat) (a : DialTask) (addr : SocketAddr) (rest : list SocketAddr)
    (now : Instant) (p : RouterProcess) : panics RouterProcess :=
  match connect_register k a addr now (rp_daemon p) with
  | (Ok _, d) => attempt_over h true now d p
  | (Err _, d) => Ok (set_future h (mkFuture None rest) d p)
  | (Panic, _) => Panic
  end.

(** What runs beside the driver; [shutdown] after it. *)
Definition router_allowed (a : RouterAction) (m : RouterMain) : bool :=
  match a, m with
  | Establish _, _ | EndSession _ _, _ | Reap _, _ | DiscoveryStops, _ => true
  | RouterShutdown, RouterStopping _ => true
  | _, _ => false
  end.

Definition router_process_act (e : RouterEvent) (p : RouterProcess) : option (panics RouterProcess) :=
  let d := rp_daemon p in
  let driver := rp_driver p in
  let with_main m := Some (Ok (mkRouterProcess m driver (rp_seen p) (rp_futures p) d)) in
  match e, rp_main p with
  | OnRouter a, m =>
      if router_allowed a m then
        match router_act self a d with
        | Some (Ok d) => Some (Ok (mkRouterProcess m driver (rp_seen p) (rp_futures p) d))
        | Some _ => Some Panic
        | None => None
        end
      else None
  | Launch sys net, Launching => Some (launch sys net p)
  | TopOfLoop now changed, AtTop refresh => Some (top_of_loop refresh now changed p)
  | StatesChanged, Selecting _ => with_main (AtTop true)
  | OtherWake, Selecting _ => with_main (AtTop false)
  | RetryTick now, Selecting (Some deadline) =>
      if deadline <=? now then
        Some (driver ← on_retry_tick now (connection_capacity d) driver; Ok (after_branch [] driver p))
      else None
  | OfferArrives endpoints, Selecting _ =>
      match mode with
      | ModeDiscovery =>
          Some (driver' ← on_peer_discovered endpoints (connection_capacity d) driver;
                Ok (after_branch (offer_targets driver endpoints) driver' p))
      | ModeStatic => None
      end
  | PollAttempt h, Selecting _ =>
      match rp_futures p !! h with
      | Some (mkFuture None (peer :: rest)) => Some (poll_attempt h peer rest p)
      | _ => None
      end
  | TransportDone h ok, Selecting _ =>
      match rp_futures p !! h with
      | Some (mkFuture (Some k) rest) =>
          match r_attempts d !! k with
          | Some (mkDialTask (Dialling peer) tls) =>
              Some (transport_done h k (mkDialTask (Dialling peer) tls) peer rest ok p)
          | _ => None
          end
      | _ => None
      end
  | RegisterAttempt h now, Selecting _ =>
      match rp_futures p !! h with
      | Some (mkFuture (Some k) rest) =>
          match r_attempts d !! k with
          | Some (mkDialTask (Locking addr) tls) =>
              Some (register_attempt h k (mkDialTask (Locking addr) tls) addr rest now p)
          | _ => None
          end
      | _ => None
      end
  | AttemptFails h now, Selecting _ =>
      match rp_futures p !! h with
      | Some (mkFuture None []) => Some (attempt_over h false now d p)
      | _ => None
      end
  | RouterSignal, (Launching | Selecting _) => Some (Ok (leave false p))
  | ShutdownReturns, RouterStopping failed =>
      match r_point d with
      | Returned => with_main (RouterOver failed)
      | _ => None
      end
  | _, _ => None
  end.

Definition router_process_step (p p' : RouterProcess) : Prop :=
  exists e, router_process_act e p = Some (Ok p').
End Process.

(** ** What the daemon does beside the driver *)

(** The registry forgets peers, but none that is configured, and learns of none. *)
Record tame (r r' : ConnectionRegistry) : Prop := {
  ta_pinned : pinned r' = pinned r;
  ta_known : forall p, is_Some (snapshot r' !! p) -> is_Some (snapshot r !! p);
  ta_kept : forall p, p ∈ pinned r -> is_Some (snapshot r !! p) -> is_Some (snapshot r' !! p);
}.

Lemma prune_locked_states now r p :
  states (history (prune_locked now r).2) !! p
  = match states (history r) !! p with
    | Some st => if keep_peer r now (history r) p st then Some st else None
    | None => None
    end.
Proof.
  unfold prune_locked. cbn. rewrite map_lookup_filter. destruct (states (history r) !! p) as [st|]; [|done]. cbn.
  destruct (keep_peer r now (history r) p st) eqn:E; case_guard; cbn in *; congruence.
Qed.

Lemma prune_locked_kept now r p :
  (is_Some (states (history (prune_locked now r).2) !! p) -> is_Some (states (history r) !! p))
  /\ (p ∈ pinned r -> is_Some (states (history r) !! p) ->
      is_Some (states (history (prune_locked now r).2) !! p)).
Proof.
  rewrite prune_locked_states. split.
  - destruct (states (history r) !! p); [by eexists|done].
  - intros Hp [st ->]. unfold keep_peer. rewrite bool_decide_eq_true_2 by done. by eexists.
Qed.

Lemma tame_prune now r live : registry_inv r live -> tame r (prune now r).
Proof.
  intros [_ Hs]. unfold prune. destruct (prune_locked now r) as [[] r'] eqn:E; [|split; injection E as _ <-; by cbn].
  assert (E' : r' = (prune_locked now r).2) by by rewrite E. split; rewrite E'; cbn [publish snapshot].
  - done.
  - intros p. rewrite Hs. by apply prune_locked_kept.
  - intros p. rewrite Hs. by apply prune_locked_kept.
Qed.

Lemma tame_established peer r live r' : registry_inv r live -> established peer r = Ok r' -> tame r r'.
Proof.
  intros [_ Hs]. unfold established. destruct (increment u64_max _) as [n|[]|]; cbn; try done.
  destruct (states (history r) !! peer) as [st|] eqn:E; cbn; [|done]. intros [= <-].
  split; cbn; [done|..]; intros p; rewrite Hs, lookup_insert; case_decide as Ep; subst; rewrite ?E; by eauto.
Qed.

Lemma tame_drop peer now r live r' : registry_inv r live -> drop_tracker peer now r = Ok r' -> tame r r'.
Proof.
  intros [_ Hs]. unfold drop_tracker. destruct (states (history r) !! peer) as [st|] eqn:E;
    cbn [expect mbind outcome_bind]; [|done].
  destruct (decrement _) as [n|[]|]; cbn [mbind outcome_bind]; try done.
  match goal with |- context [set_history ?h r] => set (r1 := set_history h r) end.
  assert (H1 : forall p, is_Some (states (history r1) !! p) <-> is_Some (snapshot r !! p)).
  { intros p. rewrite Hs. subst r1. cbn. rewrite lookup_insert. case_decide as Ep; [subst; rewrite E|done]. split; by eauto. }
  intros [= <-]. split; cbn [publish snapshot pinned].
  - done.
  - intros p Hp. apply H1, (proj1 (prune_locked_kept now r1 p)), Hp.
  - intros p Hp Hk. exact (proj2 (prune_locked_kept now r1 p) Hp (proj2 (H1 p) Hk)).
Qed.

(** A registration adds its peer, at the expense of none that is configured. *)
Lemma register_tame peer now r live res r' :
  registry_inv r live -> len live < usize_max -> register_peer peer now r = (res, r') ->
  match res with
  | Ok addr => addr = peer /\ registry_inv r' (peer :: live) /\ is_Some (snapshot r' !! peer)
      /\ pinned r' = pinned r
      /\ (forall p, is_Some (snapshot r' !! p) -> is_Some (snapshot r !! p) \/ p = peer)
      /\ (forall p, p ∈ pinned r -> is_Some (snapshot r !! p) -> is_Some (snapshot r' !! p))
  | Err _ => registry_inv r' live /\ tame r r'
  | Panic => False
  end.
Proof.
  intros Hi Hl Hr. pose proof (proj2 Hi) as Hs.
  assert (Hpin : pinned r' = pinned r).
  { change r' with (res, r').2. rewrite <-Hr. apply register_pinned. }
  destruct (register_ok r live peer now Hi Hl) as (res' & r2 & Hr' & H). rewrite Hr in Hr'. injection Hr' as <- <-.
  destruct H as [(-> & Hi' & Hst & _)|(-> & Hi' & victim & Hv & _ & Hst)].
  - split; [done|]. split; [done|..]; intros p; rewrite Hs, (proj2 Hi'), Hst; by apply prune_locked_kept.
  - split_and!; [done|done| |done|..]; rewrite (proj2 Hi'), Hst.
    + rewrite lookup_insert_eq. by eexists.
    + intros p. rewrite Hs, lookup_insert. case_decide; [by right|]. intros Hp. left. apply (prune_locked_kept now).
      destruct victim as [v|]; [|done]. rewrite lookup_delete in Hp. case_decide; [by destruct Hp|done].
    + intros p Hp. rewrite Hs. intros Hk. rewrite lookup_insert. case_decide; [by eexists|].
      apply (prune_locked_kept now r p) in Hk; [|done]. destruct victim as [v|]; [|done].
      rewrite lookup_delete. case_decide; [subst v|done]. destruct Hv as ((Hn & _) & _).
      destruct Hn. by unfold prune_locked.
Qed.

(** The steps of the tasks beside the driver. *)
Definition beside (a : RouterAction) : bool :=
  match a with Establish _ | EndSession _ _ | Reap _ | DiscoveryStops => true | _ => false end.

Abbreviation live d p := (occ p (session_peers (r_sessions d))).

(** They end sessions and forget peers, and leave the rest alone. *)
Record eases (d d' : RouterState) : Prop := {
  es_registry : tame (r_registry d) (r_registry d');
  es_live : forall p, live d' p <= live d p;
  es_attempts : r_attempts d' = r_attempts d;
  es_point : r_point d' = r_point d;
}.

Lemma sessions_delete d k s p :
  r_sessions d !! k = Some s -> occ p (session_peers (delete k (r_sessions d))) <= live d p.
Proof.
  intros Hk. rewrite (occ_perm p _ _ (session_peers_delete _ _ _ Hk)). cbn. case_decide; lia.
Qed.

Lemma beside_eases self a d d' :
  router_inv self d -> beside a = true -> router_act self a d = Some (Ok d') -> eases d d'.
Proof.
  intros Hi Hb. pose proof (ri_registry _ _ Hi) as Hr. destruct a as [| | | |k|k now|now| | | |]; try done; cbn [router_act].
  - destruct (r_sessions d !! k) as [s|]; [|done]. destruct (_ <? _); [|done]. unfold session_established.
    destruct (established _ _) as [r'|[]|] eqn:E; cbn; try done. intros [= <-]. split; try done. by eapply tame_established.
  - destruct (r_sessions d !! k) as [s|] eqn:Ek; [|done]. unfold session_task_ends.
    destruct (drop_tracker _ _ _) as [r'|[]|] eqn:E; cbn; try done. intros [= <-]. split; try done; cbn.
    + by eapply tame_drop.
    + intros p. by eapply sessions_delete.
  - intros [= <-]. split; try done. by eapply tame_prune.
  - destruct (r_discovery d); [|done]. intros [= <-]. split; try done.
Qed.

(** ** The invariant *)

Definition dial_peer (a : DialTask) : SocketAddr :=
  match att_phase a with Dialling peer => peer | Locking addr => addr end.

(** Every future belongs to an attempt and dials its endpoints; every connection under way
    belongs to one future. *)
Record futures_inv (driver : Driver) (fs : Futures) (d : RouterState) : Prop := {
  f_owner : forall h f, fs !! h = Some f -> exists x, x ∈ attempts (dr_attempts driver) /\ attempt_key x = Some h
    /\ (forall t, t ∈ fu_targets f -> t ∈ at_endpoints x)
    /\ forall k, fu_dial f = Some k -> exists a, r_attempts d !! k = Some a /\ dial_peer a ∈ at_endpoints x;
  f_dials : forall k a, r_attempts d !! k = Some a -> exists h f, fs !! h = Some f /\ fu_dial f = Some k;
  f_unique : forall h h' f f' k, fs !! h = Some f -> fs !! h' = Some f' ->
    fu_dial f = Some k -> fu_dial f' = Some k -> h = h';
  f_every : forall x, x ∈ attempts (dr_attempts driver) -> exists h f, attempt_key x = Some h /\ fs !! h = Some f;
}.

(** Driver and daemon together: what the daemon has, the driver knows or is about to read. *)
Record agreement (pins : gset SocketAddr) (fresh : option SocketAddr) (driver : Driver) (snap : Snapshot)
    (fs : Futures) (d : RouterState) : Prop := {
  c_driver : driver_inv pins fresh snap driver;
  c_fresh : forall p, p ∈ reserved (dr_attempts driver) -> fresh <> Some p;
  c_live : forall p, live d p <= 1;
  c_connected : forall p, 0 < live d p -> p ∈ dr_connected driver \/ fresh = Some p;
  c_known : forall p, is_Some (snapshot (r_registry d) !! p) -> is_Some (snap !! p) \/ fresh = Some p;
  c_kept : forall p, p ∈ pins -> is_Some (snap !! p) \/ fresh = Some p -> is_Some (snapshot (r_registry d) !! p);
  c_pins : forall p, p ∈ pins -> p ∈ pinned (r_registry d);
  c_point : r_point d = NotCalled;
  c_futures : futures_inv driver fs d;
}.

Lemma agreement_eases pins fresh driver snap fs d d' :
  agreement pins fresh driver snap fs d -> eases d d' -> agreement pins fresh driver snap fs d'.
Proof.
  intros [Hd Hf Hl Hc Hk Hkept Hpins Hp [Ho Hdi Hu He]] [[Hpn Htk Htp] Hlv Ha Hpt]. split; try done.
  - intros p. specialize (Hlv p). specialize (Hl p). lia.
  - intros p H. apply Hc. specialize (Hlv p). lia.
  - intros p H. by apply Hk, Htk.
  - intros p Hin H. apply Htp; [by apply Hpins|by apply Hkept].
  - intros p H. rewrite Hpn. by apply Hpins.
  - by rewrite Hpt.
  - split; rewrite ?Ha; done.
Qed.

(** ** Futures *)

Lemma attempt_key_in x h : attempt_key x = Some h -> h ∈ at_endpoints x.
Proof. unfold attempt_key. destruct (at_endpoints x) as [|y l]; [done|]. cbn. intros [= ->]. left. Qed.

Lemma add_futures_kept offer l m h f : m !! h = Some f -> add_futures offer l m !! h = Some f.
Proof.
  unfold add_futures. revert m. induction l as [|x l IH]; intros m Hm; cbn [foldl]; [done|]. apply IH.
  unfold add_future. destruct (attempt_key x) as [h'|]; [|done]. destruct (m !! h') eqn:E; [done|]. cbn.
  rewrite lookup_insert_ne; [done|]. congruence.
Qed.

Lemma add_futures_new offer l m h f :
  add_futures offer l m !! h = Some f ->
  m !! h = Some f \/ m !! h = None
    /\ exists x, x ∈ l /\ attempt_key x = Some h
       /\ f = mkFuture None (match retry_peer x with Some p => [p] | None => offer end).
Proof.
  unfold add_futures. revert m. induction l as [|x l IH]; intros m; cbn [foldl]; [by left|].
  intros [Hm|(Hm & y & Hy & ?)]%IH; [|].
  - unfold add_future in Hm. destruct (attempt_key x) as [h'|] eqn:Ek; [|by left].
    destruct (m !! h') eqn:E; [by left|]. cbn in Hm. apply lookup_insert_Some in Hm as [[<- <-]|[_ Hm]]; [|by left].
    right. split; [done|]. exists x. split; [left|done].
  - destruct (m !! h) as [f'|] eqn:E.
    + pose proof (add_futures_kept offer [x] m h f' E) as H'. cbn in H'. congruence.
    + right. split; [done|]. exists y. split; [by right|done].
Qed.

Lemma add_futures_every offer l m x h :
  x ∈ l -> attempt_key x = Some h -> is_Some (add_futures offer l m !! h).
Proof.
  intros Hx Hk. revert m. induction l as [|y l IH]; intros m; [by apply elem_of_nil in Hx|].
  apply elem_of_cons in Hx as [<-|Hx]; [|by apply IH].
  change (add_futures offer (x :: l) m) with (add_futures offer l (add_future offer m x)).
  assert (is_Some (add_future offer m x !! h)) as [f Hf]; [|eexists; by apply add_futures_kept].
  unfold add_future. rewrite Hk. destruct (m !! h) eqn:E; [by eexists|]. cbn. rewrite lookup_insert_eq. by eexists.
Qed.

(** A new attempt dials what it has reserved. *)
Definition sound_attempt (offer : list SocketAddr) (x : Attempt) : Prop :=
  at_endpoints x <> [] /\ forall t, t ∈ match retry_peer x with Some p => [p] | None => offer end -> t ∈ at_endpoints x.

Lemma retries_sound offer l new x : retries_of l new -> x ∈ new -> sound_attempt offer x.
Proof. intros H Hx. destruct (H x Hx) as (p & _ & ->). by split. Qed.

Lemma futures_add offer driver driver' new fs d :
  futures_inv driver fs d -> attempts (dr_attempts driver') = attempts (dr_attempts driver) ++ new ->
  (forall x, x ∈ new -> sound_attempt offer x) ->
  futures_inv driver' (add_futures offer (attempts (dr_attempts driver')) fs) d.
Proof.
  intros [Ho Hd Hu He] En Hn. split.
  - intros h f [Hf|(Hnone & x & Hx & Hk & ->)]%add_futures_new.
    + destruct (Ho h f Hf) as (x & Hx & Hk & ?). exists x. rewrite En. split; [apply elem_of_app; by left|done].
    + exists x. split; [done|]. split; [done|]. split; [|done]. cbn. rewrite En in Hx.
      apply elem_of_app in Hx as [Hx|Hx]; [|by apply Hn]. destruct (He x Hx) as (h' & f' & ? & ?). congruence.
  - intros k a Hk. destruct (Hd k a Hk) as (h & f & Hf & ?). exists h, f. split; [by apply add_futures_kept|done].
  - intros h h' f f' k Hf Hf' Hk Hk'.
    apply add_futures_new in Hf as [Hf|(_ & x & _ & _ & ->)]; [|done].
    apply add_futures_new in Hf' as [Hf'|(_ & x & _ & _ & ->)]; [|done]. by eapply Hu.
  - intros x Hx. assert (exists h, attempt_key x = Some h) as [h Hh].
    { pose proof Hx as Hx'. rewrite En in Hx'. apply elem_of_app in Hx' as [Hx'|Hx'].
      - destruct (He x Hx') as (h & _ & ? & _). by exists h.
      - destruct (Hn x Hx') as [Hne _]. unfold attempt_key. destruct (at_endpoints x) as [|y l]; [done|by exists y]. }
    destruct (add_futures_every offer _ fs x h Hx Hh) as [f Hf]. by exists h, f.
Qed.

(** *** Dropping futures *)

Definition dials_of (l : list Future) : list nat := omap fu_dial l.

Lemma elem_of_dials (m : Futures) k :
  k ∈ dials_of (map_to_list m).*2 <-> exists h f, m !! h = Some f /\ fu_dial f = Some k.
Proof.
  unfold dials_of. rewrite list_elem_of_omap. split.
  - intros (f & ([h f'] & -> & Hin)%list_elem_of_fmap & Hk). apply elem_of_map_to_list in Hin. eauto.
  - intros (h & f & Hf & Hk). exists f. split; [|done]. apply list_elem_of_fmap. exists (h, f).
    split; [done|]. by apply elem_of_map_to_list.
Qed.

Lemma NoDup_dials (m : Futures) :
  (forall h h' f f' k, m !! h = Some f -> m !! h' = Some f' -> fu_dial f = Some k -> fu_dial f' = Some k -> h = h') ->
  NoDup (dials_of (map_to_list m).*2).
Proof.
  intros Hu. unfold dials_of. assert (H : forall l, NoDup l.*1 -> (forall hf, hf ∈ l -> m !! hf.1 = Some hf.2) ->
    NoDup (omap fu_dial l.*2)).
  { induction l as [|[h f] l IH]; intros Hnd Hl; [constructor|]. cbn in *. apply NoDup_cons in Hnd as [Hh Hnd].
    assert (Hrest : NoDup (omap fu_dial l.*2)) by (apply IH; [done|]; intros hf Hin; apply Hl; by right).
    destruct (fu_dial f) as [k|] eqn:Ek; [|done]. apply NoDup_cons. split; [|done].
    intros (f' & ([h' f2] & -> & Hin)%list_elem_of_fmap & Hk')%list_elem_of_omap. apply Hh.
    rewrite (Hu h h' f f2 k); [|by apply (Hl (h, f)); left|by apply (Hl (h', f2)); right|done|done].
    apply list_elem_of_fmap. by exists (h', f2). }
  apply H; [apply NoDup_fst_map_to_list|]. intros [h f] Hin. by apply elem_of_map_to_list in Hin.
Qed.

Lemma drop_futures_ok self l d :
  router_inv self d -> NoDup (dials_of l) -> (forall k, k ∈ dials_of l -> is_Some (r_attempts d !! k)) ->
  let d' := drop_futures l d in
  router_inv self d' /\ (forall k, r_attempts d' !! k = if bool_decide (k ∈ dials_of l) then None else r_attempts d !! k)
  /\ r_sessions d' = r_sessions d /\ r_registry d' = r_registry d /\ r_point d' = r_point d.
Proof.
  unfold drop_futures, dials_of. revert d. induction l as [|f l IH]; intros d Hi Hnd Hin; cbn [foldl omap list_omap].
  { split_and!; done. }
  unfold drop_future at 2 4 6 8 10. cbn in Hnd, Hin. destruct (fu_dial f) as [k|] eqn:Ek; [|by apply IH].
  apply NoDup_cons in Hnd as [Hn Hnd]. destruct (Hin k) as [a Ha]; [left|].
  destruct (IH (release k d)) as (Hi' & Ha' & Hrest); [by eapply release_inv|done| |].
  { intros k' Hk'. cbn. rewrite lookup_delete_ne by (intros ->; done). apply Hin. by right. }
  split_and!; [done| |apply Hrest..]. intros k'. rewrite Ha'. cbn. rewrite lookup_delete.
  destruct (decide (k = k')) as [<-|Hne].
  - rewrite (bool_decide_eq_true_2 (k ∈ k :: _)) by left. by case_bool_decide.
  - by rewrite (bool_decide_ext (k' ∈ k :: omap fu_dial l) (k' ∈ omap fu_dial l)) by set_solver.
Qed.

(** The futures whose attempts are left keep their connections; those of the others are
    released. *)
Lemma futures_keep self driver driver1 fs d :
  router_inv self d -> futures_inv driver fs d -> attempts_ok (dr_attempts driver) -> attempts_ok (dr_attempts driver1) ->
  sublist (attempts (dr_attempts driver1)) (attempts (dr_attempts driver)) ->
  let left := reserved (dr_attempts driver1) in
  let d' := drop_futures (map_to_list (filter (fun hf => hf.1 ∉ left) fs)).*2 d in
  router_inv self d' /\ futures_inv driver1 (filter (fun hf => hf.1 ∈ left) fs) d'
  /\ r_sessions d' = r_sessions d /\ r_registry d' = r_registry d /\ r_point d' = r_point d.
Proof.
  intros Hi [Ho Hd Hu He] Ha Ha1 Hsub left. set (gone := filter (fun hf => hf.1 ∉ left) fs).
  assert (Hgone : forall h f, gone !! h = Some f <-> fs !! h = Some f /\ h ∉ left)
    by (intros h f; apply map_lookup_filter_Some).
  assert (Hkept : forall h f, filter (fun hf => hf.1 ∈ left) fs !! h = Some f <-> fs !! h = Some f /\ h ∈ left)
    by (intros h f; apply map_lookup_filter_Some).
  assert (Hin : forall x, x ∈ attempts (dr_attempts driver1) -> x ∈ attempts (dr_attempts driver)).
  { intros x Hx. eapply elem_of_submseteq; [exact Hx|by apply sublist_submseteq]. }
  destruct (drop_futures_ok self (map_to_list gone).*2 d Hi) as (Hi' & Hat & Hrest).
  { apply NoDup_dials. intros h h' f f' k [Hf _]%Hgone [Hf' _]%Hgone. by apply (Hu h h' f f' k). }
  { intros k (h & f & [Hf _]%Hgone & Hk)%elem_of_dials. destruct (Ho h f Hf) as (x & _ & _ & _ & Hx).
    destruct (Hx k Hk) as (a & ? & _). by eexists. }
  split; [done|]. split; [|done]. split.
  - intros h f [Hf Hh]%Hkept. destruct (Ho h f Hf) as (x & Hx & Hk & Ht & Hdk). exists x. split.
    { apply (ao_reserved _ Ha1) in Hh as (y & Hy & Hhy).
      by rewrite (apart_eq _ x y h (ao_apart _ Ha) Hx (Hin y Hy) (attempt_key_in _ _ Hk) Hhy). }
    split; [done|]. split; [done|]. intros k Hfk. destruct (Hdk k Hfk) as (a & Hak & ?). exists a. split; [|done].
    rewrite Hat, bool_decide_eq_false_2; [done|]. intros (h' & f' & [Hf' Hn]%Hgone & Hk')%elem_of_dials.
    by rewrite (Hu h h' f f' k) in Hh.
  - intros k a. rewrite Hat. destruct (bool_decide _) eqn:E; [done|]. apply bool_decide_eq_false in E. intros Hk.
    destruct (Hd k a Hk) as (h & f & Hf & Hfk). exists h, f. split; [|done]. apply Hkept. split; [done|].
    apply dec_stable. intros Hn. apply E, elem_of_dials. exists h, f. split; [by apply Hgone|done].
  - intros h h' f f' k [Hf _]%Hkept [Hf' _]%Hkept. by apply (Hu h h' f f' k).
  - intros x Hx. destruct (He x (Hin x Hx)) as (h & f & Hk & Hf). exists h, f. split; [done|]. apply Hkept.
    split; [done|]. apply (ao_reserved _ Ha1). exists x. split; [done|by apply attempt_key_in].
Qed.

(** All of them, when the driver is dropped. *)
Lemma futures_drop_all self driver fs d :
  router_inv self d -> futures_inv driver fs d ->
  let d' := drop_futures (map_to_list fs).*2 d in
  router_inv self d' /\ r_attempts d' = ∅ /\ r_sessions d' = r_sessions d /\ r_registry d' = r_registry d
  /\ r_point d' = r_point d.
Proof.
  intros Hi [Ho Hd Hu He]. destruct (drop_futures_ok self (map_to_list fs).*2 d Hi) as (Hi' & Hat & Hrest).
  { by apply NoDup_dials. }
  { intros k (h & f & Hf & Hk)%elem_of_dials. destruct (Ho h f Hf) as (x & _ & _ & _ & Hx).
    destruct (Hx k Hk) as (a & ? & _). by eexists. }
  split_and!; [done| |apply Hrest..]. apply map_empty. intros k. rewrite Hat. case_bool_decide as E; [done|].
  destruct (r_attempts d !! k) as [a|] eqn:Hk; [|done]. destruct E. apply elem_of_dials. by eapply Hd.
Qed.

(** A future's connection makes progress: new connections are its own. *)
Lemma futures_set driver fs d d' h x f' :
  futures_inv driver fs d -> x ∈ attempts (dr_attempts driver) -> attempt_key x = Some h -> is_Some (fs !! h) ->
  (forall t, t ∈ fu_targets f' -> t ∈ at_endpoints x) ->
  (forall k a, fu_dial f' = Some k -> r_attempts d' !! k = Some a -> dial_peer a ∈ at_endpoints x) ->
  (forall k, fu_dial f' = Some k -> is_Some (r_attempts d' !! k)) ->
  (forall k, fu_dial f' <> Some k -> (forall f, fs !! h = Some f -> fu_dial f <> Some k) ->
     r_attempts d' !! k = r_attempts d !! k) ->
  (forall k f, fs !! h = Some f -> fu_dial f = Some k -> fu_dial f' <> Some k -> r_attempts d' !! k = None) ->
  (forall k, fu_dial f' = Some k -> r_attempts d !! k = None \/ (fu_dial <$> fs !! h) = Some (Some k)) ->
  futures_inv driver (<[h := f']> fs) d'.
Proof.
  intros [Ho Hd Hu He] Hx Hk [f Hf] Ht Hown Hsome Hother Hgone Hnew.
  assert (Hne : forall h2 f2 k, h2 <> h -> fs !! h2 = Some f2 -> fu_dial f2 = Some k ->
                fu_dial f' <> Some k /\ fu_dial f <> Some k).
  { intros h2 f2 k Hn Hf2 Hk2. assert (fu_dial f <> Some k) by (intros ?; by destruct Hn; eapply Hu).
    split; [|done]. intros E. destruct (Hnew k E) as [Hnone|Hs].
    - destruct (Ho h2 f2 Hf2) as (y & _ & _ & _ & Hy). destruct (Hy k Hk2) as (a & ? & _). congruence.
    - rewrite Hf in Hs. cbn in Hs. congruence. }
  assert (Heq : forall h2 f2 k, h2 <> h -> fs !! h2 = Some f2 -> fu_dial f2 = Some k -> r_attempts d' !! k = r_attempts d !! k).
  { intros h2 f2 k Hn Hf2 Hk2. destruct (Hne h2 f2 k Hn Hf2 Hk2). apply Hother; [done|]. intros f0 Hf0.
    rewrite Hf in Hf0. by injection Hf0 as <-. }
  split.
  - intros h2 f2. rewrite lookup_insert. case_decide as E; intros Hf2.
    + injection Hf2 as <-. subst h2. exists x. split_and!; [done|done|done|]. intros k Hk'.
      destruct (Hsome k Hk') as [a Ha]. exists a. split; [done|by eapply Hown].
    + destruct (Ho h2 f2 Hf2) as (y & ? & ? & ? & Hy). exists y. split_and!; [done|done|done|]. intros k Hk'.
      rewrite (Heq h2 f2 k) by done. by apply Hy.
  - intros k a Ha. destruct (decide (fu_dial f' = Some k)) as [E|E].
    { exists h, f'. by rewrite lookup_insert_eq. }
    destruct (decide (fu_dial f = Some k)) as [E'|E'].
    { rewrite (Hgone k f Hf E' E) in Ha. done. }
    rewrite Hother in Ha; [|done|by intros f0 Hf0; rewrite Hf in Hf0; injection Hf0 as <-].
    destruct (Hd k a Ha) as (h2 & f2 & Hf2 & Hk2). exists h2, f2. split; [|done].
    rewrite lookup_insert_ne; [done|]. congruence.
  - intros h1 h2 f1 f2 k. rewrite !lookup_insert. repeat case_decide; subst; intros H1 H2 K1 K2; simplify_eq; [done|..].
    + by destruct (Hne h2 f2 k).
    + by destruct (Hne h1 f1 k).
    + by eapply Hu.
  - intros y Hy. destruct (He y Hy) as (h2 & f2 & ? & ?). exists h2. rewrite lookup_insert.
    case_decide; [by eexists|by exists f2].
Qed.

(** The attempt is over, and its connection with it. *)
Lemma futures_over driver driver' fs d d' i x h f :
  futures_inv driver fs d -> attempts_ok (dr_attempts driver) -> attempts (dr_attempts driver) !! i = Some x ->
  attempt_key x = Some h -> fs !! h = Some f ->
  attempts (dr_attempts driver') = delete i (attempts (dr_attempts driver)) ->
  (forall k, r_attempts d' !! k = if decide (fu_dial f = Some k) then None else r_attempts d !! k) ->
  futures_inv driver' (delete h fs) d'.
Proof.
  intros [Ho Hd Hu He] Ha Hx Hk Hf Hdel Hat. pose proof (list_elem_of_lookup_2 _ _ _ Hx) as Hin.
  assert (Hother : forall y h2, y ∈ attempts (dr_attempts driver) -> attempt_key y = Some h2 -> h2 <> h ->
    y ∈ attempts (dr_attempts driver')).
  { intros y h2 Hy Hk2 Hne. rewrite Hdel. destruct (elem_of_delete_list _ _ _ _ Hx Hy) as [->|]; congruence. }
  assert (Hkey : forall y h2, y ∈ attempts (dr_attempts driver') -> attempt_key y = Some h2 ->
    y ∈ attempts (dr_attempts driver) /\ h2 <> h).
  { intros y h2. rewrite Hdel. destruct (list_elem_of_split_length _ _ _ Hx) as (l1 & l2 & El & ->).
    rewrite El, delete_middle. intros Hy Hk2. split; [set_solver|]. intros ->.
    pose proof (ao_apart _ Ha) as Hap. rewrite El in Hap. apply apart_middle in Hap. rewrite Forall_forall in Hap.
    exact (Hap y Hy h (attempt_key_in _ _ Hk) (attempt_key_in _ _ Hk2)). }
  split.
  - intros h2 f2 [Hne Hf2]%lookup_delete_Some. destruct (Ho h2 f2 Hf2) as (y & Hy & Hky & Ht & Hdk).
    exists y. split; [by eapply Hother|]. split_and!; [done|done|]. intros k Hk2. destruct (Hdk k Hk2) as (a & ? & ?).
    exists a. split; [|done]. rewrite Hat, decide_False; [done|]. intros E. destruct Hne. by eapply Hu.
  - intros k a. rewrite Hat. case_decide as E; [done|]. intros Hka. destruct (Hd k a Hka) as (h2 & f2 & Hf2 & Hk2).
    exists h2, f2. split; [|done]. rewrite lookup_delete_ne; [done|]. congruence.
  - intros h1 h2 f1 f2 k [_ H1]%lookup_delete_Some [_ H2]%lookup_delete_Some. by apply (Hu h1 h2 f1 f2 k).
  - intros y Hy. destruct (He y) as (h2 & f2 & Hk2 & Hf2).
    { rewrite Hdel in Hy. eapply elem_of_submseteq; [exact Hy|apply sublist_submseteq, sublist_delete]. }
    exists h2, f2. split; [done|]. rewrite lookup_delete_ne; [done|]. destruct (Hkey y h2 Hy Hk2). congruence.
Qed.

(** ** The steps of the process *)

Lemma agreement_daemon pins fresh driver snap fs fs' d d' :
  agreement pins fresh driver snap fs d -> r_sessions d' = r_sessions d -> r_registry d' = r_registry d ->
  r_point d' = r_point d -> futures_inv driver fs' d' -> agreement pins fresh driver snap fs' d'.
Proof. intros [] Es Er Ep Hf. split; rewrite ?Es, ?Er, ?Ep; done. Qed.

(** The snapshot counts the sessions. *)
Lemma known_live self d q st :
  router_inv self d -> snapshot (r_registry d) !! q = Some st -> active_sessions st = live d q.
Proof.
  intros Hi Hq. destruct (ri_registry _ _ Hi) as [Hreg Hsn]. rewrite <-(li_count _ _ Hreg q), <-Hsn. by rewrite Hq.
Qed.

Lemma live_known self d q :
  router_inv self d -> 0 < live d q -> exists st, snapshot (r_registry d) !! q = Some st /\ 0 < active_sessions st.
Proof.
  intros Hi Hq. destruct (ri_registry _ _ Hi) as [Hreg Hs]. rewrite <-(li_count _ _ Hreg q), <-Hs in Hq.
  destruct (snapshot (r_registry d) !! q) as [st|]; cbn in Hq; [by exists st|lia].
Qed.

Section Runs.
Context (self : RouterSettings) (mode : DiscoveryMode) (static_peers : list SocketAddr).
Context (peer_addr : SocketAddr -> SocketAddr).
Hypothesis Hlimit : max_sessions (rs_limits self) < usize_max.
Hypothesis Hpeer : forall a, peer_addr a = a.

Abbreviation pins := (loop_pins mode static_peers).
Abbreviation corep fresh p :=
  (agreement pins fresh (rp_driver p) (rp_seen p) (rp_futures p) (rp_daemon p)).

Definition router_process_inv (p : RouterProcess) : Prop :=
  router_inv self (rp_daemon p)
  /\ match rp_main p with
     | Launching => agreement pins None (driver_start (loop_peers mode static_peers)) ∅ ∅ (rp_daemon p) /\ rp_futures p = ∅
     | AtTop refresh => exists fresh, (is_Some fresh -> refresh = true) /\ corep fresh p
     | Selecting _ => corep None p
     | RouterStopping _ => r_attempts (rp_daemon p) = ∅ /\ forall q, live (rp_daemon p) q <= 1
     | RouterOver _ => r_attempts (rp_daemon p) = ∅ /\ (forall q, live (rp_daemon p) q <= 1)
         /\ r_point (rp_daemon p) = Returned
     end.

Lemma leave_inv failed p driver :
  router_inv self (rp_daemon p) -> futures_inv driver (rp_futures p) (rp_daemon p) ->
  (forall q, live (rp_daemon p) q <= 1) -> router_process_inv (leave failed p).
Proof.
  intros Hi Hf Hl. destruct (futures_drop_all self driver _ _ Hi Hf) as (Hi' & Ha & Hs & _).
  split; cbn; [done|]. split; [done|]. intros q. rewrite Hs. apply Hl.
Qed.

Lemma top_of_loop_inv refresh now changed p :
  router_process_inv p -> rp_main p = AtTop refresh ->
  exists p', top_of_loop mode static_peers refresh now changed p = Ok p' /\ router_process_inv p'.
Proof.
  intros [Hi Hm] Em. rewrite Em in Hm. destruct Hm as (fresh & Hfresh & Hc). unfold top_of_loop.
  set (snap := snapshot (r_registry (rp_daemon p))). set (read := refresh || _ || _). fold pins.
  set (r := if read then Some (snap, now) else None). set (seen := if read then snap else rp_seen p).
  pose proof (v_attempts _ _ _ _ (c_driver _ _ _ _ _ _ Hc)) as Ha.
  destruct (refreshed_attempts r pins (rp_driver p) Ha) as [Ha1 Hsub].
  set (driver1 := refreshed r pins (rp_driver p)) in *.
  destruct (futures_keep self _ driver1 _ _ Hi (c_futures _ _ _ _ _ _ Hc) Ha Ha1 Hsub) as (Hi' & Hf & Es & Er & Ep).
  set (d' := drop_futures _ _) in *.
  assert (Hnf : read = false -> fresh = None).
  { intros [[E _]%orb_false_iff _]%orb_false_iff. destruct fresh; [|done]. rewrite Hfresh in E; [done|by eexists]. }
  assert (Hd1 : driver_inv pins None seen driver1).
  { subst driver1 seen r. destruct read eqn:Eread; cbn [refreshed].
    - apply (refresh_inv pins fresh (rp_seen p)); try apply Hc.
      intros q st Hq Hst. rewrite (known_live self _ q st Hi Hst). pose proof (c_connected _ _ _ _ _ _ Hc q) as Hcon.
      destruct (Z.ltb_spec 0 (live (rp_daemon p) q)) as [Hlt|]; [|done]. destruct (Hcon Hlt) as [Hin|Hin].
      + by destruct (v_free _ _ _ _ (c_driver _ _ _ _ _ _ Hc) q Hq).
      + by destruct (c_fresh _ _ _ _ _ _ Hc q Hq).
    - rewrite <-(Hnf eq_refl). apply Hc. }
  destruct (loop_top_inv pins r seen (rp_driver p) (connection_capacity d') Hd1) as (driver' & new & -> & Hd' & En & l & Rn).
  cbn [mbind outcome_bind]. unfold retry_deadline. rewrite capacity_ok by apply Hd'. cbn [mbind outcome_bind].
  eexists. split; [done|]. split; [done|]. cbn [rp_main].
  assert (Hsn : forall q, is_Some (snapshot (r_registry d') !! q) -> is_Some (seen !! q)).
  { intros q. rewrite Er. subst seen. destruct read eqn:Eread; [done|]. intros Hq.
    destruct (c_known _ _ _ _ _ _ Hc q Hq) as [?|Hfr]; [done|]. by rewrite Hnf in Hfr. }
  split; cbn; try done.
  - rewrite Es. apply Hc.
  - intros q Hq. left. rewrite Es in Hq. apply (v_connected _ _ _ _ Hd').
    subst seen. destruct read eqn:Eread; [by apply (live_known self)|].
    destruct (c_connected _ _ _ _ _ _ Hc q Hq) as [Hin|Hfr]; [by apply (v_connected _ _ _ _ (c_driver _ _ _ _ _ _ Hc))|].
    by rewrite Hnf in Hfr.
  - intros q Hq. left. by apply Hsn.
  - intros q Hq [Hs|]; [|done]. rewrite Er. subst seen. destruct read; [done|]. by apply (c_kept _ _ _ _ _ _ Hc); [|left].
  - intros q Hq. rewrite Er. by apply (c_pins _ _ _ _ _ _ Hc).
  - rewrite Ep. apply Hc.
  - eapply futures_add; [exact Hf|exact En|]. intros x Hx. by eapply retries_sound.
Qed.

(** *** Branches of [select!] *)

Lemma agreement_branch p driver' new offer :
  router_inv self (rp_daemon p) -> corep None p -> driver_inv pins None (rp_seen p) driver' ->
  dr_connected driver' = dr_connected (rp_driver p) ->
  attempts (dr_attempts driver') = attempts (dr_attempts (rp_driver p)) ++ new ->
  (forall x, x ∈ new -> sound_attempt offer x) -> router_process_inv (after_branch offer driver' p).
Proof.
  intros Hi [Hd Hf Hl Hc Hk Hkept Hpins Hp Hfu] Hd' Econ En Hn. split; cbn; [done|]. exists None. split; [by intros []|].
  split; cbn; try done; [by rewrite Econ|by eapply futures_add].
Qed.

Lemma retry_tick_process_inv now p :
  router_inv self (rp_daemon p) -> corep None p ->
  exists driver', on_retry_tick now (connection_capacity (rp_daemon p)) (rp_driver p) = Ok driver'
    /\ router_process_inv (after_branch [] driver' p).
Proof.
  intros Hi Hc. pose proof (ri_slots _ _ Hi) as [_ H0]. pose proof (c_driver _ _ _ _ _ _ Hc) as Hd.
  destruct (retry_tick_inv pins (rp_seen p) (rp_driver p) now _ Hd H0) as (driver' & new & Hok & Hd' & En & l & Rn).
  exists driver'. split; [done|]. eapply agreement_branch; [done|done|done| |exact En|intros x Hx; by eapply retries_sound].
  apply set_eq. intros q. by rewrite (v_connected _ _ _ _ Hd'), (v_connected _ _ _ _ Hd).
Qed.

Lemma offer_inv endpoints p :
  router_inv self (rp_daemon p) -> corep None p -> mode = ModeDiscovery ->
  exists driver', on_peer_discovered endpoints (connection_capacity (rp_daemon p)) (rp_driver p) = Ok driver'
    /\ router_process_inv (after_branch (offer_targets self (rp_driver p) endpoints) driver' p).
Proof.
  intros Hi Hc Hmode. pose proof (c_driver _ _ _ _ _ _ Hc) as Hd.
  assert (Hpins : pins = ∅) by (unfold loop_pins, loop_peers; by rewrite Hmode).
  destruct (discovered_inv pins (rp_seen p) (rp_driver p) endpoints (connection_capacity (rp_daemon p)) Hd Hpins)
    as (driver' & new & Hok & Hd' & En & Hn).
  exists driver'. split; [done|]. eapply agreement_branch; [done|done|done| |exact En|].
  - apply set_eq. intros q. by rewrite (v_connected _ _ _ _ Hd'), (v_connected _ _ _ _ Hd).
  - intros x Hx. destruct (Hn x Hx) as (Hr & Hne & Hep). split; [done|].
    rewrite Hr, Hep. unfold offer_targets, compatible. intros t (e & -> & He)%list_elem_of_fmap.
    apply elem_of_retain in He as [_ He]. apply list_elem_of_fmap. by exists e.
Qed.

(** *** The futures' own steps *)

Lemma poll_attempt_inv h peer rest p t :
  router_inv self (rp_daemon p) -> corep None p -> rp_main p = Selecting t ->
  rp_futures p !! h = Some (mkFuture None (peer :: rest)) ->
  exists p', poll_attempt self h peer rest p = Ok p' /\ router_process_inv p'.
Proof.
  intros Hi Hc Em Hf. pose proof (c_point _ _ _ _ _ _ Hc) as Hpt.
  destruct (f_owner _ _ _ (c_futures _ _ _ _ _ _ Hc) h _ Hf) as (x & Hx & Hk & Ht & _). cbn in Ht.
  destruct (connect_begin_inv self peer (rp_daemon p) Hi) as (d' & Hd' & Hi').
  { unfold before_shutdown. by rewrite Hpt. }
  unfold poll_attempt, connect_begin in *.
  assert (Herr : forall d, d = rp_daemon p -> router_process_inv (set_future h (mkFuture None rest) d p)).
  { intros d ->. split; [done|]. cbn. rewrite Em. eapply agreement_daemon; [exact Hc|done..|].
    eapply futures_set; [apply Hc|done|done|by eexists|..]; cbn; try done; [set_solver|].
    intros k f. rewrite Hf. by intros [= <-]. }
  destruct (r_slots (rp_daemon p) =? 0); [eexists; split; [done|by apply Herr]|].
  destruct (_ && _); [eexists; split; [done|by apply Herr]|]. cbn in Hd'. injection Hd' as <-.
  assert (Hnone : r_attempts (rp_daemon p) !! r_next (rp_daemon p) = None).
  { destruct (r_attempts (rp_daemon p) !! r_next (rp_daemon p)) as [a|] eqn:E; [|done].
    destruct (ri_attempts _ _ Hi _ _ E). lia. }
  eexists. split; [done|]. split; [done|]. cbn. rewrite Em. eapply agreement_daemon; [exact Hc|done..|].
  eapply futures_set; [apply Hc|done|done|by eexists|..]; cbn.
  - set_solver.
  - intros k a [= <-]. rewrite lookup_insert_eq. intros [= <-]. cbn. apply Ht. left.
  - intros k [= <-]. rewrite lookup_insert_eq. by eexists.
  - intros k Hne _. rewrite lookup_insert_ne; [done|congruence].
  - intros k f. rewrite Hf. by intros [= <-].
  - intros k [= <-]. by left.
Qed.

(** A connection that has failed leaves its future without one. *)
Lemma failed_future_inv p t h k rest d' :
  router_inv self d' -> corep None p -> rp_main p = Selecting t ->
  rp_futures p !! h = Some (mkFuture (Some k) rest) ->
  agreement pins None (rp_driver p) (rp_seen p) (rp_futures p) (set_dials (r_attempts (rp_daemon p)) d') ->
  r_attempts d' = delete k (r_attempts (rp_daemon p)) ->
  router_process_inv (set_future h (mkFuture None rest) d' p).
Proof.
  intros Hi Hc Em Hf Hc' Ha. destruct (f_owner _ _ _ (c_futures _ _ _ _ _ _ Hc) h _ Hf) as (x & Hx & Hk & Ht & _).
  split; [done|]. cbn. rewrite Em. eapply agreement_daemon; [exact Hc'|done..|].
  eapply futures_set; [apply Hc|done|done|by eexists|..]; cbn; try done.
  - intros k' _ Hne. rewrite Ha, lookup_delete_ne; [done|]. intros ->. by eapply Hne.
  - intros k' f. rewrite Hf. intros [= <-] [= <-] _. rewrite Ha. apply lookup_delete_eq.
Qed.

Lemma transport_done_inv h k peer tls rest ok p t :
  router_inv self (rp_daemon p) -> corep None p -> rp_main p = Selecting t ->
  rp_futures p !! h = Some (mkFuture (Some k) rest) ->
  r_attempts (rp_daemon p) !! k = Some (mkDialTask (Dialling peer) tls) ->
  exists p', transport_done peer_addr h k (mkDialTask (Dialling peer) tls) peer rest ok p = Ok p' /\ router_process_inv p'.
Proof.
  intros Hi Hc Em Hf Hk. unfold transport_done.
  destruct (router_act_inv self Hlimit (TransportResult k (if ok then Some (peer_addr peer) else None)) (rp_daemon p)
    _ Hi ltac:(by cbn [router_act]; rewrite Hk)) as (d' & Hd' & Hi').
  destruct ok; cbn in Hd' |- *; injection Hd' as <-; eexists; (split; [done|]).
  - destruct (f_owner _ _ _ (c_futures _ _ _ _ _ _ Hc) h _ Hf) as (x & Hx & Hkey & Ht & Hdk).
    destruct (Hdk k eq_refl) as (a & Hk2 & Hin). rewrite Hk in Hk2. injection Hk2 as <-. cbn in Hin.
    split; [done|]. cbn. rewrite Em. eapply agreement_daemon; [exact Hc|done..|].
    eapply futures_set; [apply Hc|done|done|by eexists|..]; cbn; try done.
    + intros k' a [= <-]. rewrite lookup_insert_eq. intros [= <-]. cbn. by rewrite Hpeer.
    + intros k' [= <-]. rewrite lookup_insert_eq. by eexists.
    + intros k' Hne _. rewrite lookup_insert_ne; [done|congruence].
    + intros k' f. rewrite Hf. by intros [= <-] [= <-].
    + intros k' [= <-]. right. by rewrite Hf.
  - eapply failed_future_inv; [done|done|done|done| |done].
    eapply agreement_daemon; [exact Hc|done..|]. destruct (c_futures _ _ _ _ _ _ Hc) as [Ho Hd Hu He]. by split.
Qed.

(** The attempt of a future is in the list. *)
Lemma find_attempt p h f :
  corep None p -> rp_futures p !! h = Some f ->
  exists i x, list_find (fun x => attempt_key x = Some h) (attempts (dr_attempts (rp_driver p))) = Some (i, x)
    /\ attempts (dr_attempts (rp_driver p)) !! i = Some x /\ attempt_key x = Some h
    /\ forall k a, fu_dial f = Some k -> r_attempts (rp_daemon p) !! k = Some a -> dial_peer a ∈ at_endpoints x.
Proof.
  intros Hc Hf. destruct (f_owner _ _ _ (c_futures _ _ _ _ _ _ Hc) h f Hf) as (x & Hx & Hk & _ & Hd).
  destruct (list_find_elem_of (fun x => attempt_key x = Some h) _ x Hx Hk) as ([i y] & Hy).
  exists i, y. pose proof Hy as (Hi & Hky & _)%list_find_Some. split_and!; [done|done|done|].
  pose proof (v_attempts _ _ _ _ (c_driver _ _ _ _ _ _ Hc)) as Ha.
  rewrite (apart_eq _ y x h (ao_apart _ Ha)); [|by eapply list_elem_of_lookup_2|done|by apply attempt_key_in..].
  intros k a Hfk Hka. destruct (Hd k Hfk) as (a' & Ha' & ?). congruence.
Qed.

(** Any of its endpoints is neither connected nor live. *)
Lemma endpoint_idle p i x q :
  corep None p -> attempts (dr_attempts (rp_driver p)) !! i = Some x -> q ∈ at_endpoints x ->
  q ∈ reserved (dr_attempts (rp_driver p)) /\ live (rp_daemon p) q = 0.
Proof.
  intros Hc Hx Hq. pose proof (c_driver _ _ _ _ _ _ Hc) as Hd.
  assert (Hr : q ∈ reserved (dr_attempts (rp_driver p))).
  { apply (ao_reserved _ (v_attempts _ _ _ _ Hd)). exists x. split; [by eapply list_elem_of_lookup_2|done]. }
  split; [done|]. pose proof (occ_nonneg q (session_peers (r_sessions (rp_daemon p)))).
  destruct (Z.ltb_spec 0 (live (rp_daemon p) q)) as [Hlt|]; [|lia].
  destruct (c_connected _ _ _ _ _ _ Hc q Hlt) as [Hin|]; [|done]. by destruct (v_free _ _ _ _ Hd q Hr).
Qed.

Lemma attempt_fails_inv p h now :
  router_inv self (rp_daemon p) -> corep None p -> rp_futures p !! h = Some (mkFuture None []) ->
  exists p', attempt_over h false now (rp_daemon p) p = Ok p' /\ router_process_inv p'.
Proof.
  intros Hi Hc Hf. destruct (find_attempt p h _ Hc Hf) as (i & x & Hfind & Hx & Hk & _).
  pose proof (c_driver _ _ _ _ _ _ Hc) as Hd.
  destruct (completion_inv pins (rp_seen p) (rp_driver p) i x false h now Hd Hx (attempt_key_in _ _ Hk))
    as (driver' & Hok & [Ha' Ed Hres Econ] & Hd').
  unfold attempt_over. rewrite Hfind. cbn [expect fmap option_fmap option_map fst mbind outcome_bind]. rewrite Hok.
  cbn [mbind outcome_bind]. eexists. split; [done|]. split; [done|]. cbn. exists None. split; [by intros []|].
  destruct Hc as [_ Hfr Hl Hc Hkn Hkept Hpins Hp Hfu]. split; try done.
  - by rewrite Econ.
  - eapply futures_over; [exact Hfu|apply Hd|exact Hx|exact Hk|exact Hf|done|done].
Qed.

Lemma register_attempt_inv p h k addr tls rest now t :
  router_inv self (rp_daemon p) -> corep None p -> rp_main p = Selecting t ->
  rp_futures p !! h = Some (mkFuture (Some k) rest) ->
  r_attempts (rp_daemon p) !! k = Some (mkDialTask (Locking addr) tls) ->
  exists p', register_attempt h k (mkDialTask (Locking addr) tls) addr rest now p = Ok p' /\ router_process_inv p'.
Proof.
  intros Hi Hc Em Hf Hka. set (a := mkDialTask (Locking addr) tls) in *.
  destruct (find_attempt p h _ Hc Hf) as (i & x & Hfind & Hx & Hk & Hown).
  specialize (Hown k a eq_refl Hka). cbn in Hown. pose proof (c_driver _ _ _ _ _ _ Hc) as Hd.
  destruct (connect_register_inv self Hlimit k a addr now (rp_daemon p) Hi Hka) as (d' & Hd' & Hi').
  destruct (ri_attempts _ _ Hi k a Hka) as (_ & Hsk & _).
  pose proof (ri_slots _ _ Hi) as [Hsl H0].
  assert (Hlen : len (session_peers (r_sessions (rp_daemon p))) < usize_max) by (rewrite len_session_peers; lia).
  unfold register_attempt, connect_register in *.
  destruct (register_peer addr now (r_registry (rp_daemon p))) as [res reg] eqn:Ereg.
  pose proof (register_tame _ _ _ _ _ _ (ri_registry _ _ Hi) Hlen Ereg) as Hreg.
  destruct res as [peer|e|]; [|injection Hd' as <-|done].
  - destruct Hreg as (-> & _ & Hnew & Epin & Hknown & Hkeep). cbn [answered] in Hd'. injection Hd' as <-.
    destruct (completion_inv pins (rp_seen p) (rp_driver p) i x true addr now Hd Hx Hown)
      as (driver' & Hok & [Ha' Ed Hres Econ] & Hdr).
    destruct (endpoint_idle p i x addr Hc Hx Hown) as [_ Hidle].
    unfold attempt_over. rewrite Hfind. cbn [expect fmap option_fmap option_map fst mbind outcome_bind]. rewrite Hok.
    cbn [mbind outcome_bind]. eexists. split; [done|]. split; [done|]. cbn [rp_main].
    exists (Some addr). split; [done|].
    assert (Hlive : forall q, occ q (session_peers (<[k := mkSessionTask addr tls]> (r_sessions (rp_daemon p))))
                              = (if decide (q = addr) then 1 else 0) + live (rp_daemon p) q).
    { intros q. by rewrite (occ_perm q _ _ (session_peers_insert _ k (mkSessionTask addr tls) Hsk)). }
    split; cbn; try apply Hc; try done.
    + intros q [_ Hn]%Hres. congruence.
    + intros q. rewrite Hlive. pose proof (c_live _ _ _ _ _ _ Hc q). case_decide; [subst|]; lia.
    + intros q. rewrite Hlive, Econ. case_decide; [subst; by right|]. intros Hq. left.
      by destruct (c_connected _ _ _ _ _ _ Hc q) as [|].
    + intros q [Hq| ->]%Hknown; [left|by right]. by destruct (c_known _ _ _ _ _ _ Hc q Hq).
    + intros q Hq [Hs|[= <-]]; [|done]. apply Hkeep; [by apply (c_pins _ _ _ _ _ _ Hc)|].
      by apply (c_kept _ _ _ _ _ _ Hc); [|left].
    + intros q Hq. rewrite Epin. by apply (c_pins _ _ _ _ _ _ Hc).
    + eapply futures_over; [apply Hc|apply Hd|exact Hx|exact Hk|exact Hf|done|].
      intros k'. cbn. rewrite lookup_delete. repeat case_decide; congruence.
  - destruct Hreg as [_ Htame]. eexists. split; [done|]. eapply failed_future_inv; [exact Hi'|done|done|done| |done].
    eapply agreement_eases; [exact Hc|]. by split.
Qed.

(** *** Start, shutdown and runs *)

Lemma router_launched_inv :
  0 <= max_sessions (rs_limits self) -> router_process_inv (router_launched self static_peers).
Proof.
  intros H0. split; [by apply spawn_router_inv|]. cbn. split; [|done]. split; cbn; try done.
  - by apply driver_start_inv.
  - intros q [st Hst]. by rewrite lookup_empty in Hst.
  - intros q _ [[st Hst]|]; [|done]. by rewrite lookup_empty in Hst.
  - unfold loop_pins, loop_peers. destruct mode; [set_solver|done].
  - split; intros *; cbn; rewrite ?lookup_empty; try done. intros Hx. by apply elem_of_nil in Hx.
Qed.

Lemma launch_inv sys net p :
  router_process_inv p -> rp_main p = Launching ->
  exists p', launch self mode static_peers sys net p = Ok p' /\ router_process_inv p'.
Proof.
  intros [Hi Hm] Em. rewrite Em in Hm. destruct Hm as [Hc Hnone].
  assert (Hleave : forall d, router_inv self d -> r_sessions d = r_sessions (rp_daemon p) ->
    r_attempts d = r_attempts (rp_daemon p) ->
    router_process_inv (leave true (mkRouterProcess (rp_main p) (rp_driver p) (rp_seen p) (rp_futures p) d))).
  { intros d Hd Es Ea. eapply (leave_inv true _ (driver_start (loop_peers mode static_peers))); cbn; [done| |rewrite Es; apply Hc].
    rewrite Hnone. destruct (c_futures _ _ _ _ _ _ Hc). split; rewrite ?Ea; done. }
  assert (Hbegin : forall d, router_inv self d ->
    agreement pins None (driver_start (loop_peers mode static_peers)) ∅ ∅ d ->
    router_process_inv (mkRouterProcess (AtTop true) (driver_start (loop_peers mode static_peers)) ∅ ∅ d)).
  { intros d Hd Hcd. split; [done|]. exists None. split; [by intros []|done]. }
  unfold launch. destruct mode eqn:Emode.
  - assert (Hb : before_shutdown (rp_daemon p) = true) by (unfold before_shutdown; by rewrite (c_point _ _ _ _ _ _ Hc)).
    destruct (router_act_inv self Hlimit (StartDiscovery sys net) (rp_daemon p) _ Hi ltac:(by cbn [router_act]; rewrite Hb))
      as (d' & Hd' & Hi').
    unfold router_start_discovery in *. destruct (r_discovery_slot _).
    { injection Hd' as <-. eexists. split; [done|]. by apply Hleave. }
    destruct (bind_discovery _ _ _ _); [| |done]; injection Hd' as <-; eexists; (split; [done|]); [|by apply Hleave].
    apply Hbegin; [done|]. eapply agreement_daemon; [exact Hc|done..|]. by destruct (c_futures _ _ _ _ _ _ Hc).
  - eexists. split; [done|]. case_bool_decide; [|by apply Hbegin]. by apply (Hleave (rp_daemon p)).
Qed.

Lemma shutdown_step_same d d' :
  router_shutdown_step d = Some d' -> r_attempts d' = r_attempts d /\ r_sessions d' = r_sessions d.
Proof.
  unfold router_shutdown_step. destruct (r_point d) as [| | | |[]|[]|]; repeat case_match; intros; simplify_eq; done.
Qed.

Lemma allowed_cases a m : router_allowed a m = true -> beside a = true \/ a = RouterShutdown /\ exists f, m = RouterStopping f.
Proof. destruct a; cbn; try done; [by left..|]. destruct m; try done. right. by eauto. Qed.

Lemma on_router_inv a p d' :
  router_process_inv p -> router_allowed a (rp_main p) = true -> router_act self a (rp_daemon p) = Some (Ok d') ->
  router_process_inv (mkRouterProcess (rp_main p) (rp_driver p) (rp_seen p) (rp_futures p) d').
Proof.
  intros [Hi Hm] Hal Hact. destruct (router_act_inv self Hlimit _ _ _ Hi Hact) as (? & [= <-] & Hi'). split; [done|]. cbn.
  destruct (allowed_cases _ _ Hal) as [Hb|(-> & f & Ef)].
  - pose proof (beside_eases _ _ _ _ Hi Hb Hact) as He.
    assert (Hl : (forall q, live (rp_daemon p) q <= 1) -> forall q, live d' q <= 1).
    { intros H q. specialize (H q). pose proof (es_live _ _ He q). lia. }
    destruct (rp_main p).
    + destruct Hm. split; [by eapply agreement_eases|done].
    + destruct Hm as (fresh & ? & ?). exists fresh. split; [done|by eapply agreement_eases].
    + by eapply agreement_eases.
    + destruct Hm. split; [by rewrite (es_attempts _ _ He)|by apply Hl].
    + destruct Hm as (? & ? & ?). rewrite (es_attempts _ _ He), (es_point _ _ He). split_and!; [done|by apply Hl|done].
  - rewrite Ef in Hm |- *. cbn [router_act] in Hact. destruct (_ && _); [done|].
    destruct (router_shutdown_step (rp_daemon p)) as [d1|] eqn:Es; [|done]. injection Hact as <-.
    by destruct (shutdown_step_same _ _ Es) as [-> ->].
Qed.

Lemma router_process_act_inv e p r :
  router_process_inv p -> router_process_act self mode static_peers peer_addr e p = Some r ->
  exists p', r = Ok p' /\ router_process_inv p'.
Proof.
  intros Hinv. pose proof Hinv as [Hi Hm]. unfold router_process_act.
  destruct e as [a|sys net|now changed| | |now|endpoints|h|h ok|h now|h now| |].
  - destruct (router_allowed a (rp_main p)) eqn:Hal; [|done].
    destruct (router_act self a (rp_daemon p)) as [r0|] eqn:E; [|done].
    destruct (router_act_inv self Hlimit _ _ _ Hi E) as (d' & -> & _). intros [= <-]. eexists. split; [done|].
    by eapply on_router_inv.
  - destruct (rp_main p) eqn:Em; try done. intros [= <-]. by apply launch_inv.
  - destruct (rp_main p) eqn:Em; try done. intros [= <-]. by apply top_of_loop_inv.
  - destruct (rp_main p) eqn:Em; try done. intros [= <-]. eexists. split; [done|]. split; [done|]. exists None. by split; [intros []|].
  - destruct (rp_main p) eqn:Em; try done. intros [= <-]. eexists. split; [done|]. split; [done|]. exists None. by split; [intros []|].
  - destruct (rp_main p) as [| |[deadline|]| |] eqn:Em; try done. destruct (deadline <=? now); [|done]. intros [= <-].
    destruct (retry_tick_process_inv now p Hi Hm) as (driver' & -> & ?). cbn. by eexists.
  - destruct (rp_main p) eqn:Em; try done. destruct mode eqn:Emode; [|done]. intros [= <-].
    rewrite <-Emode in Hm. destruct (offer_inv endpoints p Hi Hm Emode) as (driver' & -> & ?). cbn. by eexists.
  - destruct (rp_main p) eqn:Em; try done.
    destruct (rp_futures p !! h) as [[[k|] [|peer rest]]|] eqn:Ef; try done. intros [= <-]. by eapply poll_attempt_inv.
  - destruct (rp_main p) eqn:Em; try done. destruct (rp_futures p !! h) as [[[k|] rest]|] eqn:Ef; try done.
    destruct (r_attempts (rp_daemon p) !! k) as [[[peer|addr] tls]|] eqn:Ek; try done. intros [= <-]. by eapply transport_done_inv.
  - destruct (rp_main p) eqn:Em; try done. destruct (rp_futures p !! h) as [[[k|] rest]|] eqn:Ef; try done.
    destruct (r_attempts (rp_daemon p) !! k) as [[[peer|addr] tls]|] eqn:Ek; try done. intros [= <-]. by eapply register_attempt_inv.
  - destruct (rp_main p) eqn:Em; try done. destruct (rp_futures p !! h) as [[[k|] [|]]|] eqn:Ef; try done. intros [= <-].
    by eapply attempt_fails_inv.
  - destruct (rp_main p) eqn:Em; try done; intros [= <-]; eexists; (split; [done|]).
    + destruct Hm as [Hc Hnone]. eapply leave_inv; [done| |apply Hc]. rewrite Hnone. apply Hc.
    + eapply leave_inv; [done|apply Hm|apply Hm].
  - destruct (rp_main p) eqn:Em; try done. destruct (r_point (rp_daemon p)) eqn:Ep; try done. intros [= <-].
    eexists. split; [done|]. split; [done|]. cbn. destruct Hm. by split_and!.
Qed.

Lemma router_process_reachable p :
  0 <= max_sessions (rs_limits self) ->
  rtc (router_process_step self mode static_peers peer_addr) (router_launched self static_peers) p ->
  router_process_inv p.
Proof.
  intros H0 Hr. assert (H : forall x y, rtc (router_process_step self mode static_peers peer_addr) x y ->
    router_process_inv x -> router_process_inv y).
  { induction 1 as [|x y z [a Ha] _ IH]; [done|]. intros Hx. apply IH.
    by destruct (router_process_act_inv _ _ _ Hx Ha) as (? & [= ->] & ?). }
  apply (H _ _ Hr). by apply router_launched_inv.
Qed.
End Runs.

(** ** A modem that was discovered *)

(** There is room for a connection to [a], and none yet: a session slot and an attempt are
    free, the history has room, and the driver does not know the endpoint. *)
Record room_for (a : SocketAddr) (p : RouterProcess) : Prop := {
  rm_slot : 0 < r_slots (rp_daemon p);
  rm_attempt : len (attempts (dr_attempts (rp_driver p))) < MAX_CONNECT_ATTEMPTS;
  rm_history : discovered (r_registry (rp_daemon p)) < max_discovered_peers (limits (r_registry (rp_daemon p)));
  rm_connected : a ∉ dr_connected (rp_driver p);
  rm_dialled : a ∉ reserved (dr_attempts (rp_driver p));
  rm_queued : dr_reconnect (rp_driver p) !! a = None;
}.

Section Joins.
Context (self : RouterSettings) (static_peers : list SocketAddr) (peer_addr : SocketAddr -> SocketAddr).
Hypothesis Hlimit : max_sessions (rs_limits self) < usize_max.
Hypothesis Hpeer : forall a, peer_addr a = a.
Hypothesis Htls : is_some (rs_client_tls self) = nc_use_tls (rs_network self).

Abbreviation step := (router_process_step self ModeDiscovery static_peers peer_addr).
Abbreviation inv := (router_process_inv self ModeDiscovery static_peers).
Abbreviation dialling a p := (rp_futures p !! a = Some (mkFuture None [a])).

(** The daemon is about to dial [a] for an attempt of its own. *)
Definition about_to_dial (a : SocketAddr) (p : RouterProcess) : Prop :=
  inv p /\ dialling a p /\ mkAttempt [a] None ∈ attempts (dr_attempts (rp_driver p))
  /\ 0 < r_slots (rp_daemon p)
  /\ discovered (r_registry (rp_daemon p)) < max_discovered_peers (limits (r_registry (rp_daemon p))).

Lemma offer_accepted p t e :
  inv p -> rp_main p = Selecting t -> ep_use_tls e = nc_use_tls (rs_network self) -> room_for (ep_addr e) p ->
  exists p', step p p' /\ rp_main p' = AtTop false /\ about_to_dial (ep_addr e) p'.
Proof.
  intros [Hi Hc] Em Ht [Hslot Hatt Hhist Hcon Hdial Hq]. rewrite Em in Hc. set (a := ep_addr e) in *.
  destruct (offer_inv self ModeDiscovery static_peers [e] p Hi Hc eq_refl) as (driver' & Hok & Hinv).
  pose proof (c_driver _ _ _ _ _ _ Hc) as Hd. pose proof (v_attempts _ _ _ _ Hd) as Ha.
  assert (Hat : attempts (dr_attempts driver') = attempts (dr_attempts (rp_driver p)) ++ [mkAttempt [a] None]
                /\ dr_reconnect driver' = dr_reconnect (rp_driver p)).
  { revert Hok. unfold on_peer_discovered, connection_capacity. rewrite (proj2 (Z.eqb_neq _ _)) by lia.
    cbn [any existsb]. unfold attempting. rewrite !bool_decide_eq_false_2 by done. cbn [orb].
    unfold retain. cbn [List.filter]. unfold queued. fold a. rewrite Hq. cbn [is_some negb].
    rewrite bool_decide_eq_false_2 by done. unfold start_offer, insert_attempt. rewrite capacity_ok by done.
    cbn [mbind outcome_bind]. rewrite (proj2 (Z.eqb_neq _ _)) by lia. unfold any, attempting. cbn. fold a.
    rewrite !bool_decide_eq_false_2 by done. cbn. by intros [= <-]. }
  destruct Hat as [Hat _].
  assert (Htargets : offer_targets self (rp_driver p) [e] = [a]).
  { unfold offer_targets, compatible, retain. cbn [List.filter]. unfold queued. fold a. rewrite Hq. cbn.
    by rewrite Ht, eqb_reflx. }
  exists (after_branch (offer_targets self (rp_driver p) [e]) driver' p). split_and!.
  - exists (OfferArrives [e]). unfold router_process_act. rewrite Em, Hok. done.
  - done.
  - split; [exact Hinv|]. split; [|split; [|done]]; cbn [after_branch rp_futures rp_driver].
    + rewrite Htargets. assert (Hin : mkAttempt [a] None ∈ attempts (dr_attempts driver'))
        by (rewrite Hat; apply elem_of_app; right; left).
      destruct (add_futures_every [a] _ (rp_futures p) _ a Hin eq_refl) as [f Hf]. rewrite Hf. f_equal.
      apply add_futures_new in Hf as [Hf|(_ & x & Hx & Hk & ->)].
      * destruct (f_owner _ _ _ (c_futures _ _ _ _ _ _ Hc) a f Hf) as (x & Hx & Hk & _). destruct Hdial.
        apply (ao_reserved _ Ha). exists x. split; [done|by apply attempt_key_in].
      * rewrite Hat in Hx. apply elem_of_app in Hx as [Hx| ->%list_elem_of_singleton]; [|done]. destruct Hdial.
        apply (ao_reserved _ Ha). exists x. split; [done|by apply attempt_key_in].
    + rewrite Hat. apply elem_of_app. right. left.
Qed.

(** The top of the loop keeps the attempt. *)
Lemma attempt_kept p (now : Instant) a :
  about_to_dial a p -> rp_main p = AtTop false ->
  exists p' t, step p p' /\ rp_main p' = Selecting t /\ about_to_dial a p'.
Proof.
  intros (Hinv & Hfut & Hin & Hslot & Hhist) Em.
  destruct (top_of_loop_inv self ModeDiscovery static_peers false now false p Hinv Em) as (p' & Hp' & Hinv').
  pose proof Hinv as [Hi Hm]. rewrite Em in Hm. destruct Hm as (fresh & _ & Hc).
  pose proof (v_attempts _ _ _ _ (c_driver _ _ _ _ _ _ Hc)) as Ha.
  assert (Hstep : step p p') by (exists (TopOfLoop now false); unfold router_process_act; by rewrite Em, Hp').
  revert Hp'. unfold top_of_loop. set (read := _ || _ || _). set (pins := loop_pins _ _).
  set (r := if read then Some (snapshot (r_registry (rp_daemon p)), now) else None).
  destruct (refreshed_attempts r pins (rp_driver p) Ha) as [Ha1 Hsub].
  destruct (futures_keep self _ (refreshed r pins (rp_driver p)) _ _ Hi (c_futures _ _ _ _ _ _ Hc) Ha Ha1 Hsub)
    as (Hi' & _ & Es & Er & _).
  set (d' := drop_futures _ _) in *.
  assert (Hin1 : mkAttempt [a] None ∈ attempts (dr_attempts (refreshed r pins (rp_driver p)))).
  { subst r. destruct read; cbn [refreshed]; [|done]. rewrite refresh_attempts. by apply elem_of_retain. }
  destruct (loop_top r pins (connection_capacity d') (rp_driver p)) as [driver'|[]|] eqn:Etop; cbn [mbind outcome_bind]; try done.
  destruct (loop_top_ok r pins (connection_capacity d') (rp_driver p) Ha) as (d2 & H2 & [_ _ (new & En & _)] & _).
  rewrite Etop in H2. injection H2 as <-. unfold retry_deadline.
  destruct (capacity _) as [cap|[]|]; cbn [mbind outcome_bind]; try done. intros [= <-].
  eexists _, _. split; [exact Hstep|]. split; [done|]. split; [exact Hinv'|]. split_and!; cbn.
  - apply add_futures_kept, map_lookup_filter_Some. split; [done|]. cbn. apply (ao_reserved _ Ha1).
    exists (mkAttempt [a] None). split; [done|left].
  - rewrite En. apply elem_of_app. by left.
  - pose proof (ri_slots _ _ Hi) as [Hs _]. pose proof (ri_slots _ _ Hi') as [Hs' _]. rewrite Es in Hs'.
    assert (size (r_attempts d') <= size (r_attempts (rp_daemon p)))%nat; [|lia].
    apply map_subseteq_size. subst d'. clear. generalize (map_to_list (filter (fun hf => hf.1 ∉ reserved
      (dr_attempts (refreshed r pins (rp_driver p)))) (rp_futures p))).*2. intros l. unfold drop_futures.
    generalize (rp_daemon p) as d. induction l as [|f l IH]; intros d; cbn [foldl]; [done|].
    etrans; [apply IH|]. unfold drop_future. destruct (fu_dial f); [|done]. cbn. apply delete_subseteq.
  - by rewrite Er.
Qed.

(** The connection comes about and is registered. *)
Lemma dial_joins p t (now : Instant) a :
  about_to_dial a p -> rp_main p = Selecting t ->
  exists p' k, rtc step p p' /\ inv p'
    /\ r_sessions (rp_daemon p') !! k = Some (mkSessionTask a (nc_use_tls (rs_network self))).
Proof.
  intros (Hinv & Hfut & Hin & Hslot & Hhist) Em. pose proof Hinv as [Hi Hm]. rewrite Em in Hm. set (d := rp_daemon p) in *.
  set (k := r_next d). set (tls := nc_use_tls (rs_network self)).
  assert (Hb : exists d1, connect_begin self a d = (Ok k, d1) /\ r_attempts d1 !! k = Some (mkDialTask (Dialling a) tls)
                          /\ r_registry d1 = r_registry d).
  { unfold connect_begin. rewrite (proj2 (Z.eqb_neq _ _)) by lia. rewrite Htls, andb_negb_r. eexists.
    split; [done|]. split; [apply lookup_insert_eq|done]. }
  destruct Hb as (d1 & Hbegin & Hk1 & Er1).
  set (p1 := set_future a (mkFuture (Some k) []) d1 p).
  assert (S1 : step p p1).
  { exists (PollAttempt a). unfold router_process_act. rewrite Em, Hfut. unfold poll_attempt. fold d. by rewrite Hbegin. }
  assert (H1 : inv p1).
  { destruct S1 as [e He]. by destruct (router_process_act_inv _ _ _ _ Hlimit Hpeer _ _ _ Hinv He) as (? & [= <-] & ?). }
  set (d2 := set_dials (<[k := mkDialTask (Locking a) tls]> (r_attempts d1)) d1).
  set (p2 := set_future a (mkFuture (Some k) []) d2 p1).
  assert (S2 : step p1 p2).
  { exists (TransportDone a true). unfold router_process_act. cbn [rp_main p1 set_future rp_futures rp_daemon].
    rewrite Em, lookup_insert_eq, Hk1. unfold transport_done. cbn. by rewrite Hpeer. }
  assert (H2 : inv p2).
  { destruct S2 as [e He]. by destruct (router_process_act_inv _ _ _ _ Hlimit Hpeer _ _ _ H1 He) as (? & [= <-] & ?). }
  pose proof H2 as [Hi2 _]. pose proof (ri_slots _ _ Hi2) as [Hs2 H02].
  destruct (register_ok (r_registry d2) (session_peers (r_sessions d2)) a now (ri_registry _ _ Hi2)) as (res & reg & Hreg & Hres).
  { rewrite len_session_peers. change (rp_daemon p2) with d2 in *. lia. }
  destruct Hres as [(_ & _ & _ & _ & _ & Hfull & _)|(-> & _)].
  { exfalso. pose proof (locked_discovered (r_registry d2) (prune_locked now (r_registry d2)).2) as Hle.
    assert (discovered (prune_locked now (r_registry d2)).2 <= discovered (r_registry d2)).
    { apply Hle; [|done]. cbn. apply subseteq_dom, map_filter_subseteq. }
    change (r_registry d2) with (r_registry d1) in *. rewrite Er1 in *. lia. }
  assert (Hact : exists r, router_process_act self ModeDiscovery static_peers peer_addr (RegisterAttempt a now) p2 = Some r
    /\ r = attempt_over a true now (connect_register k (mkDialTask (Locking a) tls) a now d2).2 p2
    /\ r_sessions (connect_register k (mkDialTask (Locking a) tls) a now d2).2 !! k = Some (mkSessionTask a tls)).
  { eexists. split.
    - unfold router_process_act. cbn [rp_main p2 p1 set_future rp_futures rp_daemon]. rewrite Em, lookup_insert_eq.
      cbn [r_attempts d2 set_dials]. rewrite lookup_insert_eq. done.
    - unfold register_attempt, connect_register. cbn [rp_daemon p2 set_future]. rewrite Hreg. cbn [snd].
      split; [done|]. cbn. apply lookup_insert_eq. }
  destruct Hact as (r & Hact & -> & Hsess).
  destruct (router_process_act_inv _ _ _ _ Hlimit Hpeer _ _ _ H2 Hact) as (p3 & Hp3 & H3).
  exists p3, k. split; [|split; [done|]].
  - eapply rtc_l; [exact S1|]. eapply rtc_l; [exact S2|]. apply rtc_once. exists (RegisterAttempt a now). by rewrite Hact, Hp3.
  - unfold attempt_over in Hp3. apply bind_Ok in Hp3 as (i & _ & Hp3). apply bind_Ok in Hp3 as (driver' & _ & Hp3).
    by injection Hp3 as <-.
Qed.

Lemma offer_joins p t e :
  inv p -> rp_main p = Selecting t -> ep_use_tls e = nc_use_tls (rs_network self) -> room_for (ep_addr e) p ->
  exists p' k, rtc step p p'
    /\ r_sessions (rp_daemon p') !! k = Some (mkSessionTask (ep_addr e) (nc_use_tls (rs_network self))).
Proof.
  intros Hi Em Ht Hroom. destruct (offer_accepted p t e Hi Em Ht Hroom) as (p1 & S1 & E1 & A1).
  destruct (attempt_kept p1 0 _ A1 E1) as (p2 & t2 & S2 & E2 & A2).
  destruct (dial_joins p2 t2 0 _ A2 E2) as (p3 & k & S3 & _ & Hk). exists p3, k. split; [|done].
  eapply rtc_l; [exact S1|]. by eapply rtc_l; [exact S2|].
Qed.
End Joins.

(** ** Theorems *)

Lemma occ_pos q l : 0 < occ q l -> q ∈ l.
Proof.
  induction l as [|y l IH]; cbn; [lia|]. case_decide as E; [subst; left|]. intros H. right. apply IH. lia.
Qed.

Lemma same_peer_once (m : gmap nat SessionTask) k k' s s' :
  (forall q, occ q (session_peers m) <= 1) -> m !! k = Some s -> m !! k' = Some s' -> st_peer s = st_peer s' -> k = k'.
Proof.
  intros Hl Hk Hk' E. destruct (decide (k = k')) as [|Hne]; [done|]. specialize (Hl (st_peer s)).
  rewrite (occ_perm _ _ _ (session_peers_delete _ _ _ Hk)) in Hl. cbn in Hl. rewrite decide_True in Hl by done.
  assert (0 < occ (st_peer s) (session_peers (delete k m))); [|lia]. apply occ_elem. rewrite E.
  apply (elem_of_session_peers _ k'). by rewrite lookup_delete_ne.
Qed.

(** What is dialled belongs to an attempt, and no session is with an endpoint of one. *)
Lemma dial_owner pins fresh driver snap fs d k a :
  agreement pins fresh driver snap fs d -> r_attempts d !! k = Some a ->
  exists h f x, fs !! h = Some f /\ fu_dial f = Some k /\ x ∈ attempts (dr_attempts driver)
    /\ attempt_key x = Some h /\ dial_peer a ∈ at_endpoints x /\ live d (dial_peer a) = 0.
Proof.
  intros Hc Hk. pose proof (c_futures _ _ _ _ _ _ Hc) as Hf. destruct (f_dials _ _ _ Hf k a Hk) as (h & f & Hh & Hfk).
  destruct (f_owner _ _ _ Hf h f Hh) as (x & Hx & Hkey & _ & Hd). destruct (Hd k Hfk) as (a' & Ha' & Hin).
  rewrite Hk in Ha'. injection Ha' as <-. exists h, f, x. split_and!; try done.
  pose proof (c_driver _ _ _ _ _ _ Hc) as Hdr.
  assert (Hr : dial_peer a ∈ reserved (dr_attempts driver)) by (apply (ao_reserved _ (v_attempts _ _ _ _ Hdr)); eauto).
  pose proof (occ_nonneg (dial_peer a) (session_peers (r_sessions d))).
  destruct (Z.ltb_spec 0 (live d (dial_peer a))) as [Hlt|]; [|lia].
  destruct (c_connected _ _ _ _ _ _ Hc _ Hlt) as [?|?]; [by destruct (v_free _ _ _ _ Hdr _ Hr)|by destruct (c_fresh _ _ _ _ _ _ Hc _ Hr)].
Qed.

Lemma dials_apart pins fresh driver snap fs d k k' a a' :
  agreement pins fresh driver snap fs d -> r_attempts d !! k = Some a -> r_attempts d !! k' = Some a' ->
  dial_peer a = dial_peer a' -> k = k'.
Proof.
  intros Hc Hk Hk' E. destruct (dial_owner _ _ _ _ _ _ _ _ Hc Hk) as (h & f & x & Hh & Hfk & Hx & Hkey & Hin & _).
  destruct (dial_owner _ _ _ _ _ _ _ _ Hc Hk') as (h' & f' & x' & Hh' & Hfk' & Hx' & Hkey' & Hin' & _).
  rewrite E in Hin. pose proof (v_attempts _ _ _ _ (c_driver _ _ _ _ _ _ Hc)) as Ha.
  rewrite (apart_eq _ x x' _ (ao_apart _ Ha) Hx Hx' Hin Hin') in Hkey. congruence.
Qed.

Lemma dials_few pins fresh driver snap fs d :
  agreement pins fresh driver snap fs d -> Z.of_nat (size (r_attempts d)) <= MAX_CONNECT_ATTEMPTS.
Proof.
  intros Hc. pose proof (c_futures _ _ _ _ _ _ Hc) as Hf. pose proof (ao_few _ (v_attempts _ _ _ _ (c_driver _ _ _ _ _ _ Hc))) as Hfew.
  assert (H1 : (size (r_attempts d) <= size fs)%nat).
  { rewrite <-length_map_to_list, <-(length_fmap fst).
    transitivity (length (dials_of (map_to_list fs).*2)).
    - apply submseteq_length, NoDup_submseteq; [apply NoDup_fst_map_to_list|]. intros k ([k' a] & -> & Hin)%list_elem_of_fmap.
      apply elem_of_map_to_list in Hin. apply elem_of_dials. by eapply (f_dials _ _ _ Hf).
    - unfold dials_of. rewrite <-length_map_to_list, <-(length_fmap snd). generalize (map_to_list fs).*2.
      intros l. induction l as [|x l IH]; cbn; [done|]. destruct (fu_dial x); cbn; lia. }
  assert (H2 : (size fs <= length (attempts (dr_attempts driver)))%nat).
  { rewrite <-length_map_to_list, <-(length_fmap fst).
    transitivity (length (omap attempt_key (attempts (dr_attempts driver)))).
    - apply submseteq_length, NoDup_submseteq; [apply NoDup_fst_map_to_list|]. intros h ([h' f] & -> & Hin)%list_elem_of_fmap.
      apply elem_of_map_to_list in Hin. destruct (f_owner _ _ _ Hf h' f Hin) as (x & Hx & Hk & _).
      apply list_elem_of_omap. eauto.
    - generalize (attempts (dr_attempts driver)). intros l. induction l as [|x l IH]; cbn; [done|].
      destruct (attempt_key x); cbn; lia. }
  unfold len in Hfew. lia.
Qed.

Section Claims.
Context (self : RouterSettings) (mode : DiscoveryMode) (static_peers : list SocketAddr).
Context (peer_addr : SocketAddr -> SocketAddr).

(** Driver and daemon agree, or the driver is gone. *)
Lemma process_core p :
  router_process_inv self mode static_peers p ->
  (exists fresh driver snap fs, agreement (loop_pins mode static_peers) fresh driver snap fs (rp_daemon p))
  \/ r_attempts (rp_daemon p) = ∅ /\ forall q, live (rp_daemon p) q <= 1.
Proof.
  intros [_ Hm]. destruct (rp_main p).
  - left. destruct Hm. by eexists _, _, _, _.
  - left. destruct Hm as (? & ? & ?). by eexists _, _, _, _.
  - left. by eexists _, _, _, _.
  - by right.
  - right. tauto.
Qed.

(** C18: One session per modem.  In every run of the router process, whatever peers,
    transports, discovery, signals and clock do, with connections that report the address
    dialled as their peer's: nothing panics; no two sessions are with the same endpoint;
    no endpoint is dialled twice at a time, or while a session with it lives; and at most
    eight endpoints are dialled at a time. *)
Theorem one_session_per_modem p :
  limits_validate (rs_limits self) = Ok tt -> 0 <= max_sessions (rs_limits self) -> (forall a, peer_addr a = a) ->
  rtc (router_process_step self mode static_peers peer_addr) (router_launched self static_peers) p ->
  let d := rp_daemon p in
  (forall e, router_process_act self mode static_peers peer_addr e p <> Some Panic)
  /\ (forall k k' s s', r_sessions d !! k = Some s -> r_sessions d !! k' = Some s' -> st_peer s = st_peer s' -> k = k')
  /\ (forall k k' a a', r_attempts d !! k = Some a -> r_attempts d !! k' = Some a' -> dial_peer a = dial_peer a' -> k = k')
  /\ (forall k k' a s, r_attempts d !! k = Some a -> r_sessions d !! k' = Some s -> dial_peer a <> st_peer s)
  /\ Z.of_nat (size (r_attempts d)) <= MAX_CONNECT_ATTEMPTS.
Proof.
  intros Hl%validated_limits H0 Hpeer Hr. pose proof (router_process_reachable _ _ _ _ Hl Hpeer p H0 Hr) as Hi.
  cbv zeta. split.
  { intros e He. by destruct (router_process_act_inv _ _ _ _ Hl Hpeer _ _ _ Hi He) as (? & ? & _). }
  destruct (process_core p Hi) as [(fresh & driver & snap & fs & Hc)|[Ha Hlive]].
  - split_and!.
    + intros k k' s s'. apply same_peer_once, Hc.
    + intros k k' a a'. by eapply dials_apart.
    + intros k k' a s Hk Hs E. destruct (dial_owner _ _ _ _ _ _ _ _ Hc Hk) as (_ & _ & _ & _ & _ & _ & _ & _ & Hz).
      pose proof (occ_elem _ _ (elem_of_session_peers _ _ _ Hs)). rewrite E in Hz. lia.
    + by eapply dials_few.
  - rewrite Ha. split_and!.
    + intros k k' s s'. by apply same_peer_once.
    + done.
    + done.
    + rewrite map_size_empty. done.
Qed.

(** C19: No modem is forgotten.  Whenever the router process waits, every configured peer of
    static mode is queued for its first connection or attended to, and so is every modem
    the daemon has a history of: the driver counts it as connected, a connection to it is
    under way that will be tried again if it fails, or it has a deadline at which it is
    dialled.  A modem counted as connected has a live session, or the daemon has published
    a newer state, which the loop reads next; and a connection under way is its attempt's
    own future. *)
Theorem no_modem_forgotten p deadline :
  limits_validate (rs_limits self) = Ok tt -> 0 <= max_sessions (rs_limits self) -> (forall a, peer_addr a = a) ->
  rtc (router_process_step self mode static_peers peer_addr) (router_launched self static_peers) p ->
  rp_main p = Selecting deadline ->
  let driver := rp_driver p in
  let known := snapshot (r_registry (rp_daemon p)) in
  (forall q, mode = ModeStatic -> q ∈ static_peers -> q ∈ dr_startup driver \/ attended driver q)
  /\ (forall q, is_Some (known !! q) -> attended driver q)
  /\ (forall q, q ∈ dr_connected driver ->
        (exists k s, r_sessions (rp_daemon p) !! k = Some s /\ st_peer s = q) \/ known <> rp_seen p)
  /\ (forall x, x ∈ attempts (dr_attempts driver) -> exists h f, attempt_key x = Some h /\ rp_futures p !! h = Some f).
Proof.
  intros Hl%validated_limits H0 Hpeer Hr Em. pose proof (router_process_reachable _ _ _ _ Hl Hpeer p H0 Hr) as Hi.
  destruct Hi as [Hi Hc]. rewrite Em in Hc. pose proof (c_driver _ _ _ _ _ _ Hc) as Hd. cbv zeta. split_and!.
  - intros q Hmode Hq. apply (v_pinned _ _ _ _ Hd); [|done]. unfold loop_pins, loop_peers. rewrite Hmode. set_solver.
  - intros q Hq. apply (v_known _ _ _ _ Hd); [|done]. by destruct (c_known _ _ _ _ _ _ Hc q Hq).
  - intros q (st & Hst & Hlt)%(v_connected _ _ _ _ Hd).
    destruct (decide (snapshot (r_registry (rp_daemon p)) = rp_seen p)) as [E|E]; [left|by right].
    rewrite <-E in Hst. rewrite (known_live _ _ q st Hi Hst) in Hlt. apply occ_pos in Hlt as Hin.
    unfold session_peers in Hin. apply list_elem_of_fmap in Hin as ([k s] & -> & Hk). apply elem_of_map_to_list in Hk. by exists k, s.
  - apply (f_every _ _ _ (c_futures _ _ _ _ _ _ Hc)).
Qed.

(** *** The end *)

(** What [shutdown] has left to do, and the steps that do it: its own, the end of the
    discovery task it waits for, and of the sessions it has told to end. *)
Definition point_rank (d : RouterState) : nat :=
  match r_point d with
  | NotCalled => 6 + length (r_senders d) + length (r_tasks d)
  | AskTask => 5 + length (r_senders d) + length (r_tasks d)
  | JoinTask => 4 + length (r_senders d) + length (r_tasks d)
  | TakeCommands => 3 + length (r_senders d) + length (r_tasks d)
  | TellSessions rest => 2 + length rest + length (r_tasks d)
  | JoinSessions rest => 1 + length rest
  | Returned => 0
  end.
Definition router_work (p : RouterProcess) : nat :=
  let d := rp_daemon p in
  match rp_main p with RouterOver _ => 0 | _ => 1 end + point_rank d + size (r_sessions d)
  + (if r_discovery d then 1 else 0).
Definition router_own (p : RouterProcess) (e : RouterEvent) : Prop :=
  match e with
  | OnRouter RouterShutdown | ShutdownReturns => True
  | OnRouter DiscoveryStops => r_point (rp_daemon p) = JoinTask
  | OnRouter (EndSession k _) => k ∈ r_told (rp_daemon p)
  | _ => False
  end.
(** An initialisation that completes late, and the reaper. *)
Definition idle_event (e : RouterEvent) : bool :=
  match e with OnRouter (Establish _) | OnRouter (Reap _) => true | _ => false end.

Lemma router_shutdown_work d d' :
  router_shutdown_step d = Some d' ->
  (point_rank d' < point_rank d)%nat /\ r_sessions d' = r_sessions d /\ r_discovery d' = r_discovery d.
Proof.
  unfold router_shutdown_step, point_rank. destruct (r_point d) as [| | | |[|k rest]|[|h rest]|]; cbn.
  - intros [= <-]. cbn. split_and!; [lia|done|done].
  - intros [= <-]. cbn. split_and!; [lia|done|done].
  - destruct (r_discovery d) eqn:E; [done|]. intros [= <-]. cbn. split_and!; [lia|done|done].
  - intros [= <-]. cbn. split_and!; [lia|done|done].
  - intros [= <-]. cbn. split_and!; [lia|done|done].
  - intros [= <-]. cbn. split_and!; [lia|done|done].
  - intros [= <-]. cbn. split_and!; [lia|done|done].
  - destruct (is_some _); [done|]. intros [= <-]. cbn. split_and!; [lia|done|done].
  - done.
Qed.

Lemma stopping_work e p p' failed :
  rp_main p = RouterStopping failed -> router_process_act self mode static_peers peer_addr e p = Some (Ok p') ->
  (router_work p' <= router_work p)%nat /\ (idle_event e = false -> (router_work p' < router_work p)%nat).
Proof.
  intros Em. unfold router_process_act. rewrite Em.
  destruct e as [a| | | | | | | | | | | |]; try done.
  2:{ destruct (r_point (rp_daemon p)) eqn:Ep; try done. intros [= <-]. unfold router_work, point_rank. cbn. rewrite Em, Ep. lia. }
  destruct (router_allowed a (RouterStopping failed)) eqn:Hal; [|done].
  destruct (router_act self a (rp_daemon p)) as [[d|[]|]|] eqn:E; try done. intros [= <-]. unfold router_work. cbn. rewrite Em.
  destruct a as [| | | |k|k now|now| | | |]; try done; cbn [router_act idle_event] in *.
  - destruct (r_sessions (rp_daemon p) !! k) as [s|]; [|done]. destruct (_ <? _); [|done]. unfold session_established in E.
    destruct (established _ _) as [r'|[]|]; cbn in E; try done. injection E as <-. split; [done|done].
  - destruct (r_sessions (rp_daemon p) !! k) as [s|] eqn:Ek; [|done]. unfold session_task_ends in E.
    destruct (drop_tracker _ _ _) as [r'|[]|]; cbn in E; try done. injection E as <-. unfold point_rank. cbn.
    pose proof (size_delete_Some _ _ _ Ek). lia.
  - injection E as <-. split; done.
  - destruct (r_discovery (rp_daemon p)) eqn:Ed; [|done]. injection E as <-. unfold point_rank. cbn. lia.
  - destruct (_ && _); [done|]. destruct (router_shutdown_step (rp_daemon p)) as [d1|] eqn:Es; [|done]. injection E as <-.
    destruct (router_shutdown_work _ _ Es) as (? & -> & ->). lia.
Qed.

Lemma stopping_progress p failed :
  max_sessions (rs_limits self) < usize_max ->
  router_process_inv self mode static_peers p -> rp_main p = RouterStopping failed ->
  exists e p', router_own p e /\ router_process_act self mode static_peers peer_addr e p = Some (Ok p').
Proof.
  intros Hlimit [Hi Hm] Em. rewrite Em in Hm. destruct Hm as [Ha _].
  assert (Hstep : (exists d', router_shutdown_step (rp_daemon p) = Some d') -> exists e p', router_own p e /\
    router_process_act self mode static_peers peer_addr e p = Some (Ok p')).
  { intros [d' Hd']. exists (OnRouter RouterShutdown). eexists. split; [done|]. unfold router_process_act. rewrite Em. cbn.
    rewrite Ha, bool_decide_eq_true_2, andb_false_r, Hd' by done. done. }
  pose proof (shutdown_points self _ Hi) as Hpt. unfold router_shutdown_step in Hstep.
  destruct (r_point (rp_daemon p)) as [| | | |[|k rest]|[|h rest]|] eqn:Ep; try (apply Hstep; by eexists).
  - destruct (r_discovery (rp_daemon p)) eqn:Ed; [|apply Hstep; by eexists].
    exists (OnRouter DiscoveryStops). eexists. split; [done|]. unfold router_process_act. rewrite Em. cbn. by rewrite Ed.
  - destruct (r_sessions (rp_daemon p) !! h) as [s|] eqn:Eh; [|apply Hstep; by eexists].
    exists (OnRouter (EndSession h 0)). destruct Hpt as [_ Hs]. destruct (Hs h s Eh) as [_ Htold].
    destruct (session_ends_inv self h s 0 _ Hi Eh) as (d' & Hd' & _). eexists. split; [done|].
    unfold router_process_act. rewrite Em. cbn. by rewrite Eh, Hd'.
  - exists ShutdownReturns. eexists. split; [done|]. unfold router_process_act. by rewrite Em, Ep.
Qed.

(** C20: The router exits.  Once a signal or an error has ended the driver, the router process
    always has a step of its own left until it is over: of [shutdown], of the discovery
    task it waits for, or the end of a session that was told to end; no step adds to the
    work that is left, and every step but the reaper's and a late initialisation takes some
    of it away.  When it is over, no connection is under way, no session and no discovery
    task is left and every session slot is free. *)
Theorem router_exits p failed :
  limits_validate (rs_limits self) = Ok tt -> 0 <= max_sessions (rs_limits self) -> (forall a, peer_addr a = a) ->
  rtc (router_process_step self mode static_peers peer_addr) (router_launched self static_peers) p ->
  (rp_main p = RouterStopping failed ->
     (exists e p', router_own p e /\ router_process_act self mode static_peers peer_addr e p = Some (Ok p'))
     /\ forall e p', router_process_act self mode static_peers peer_addr e p = Some (Ok p') ->
        (router_work p' <= router_work p)%nat /\ (idle_event e = false -> (router_work p' < router_work p)%nat))
  /\ (rp_main p = RouterOver failed ->
      let d := rp_daemon p in
      r_attempts d = ∅ /\ r_sessions d = ∅ /\ r_discovery d = false /\ r_slots d = max_sessions (rs_limits self)).
Proof.
  intros Hl%validated_limits H0 Hpeer Hr. pose proof (router_process_reachable _ _ _ _ Hl Hpeer p H0 Hr) as Hi. split.
  - intros Em. split; [by eapply stopping_progress|]. intros e p'. by apply (stopping_work e p p' failed).
  - intros Em. destruct Hi as [Hi Hm]. rewrite Em in Hm. destruct Hm as (_ & _ & Hp).
    pose proof (shutdown_points self _ Hi) as Hpt. rewrite Hp in Hpt. cbv zeta. tauto.
Qed.
End Claims.

(** ** A run *)

Section Sample.
Abbreviation sample_peers := [endpoint 1; endpoint 2].
Abbreviation act := (router_process_act sample_settings ModeStatic sample_peers (fun a => a)).

Fixpoint run_router_process (l : list RouterEvent) (p : RouterProcess) : option RouterProcess :=
  match l with
  | [] => Some p
  | e :: l => match act e p with Some (Ok p') => run_router_process l p' | _ => None end
  end.

Lemma run_router_process_steps l p p' :
  run_router_process l p = Some p' ->
  rtc (router_process_step sample_settings ModeStatic sample_peers (fun a => a)) p p'.
Proof.
  revert p. induction l as [|e l IH]; intros p; cbn; [by intros [= ->]; apply rtc_refl|].
  destruct (act e p) as [[p1|[]|]|] eqn:E; try done. intros H. eapply rtc_l; [by exists e|by apply IH].
Qed.
End Sample.

(** One modem is connected; the other refuses the connection and is dialled again. *)
Definition two_modems : list RouterEvent :=
  [Launch sample_system sample_sockets; TopOfLoop 0 false; PollAttempt (endpoint 1); PollAttempt (endpoint 2);
   TransportDone (endpoint 1) true; RegisterAttempt (endpoint 1) 5; TopOfLoop 6 false;
   TransportDone (endpoint 2) false; AttemptFails (endpoint 2) 7; TopOfLoop 8 false;
   RetryTick (from_secs 2); TopOfLoop (from_secs 2) false; PollAttempt (endpoint 2)].
Definition two_modems_stop : list RouterEvent :=
  [RouterSignal] ++ replicate 6 (OnRouter RouterShutdown).
Definition two_modems_over : list RouterEvent :=
  [OnRouter (EndSession 0 9); OnRouter RouterShutdown; OnRouter RouterShutdown; ShutdownReturns].

Abbreviation sample_launched := (router_launched sample_settings [endpoint 1; endpoint 2]).
Definition router_process_after (l : list RouterEvent) : RouterProcess :=
  default sample_launched (run_router_process l sample_launched).

Lemma router_process_reached l :
  is_some (run_router_process l sample_launched) = true ->
  rtc (router_process_step sample_settings ModeStatic [endpoint 1; endpoint 2] (fun a => a)) sample_launched
    (router_process_after l).
Proof.
  unfold router_process_after. destruct (run_router_process l sample_launched) as [p|] eqn:E; [|done]. intros _. cbn.
  by eapply run_router_process_steps.
Qed.

Definition dialling_process : RouterProcess := router_process_after two_modems.
Definition stopping_process : RouterProcess := router_process_after (two_modems ++ two_modems_stop).
Definition over_process : RouterProcess := router_process_after (two_modems ++ two_modems_stop ++ two_modems_over).

Lemma dialling_reached :
  rtc (router_process_step sample_settings ModeStatic [endpoint 1; endpoint 2] (fun a => a)) sample_launched dialling_process.
Proof. apply (router_process_reached two_modems). vm_compute. reflexivity. Qed.
Lemma stopping_process_reached :
  rtc (router_process_step sample_settings ModeStatic [endpoint 1; endpoint 2] (fun a => a)) sample_launched stopping_process.
Proof. apply (router_process_reached (two_modems ++ two_modems_stop)). vm_compute. reflexivity. Qed.
Lemma over_reached :
  rtc (router_process_step sample_settings ModeStatic [endpoint 1; endpoint 2] (fun a => a)) sample_launched over_process.
Proof. apply (router_process_reached (two_modems ++ two_modems_stop ++ two_modems_over)). vm_compute. reflexivity. Qed.

Lemma sample_limits : limits_validate (rs_limits sample_settings) = Ok tt.
Proof. vm_compute. reflexivity. Qed.
Lemma sample_sessions : 0 <= max_sessions (rs_limits sample_settings).
Proof. vm_compute. discriminate. Qed.

(** A session with one modem, a connection to the other. *)
Lemma dialling_shape :
  r_sessions (rp_daemon dialling_process) !! 0%nat = Some (mkSessionTask (endpoint 1) true)
  /\ r_attempts (rp_daemon dialling_process) !! 2%nat = Some (mkDialTask (Dialling (endpoint 2)) true)
  /\ exists t, rp_main dialling_process = Selecting t.
Proof. split; [vm_compute; reflexivity|]. split; [vm_compute; reflexivity|]. eexists. vm_compute. reflexivity. Qed.

Lemma one_session_per_modem_witness :
  (forall k s, r_sessions (rp_daemon dialling_process) !! k = Some s -> st_peer s = endpoint 1 -> 0%nat = k)
  /\ Z.of_nat (size (r_attempts (rp_daemon dialling_process))) <= MAX_CONNECT_ATTEMPTS.
Proof.
  destruct (one_session_per_modem sample_settings ModeStatic [endpoint 1; endpoint 2] (fun a => a) dialling_process
    sample_limits sample_sessions (fun a => eq_refl) dialling_reached) as (_ & Hs & _ & _ & Hn).
  split; [|exact Hn]. intros k s Hk E. destruct dialling_shape as (H0 & _ & _).
  exact (Hs 0%nat k _ s H0 Hk (eq_sym E)).
Defined.

Lemma no_modem_forgotten_witness :
  attended (rp_driver dialling_process) (endpoint 1)
  /\ (endpoint 2 ∈ dr_startup (rp_driver dialling_process) \/ attended (rp_driver dialling_process) (endpoint 2)).
Proof.
  destruct dialling_shape as (_ & _ & t & Et).
  destruct (no_modem_forgotten sample_settings ModeStatic [endpoint 1; endpoint 2] (fun a => a) dialling_process t
    sample_limits sample_sessions (fun a => eq_refl) dialling_reached Et) as (Hpin & Hknown & _).
  split.
  - apply Hknown. assert (E : is_some (snapshot (r_registry (rp_daemon dialling_process)) !! endpoint 1) = true)
      by (vm_compute; reflexivity).
    destruct (snapshot (r_registry (rp_daemon dialling_process)) !! endpoint 1) as [st|]; [exists st; reflexivity|discriminate E].
  - apply Hpin; [reflexivity|]. right. left.
Defined.

Lemma router_exits_witness :
  (exists e p', router_own stopping_process e
     /\ router_process_act sample_settings ModeStatic [endpoint 1; endpoint 2] (fun a => a) e stopping_process = Some (Ok p'))
  /\ r_sessions (rp_daemon over_process) = ∅.
Proof.
  assert (Es : rp_main stopping_process = RouterStopping false) by (vm_compute; reflexivity).
  assert (Eo : rp_main over_process = RouterOver false) by (vm_compute; reflexivity).
  split.
  - exact (proj1 (proj1 (router_exits sample_settings ModeStatic [endpoint 1; endpoint 2] (fun a => a) stopping_process false
      sample_limits sample_sessions (fun a => eq_refl) stopping_process_reached) Es)).
  - exact (proj1 (proj2 (proj2 (router_exits sample_settings ModeStatic [endpoint 1; endpoint 2] (fun a => a) over_process false
      sample_limits sample_sessions (fun a => eq_refl) over_reached) Eo))).
Defined.
