(* ===== verification/Transport.v ===== *)
(** * Transports

    [dlep-net/src/transport.rs]: the connector of a router and the acceptor of a modem.
    With GTSM enforced both set the TTL options of the socket before TCP connects and
    register the stream with the monitor of [Monitor] until the transport is dropped.
    Streams, handshakes and their time limits are the operating system's and rustls's
    answers. *)

From S2P Require Import Prelude CoreTypes Addresses Events Connections Monitor.
From S2P Require Import Interfaces DiscoverySockets.

(** ** Data *)

(** A connected [TcpStream]: its endpoints, and the identity of its socket. *)
Record TcpStream : Type := mkStream {
  s_local : SocketAddr;
  s_peer : SocketAddr;
  s_ref : SocketRef;
}.

(** [MonitoredTransport]. *)
Record Transport : Type := mkTransport {
  t_stream : TcpStream;
  t_tls : bool;
  t_registration : option (Connection * SocketRef);
}.

(** [PendingTransport]: accepted, not yet through the TLS handshake. *)
Record PendingTransport : Type := mkPendingTransport {
  p_stream : TcpStream;
  p_tls : bool;
  p_registration : option (Connection * SocketRef);
}.

Inductive TransportError : Type :=
  | MonitorUnavailable
  | OptionRefused
  | ConnectFailed
  | NotMonitored
  | HandshakeFailed.

(** [registration.transpose()]: the stream is registered if there is a monitor. *)
Definition register_transport (monitor : option MonitorState) (s : TcpStream)
    : outcome TransportError (option (Connection * SocketRef)) * option MonitorState :=
  match monitor with
  | None => (Ok None, None)
  | Some m =>
      match register_stream (s_local s) (s_peer s) (s_ref s) m with
      | (Ok r, m') => (Ok (Some r), Some m')
      | (Err _, m') => (Err NotMonitored, Some m')
      | (Panic, m') => (Panic, Some m')
      end
  end.

Definition unregister (r : option (Connection * SocketRef)) (monitor : option MonitorState)
    : option MonitorState :=
  match r, monitor with
  | Some r, Some m => Some (drop_registration r m)
  | _, _ => monitor
  end.

(** ** The connector *)

Record Connector : Type := mkConnector {
  co_tls : bool;
  co_enforce_gtsm : bool;
}.

(** What the system answers to one connection attempt: whether the packet monitor
    starts, which socket options are set, the stream unless it failed or timed out, and
    whether the TLS handshake succeeds in time. *)
Record Dial : Type := mkDial {
  dl_monitor : bool;
  dl_calls : SockCall -> bool;
  dl_stream : option TcpStream;
  dl_handshake : bool;
}.

(** [Connector::connect], with the monitor it made and the options it set. *)
Definition connect (self : Connector) (addr : SocketAddr) (dial : Dial)
    : outcome TransportError Transport * option MonitorState :=
  if co_enforce_gtsm self && negb (dl_monitor dial) then (Err MonitorUnavailable, None)
  else
    let monitor := if co_enforce_gtsm self then Some MonitorState_default else None in
    if negb (forallb (dl_calls dial) (configure_tcp (is_ipv6 addr) (co_enforce_gtsm self)))
    then (Err OptionRefused, monitor)
    else
      match dl_stream dial with
      | None => (Err ConnectFailed, monitor)
      | Some s =>
          match register_transport monitor s with
          | (Ok registration, monitor) =>
              if co_tls self && negb (dl_handshake dial)
              then (Err HandshakeFailed, unregister registration monitor)
              else (Ok (mkTransport s (co_tls self) registration), monitor)
          | (Err e, monitor) => (Err e, monitor)
          | (Panic, monitor) => (Panic, monitor)
          end
      end.

(** ** The acceptor *)

(** [Acceptor::accept_pending] of a stream. *)
Definition accept_pending (tls : bool) (s : TcpStream) (monitor : option MonitorState)
    : outcome TransportError PendingTransport * option MonitorState :=
  match register_transport monitor s with
  | (Ok registration, monitor) => (Ok (mkPendingTransport s tls registration), monitor)
  | (Err e, monitor) => (Err e, monitor)
  | (Panic, monitor) => (Panic, monitor)
  end.

(** [PendingTransport::handshake]; a failed one drops the registration. *)
Definition finish_handshake (p : PendingTransport) (ok : bool) (monitor : option MonitorState)
    : outcome TransportError Transport * option MonitorState :=
  if p_tls p && negb ok then (Err HandshakeFailed, unregister (p_registration p) monitor)
  else (Ok (mkTransport (p_stream p) (p_tls p) (p_registration p)), monitor).

(** The connections of an acceptor that enforces GTSM, from accept to drop; the log of
    [Monitor] says which registrations were made. *)
Record AcceptorState : Type := mkAcceptor {
  ac_monitor : MonitorState;
  ac_log : MonitorLog;
  ac_live : gmap SocketRef (PendingTransport + Transport);
}.

Definition live_stream (x : PendingTransport + Transport) : TcpStream :=
  match x with inl p => p_stream p | inr t => t_stream t end.
Definition live_registration (x : PendingTransport + Transport) : option (Connection * SocketRef) :=
  match x with inl p => p_registration p | inr t => t_registration t end.

Definition stream_connection (s : TcpStream) : Connection := mkConnection (normalize (s_local s)) (normalize (s_peer s)).

(** A socket's identity is its own while the socket exists, and a dropped socket is not
    dropped again. *)
Inductive acceptor_step (tls : bool) : AcceptorState -> AcceptorState -> Prop :=
  | acc_accept m h live s p m' :
      s_ref s ∉ (made h).*2 -> accept_pending tls s (Some m) = (Ok p, Some m') ->
      acceptor_step tls (mkAcceptor m h live)
        (mkAcceptor m' (mkLog ((stream_connection s, s_ref s) :: made h) (dropped h))
           (<[s_ref s := inl p]> live))
  | acc_refused m h live s e m' :
      accept_pending tls s (Some m) = (Err e, Some m') ->
      acceptor_step tls (mkAcceptor m h live) (mkAcceptor m' h live)
  | acc_handshake m h live k p t m' :
      live !! k = Some (inl p) -> finish_handshake p true (Some m) = (Ok t, Some m') ->
      acceptor_step tls (mkAcceptor m h live) (mkAcceptor m' h (<[k := inr t]> live))
  | acc_failed m h live k p e m' :
      live !! k = Some (inl p) -> finish_handshake p false (Some m) = (Err e, Some m') ->
      acceptor_step tls (mkAcceptor m h live)
        (mkAcceptor m' (mkLog (made h) ({[k]} ∪ dropped h)) (delete k live))
  | acc_drop m h live k x m' :
      live !! k = Some x -> unregister (live_registration x) (Some m) = Some m' ->
      acceptor_step tls (mkAcceptor m h live)
        (mkAcceptor m' (mkLog (made h) ({[k]} ∪ dropped h)) (delete k live))
  | acc_monitor m h live r resets m' goes_on :
      failed m = false -> receive_turn r m = Ok (resets, m', goes_on) ->
      acceptor_step tls (mkAcceptor m h live) (mkAcceptor m' h live).

(** ** Invariant *)

Record acceptor_inv (st : AcceptorState) : Prop := {
  aci_monitor : monitor_inv (ac_monitor st, ac_log st);
  aci_live : forall k x, ac_live st !! k = Some x ->
    s_ref (live_stream x) = k /\ live_registration x = Some (stream_connection (live_stream x), k)
    /\ (stream_connection (live_stream x), k) ∈ made (ac_log st) /\ k ∉ dropped (ac_log st);
}.

Lemma register_Some m s r m' :
  register_transport (Some m) s = (Ok r, Some m') ->
  r = Some (stream_connection s, s_ref s)
  /\ register_stream (s_local s) (s_peer s) (s_ref s) m = (Ok (stream_connection s, s_ref s), m').
Proof. unfold register_transport, register_stream, stream_connection. destruct (failed m); [done|]. by intros [= <- <-]. Qed.

Lemma register_Err m s e m' :
  register_transport (Some m) s = (Err e, Some m') ->
  exists e', register_stream (s_local s) (s_peer s) (s_ref s) m = (Err e', m').
Proof. unfold register_transport, register_stream. destruct (failed m); [|done]. intros [= <- <-]. by eexists. Qed.

(** A live connection is dropped. *)
Lemma acceptor_drop_inv m h live k x :
  acceptor_inv (mkAcceptor m h live) -> live !! k = Some x ->
  exists m', unregister (live_registration x) (Some m) = Some m'
    /\ acceptor_inv (mkAcceptor m' (mkLog (made h) ({[k]} ∪ dropped h)) (delete k live)).
Proof.
  intros [Hm Hl] Hk. destruct (Hl k x Hk) as (_ & Hr & Hin & Hd). cbn [ac_log ac_monitor] in *.
  rewrite Hr. cbn. eexists. split; [done|]. split; cbn.
  - exact (monitor_step_inv _ _ Hm (mon_drop m h (stream_connection (live_stream x), k) Hin Hd)).
  - intros k' x' [Hne Hk']%lookup_delete_Some. destruct (Hl k' x' Hk') as (? & ? & ? & ?). cbn in *.
    split_and!; try done. set_solver.
Qed.

Lemma acceptor_step_inv tls st st' : acceptor_step tls st st' -> acceptor_inv st -> acceptor_inv st'.
Proof.
  intros Hs Hi. pose proof Hi as [Hm Hl].
  destruct Hs as [m h live s p m' Hf Ha|m h live s e m' Ha|m h live k p t m' Hk Hh|m h live k p e m' Hk Hh
    |m h live k x m' Hk Hu|m h live r resets m' goes_on _ Hr]; cbn [ac_monitor ac_log ac_live] in *.
  - unfold accept_pending in Ha. destruct (register_transport (Some m) s) as [[r|e|] m1] eqn:Er; try done.
    injection Ha as <- ->. apply register_Some in Er as [-> Er]. split; cbn.
    + exact (monitor_step_inv _ _ Hm (mon_register m h _ _ _ _ _ Hf Er)).
    + intros k x Hk. apply lookup_insert_Some in Hk as [[<- <-]|[Hne Hk]].
      * split_and!; [done|done|left|]. destruct Hm as (_ & Hd & _). cbn in Hd. set_solver.
      * destruct (Hl k x Hk) as (? & ? & ? & ?). split_and!; try done. by right.
  - unfold accept_pending in Ha. destruct (register_transport (Some m) s) as [[r|e'|] m1] eqn:Er; try done.
    injection Ha as _ ->. apply register_Err in Er as [e'' Er]. split; cbn; [|done].
    exact (monitor_step_inv _ _ Hm (mon_refused m h _ _ _ _ _ Er)).
  - unfold finish_handshake in Hh. destruct (_ && _); [done|]. injection Hh as <- <-. split; cbn; [done|].
    intros k' x Hk'. apply lookup_insert_Some in Hk' as [[<- <-]|[_ Hk']]; [|by apply Hl].
    exact (Hl k _ Hk).
  - unfold finish_handshake in Hh. destruct (_ && _); [|done].
    destruct (acceptor_drop_inv m h live k (inl p) Hi Hk) as (m2 & Hu & Hi'). cbn in Hu, Hh.
    injection Hh as _ Hh. rewrite Hu in Hh. by injection Hh as <-.
  - destruct (acceptor_drop_inv m h live k x Hi Hk) as (m2 & Hu' & Hi'). congruence.
  - destruct r as [| |info packet]; cbn in Hr.
    + by injection Hr as <- <- <-.
    + injection Hr as <- <- <-. split; cbn; [|done]. exact (monitor_step_inv _ _ Hm (mon_failure m h)).
    + destruct (on_packet info packet m) as [l|[]|]; [|done]. by injection Hr as <- <- <-.
Qed.

(** ** Theorems *)

Definition acceptor_start : AcceptorState := mkAcceptor MonitorState_default (mkLog [] ∅) ∅.

Lemma acceptor_reachable_inv tls st : rtc (acceptor_step tls) acceptor_start st -> acceptor_inv st.
Proof.
  intros Hr. assert (H0 : acceptor_inv acceptor_start).
  { split; [split_and!; [apply NoDup_nil_2|done|done]|]. intros k x H. cbn in H. by rewrite lookup_empty in H. }
  revert H0. induction Hr as [|x y z Hs _ IH]; [done|]. intros Hx. apply IH. by eapply acceptor_step_inv.
Qed.

(** C33: Connections are watched as long as they live.  In every run of an acceptor that
    enforces GTSM, each connection from its accept, through the TLS handshake, to its
    drop is the one a violation resets, unless a newer connection between the same
    endpoints took its place; if the monitor fails it is reset then, and no connection is
    accepted any more; and once its transport is dropped, also after a failed handshake,
    no packet resets its socket. *)
Theorem accepted_watched tls st :
  rtc (acceptor_step tls) acceptor_start st ->
  (forall k x, ac_live st !! k = Some x ->
     newest (stream_connection (live_stream x)) (ac_log st) = Some k ->
     forall interface packet ttl, ttl <> 255 ->
       tcp_packet interface packet ttl (stream_connection (live_stream x)) ->
       on_packet (mkPacket true false interface) packet (ac_monitor st) = Ok [k])
  /\ (forall k x, ac_live st !! k = Some x ->
     newest (stream_connection (live_stream x)) (ac_log st) = Some k ->
     exists resets m, receive_turn CaptureFails (ac_monitor st) = Ok (resets, m, false) /\ k ∈ resets
       /\ forall s, accept_pending tls s (Some m) = (Err NotMonitored, Some m))
  /\ forall k info packet resets, k ∈ dropped (ac_log st) ->
       on_packet info packet (ac_monitor st) = Ok resets -> k ∉ resets.
Proof.
  intros [(Hnd & Hdr & Hs) Hl]%acceptor_reachable_inv. cbn [fst snd] in *. split_and!.
  - intros k x Hk Hn interface packet ttl Ht Hp.
    destruct (tcp_packet_parsed _ _ _ _ Hp) as [_ Hc]. unfold on_packet. cbn [is_ip outgoing ifindex negb orb].
    rewrite (Hc Ht), Hs. unfold monitored. rewrite Hn. destruct (Hl k x Hk) as (_ & _ & _ & Hd).
    by rewrite bool_decide_false.
  - intros k x Hk Hn. eexists _, _. split; [done|]. split; [|done].
    apply list_elem_of_fmap. exists (stream_connection (live_stream x), k). split; [done|].
    apply elem_of_map_to_list. rewrite Hs. unfold monitored. rewrite Hn. destruct (Hl k x Hk) as (_ & _ & _ & Hd).
    by rewrite bool_decide_false.
  - intros k info packet resets Hd. unfold on_packet. destruct (_ || _); [intros [= <-]; set_solver|].
    destruct (low_ttl_connection packet (ifindex info)) as [c|[]|]; [|intros [= <-]; set_solver|done].
    intros [= <-]. rewrite Hs. unfold monitored. destruct (newest c (ac_log st)) as [s|]; [|set_solver].
    case_bool_decide; cbn; set_solver.
Qed.

Lemma forallb_Forall {A} (f : A -> bool) l : forallb f l = true -> Forall (fun x => f x = true) l.
Proof. intros H. apply Forall_forall. intros x Hx%list_elem_of_In. by apply (proj1 (forallb_forall f l) H). Qed.

(** A router's transport.  [connect] hands out a transport only if it is TLS exactly
    when asked for; with GTSM enforced, all TTL options were set before, the stream is
    registered with the monitor, and a violation resets it; an attempt that fails
    leaves nothing registered. *)
Theorem connect_guarded self addr dial :
  match connect self addr dial with
  | (Ok t, monitor) =>
      t_tls t = co_tls self /\ (co_tls self = true -> dl_handshake dial = true)
      /\ Forall (fun c => dl_calls dial c = true) (configure_tcp (is_ipv6 addr) (co_enforce_gtsm self))
      /\ if co_enforce_gtsm self then
           t_registration t = Some (stream_connection (t_stream t), s_ref (t_stream t))
           /\ exists m, monitor = Some m
              /\ forall interface packet ttl, ttl <> 255 ->
                   tcp_packet interface packet ttl (stream_connection (t_stream t)) ->
                   on_packet (mkPacket true false interface) packet m = Ok [s_ref (t_stream t)]
         else t_registration t = None /\ monitor = None
  | (Err _, monitor) => forall m, monitor = Some m -> sockets m = ∅
  | (Panic, _) => False
  end.
Proof.
  unfold connect. destruct (co_enforce_gtsm self) eqn:Ee; cbn [andb].
  - destruct (dl_monitor dial); cbn [negb]; [|done].
    destruct (forallb (dl_calls dial) _) eqn:Ef; cbn [negb]; [|by intros m [= <-]].
    destruct (dl_stream dial) as [s|]; [|by intros m [= <-]]. cbn.
    fold (stream_connection s). destruct (co_tls self && negb (dl_handshake dial)) eqn:Eh.
    + intros m [= <-]. unfold drop_registration. cbn. rewrite lookup_insert_eq, bool_decide_true by done. cbn.
      apply delete_insert_id, lookup_empty.
    + split_and!; [done| | |done|].
      * intros Ht. rewrite Ht in Eh. by destruct (dl_handshake dial).
      * by apply forallb_Forall.
      * eexists. split; [done|]. intros interface packet ttl Ht Hp.
        destruct (tcp_packet_parsed _ _ _ _ Hp) as [_ Hc]. unfold on_packet. cbn.
        rewrite (Hc Ht). by rewrite lookup_insert_eq.
  - destruct (forallb (dl_calls dial) _) eqn:Ef; cbn [negb]; [|done].
    destruct (dl_stream dial) as [s|]; [|done]. cbn.
    destruct (co_tls self && negb (dl_handshake dial)) eqn:Eh; [done|].
    split_and!; try done.
    + intros Ht. rewrite Ht in Eh. by destruct (dl_handshake dial).
    + by apply forallb_Forall.
Qed.

(** ** An example *)

Definition sample_stream : TcpStream := mkStream (SocketV6 1 854 0 0) (SocketV6 2 40000 0 0) 7.
Definition watched : AcceptorState :=
  mkAcceptor (mkMonitor {[sample_connection := 7]} false) (mkLog [(sample_connection, 7)] ∅)
    {[7 := inl (mkPendingTransport sample_stream true (Some (sample_connection, 7)))]}.

Lemma watched_reached : rtc (acceptor_step true) acceptor_start watched.
Proof.
  eapply rtc_l; [|apply rtc_refl].
  apply (acc_accept true MonitorState_default (mkLog [] ∅) ∅ sample_stream
    (mkPendingTransport sample_stream true (Some (sample_connection, 7)))).
  - cbn. set_solver.
  - vm_compute. reflexivity.
Qed.

Lemma accepted_watched_witness :
  on_packet (mkPacket true false 3) (sample_packet 64) (ac_monitor watched) = Ok [7].
Proof.
  destruct (accepted_watched true watched watched_reached) as [H _].
  apply (H 7 (inl (mkPendingTransport sample_stream true (Some (sample_connection, 7))))) with (ttl := 64).
  - apply lookup_singleton_eq.
  - vm_compute. reflexivity.
  - lia.
  - exact (sample_packet_ok 64).
Defined.
