(* ===== verification/Processes.v ===== *)
(** * The life of the modem process

    What [run_from] of [dlep-modem/src/lib.rs] does with a started daemon: it serves until
    a signal arrives or the radio adapter fails, shuts the daemon down ([Accept]), and
    stops the adapter ([Adapter::stop] of [dlep-modem/src/radio.rs]), whose input a writer
    task feeds.  Process, pipe and clock are the environment's steps. *)

From S2P Require Import Prelude CoreTypes Addresses Events Connections Accept.

(** ** The adapter's input and its end *)

(** The writer task waits for a line, is inside [write_all] with the octets left, or is
    over; its end closes the adapter's standard input. *)
Inductive Writer : Type :=
  | WriterIdle
  | WritingLine (rest : bytes)
  | WriterOver.

(** Where [Adapter::stop] is, with its deadline. *)
Inductive StopPoint : Type :=
  | Unstopped
  | JoinWriter (deadline : Z)
  | AbortWriter (deadline : Z)
  | WaitChild (deadline : Z)
  | KillChild
  | Stopped.

#[global] Instance Writer_eq_dec : EqDecision Writer.
Proof. solve_decision. Defined.
#[global] Instance StopPoint_eq_dec : EqDecision StopPoint.
Proof. solve_decision. Defined.

(** [ad_queue] is the channel [out], open while [ad_open]; [ad_input] what was written to
    the adapter and [ad_child] whether its process lives.  [ad_sent] are the lines the
    channel took, [ad_cut] says that the writer failed or was aborted, [ad_unkilled] that
    the process could not be killed. *)
Record AdapterState : Type := mkAdapter {
  ad_now : Z;
  ad_sent : list bytes;
  ad_queue : list bytes;
  ad_open : bool;
  ad_input : bytes;
  ad_writer : Writer;
  ad_cut : bool;
  ad_child : bool;
  ad_unkilled : bool;
  ad_point : StopPoint;
}.

(** Milliseconds. *)
Definition STOP_GRACE : Z := 2000.

(** [Adapter::spawn], once the process runs. *)
Definition adapter_started (now : Z) : AdapterState :=
  mkAdapter now [] [] true [] WriterIdle false true false Unstopped.

Definition set_writer (w : Writer) (cut : bool) (s : AdapterState) : AdapterState :=
  mkAdapter (ad_now s) (ad_sent s) (ad_queue s) (ad_open s) (ad_input s) w cut (ad_child s) (ad_unkilled s)
    (ad_point s).
Definition set_stop (p : StopPoint) (s : AdapterState) : AdapterState :=
  mkAdapter (ad_now s) (ad_sent s) (ad_queue s) (ad_open s) (ad_input s) (ad_writer s) (ad_cut s) (ad_child s)
    (ad_unkilled s) p.

(** [out.send(line)]; without a receiver it fails, which the bridge ignores. *)
Definition send_line (line : bytes) (s : AdapterState) : AdapterState :=
  if bool_decide (ad_writer s = WriterOver) then s
  else
    mkAdapter (ad_now s) (ad_sent s ++ [line]) (ad_queue s ++ [line]) (ad_open s) (ad_input s) (ad_writer s)
      (ad_cut s) (ad_child s) (ad_unkilled s) (ad_point s).

(** A line with the newline the writer appends. *)
Definition line_octets (line : bytes) : bytes := line ++ [10].

(** [queued.recv()] of the writer: a line, or [None] of a closed channel. *)
Definition writer_recv (s : AdapterState) : option AdapterState :=
  match ad_writer s, ad_queue s with
  | WriterIdle, line :: rest =>
      Some (mkAdapter (ad_now s) (ad_sent s) rest (ad_open s) (ad_input s) (WritingLine (line_octets line))
              (ad_cut s) (ad_child s) (ad_unkilled s) (ad_point s))
  | WriterIdle, [] => if ad_open s then None else Some (set_writer WriterOver (ad_cut s) s)
  | _, _ => None
  end.

(** The pipe takes [n] octets inside [write_all], or the write fails. *)
Definition writer_writes (n : nat) (s : AdapterState) : option AdapterState :=
  match ad_writer s with
  | WritingLine rest =>
      if (0 <? n)%nat && (n <=? length rest)%nat then
        Some (mkAdapter (ad_now s) (ad_sent s) (ad_queue s) (ad_open s) (ad_input s ++ take n rest)
                (match drop n rest with [] => WriterIdle | rest' => WritingLine rest' end)
                (ad_cut s) (ad_child s) (ad_unkilled s) (ad_point s))
      else None
  | _ => None
  end.
Definition writer_fails (s : AdapterState) : option AdapterState :=
  match ad_writer s with WritingLine _ => Some (set_writer WriterOver true s) | _ => None end.

(** The runtime drops the aborted writer. *)
Definition writer_cancelled (s : AdapterState) : option AdapterState :=
  match ad_point s, ad_writer s with
  | AbortWriter _, WriterOver => None
  | AbortWriter _, _ => Some (set_writer WriterOver true s)
  | _, _ => None
  end.

Definition child_exits (s : AdapterState) : option AdapterState :=
  if ad_child s then
    Some (mkAdapter (ad_now s) (ad_sent s) (ad_queue s) (ad_open s) (ad_input s) (ad_writer s) (ad_cut s) false
            (ad_unkilled s) (ad_point s))
  else None.

(** [Child::kill] returns an error, which is ignored. *)
Definition kill_fails (s : AdapterState) : option AdapterState :=
  match ad_point s with
  | KillChild =>
      Some (mkAdapter (ad_now s) (ad_sent s) (ad_queue s) (ad_open s) (ad_input s) (ad_writer s) (ad_cut s)
              (ad_child s) true Stopped)
  | _ => None
  end.

(** A step of [Adapter::stop]; [timeout_at] looks at its future before the clock. *)
Definition stop_step (s : AdapterState) : option AdapterState :=
  match ad_point s with
  | Unstopped =>
      Some (mkAdapter (ad_now s) (ad_sent s) (ad_queue s) false (ad_input s) (ad_writer s) (ad_cut s) (ad_child s)
              (ad_unkilled s) (JoinWriter (ad_now s + STOP_GRACE)))
  | JoinWriter deadline =>
      if bool_decide (ad_writer s = WriterOver) then Some (set_stop (WaitChild deadline) s)
      else if deadline <=? ad_now s then Some (set_stop (AbortWriter deadline) s)
      else None
  | AbortWriter deadline =>
      if bool_decide (ad_writer s = WriterOver) then Some (set_stop (WaitChild deadline) s) else None
  | WaitChild deadline =>
      if negb (ad_child s) then Some (set_stop Stopped s)
      else if deadline <=? ad_now s then Some (set_stop KillChild s)
      else None
  | KillChild => if negb (ad_child s) then Some (set_stop Stopped s) else None
  | Stopped => None
  end.

Inductive AdapterAction : Type :=
  | SendLine (line : bytes)
  | WriterRecv
  | WriterWrites (n : nat)
  | WriterFails
  | WriterCancelled
  | ChildExits
  | KillFails
  | Tick (n : nat)
  | Stop.

Definition adapter_act (a : AdapterAction) (s : AdapterState) : option AdapterState :=
  match a with
  | SendLine line => if ad_open s then Some (send_line line s) else None
  | WriterRecv => writer_recv s
  | WriterWrites n => writer_writes n s
  | WriterFails => writer_fails s
  | WriterCancelled => writer_cancelled s
  | ChildExits => child_exits s
  | KillFails => kill_fails s
  | Tick n =>
      Some (mkAdapter (ad_now s + Z.of_nat n) (ad_sent s) (ad_queue s) (ad_open s) (ad_input s) (ad_writer s)
              (ad_cut s) (ad_child s) (ad_unkilled s) (ad_point s))
  | Stop => stop_step s
  end.

Definition adapter_step (s s' : AdapterState) : Prop := exists a, adapter_act a s = Some s'.

(** ** The process *)

(** Where [run_from] is; [failed] that the adapter's failure ended it, which is its error. *)
Inductive MainPoint : Type :=
  | ServingRouters
  | ShuttingDown (failed : bool)
  | StoppingAdapter (failed : bool)
  | Exited (failed : bool).

Record ModemProcess : Type := mkProcess {
  mp_main : MainPoint;
  mp_daemon : AcceptState;
  mp_adapter : option AdapterState;
}.

Definition modem_started (discovery : bool) (adapter : option Z) : ModemProcess :=
  mkProcess ServingRouters (spawn_daemon discovery) (adapter_started <$> adapter).

Inductive ProcessAction : Type :=
  | OnDaemon (a : DaemonAction)
  | OnAdapter (a : AdapterAction)
  | SignalArrives
  | AdapterFails
  | DaemonIsDown
  | AdapterIsStopped.

(** [shutdown] runs after [select!], [stop] after [shutdown]; the bridge, which sends
    lines and commands, only before. *)
Definition daemon_allowed (a : DaemonAction) (m : MainPoint) : bool :=
  match a, m with
  | Shutdown, ShuttingDown _ | Dispatch, ServingRouters => true
  | Shutdown, _ | Dispatch, _ => false
  | _, _ => true
  end.
Definition adapter_allowed (a : AdapterAction) (m : MainPoint) : bool :=
  match a, m with
  | SendLine _, ServingRouters | Stop, StoppingAdapter _ => true
  | SendLine _, _ | Stop, _ => false
  | _, _ => true
  end.

Definition process_act (a : ProcessAction) (p : ModemProcess) : option ModemProcess :=
  match a with
  | OnDaemon a =>
      if daemon_allowed a (mp_main p) then
        match daemon_act a (mp_daemon p) with
        | Some (Ok d) => Some (mkProcess (mp_main p) d (mp_adapter p))
        | _ => None
        end
      else None
  | OnAdapter a =>
      match mp_adapter p with
      | Some s =>
          if adapter_allowed a (mp_main p) then
            (fun s => mkProcess (mp_main p) (mp_daemon p) (Some s)) <$> adapter_act a s
          else None
      | None => None
      end
  | SignalArrives =>
      match mp_main p with
      | ServingRouters => Some (mkProcess (ShuttingDown false) (mp_daemon p) (mp_adapter p))
      | _ => None
      end
  | AdapterFails =>
      match mp_main p, mp_adapter p with
      | ServingRouters, Some _ => Some (mkProcess (ShuttingDown true) (mp_daemon p) (mp_adapter p))
      | _, _ => None
      end
  | DaemonIsDown =>
      match mp_main p with
      | ShuttingDown failed =>
          if bool_decide (a_point (mp_daemon p) = Down) then
            Some (mkProcess (match mp_adapter p with Some _ => StoppingAdapter failed | None => Exited failed end)
                    (mp_daemon p) (mp_adapter p))
          else None
      | _ => None
      end
  | AdapterIsStopped =>
      match mp_main p, mp_adapter p with
      | StoppingAdapter failed, Some s =>
          if bool_decide (ad_point s = Stopped) then Some (mkProcess (Exited failed) (mp_daemon p) (mp_adapter p))
          else None
      | _, _ => None
      end
  end.

Definition process_step (p p' : ModemProcess) : Prop := exists a, process_act a p = Some p'.

(** ** The adapter's invariant *)

Definition unwritten (w : Writer) : bytes := match w with WritingLine rest => rest | _ => [] end.
Definition input_of (lines : list bytes) : bytes := lines ≫= line_octets.

Definition writer_joined (p : StopPoint) : bool :=
  match p with WaitChild _ | KillChild | Stopped => true | _ => false end.
Definition deadline_of (p : StopPoint) : option Z :=
  match p with JoinWriter t | AbortWriter t | WaitChild t => Some t | _ => None end.

Record adapter_inv (s : AdapterState) : Prop := {
  di_input : if ad_cut s then exists rest, input_of (ad_sent s) = ad_input s ++ rest
             else input_of (ad_sent s) = ad_input s ++ unwritten (ad_writer s) ++ input_of (ad_queue s);
  di_cut : ad_cut s = true -> ad_writer s = WriterOver;
  di_over : ad_writer s = WriterOver -> ad_cut s = false -> ad_queue s = [];
  di_open : ad_open s = bool_decide (ad_point s = Unstopped);
  di_joined : writer_joined (ad_point s) = true -> ad_writer s = WriterOver;
  di_child : ad_point s = Stopped -> ad_child s = false \/ ad_unkilled s = true;
  di_deadline : forall t, deadline_of (ad_point s) = Some t -> t <= ad_now s + STOP_GRACE;
}.

Lemma input_of_snoc lines line : input_of (lines ++ [line]) = input_of lines ++ line_octets line.
Proof. unfold input_of. rewrite bind_app. cbn. by rewrite app_nil_r. Qed.

Lemma adapter_started_inv now : adapter_inv (adapter_started now).
Proof. split; try done; by left. Qed.

(** The steps that leave the writer, its channel and its record alone. *)
Lemma adapter_inv_frame s now child unkilled point :
  adapter_inv s -> ad_open s = bool_decide (point = Unstopped) ->
  (writer_joined point = true -> ad_writer s = WriterOver) ->
  (point = Stopped -> child = false \/ unkilled = true) ->
  (forall t, deadline_of point = Some t -> t <= now + STOP_GRACE) ->
  adapter_inv (mkAdapter now (ad_sent s) (ad_queue s) (ad_open s) (ad_input s) (ad_writer s) (ad_cut s) child
                 unkilled point).
Proof. intros [] ? ? ? ?. by split. Qed.

Lemma send_line_inv line s : adapter_inv s -> adapter_inv (send_line line s).
Proof.
  intros Hi. unfold send_line. case_bool_decide as Hw; [done|]. destruct Hi as [H1 H2 H3 H4 H5 H6 H7].
  split; cbn; try done.
  - destruct (ad_cut s); [by destruct (Hw (H2 eq_refl))|]. by rewrite !input_of_snoc, H1, !app_assoc.
Qed.

Lemma writer_recv_inv s s' : adapter_inv s -> writer_recv s = Some s' -> adapter_inv s'.
Proof.
  intros [H1 H2 H3 H4 H5 H6 H7]. unfold writer_recv.
  destruct (ad_writer s) eqn:Hw; [|done|done].
  assert (Hc : ad_cut s = false) by (destruct (ad_cut s); [by specialize (H2 eq_refl)|done]).
  destruct (ad_queue s) as [|line rest] eqn:Hq.
  - destruct (ad_open s) eqn:Ho; [done|]. intros [= <-]. split; cbn; rewrite ?Hc, ?Hq, ?Ho in *; done.
  - intros [= <-]. split; cbn; rewrite ?Hc in *; try done. intros Hj. by specialize (H5 Hj).
Qed.

Lemma writer_writes_inv n s s' : adapter_inv s -> writer_writes n s = Some s' -> adapter_inv s'.
Proof.
  intros [H1 H2 H3 H4 H5 H6 H7]. unfold writer_writes. destruct (ad_writer s) as [|rest|] eqn:Hw; [done| |done].
  assert (Hc : ad_cut s = false) by (destruct (ad_cut s); [by specialize (H2 eq_refl)|done]).
  destruct (_ && _); [|done]. intros [= <-].
  split; cbn [ad_now ad_sent ad_queue ad_open ad_input ad_writer ad_cut ad_child ad_unkilled ad_point];
    rewrite ?Hc in *; try done.
  - assert (Hu : unwritten (match drop n rest with [] => WriterIdle | r => WritingLine r end) = drop n rest)
      by by destruct (drop n rest).
    rewrite Hu, H1. cbn [unwritten]. rewrite <-(take_drop n rest) at 1. by rewrite <-!app_assoc.
  - by destruct (drop n rest).
  - intros Hj. by specialize (H5 Hj).
Qed.

Lemma writer_cut_inv s : adapter_inv s -> ad_cut s = false -> adapter_inv (set_writer WriterOver true s).
Proof.
  intros [H1 H2 H3 H4 H5 H6 H7] Hc. rewrite Hc in H1. split; cbn; try done.
  by exists (unwritten (ad_writer s) ++ input_of (ad_queue s)).
Qed.

Lemma stop_step_inv s s' : adapter_inv s -> stop_step s = Some s' -> adapter_inv s'.
Proof.
  intros Hi. pose proof Hi as [H1 H2 H3 H4 H5 H6 H7]. unfold stop_step.
  destruct (ad_point s) as [|t|t|t| |] eqn:Hp; [| | | | |done].
  - intros [= <-]. split; cbn; try done. intros t [= <-]. lia.
  - destruct (bool_decide (ad_writer s = WriterOver)) eqn:Hw.
    + apply bool_decide_eq_true in Hw. intros [= <-]. by apply adapter_inv_frame.
    + destruct (t <=? ad_now s); [|done]. intros [= <-]. by apply adapter_inv_frame.
  - destruct (bool_decide (ad_writer s = WriterOver)) eqn:Hw; [|done].
    apply bool_decide_eq_true in Hw. intros [= <-]. by apply adapter_inv_frame.
  - destruct (ad_child s) eqn:Hk; cbn; [destruct (t <=? ad_now s); [|done]|]; intros [= <-].
    + by apply adapter_inv_frame; auto; done.
    + apply adapter_inv_frame; auto; done.
  - destruct (ad_child s) eqn:Hk; cbn; [done|]. intros [= <-].
    apply adapter_inv_frame; auto; done.
Qed.

Lemma adapter_act_inv a s s' : adapter_inv s -> adapter_act a s = Some s' -> adapter_inv s'.
Proof.
  intros Hi. pose proof Hi as [H1 H2 H3 H4 H5 H6 H7]. destruct a as [line| |n| | | | |n|]; cbn [adapter_act].
  - destruct (ad_open s); [|done]. intros [= <-]. by apply send_line_inv.
  - by apply writer_recv_inv.
  - by apply writer_writes_inv.
  - unfold writer_fails. destruct (ad_writer s) eqn:Hw; [done| |done]. intros [= <-].
    apply writer_cut_inv; [done|]. by destruct (ad_cut s); [specialize (H2 eq_refl)|].
  - unfold writer_cancelled. destruct (ad_point s); try done.
    assert (ad_writer s <> WriterOver -> ad_cut s = false)
      by (intros Hn; destruct (ad_cut s); [by destruct (Hn (H2 eq_refl))|done]).
    destruct (ad_writer s); [| |done]; intros [= <-]; apply writer_cut_inv; auto.
  - unfold child_exits. destruct (ad_child s); [|done]. intros [= <-].
    apply adapter_inv_frame; auto; done.
  - unfold kill_fails. destruct (ad_point s) eqn:Hp; try done. intros [= <-].
    apply adapter_inv_frame; auto; done.
  - intros [= <-]. apply adapter_inv_frame; auto. intros t Ht. specialize (H7 t Ht). lia.
  - by apply stop_step_inv.
Qed.

(** Where [stop] is, is its own affair. *)
Lemma adapter_act_unstopped a s s' :
  adapter_act a s = Some s' -> a <> Stop -> ad_point s = Unstopped -> ad_point s' = Unstopped.
Proof.
  intros Ha Hn Hp.
  destruct a as [line| |n| | | | |n|]; cbn [adapter_act] in Ha;
    unfold writer_recv, writer_writes, writer_fails, writer_cancelled, child_exits, kill_fails in Ha;
    rewrite ?Hp in Ha; repeat case_match; try done; injection Ha as <-; try done.
  unfold send_line. by case_bool_decide.
Qed.

Lemma adapter_act_stopped a s s' :
  adapter_act a s = Some s' -> ad_point s = Stopped -> ad_point s' = Stopped.
Proof.
  intros Ha Hp.
  destruct a as [line| |n| | | | |n|]; cbn [adapter_act] in Ha;
    unfold writer_recv, writer_writes, writer_fails, writer_cancelled, child_exits, kill_fails, stop_step in Ha;
    rewrite ?Hp in Ha; repeat case_match; try done; injection Ha as <-; try done.
  unfold send_line. by case_bool_decide.
Qed.

(** *** How long [stop] takes *)

Definition stop_rank (p : StopPoint) : nat :=
  match p with
  | Unstopped => 5
  | JoinWriter _ => 4
  | AbortWriter _ => 3
  | WaitChild _ => 2
  | KillChild => 1
  | Stopped => 0
  end.
Definition stop_work (s : AdapterState) : nat :=
  stop_rank (ad_point s) + match ad_writer s with WriterOver => 0 | _ => 1 end
  + (if ad_child s then 1 else 0).

(** The steps that only move lines or the clock. *)
Definition passive (a : AdapterAction) : bool :=
  match a with SendLine _ | WriterWrites _ | WriterRecv | Tick _ => true | _ => false end.

Lemma adapter_act_work a s s' :
  adapter_act a s = Some s' ->
  (stop_work s' <= stop_work s)%nat /\ (passive a = false -> (stop_work s' < stop_work s)%nat).
Proof.
  intros Ha.
  destruct a as [line| |n| | | | |n|]; cbn [adapter_act] in Ha;
    unfold writer_recv, writer_writes, writer_fails, writer_cancelled, child_exits, kill_fails, stop_step in Ha.
  - destruct (ad_open s); [|done]. injection Ha as <-. split; [|done]. unfold send_line.
    case_bool_decide; apply Nat.le_refl.
  - destruct (ad_writer s) eqn:Hw; [|done|done]. destruct (ad_queue s); [destruct (ad_open s); [done|]|];
      injection Ha as <-; unfold stop_work; cbn; rewrite Hw; cbn; split; (lia || done).
  - destruct (ad_writer s) as [|rest|] eqn:Hw; [done| |done]. destruct (_ && _); [|done].
    injection Ha as <-. unfold stop_work. cbn. rewrite Hw.
    by destruct (drop n rest).
  - destruct (ad_writer s) eqn:Hw; [done| |done]. injection Ha as <-. unfold stop_work. cbn. rewrite Hw. cbn. lia.
  - destruct (ad_point s) eqn:Hp; try done. destruct (ad_writer s) eqn:Hw; [| |done]; injection Ha as <-;
      unfold stop_work; cbn; rewrite Hw, Hp; cbn; lia.
  - destruct (ad_child s) eqn:Hk; [|done]. injection Ha as <-. unfold stop_work. cbn. rewrite Hk. lia.
  - destruct (ad_point s) eqn:Hp; try done. injection Ha as <-. unfold stop_work. cbn. rewrite Hp. cbn. lia.
  - injection Ha as <-. split; [apply Nat.le_refl|done].
  - destruct (ad_point s) eqn:Hp; repeat case_match; try done; injection Ha as <-;
      unfold stop_work; cbn; rewrite Hp; cbn; lia.
Qed.

(** Until it has returned, [stop] makes a step, or waits for the clock to reach a
    deadline that is at most the grace period away. *)
Lemma stop_progress s :
  adapter_inv s -> ad_point s <> Stopped ->
  (exists a s', adapter_act a s = Some s'
     /\ (a = Stop \/ a = WriterCancelled \/ a = ChildExits /\ ad_point s = KillChild))
  \/ exists t, deadline_of (ad_point s) = Some t /\ ad_now s < t <= ad_now s + STOP_GRACE.
Proof.
  intros Hi Hn. pose proof (di_deadline s Hi) as Hd.
  assert (Hstop : forall s', stop_step s = Some s' -> exists a s', adapter_act a s = Some s'
     /\ (a = Stop \/ a = WriterCancelled \/ a = ChildExits /\ ad_point s = KillChild)).
  { intros s' E. exists Stop, s'. auto. }
  unfold stop_step in Hstop. destruct (ad_point s) as [|t|t|t| |] eqn:Hp; [| | | | |done].
  - left. by eapply Hstop.
  - destruct (bool_decide _); [left; by eapply Hstop|].
    destruct (Z.leb_spec t (ad_now s)); [left; by eapply Hstop|]. right. exists t. specialize (Hd t eq_refl). done.
  - left. destruct (bool_decide _) eqn:Hw; [by eapply Hstop|]. apply bool_decide_eq_false in Hw.
    exists WriterCancelled. cbn. unfold writer_cancelled. rewrite Hp.
    destruct (ad_writer s); [| |done]; eexists; auto.
  - destruct (ad_child s); cbn in Hstop; [|left; by eapply Hstop].
    destruct (Z.leb_spec t (ad_now s)); [left; by eapply Hstop|]. right. exists t. specialize (Hd t eq_refl). done.
  - left. destruct (ad_child s) eqn:Hk; cbn in Hstop; [|by eapply Hstop].
    exists ChildExits. cbn. unfold child_exits. rewrite Hk. eexists. auto.
Qed.

(** ** The process's invariant *)

(** The point of [ModemDaemon::shutdown] is its own affair too. *)
Lemma daemon_act_point a d d' : daemon_act a d = Some (Ok d') -> a = Shutdown \/ a_point d' = a_point d.
Proof.
  assert (Hend : forall k c d0, a_point d0 = a_point d -> end_conn k c d0 = Ok d' -> a_point d' = a_point d).
  { intros k c d0 <-. apply end_conn_point. }
  destruct a as [peer| | | |k|k done'|k|k|k|k| | |]; cbn [daemon_act]; intros E; [..|by left]; right;
    try (apply at_phase_Some in E as (c & Hk & Hph & E); symmetry in E).
  - destruct (a_listener d); try done. injection E as E. unfold on_accept in E.
    destruct (_ =? _); [by injection E as <-|]. destruct peer as [peer|]; [|by injection E as <-].
    destruct (register_router _ _) as [r|[]|]; [|done]. by injection E as <-.
  - destruct (a_listener d); try done. by injection E as <-.
  - destruct (a_listener d); try done. by injection E as <-.
  - unfold cancel_listener, drop_guards in E. destruct (a_listener d), (a_point d) eqn:Ep; try done.
    + injection E as <-. cbn. by rewrite Ep.
    + destruct (drop_router _ _) as [r|[]|]; [|done]. injection E as <-. cbn. by rewrite Ep.
  - unfold conn_start in E. destruct (a_stopping d); [by eapply Hend|]. by injection E as <-.
  - unfold conn_handshake in E. destruct (a_stopping d); [by eapply Hend|].
    destruct done'; [by injection E as <-|by eapply Hend].
  - unfold conn_register in E. destruct (a_stopping d); [by eapply Hend|]. by injection E as <-.
  - by injection E as <-.
  - by eapply Hend in E.
  - by eapply Hend.
  - destruct (a_point d) eqn:Ep; try done. injection E as <-. cbn. by rewrite Ep.
  - destruct (a_discovery d); [|done]. by injection E as <-.
Qed.

Definition main_inv (p : ModemProcess) : Prop :=
  match mp_main p, mp_adapter p with
  | ServingRouters, o => a_point (mp_daemon p) = NotStarted /\ (forall s, o = Some s -> ad_point s = Unstopped)
  | ShuttingDown failed, Some s => ad_point s = Unstopped
  | ShuttingDown failed, None => failed = false
  | StoppingAdapter _, Some _ => a_point (mp_daemon p) = Down
  | StoppingAdapter _, None => False
  | Exited _, Some s => a_point (mp_daemon p) = Down /\ ad_point s = Stopped
  | Exited failed, None => a_point (mp_daemon p) = Down /\ failed = false
  end.

Record process_inv (p : ModemProcess) : Prop := {
  pi_daemon : accept_inv (mp_daemon p);
  pi_adapter : forall s, mp_adapter p = Some s -> adapter_inv s;
  pi_main : main_inv p;
}.

Lemma shutdown_allowed m : daemon_allowed Shutdown m = true -> exists failed, m = ShuttingDown failed.
Proof. destruct m; try done. by eexists. Qed.

Lemma on_daemon_inv a p d :
  process_inv p -> daemon_allowed a (mp_main p) = true -> daemon_act a (mp_daemon p) = Some (Ok d) ->
  process_inv (mkProcess (mp_main p) d (mp_adapter p)).
Proof.
  intros [Hd Ha Hm] Hal E. destruct (daemon_act_inv _ _ _ Hd E) as (? & [= <-] & Hi).
  split; [done|done|]. unfold main_inv in *. cbn.
  destruct (daemon_act_point _ _ _ E) as [->| ->]; [|done].
  destruct (shutdown_allowed _ Hal) as [failed Hf]. by rewrite Hf in *.
Qed.

Lemma on_adapter_inv a p s s' :
  process_inv p -> mp_adapter p = Some s -> adapter_allowed a (mp_main p) = true -> adapter_act a s = Some s' ->
  process_inv (mkProcess (mp_main p) (mp_daemon p) (Some s')).
Proof.
  intros [Hd Ha Hm] Hs Hal E. split; cbn; [done| |].
  - intros x [= <-]. by eapply adapter_act_inv; [apply Ha|].
  - unfold main_inv in *. cbn. rewrite Hs in Hm.
    destruct (mp_main p) eqn:Ep.
    + destruct Hm as [Hp Hu]. split; [done|]. intros x [= <-].
      eapply adapter_act_unstopped; [done| |by apply Hu]. by intros ->.
    + eapply adapter_act_unstopped; [done| |done]. by intros ->.
    + done.
    + destruct Hm as [Hp Hu]. split; [done|]. by eapply adapter_act_stopped.
Qed.

Lemma process_act_inv a p p' : process_inv p -> process_act a p = Some p' -> process_inv p'.
Proof.
  intros Hi. pose proof Hi as [Hd Ha Hm]. destruct a as [a|a| | | |]; cbn [process_act].
  - destruct (daemon_allowed a (mp_main p)) eqn:Hal; [|done].
    destruct (daemon_act a (mp_daemon p)) as [[d|[]|]|] eqn:E; try done. intros [= <-]. by eapply on_daemon_inv.
  - destruct (mp_adapter p) as [s|] eqn:Hs; [|done]. destruct (adapter_allowed a (mp_main p)) eqn:Hal; [|done].
    destruct (adapter_act a s) as [s'|] eqn:E; [|done]. intros [= <-]. by eapply on_adapter_inv.
  - destruct (mp_main p) eqn:Ep; try done. intros [= <-]. split; cbn; [done|done|]. unfold main_inv in *. cbn.
    rewrite Ep in Hm. destruct Hm as [_ Hu]. destruct (mp_adapter p); [by apply Hu|done].
  - destruct (mp_main p) eqn:Ep; try done. destruct (mp_adapter p) as [s|] eqn:Hs; [|done]. intros [= <-].
    split; cbn; [done|intros x Hx; apply Ha; congruence|]. unfold main_inv in *. cbn. rewrite Ep, Hs in Hm. by apply Hm.
  - destruct (mp_main p) eqn:Ep; try done. case_bool_decide as Hdown; [|done]. intros [= <-].
    split; cbn; [done|done|]. unfold main_inv in *. cbn. rewrite Ep in Hm.
    by destruct (mp_adapter p).
  - destruct (mp_main p) eqn:Ep; try done. destruct (mp_adapter p) as [s|] eqn:Hs; [|done].
    case_bool_decide as Hst; [|done]. intros [= <-]. split; cbn; [done|intros x Hx; apply Ha; congruence|].
    unfold main_inv in *. cbn. rewrite Ep, Hs in Hm. done.
Qed.

Lemma process_reachable_inv b o p : rtc process_step (modem_started b o) p -> process_inv p.
Proof.
  assert (H : forall x y, rtc process_step x y -> process_inv x -> process_inv y).
  { induction 1 as [|x y z [a Ha] _ IH]; [done|]. intros Hx. apply IH. by eapply process_act_inv. }
  intros Hr. apply (H _ _ Hr). split; cbn.
  - eapply reachable_inv, rtc_refl.
  - intros s. destruct o as [now|]; cbn; [|done]. intros [= <-]. apply adapter_started_inv.
  - split; [done|]. intros s. destruct o as [now|]; cbn; [|done]. by intros [= <-].
Qed.

(** ** Theorems *)

(** What has ended with the process: the listener, every connection task and discovery,
    the writer, and the adapter's process, unless the system refused to kill it; the
    adapter got every line if its writer was neither failed by the pipe nor aborted at the
    deadline; and without an adapter the exit is not an error. *)
Definition all_over (p : ModemProcess) (failed : bool) : Prop :=
  a_listener (mp_daemon p) = Gone /\ a_conns (mp_daemon p) = ∅ /\ a_routers (mp_daemon p) = ∅
  /\ a_discovery (mp_daemon p) = false
  /\ match mp_adapter p with
     | Some s =>
         ad_writer s = WriterOver /\ (ad_child s = false \/ ad_unkilled s = true)
         /\ (ad_cut s = false -> ad_input s = input_of (ad_sent s))
     | None => failed = false
     end.

Lemma exited_over p failed : process_inv p -> mp_main p = Exited failed -> all_over p failed.
Proof.
  intros [Hd Ha Hm] Hf. unfold main_inv in Hm. rewrite Hf in Hm. unfold all_over.
  destruct (mp_adapter p) as [s|] eqn:Hs.
  - destruct Hm as [Hp Hst]. destruct (down_complete _ Hd Hp) as (? & ? & _ & ? & ?).
    specialize (Ha s eq_refl).
    assert (Hw : ad_writer s = WriterOver) by (apply (di_joined s Ha); by rewrite Hst).
    split_and!; [done|done|done|done|done|by apply (di_child s Ha)|].
    intros Hc. pose proof (di_input s Ha) as Hin. pose proof (di_over s Ha Hw Hc) as Hq.
    rewrite Hc, Hw, Hq in Hin. cbn in Hin. by rewrite app_nil_r in Hin.
  - destruct Hm as [Hp ->]. by destruct (down_complete _ Hd Hp) as (? & ? & _ & ? & ?).
Qed.

(** What is left to do, and the steps that do it: the daemon's own, those of [stop], the
    end of an aborted writer and of a killed process. *)
Definition main_rank (m : MainPoint) : nat :=
  match m with ServingRouters => 3 | ShuttingDown _ => 2 | StoppingAdapter _ => 1 | Exited _ => 0 end.
Definition process_work (p : ModemProcess) : nat :=
  main_rank (mp_main p) + shutdown_work (mp_daemon p)
  + match mp_adapter p with Some s => stop_work s | None => 0 end.
Definition process_own (p : ModemProcess) (a : ProcessAction) : Prop :=
  match a with
  | OnDaemon a => unaided (mp_daemon p) a
  | OnAdapter Stop | OnAdapter WriterCancelled | DaemonIsDown | AdapterIsStopped => True
  | OnAdapter ChildExits => exists s, mp_adapter p = Some s /\ ad_point s = KillChild
  | _ => False
  end.
Definition idle_step (a : ProcessAction) : bool := match a with OnAdapter a => passive a | _ => false end.

Lemma process_act_work a p p' :
  process_inv p -> past_listener (a_point (mp_daemon p)) = true -> process_act a p = Some p' ->
  past_listener (a_point (mp_daemon p')) = true
  /\ (process_work p' <= process_work p)%nat
  /\ (idle_step a = false -> (process_work p' < process_work p)%nat).
Proof.
  intros [Hd Ha Hm] Hp. destruct a as [a|a| | | |]; cbn [process_act]; unfold process_work.
  - destruct (daemon_allowed _ _); [|done]. destruct (daemon_act a (mp_daemon p)) as [[d|[]|]|] eqn:E; try done.
    intros [= <-]. cbn [mp_main mp_daemon mp_adapter]. destruct (daemon_act_work _ _ _ Hd Hp E) as [Hw Hp'].
    split_and!; [done|lia|lia].
  - destruct (mp_adapter p) as [s|]; [|done]. destruct (adapter_allowed _ _); [|done].
    destruct (adapter_act a s) as [s'|] eqn:E; [|done]. intros [= <-]. cbn [mp_main mp_daemon mp_adapter idle_step].
    destruct (adapter_act_work _ _ _ E) as [Hle Hlt]. split_and!; [done|lia|]. intros Hi. specialize (Hlt Hi). lia.
  - destruct (mp_main p); try done. intros [= <-]. cbn; split_and!; (done || lia).
  - destruct (mp_main p); try done. destruct (mp_adapter p); [|done]. intros [= <-]. cbn; split_and!; (done || lia).
  - destruct (mp_main p); try done. case_bool_decide; [|done]. intros [= <-]. cbn.
    destruct (mp_adapter p); cbn; split_and!; (done || lia).
  - destruct (mp_main p); try done. destruct (mp_adapter p); [|done]. case_bool_decide; [|done].
    intros [= <-]. cbn; split_and!; (done || lia).
Qed.

(** C27: The modem exits.  In every run of the modem process, whatever peers, adapter, signals
    and clock do, what the adapter was written is a prefix of the lines sent to it, each
    with its newline, in order.  Once a signal or the adapter's failure has ended the
    service, the process has exited with everything it started over, or it has a step of
    its own to take, which waits for no peer and no adapter, or it waits for the clock to
    reach the adapter's deadline, at most two seconds away.  Once the listener is gone no
    step adds to the work that is left and every step but the writing of lines and the
    passing of time takes some of it away. *)
Theorem modem_returns discovery adapter p :
  rtc process_step (modem_started discovery adapter) p ->
  (forall s, mp_adapter p = Some s -> exists rest, input_of (ad_sent s) = ad_input s ++ rest)
  /\ (mp_main p <> ServingRouters ->
      (exists failed, mp_main p = Exited failed /\ all_over p failed)
      \/ (exists a p', process_own p a /\ process_act a p = Some p')
      \/ exists s t, mp_adapter p = Some s /\ deadline_of (ad_point s) = Some t
           /\ ad_now s < t <= ad_now s + STOP_GRACE)
  /\ (past_listener (a_point (mp_daemon p)) = true ->
      forall a p', process_act a p = Some p' ->
        past_listener (a_point (mp_daemon p')) = true
        /\ (process_work p' <= process_work p)%nat
        /\ (idle_step a = false -> (process_work p' < process_work p)%nat)).
Proof.
  intros Hi%process_reachable_inv. split; [|split; [|intros; by apply process_act_work]].
  { intros s Hs. pose proof (di_input s (pi_adapter _ Hi s Hs)) as Hin. destruct (ad_cut s); [done|]. by eexists. }
  intros Hm. pose proof (exited_over p) as Hover.
  pose proof Hi as [Hd Ha Hmi]. unfold main_inv in Hmi. destruct (mp_main p) as [|failed|failed|failed] eqn:Ep.
  - done.
  - right. left. destruct (decide (a_point (mp_daemon p) = Down)) as [Hdown|Hdown].
    { exists DaemonIsDown. eexists. split; [done|]. cbn. rewrite Ep. by rewrite bool_decide_true. }
    assert (Hact : exists a d', unaided (mp_daemon p) a /\ daemon_act a (mp_daemon p) = Some (Ok d')).
    { destruct (a_stopping (mp_daemon p)) eqn:Hs.
      - by destruct (shutdown_progress _ Hd Hs).
      - rewrite (ai_stopping _ Hd) in Hs. apply bool_decide_eq_false, dec_stable in Hs.
        exists Shutdown. eexists. split; [done|]. cbn. unfold shutdown_step. by rewrite Hs. }
    destruct Hact as (a & d' & Hu & E). exists (OnDaemon a). eexists. split; [done|]. cbn. rewrite Ep, E.
    assert (Hal : daemon_allowed a (ShuttingDown failed) = true) by by destruct a.
    by rewrite Hal.
  - right. destruct (mp_adapter p) as [s|] eqn:Hs; [|done].
    destruct (decide (ad_point s = Stopped)) as [Hst|Hst].
    { left. exists AdapterIsStopped. eexists. split; [done|]. cbn. rewrite Ep, Hs. by rewrite bool_decide_true. }
    destruct (stop_progress s (Ha s eq_refl) Hst) as [(a & s' & E & Hown)|(t & Ht)]; [left|right; by exists s, t].
    exists (OnAdapter a). eexists. cbn. rewrite Hs, Ep, E.
    destruct Hown as [->|[->|[-> Hk]]]; [done|done|]. split; [by exists s|done].
  - left. exists failed. split; [done|by apply Hover].
Qed.

(** ** A run *)

Fixpoint run_process (l : list ProcessAction) (p : ModemProcess) : option ModemProcess :=
  match l with
  | [] => Some p
  | a :: l => match process_act a p with Some p' => run_process l p' | None => None end
  end.

Lemma run_process_steps l p p' : run_process l p = Some p' -> rtc process_step p p'.
Proof.
  revert p. induction l as [|a l IH]; intros p; cbn; [by intros [= ->]; apply rtc_refl|].
  destruct (process_act a p) as [p1|] eqn:E; [|done]. intros H. eapply rtc_l; [by exists a|by apply IH].
Qed.

(** A session, an adapter that stops reading within a line and fails, and the shutdown. *)
Definition failing_run : list ProcessAction :=
  (OnDaemon <$> [Accepted (Some (SocketV4 3232235778 40000)); SpawnConn; ConnStart 0; ConnHandshake 0 true;
                 ConnRegister 0])
  ++ [OnAdapter (SendLine [123; 125]); OnAdapter (SendLine [123; 125]); OnAdapter WriterRecv;
      OnAdapter (WriterWrites 3); OnAdapter WriterRecv; OnAdapter (WriterWrites 1); AdapterFails]
  ++ (OnDaemon <$> [Shutdown; Shutdown; DiscoveryEnds; Shutdown; Shutdown; CancelListener; Shutdown; Shutdown;
                    Shutdown; Shutdown; SessionOver 0; ConnCleanup 0; Shutdown; Shutdown])
  ++ [DaemonIsDown; OnAdapter Stop].
Definition killing_run : list ProcessAction :=
  OnAdapter <$> [Tick 2000; Stop; WriterCancelled; Stop; Stop; ChildExits; Stop].

Definition process_after (l : list ProcessAction) : ModemProcess :=
  default (modem_started true (Some 0)) (run_process l (modem_started true (Some 0))).

Lemma process_after_reached l :
  is_some (run_process l (modem_started true (Some 0))) = true ->
  rtc process_step (modem_started true (Some 0)) (process_after l).
Proof.
  unfold process_after. destruct (run_process l (modem_started true (Some 0))) as [p|] eqn:E; [|done].
  intros _. cbn. by eapply run_process_steps.
Qed.

Definition waiting_process : ModemProcess := process_after failing_run.
Definition exited_process : ModemProcess := process_after (failing_run ++ killing_run ++ [AdapterIsStopped]).

Lemma waiting_reached : rtc process_step (modem_started true (Some 0)) waiting_process.
Proof. apply (process_after_reached failing_run). vm_compute. reflexivity. Qed.

Lemma exited_reached : rtc process_step (modem_started true (Some 0)) exited_process.
Proof. apply (process_after_reached (failing_run ++ killing_run ++ [AdapterIsStopped])). vm_compute. reflexivity. Qed.

Lemma modem_returns_witness :
  mp_main waiting_process = StoppingAdapter true
  /\ ((exists a p', process_own waiting_process a /\ process_act a waiting_process = Some p')
      \/ exists s t, mp_adapter waiting_process = Some s /\ deadline_of (ad_point s) = Some t
           /\ ad_now s < t <= ad_now s + STOP_GRACE)
  /\ (ad_input <$> mp_adapter exited_process) = Some [123; 125; 10; 123]
  /\ exists s rest, mp_adapter exited_process = Some s /\ input_of (ad_sent s) = ad_input s ++ rest.
Proof.
  assert (E : mp_main waiting_process = StoppingAdapter true) by (vm_compute; reflexivity).
  assert (Hn : mp_main waiting_process <> ServingRouters) by (rewrite E; discriminate).
  assert (Ei : (ad_input <$> mp_adapter exited_process) = Some [123; 125; 10; 123]) by (vm_compute; reflexivity).
  split; [exact E|]. split.
  - destruct (proj1 (proj2 (modem_returns true (Some 0) waiting_process waiting_reached)) Hn) as [(f & H & _)|H]; [|exact H].
    exfalso. rewrite E in H. discriminate H.
  - split; [exact Ei|]. pose proof (proj1 (modem_returns true (Some 0) exited_process exited_reached)) as Hp.
    destruct (mp_adapter exited_process) as [s|]; [|discriminate Ei].
    destruct (Hp s eq_refl) as [rest Hr]. exists s, rest. split; [reflexivity|exact Hr].
Defined.
