(* ===== verification/Link.v ===== *)
(** * From discovery to the connection

    A router and a modem that were started with their configurations find each other:
    the discovery tasks of [DiscoveryTask] over the sockets of [DiscoverySockets], with
    the daemons of [Startup] and [RouterDaemon] at both ends.  Every signal goes through
    its encoding, the socket that sends it, the kernel's datagram and the socket that
    receives it. *)

From S2P Require Import Prelude Externs CoreTypes Codec CodecItem CodecMessage Addresses Events SessionCommon.
From S2P Require Import SessionWire Discovery DaemonTypes Connections DaemonApi DiscoveryTask Accept.
From S2P Require Import Reconnect DriverInv Interfaces DiscoverySockets Config RouterDaemon Startup RouterProcess.

(** The configuration [RouterDaemon::start_discovery] gives its state machine. *)
Definition router_discovery_config (self : RouterSettings) : RouterDiscovery.RouterDiscoveryConfig :=
  RouterDiscovery.mkDiscoveryConfig (rs_description self)
    (from_millis (tc_discovery_interval_ms (rs_timers self))).

(** Descriptions that fit a datagram: valid text of at most this many octets, which with an
    IPv6 connection point fill the receive buffer.  No configuration check bounds them. *)
Definition MAX_DESCRIPTION : Z := 1464.
Definition fitting (description : rstring) : Prop :=
  utf8_valid description = true /\ len description <= MAX_DESCRIPTION.

Section Lengths.
Context {crates : Crates}.

Lemma len_wire_item item : len (wire_item item) = 4 + len (value_bytes item).
Proof.
  unfold wire_item, wire_raw, to_raw, len. cbn [raw_type_id raw_value]. rewrite !length_app, !length_to_be_bytes. lia.
Qed.

Lemma len_wire_items items :
  len (wire_items items) = Z.of_nat (sum_list_with (fun i => 4 + length (value_bytes i))%nat items).
Proof.
  unfold wire_items. induction items as [|i items IH]; [done|]. rewrite bind_cons. unfold len in *.
  rewrite length_app. pose proof (len_wire_item i) as Hi. unfold len in Hi. cbn [sum_list_with]. lia.
Qed.

(** A signal of items that can be encoded and are not too long goes into a datagram. *)
Lemma signal_encoded s :
  is_signal s -> all encodable (sig_items s) = true -> len (wire_items (sig_items s)) <= PAYLOAD - 8 ->
  exists bs, Signal_encode s = Ok bs /\ len bs <= PAYLOAD.
Proof.
  unfold PAYLOAD. intros Hs Hen Hlen. pose proof (Signal_encode_spec s Hs) as He. unfold message_encodable in He.
  rewrite Hen, (proj2 (Z.leb_le _ _)) in He by (unfold u16_max; lia). cbn [andb] in He.
  eexists. split; [exact He|]. unfold wire_frame, len in *. rewrite !length_app, !length_to_be_bytes.
  change (length SIGNAL_PREFIX) with 4%nat. lia.
Qed.

Lemma peer_type_encodable desc : fitting desc -> encodable (DataItem.PeerType (mkPeerFlags false) desc) = true.
Proof. intros [_ Hl]. unfold MAX_DESCRIPTION in Hl. cbn. apply Z.leb_le. unfold u16_max. lia. Qed.

Lemma probe_encoded desc :
  fitting desc -> exists bs, Signal_encode (build_peer_discovery desc) = Ok bs /\ len bs <= PAYLOAD.
Proof.
  intros Hf. pose proof Hf as [Hu Hl]. unfold MAX_DESCRIPTION, len in Hl. apply signal_encoded.
  - split; [code_range|by apply Forall_singleton].
  - cbn [sig_items build_peer_discovery sig_with_item Signal_new app all forallb].
    by rewrite (peer_type_encodable desc Hf).
  - rewrite len_wire_items. cbn. unfold PAYLOAD. lia.
Qed.

Lemma offer_encoded desc ep tls :
  fitting desc -> is_socket ep ->
  exists bs, Signal_encode (build_peer_offer desc ep tls) = Ok bs /\ len bs <= PAYLOAD.
Proof.
  intros Hf Hep. pose proof Hf as [Hu Hl]. unfold MAX_DESCRIPTION, len in Hl. apply signal_encoded.
  - destruct ep; (split; [code_range|]); (constructor; [done|by apply Forall_singleton]).
  - destruct ep; cbn [sig_items build_peer_offer sig_with_item Signal_new app all forallb];
      by rewrite (peer_type_encodable desc Hf).
  - rewrite len_wire_items. destruct ep; cbn -[to_be_bytes]; rewrite ?length_app, ?length_to_be_bytes; unfold PAYLOAD; lia.
Qed.

(** ** Starting *)

(** The discovery a started modem has: its socket and its state machine. *)
Lemma spawned_discovery host cfg tls link_control started m fsm :
  ModemBuilder_spawn host (Some cfg) tls link_control = Ok started -> ms_discovery started = Some (m, fsm) ->
  bind_discovery (h_system host) (h_sockets host) (sh_network (mo_shared cfg)) true = Ok m
  /\ fsm = ModemDiscovery.new (ms_local_addr started) (mo_peer_description cfg)
             (nc_use_tls (sh_network (mo_shared cfg))).
Proof.
  unfold ModemBuilder_spawn. cbn [some_or mbind outcome_bind]. intros H Hd.
  do 9 (apply bind_Ok in H as (? & _ & H)). apply bind_Ok in H as (discovery & Hs & H).
  injection H as <-. cbn [ms_discovery ms_local_addr] in *. subst discovery. unfold spawn_modem_discovery in Hs.
  destruct (bind_discovery _ _ _ _) as [socket|e|]; [| |done]; [by injection Hs as <- <-|].
  by destruct (is_some _).
Qed.
End Lengths.

(** ** The way *)

Section Way.
Context {crates : Crates}.

(** The two ends: a router's settings and its discovery socket, a started modem. *)
Variables (settings : RouterSettings) (sys : System) (net : Sockets) (r : DiscoverySocket).
Variables (host : BootHost) (cfg : ModemConfig) (tls : option ServerConfig) (link_control : bool)
  (started : ModemStarted) (m : DiscoverySocket) (fsm : ModemDiscovery.ModemDiscoveryFsm).
Hypothesis router_bound : bind_discovery sys net (rs_network settings) false = Ok r.
Hypothesis modem_spawned : ModemBuilder_spawn host (Some cfg) tls link_control = Ok started.
Hypothesis modem_discovers : ms_discovery started = Some (m, fsm).
Hypothesis same_group : same_discovery (rs_network settings) (sh_network (mo_shared cfg)).
Hypothesis same_tls : nc_use_tls (rs_network settings) = nc_use_tls (sh_network (mo_shared cfg)).
Hypothesis router_tls : is_some (rs_client_tls settings) = nc_use_tls (rs_network settings).
Hypothesis router_limits : limits_validate (rs_limits settings) = Ok tt /\ 0 <= max_sessions (rs_limits settings).
Hypothesis fitting_router : fitting (rs_description settings).
Hypothesis fitting_modem : fitting (mo_peer_description cfg).

(** What the kernels report of the two datagrams: sender, local address, interface. *)
Variables (router_addr modem_addr : SocketAddr) (modem_local router_local modem_index router_index : Z).
Hypothesis router_family : is_ipv6 router_addr = is_some (ds_interface_v6 m).
Hypothesis modem_ingress : is_u32 modem_index /\ modem_index <> 0
  /\ forall i, interface_index m = Some i -> modem_index = i.
Hypothesis router_ingress : is_u32 router_index /\ router_index <> 0
  /\ forall i, interface_index r = Some i -> router_index = i.

(** The modem's listener as it is offered, and as the router is told of it. *)
Definition offered : SocketAddr := fill_endpoint (reported_local m modem_local) (ms_local_addr started).
Definition announced : OfferEndpoint :=
  scope_endpoint router_index
    (mkEndpoint (as_seen (reported_sender r router_index modem_addr) offered)
       (nc_use_tls (sh_network (mo_shared cfg)))).

(** The discovery tasks as they start. *)
Definition router_task : DiscoveryState RouterDiscovery.RouterDiscoveryFsm :=
  start_discovery (fsm := router_discovery) (RouterDiscovery.with_config (router_discovery_config settings))
    (Some AppStartDiscovery).
Definition modem_task : DiscoveryState ModemDiscovery.ModemDiscoveryFsm :=
  start_discovery (fsm := modem_discovery) fsm None.

(** What a task makes of a received signal. *)
Definition take_in {F} `{DiscoveryFsm F} (connected : option RouterCounts) (got : ReceivedSignal)
    (t : DiscoveryState F) : DiscoveryState F :=
  on_datagram connected (r_signal got) (r_from got) (r_local_addr got) (r_interface_index got) t.

(** A listening modem serves the connection, and suppresses discovery for its address. *)
Lemma modem_serves discovery d from :
  rtc daemon_step (spawn_daemon discovery) d -> a_listener d = Accepting -> a_stopping d = false -> 0 < a_permits d ->
  exists d' k, rtc daemon_step d d' /\ a_conns d' !! k = Some (mkConnTask from Serving) /\ k ∈ a_senders d'
    /\ forall signal, signal_type signal = SignalType.PEER_DISCOVERY ->
         on_datagram (Some (a_routers d')) signal from (reported_local m modem_local) modem_index modem_task = modem_task.
Proof.
  intros Hi%reachable_inv Hl Hs Hp. destruct (accept_serves d from Hi Hl Hs Hp) as (d' & k & Hr & Hi' & Hk & Hin).
  exists d', k. split_and!; try done. intros signal Ht. unfold on_datagram. rewrite Ht.
  assert (Hc : router_contains (a_routers d') from = true); [|by rewrite Hc].
  apply (counts_contains _ _ _ (ai_counts _ Hi')). unfold live_addresses.
  assert (router_address from ∈ conn_addresses (a_conns d')).
  { apply list_elem_of_fmap. exists (k, mkConnTask from Serving). split; [done|]. by apply elem_of_map_to_list. }
  destruct (a_listener d'); [done|by right|done].
Qed.

(** C24: Discovery connects.  A router and a modem configured for the same discovery group,
    port, address family and use of TLS, with descriptions of at most 1464 octets.  The
    router starts discovery; its probe leaves its socket for the group the modem listens
    to and is received there whole; the modem's task, if the router is not connected
    already, answers with one offer, which leaves the modem's socket for the router and
    is received there whole; the router's task announces exactly the modem's listener, a
    wildcard replaced by the address that was asked and a link-local address scoped to
    the ingress interface; that is where [connect_discovered] dials.  Wherever the router
    process waits with room for another modem and does not know this one, it has a run
    from that announcement to a session task with exactly that endpoint over the
    configured kind of transport; wherever the modem daemon listens with a permit, it has
    a run from the router's connection to a session whose sender it keeps, from when on
    the router's probes are not answered. *)
Theorem discovery_connects peers rest rest' :
  is_socket offered -> usable (mkEndpoint offered (nc_use_tls (sh_network (mo_shared cfg)))) = true ->
  router_contains peers (reported_sender m modem_index router_addr) = false ->
  let probe := probe_signal (router_discovery_config settings) in
  d_out router_task = [SentGroup probe]
  /\ exists octets, send_to_group r probe [SentOctets (len octets)] = Some (Ok (octets, outgoing_controls r))
  /\ sends_with_ttl r /\ listens m (ds_group r)
  /\ exists got, recv_with_metadata m
       (Arrived (kernel_datagram (is_some (ds_interface_v6 m)) octets router_addr modem_local modem_index) :: rest)
     = Some (Ok got, rest)
  /\ exists offer, d_out (take_in (Some peers) got modem_task) = [SentUnicast offer (r_from got)]
  /\ exists octets', send_unicast m offer (r_from got) [SentOctets (len octets')]
                     = Some (Ok (octets', outgoing_controls m))
  /\ exists got', recv_with_metadata r
       (Arrived (kernel_datagram (is_some (ds_interface_v6 r)) octets' modem_addr router_local router_index) :: rest')
     = Some (Ok got', rest')
  /\ d_out (take_in None got' router_task)
     = [SentGroup probe; Announced [announced] (Some (mo_peer_description cfg))]
  /\ connect_discovered settings [announced] [Ok tt] = (Some (Ok (ep_addr announced)), [ep_addr announced])
  /\ (forall static_peers peer_addr p t,
       (forall a, peer_addr a = a) ->
       rtc (router_process_step settings ModeDiscovery static_peers peer_addr) (router_launched settings static_peers) p ->
       rp_main p = Selecting t -> room_for (ep_addr announced) p ->
       exists p' k, rtc (router_process_step settings ModeDiscovery static_peers peer_addr) p p'
         /\ r_sessions (rp_daemon p') !! k
            = Some (mkSessionTask (ep_addr announced) (nc_use_tls (rs_network settings))))
  /\ forall discovery d from,
       rtc daemon_step (spawn_daemon discovery) d -> a_listener d = Accepting -> a_stopping d = false ->
       0 < a_permits d ->
       exists d' k, rtc daemon_step d d' /\ a_conns d' !! k = Some (mkConnTask from Serving) /\ k ∈ a_senders d'
    /\ forall signal, signal_type signal = SignalType.PEER_DISCOVERY ->
         on_datagram (Some (a_routers d')) signal from (reported_local m modem_local) modem_index modem_task = modem_task.
Proof.
  intros Hsock Hus Hfree. cbv zeta. split; [done|].
  destruct (spawned_discovery _ _ _ _ _ _ _ modem_spawned modem_discovers) as [Hm Hfsm].
  destruct modem_ingress as (Hmu & Hm0 & Hmi), router_ingress as (Hru & Hr0 & Hri).
  set (c := router_discovery_config settings).
  destruct (probe_encoded (rs_description settings) fitting_router) as (octets & He & Hl).
  destruct (offer_encoded (mo_peer_description cfg) offered (nc_use_tls (sh_network (mo_shared cfg)))
              fitting_modem Hsock) as (octets' & He' & Hl').
  set (offer := build_peer_offer (mo_peer_description cfg) offered (nc_use_tls (sh_network (mo_shared cfg)))) in *.
  assert (Hp : is_signal (probe_signal c)).
  { split; [code_range|]. apply Forall_singleton. exact (proj1 fitting_router). }
  destruct (probe_crosses sys net (rs_network settings) r (h_system host) (h_sockets host) _ m (probe_signal c)
    octets router_addr modem_local modem_index rest router_bound Hm same_group Hp
    ltac:(by repeat constructor) He Hl Hmu Hm0 Hmi) as (Hsend & Httl & Hlist & Hrecv).
  exists octets. split; [exact Hsend|]. split; [exact Httl|]. split; [exact Hlist|].
  eexists. split; [exact Hrecv|].
  destruct (discovery_reaches_modem c ModemDiscovery.Listening (ms_local_addr started) (mo_peer_description cfg)
    (nc_use_tls (sh_network (mo_shared cfg))) (reported_local m modem_local)
    (reported_sender m modem_index router_addr) (reported_sender r router_index modem_addr)
    (reported_local r router_local) modem_index router_index peers 0 modem_task router_task) as [_ Hd].
  - exact (proj1 fitting_router).
  - exact (proj1 fitting_modem).
  - exact Hsock.
  - exact Hus.
  - unfold sig_fits. change (probe_signal c) with (build_peer_discovery (rs_description settings)). by rewrite He.
  - unfold sig_fits. fold offered offer. by rewrite He'.
  - unfold modem_task. by rewrite Hfsm.
  - apply (discovery_task_probes c false 0 router_task), rtc_refl.
  - rewrite Hfree in Hd. cbv zeta in Hd. fold offered offer in Hd. destruct Hd as (Hout & Hdel & Hann).
    exists offer. split; [exact Hout|]. exists octets'. split.
    { apply send_whole; [|exact He']. rewrite <-router_family. cbn [r_from]. unfold reported_sender.
      destruct (is_some (ds_interface_v6 m)); [|done]. by destruct router_addr. }
    destruct Hdel as (bs & Hbs & Hdec). rewrite He' in Hbs. injection Hbs as <-.
    eexists. split; [apply received_decoded; [exact Hdec|exact Hl'|exact Hru|exact Hr0|exact Hri]|].
    split; [exact Hann|].
    assert (Ht : ep_use_tls announced = nc_use_tls (rs_network settings)).
    { rewrite same_tls. unfold announced, scope_endpoint. by destruct (ep_addr _). }
    split; [unfold connect_discovered; cbn [connect_endpoints]; by rewrite Ht, eqb_reflx|].
    split; [|apply modem_serves].
    intros static_peers peer_addr p t Hpeer Hreach Em Hroom. destruct router_limits as [Hlim%validated_limits H0'].
    pose proof (router_process_reachable _ _ _ _ Hlim Hpeer p H0' Hreach) as Hinv. by eapply offer_joins.
Qed.
End Way.

(** ** An example *)

#[local] Existing Instance reference_crates.

Definition sample_router_settings : RouterSettings :=
  mkSettings TimersConfig_default sample_network (str "router") (Some (mkClient [[1]] None)) RouterLimits_default.
Definition sample_modem_cfg : ModemConfig := ModemConfig_from sample_modem_file.
Definition sample_tls : option ServerConfig := Some (mkServer ([[1]], [1]) None).
Definition sample_spawned : outcome BootError ModemStarted :=
  ModemBuilder_spawn sample_host (Some sample_modem_cfg) sample_tls false.
Definition sample_started : ModemStarted :=
  match sample_spawned with Ok s => s | _ => mkStarted (SocketV4 0 0) LinkMetrics_default None None false end.
Definition sample_discovery : DiscoverySocket * ModemDiscovery.ModemDiscoveryFsm :=
  default (router_socket, ModemDiscovery.new (SocketV4 0 0) [] false) (ms_discovery sample_started).
Definition sample_announced : OfferEndpoint :=
  announced router_socket sample_modem_cfg sample_started sample_discovery.1 (SocketV6 fe80_1 854 0 0)
    DISCOVERY_IPV6_GROUP 2.

Lemma sample_descriptions : fitting (str "router") /\ fitting (str "modem").
Proof. by split; split. Qed.

(** A router process that waits. *)
Definition waiting_router : RouterProcess :=
  match launch sample_router_settings ModeDiscovery [] sample_system sample_sockets (router_launched sample_router_settings []) with
  | Ok p => match top_of_loop ModeDiscovery [] true 0 false p with Ok p => p | _ => p end
  | _ => router_launched sample_router_settings []
  end.

Lemma waiting_router_reached :
  rtc (router_process_step sample_router_settings ModeDiscovery [] (fun a => a)) (router_launched sample_router_settings [])
    waiting_router.
Proof.
  eapply rtc_l; [exists (Launch sample_system sample_sockets); vm_compute; reflexivity|].
  eapply rtc_l; [exists (TopOfLoop 0 false); vm_compute; reflexivity|]. apply rtc_refl.
Qed.

Lemma waiting_router_room : room_for (ep_addr sample_announced) waiting_router.
Proof. split; try (vm_compute; reflexivity); apply (bool_decide_unpack _); vm_compute; reflexivity. Qed.

Lemma discovery_connects_witness :
  sample_announced = mkEndpoint (SocketV6 fe80_1 854 0 2) true
  /\ (exists p' k, rtc (router_process_step sample_router_settings ModeDiscovery [] (fun a => a)) waiting_router p'
       /\ r_sessions (rp_daemon p') !! k = Some (mkSessionTask (SocketV6 fe80_1 854 0 2) true))
  /\ connect_discovered sample_router_settings [sample_announced] [Ok tt]
     = (Some (Ok (SocketV6 fe80_1 854 0 2)), [SocketV6 fe80_1 854 0 2]).
Proof.
  assert (Ha : sample_announced = mkEndpoint (SocketV6 fe80_1 854 0 2) true) by (vm_compute; reflexivity).
  split; [exact Ha|].
  destruct (discovery_connects sample_router_settings sample_system sample_sockets router_socket
    sample_host sample_modem_cfg sample_tls false sample_started sample_discovery.1 sample_discovery.2)
    with (router_addr := SocketV6 (fe80_1 + 2) 50000 0 0) (modem_addr := SocketV6 fe80_1 854 0 0)
         (modem_local := DISCOVERY_IPV6_GROUP) (router_local := fe80_1 + 2) (modem_index := 2) (router_index := 2)
         (peers := (∅ : RouterCounts)) (rest := @nil Arrival) (rest' := @nil Arrival)
    as (_ & o & _ & _ & _ & g & _ & off & _ & o' & _ & g' & _ & _ & H & Hj & _).
  - vm_compute. reflexivity.
  - vm_compute. reflexivity.
  - vm_compute. reflexivity.
  - by split_and!.
  - vm_compute. reflexivity.
  - vm_compute. reflexivity.
  - split; [vm_compute; reflexivity|vm_compute; discriminate].
  - exact (proj1 sample_descriptions).
  - exact (proj2 sample_descriptions).
  - vm_compute. reflexivity.
  - split; [by split|]. split; [discriminate|]. vm_compute. intros i E. by injection E as <-.
  - split; [by split|]. split; [discriminate|]. vm_compute. intros i E. by injection E as <-.
  - vm_compute. split; [split; [discriminate|reflexivity]|by split].
  - vm_compute. reflexivity.
  - vm_compute. reflexivity.
  - fold sample_announced in H, Hj. split.
    + specialize (Hj [] (fun a => a) waiting_router None (fun a => eq_refl) waiting_router_reached).
      rewrite <-(f_equal ep_addr Ha : ep_addr sample_announced = SocketV6 fe80_1 854 0 2).
      apply Hj; [vm_compute; reflexivity|exact waiting_router_room].
    + rewrite Ha in H. rewrite Ha. exact H.
Defined.
